(** * pyuvdata: MeasurementSet marshalling and frequency-axis bookkeeping

    A shallow embedding of the parts of [pyuvdata/ms_utils.py],
    [pyuvdata/uvcal/ms_cal.py] and [pyuvdata/utils/frequency.py] that the
    properties below are about.

    Conventions of the embedding.
    - Python [int] is [Z]; positions in arrays and antenna numbers used as
      row numbers are [nat].
    - Python/NumPy floating point values are exact rationals ([Q]); every
      comparison is made with [Qeq_bool]/[Qle_bool], so the representation
      of a rational never matters.  Rounding is outside the model.
    - [str] is [string]; a character is a code point below 256.
    - An ordered [dict] is an association list in insertion order.
    - A function that can raise returns a [result]; a function that can
      also warn returns a pair of the warnings issued (oldest first) and a
      [result]. *)

From Stdlib Require Import List ZArith QArith Qabs Qround Qminmax Bool Arith Lia.
From Stdlib Require Import String Ascii DecimalString.
From Stdlib Require Import Permutation Sorted.
Import ListNotations.

Set Implicit Arguments.

(* ===================================================================== *)
(** * Part I: the embedding                                               *)
(* ===================================================================== *)

(** ** Exceptions, warnings and the small monad that threads them *)

Module Py.

Inductive exception : Type :=
| ValueError (msg : string)
| NotImplementedError (msg : string)
| AssertionError (msg : string)
| FileNotFoundError (msg : string)
| FileExistsError (msg : string)
| IndexError (msg : string)
| TypeError (msg : string)
| AttributeError (msg : string).

Inductive result (A : Type) : Type :=
| Ok (a : A)
| Raise (e : exception).

Arguments Ok {A} a.
Arguments Raise {A} e.

(** Warnings issued so far, and either a value or the exception raised. *)
Definition W (A : Type) : Type := (list string * result A)%type.

Definition ret {A} (a : A) : W A := ([], Ok a).
Definition raise {A} (e : exception) : W A := ([], Raise e).
Definition warn (msg : string) : W unit := ([msg], Ok tt).

Definition bind {A B} (m : W A) (k : A -> W B) : W B :=
  match m with
  | (w, Ok a) => let (w', r) := k a in (w ++ w', r)
  | (w, Raise e) => (w, Raise e)
  end.

Definition lift {A} (r : result A) : W A := ([], r).

Definition rbind {A B} (m : result A) (k : A -> result B) : result B :=
  match m with
  | Ok a => k a
  | Raise e => Raise e
  end.

Definition when (b : bool) (m : W unit) : W unit := if b then m else ret tt.

(** [d[k] = v] on an ordered dict: an existing key keeps its place. *)
Fixpoint dict_set {K V} (eqb : K -> K -> bool) (d : list (K * V)) (k : K) (v : V)
  : list (K * V) :=
  match d with
  | [] => [(k, v)]
  | (k', v') :: d' =>
      if eqb k' k then (k', v) :: d' else (k', v') :: dict_set eqb d' k v
  end.

(** [d[k]]: [None] stands for [KeyError]. *)
Fixpoint dict_get {K V} (eqb : K -> K -> bool) (d : list (K * V)) (k : K)
  : option V :=
  match d with
  | [] => None
  | (k', v') :: d' => if eqb k' k then Some v' else dict_get eqb d' k
  end.

End Py.

Import Py.

Declare Scope py_scope.
Delimit Scope py_scope with py.
Notation "x <- m ;; k" := (bind m (fun x => k))
  (at level 61, m at next level, right associativity) : py_scope.
Notation "m ;;; k" := (bind m (fun _ => k))
  (at level 61, right associativity) : py_scope.
Notation "x <-r m ;; k" := (rbind m (fun x => k))
  (at level 61, m at next level, right associativity) : py_scope.

(** ** Python string operations *)

Module Str.

Open Scope string_scope.

Definition nl : string := String "010"%char "".

(** [needle in hay] for two strings. *)
Fixpoint contains (needle hay : string) : bool :=
  String.prefix needle hay ||
  match hay with
  | EmptyString => false
  | String _ hay' => contains needle hay'
  end.

(** The characters at which [str.splitlines] ends a line (below 256):
    LF, VT, FF, CR, FS, GS, RS and NEL. *)
Definition is_line_boundary (c : ascii) : bool :=
  match nat_of_ascii c with
  | 10%nat | 11%nat | 12%nat | 13%nat | 28%nat | 29%nat | 30%nat | 133%nat => true
  | _ => false
  end.

(** [s.splitlines()]: CR LF ends one line, and a final line end does not
    open an empty last line. *)
Fixpoint splitlines (s : string) : list string :=
  match s with
  | EmptyString => []
  | String c rest =>
      if is_line_boundary c then
        match rest with
        | String c' rest' =>
            if (Ascii.eqb c "013" && Ascii.eqb c' "010")%bool
            then EmptyString :: splitlines rest'
            else EmptyString :: splitlines rest
        | EmptyString => [EmptyString]
        end
      else
        match splitlines rest with
        | [] => [String c EmptyString]
        | l :: ls => String c l :: ls
        end
  end.

(** [s.split(sep)] for a separator of one character. *)
Fixpoint split (sep : ascii) (s : string) : list string :=
  match s with
  | EmptyString => [EmptyString]
  | String c rest =>
      if Ascii.eqb c sep then EmptyString :: split sep rest
      else
        match split sep rest with
        | [] => [String c EmptyString]
        | l :: ls => String c l :: ls
        end
  end.

(** [sep.join(parts)] *)
Fixpoint join (sep : string) (parts : list string) : string :=
  match parts with
  | [] => EmptyString
  | [x] => x
  | x :: rest => x ++ sep ++ join sep rest
  end.

(** [str(n)] for an [int]. *)
Definition of_int (n : Z) : string := NilEmpty.string_of_int (Z.to_int n).

(** [s.upper()] and [s.lower()] on the letters a-z and A-Z. *)
Definition upper_char (c : ascii) : ascii :=
  let n := nat_of_ascii c in
  if ((97 <=? n) && (n <=? 122))%nat then ascii_of_nat (n - 32) else c.

Definition lower_char (c : ascii) : ascii :=
  let n := nat_of_ascii c in
  if ((65 <=? n) && (n <=? 90))%nat then ascii_of_nat (n + 32) else c.

Fixpoint map_chars (f : ascii -> ascii) (s : string) : string :=
  match s with
  | EmptyString => EmptyString
  | String c rest => String (f c) (map_chars f rest)
  end.

Definition upper (s : string) : string := map_chars upper_char s.
Definition lower (s : string) : string := map_chars lower_char s.

(** [l.insert(i, x)] for a list: past the end it appends. *)
Fixpoint list_insert {A} (l : list A) (i : nat) (x : A) : list A :=
  match i, l with
  | O, _ => x :: l
  | S _, [] => [x]
  | S i', y :: l' => y :: list_insert l' i' x
  end.

(** [enumerate(l)] *)
Definition enumerate {A} (l : list A) : list (nat * A) :=
  combine (seq 0 (List.length l)) l.

(** Decimal readers used where a concrete parser is wanted: an optional
    sign and digits for [int], and digits, a point and digits for floats. *)
Definition digit_of (c : ascii) : option Z :=
  let n := nat_of_ascii c in
  if ((48 <=? n) && (n <=? 57))%nat then Some (Z.of_nat (n - 48)) else None.

Fixpoint digits_value (s : string) (acc : Z) : option Z :=
  match s with
  | EmptyString => Some acc
  | String c rest =>
      match digit_of c with
      | Some d => digits_value rest (10 * acc + d)%Z
      | None => None
      end
  end.

Definition dec_nat (s : string) : option Z :=
  match s with
  | EmptyString => None
  | _ => digits_value s 0%Z
  end.

Definition dec_int (s : string) : option Z :=
  match s with
  | String "-" rest => option_map Z.opp (dec_nat rest)
  | String "+" rest => dec_nat rest
  | _ => dec_nat s
  end.

Definition dec_float (s : string) : option Q :=
  match split "." s with
  | [whole] => option_map inject_Z (dec_int whole)
  | [whole; frac] =>
      match dec_int whole, dec_nat frac with
      | Some w, Some f =>
          let scale := Z.pow 10 (Z.of_nat (String.length frac)) in
          let mag := (Z.abs w * scale + f)%Z in
          Some (Qmake (if String.prefix "-" whole then - mag else mag)%Z (Z.to_pos scale))
      | _, _ => None
      end
  | _ => None
  end.

End Str.

(** ** NumPy helpers shared by the modules *)

Module Np.

(** [np.isclose(a, b, rtol, atol)]: |a - b| <= atol + rtol * |b|. *)
Definition isclose (a b rtol atol : Q) : bool :=
  Qle_bool (Qabs (a - b)) (atol + rtol * Qabs b).

(** [np.arange(n)] *)
Definition arange (n : nat) : list nat := seq 0 n.

(** [np.where(mask)[0]]: the positions at which [mask] is true. *)
Fixpoint where_from (i : nat) (mask : list bool) : list nat :=
  match mask with
  | [] => []
  | b :: m => if b then i :: where_from (S i) m else where_from (S i) m
  end.

Definition where_ (mask : list bool) : list nat := where_from 0 mask.

(** Python's [any] over a sequence of booleans. *)
Definition any (mask : list bool) : bool := existsb (fun b => b) mask.

(** Python's [all] / [np.all]. *)
Definition all (mask : list bool) : bool := forallb (fun b => b) mask.

(** [np.tile(a, reps)] and [np.repeat(a, n)] on one-dimensional arrays. *)
Fixpoint tile {A} (a : list A) (reps : nat) : list A :=
  match reps with
  | O => []
  | S r => a ++ tile a r
  end.

Definition repeat_each {A} (a : list A) (n : nat) : list A :=
  flat_map (fun x => repeat x n) a.

(** [np.max] of a non-empty array of row numbers. *)
Definition max (a : list nat) : result nat :=
  match a with
  | [] => Raise (ValueError "zero-size array to reduction operation maximum which has no identity")
  | x :: l => Ok (fold_left Nat.max l x)
  end.

(** [np.unique]: the sorted distinct values, by insertion. *)
Section Unique.
Variable A : Type.
Variable eqb ltb : A -> A -> bool.

Fixpoint insert_uniq (x : A) (l : list A) : list A :=
  match l with
  | [] => [x]
  | y :: l' =>
      if eqb x y then y :: l'
      else if ltb x y then x :: y :: l'
      else y :: insert_uniq x l'
  end.

Definition unique_by (l : list A) : list A := fold_right insert_uniq [] l.
End Unique.

Definition Qlt_bool (a b : Q) : bool := negb (Qle_bool b a).

Definition unique (l : list Z) : list Z := unique_by Z.eqb Z.ltb l.
Definition unique_Q (l : list Q) : list Q := unique_by Qeq_bool Qlt_bool l.

(** Python's [sorted(set(l))] for a list of integers. *)
Definition sorted_set (l : list Z) : list Z := unique_by Z.eqb Z.ltb l.

(** [np.nonzero(mask)[0]] *)
Definition nonzero (mask : list bool) : list Z := map Z.of_nat (where_ mask).

(** [a[mask]] for a boolean mask of the length of [a]. *)
Definition mask_select {A} (mask : list bool) (a : list A) : list A :=
  map snd (filter fst (combine mask a)).

(** [a[i] = x] for a position within [a]. *)
Fixpoint set_nth {A} (l : list A) (i : nat) (x : A) : list A :=
  match l, i with
  | [], _ => []
  | _ :: l', O => x :: l'
  | y :: l', S i' => y :: set_nth l' i' x
  end.

(** [a[mask]] when the mask may have another length than [a]. *)
Definition mask_get {A} (mask : list bool) (a : list A) : result (list A) :=
  if (List.length mask =? List.length a)%nat then Ok (mask_select mask a)
  else Raise (IndexError "boolean index did not match indexed array").

(** [a[idx]] for an array of positions. *)
Fixpoint take {A} (a : list A) (idx : list nat) : result (list A) :=
  match idx with
  | [] => Ok []
  | i :: rest =>
      match nth_error a i with
      | Some x => (xs <-r take a rest ;; Ok (x :: xs))%py
      | None => Raise (IndexError "index is out of bounds")
      end
  end.

(** [a[mask] = values], with as many values as the mask selects. *)
Fixpoint mask_assign {A} (mask : list bool) (a values : list A) : list A :=
  match mask, a with
  | true :: m, x :: a' =>
      match values with
      | v :: vs => v :: mask_assign m a' vs
      | [] => x :: a'
      end
  | false :: m, x :: a' => x :: mask_assign m a' values
  | _, _ => a
  end.

(** [np.sum(mask)] *)
Definition count_true (mask : list bool) : nat := List.length (filter (fun b => b) mask).

(** [np.diff(a)] *)
Fixpoint diff (a : list Q) : list Q :=
  match a with
  | x :: ((y :: _) as rest) => (y - x) :: diff rest
  | _ => []
  end.

(** [np.mean(a)]; [None] is the nan of an empty array. *)
Definition mean (a : list Q) : option Q :=
  match a with
  | [] => None
  | _ => Some (fold_left Qplus a 0 / inject_Z (Z.of_nat (List.length a)))
  end.

(** [np.allclose(a, b, rtol, atol)] against one value; nothing is close
    to nan. *)
Definition allclose (a : list Q) (b : option Q) (rtol atol : Q) : bool :=
  match b with
  | Some b => forallb (fun x => isclose x b rtol atol) a
  | None => match a with [] => true | _ => false end
  end.

(** [np.argsort(keys)], by stable insertion. *)
Section Argsort.
Variable K : Type.
Variable leb : K -> K -> bool.

Fixpoint insert_key (x : K * nat) (l : list (K * nat)) : list (K * nat) :=
  match l with
  | [] => [x]
  | y :: l' => if leb (fst x) (fst y) then x :: y :: l' else y :: insert_key x l'
  end.

Definition sort_keys (keys : list K) : list (K * nat) :=
  fold_right insert_key [] (combine keys (seq 0 (List.length keys))).

Definition argsort_by (keys : list K) : list nat := map snd (sort_keys keys).
Definition sort_by (keys : list K) : list K := map fst (sort_keys keys).
End Argsort.

(** The order of floats in which nan ([None]) comes last. *)
Definition nan_last_leb (a b : option Q) : bool :=
  match a, b with
  | Some x, Some y => Qle_bool x y
  | Some _, None => true
  | None, Some _ => false
  | None, None => true
  end.

(** [np.median(a)] *)
Definition median (a : list Q) : option Q :=
  let sorted := sort_by Qle_bool a in
  let n := List.length sorted in
  match n with
  | O => None
  | _ =>
      if Nat.even n
      then Some ((nth (n / 2 - 1) sorted 0 + nth (n / 2) sorted 0) / 2)
      else Some (nth (n / 2) sorted 0)
  end.

(** [np.isin(element, test_elements, invert=invert)] *)
Definition isin (element test_elements : list Z) (invert : bool) : list bool :=
  map (fun x => xorb invert (existsb (Z.eqb x) test_elements)) element.

(** [np.intersect1d(a, b)] *)
Definition intersect1d (a b : list Z) : list Z :=
  unique (filter (fun x => existsb (Z.eqb x) b) a).

(** [a[idx]] for integer indices: a negative index counts from the end. *)
Fixpoint take_int {A} (a : list A) (idx : list Z) : result (list A) :=
  match idx with
  | [] => Ok []
  | i :: rest =>
      let n := Z.of_nat (List.length a) in
      let pos := if (i <? 0)%Z then (i + n)%Z else i in
      if ((pos <? 0) || (n <=? pos))%Z then Raise (IndexError "index is out of bounds")
      else
        match nth_error a (Z.to_nat pos) with
        | Some x => (xs <-r take_int a rest ;; Ok (x :: xs))%py
        | None => Raise (IndexError "index is out of bounds")
        end
  end.

(** [np.all(a[1:] > a[:-1])] *)
Fixpoint strictly_increasing (a : list nat) : bool :=
  match a with
  | x :: ((y :: _) as rest) => (x <? y)%nat && strictly_increasing rest
  | _ => true
  end.

End Np.

(** ** [pyuvdata/ms_utils.py]: the coordinate frame translator *)

Module MsUtils.

Open Scope string_scope.

(** A sky frame as pyuvdata names it: frame name and epoch in years. *)
Definition frame_ref : Type := (string * Q)%type.

(** [COORD_PYUVDATA2CASA_DICT], in the order of the source. *)
Definition COORD_PYUVDATA2CASA_DICT : list (string * option frame_ref) :=
  [ ("J2000", Some ("fk5", 2000%Q));
    ("JNAT", None);
    ("JMEAN", None);
    ("JTRUE", None);
    ("APP", Some ("gcrs", 2000%Q));
    ("B1950", Some ("fk4", 1950%Q));
    ("B1950_VLA", Some ("fk4", 1979%Q));
    ("BMEAN", None);
    ("BTRUE", None);
    ("GALACTIC", None);
    ("HADEC", None);
    ("AZEL", None);
    ("AZELSW", None);
    ("AZELNE", None);
    ("AZELGEO", None);
    ("AZELSWGEO", None);
    ("AZELNEGEO", None);
    ("ECLIPTIC", None);
    ("MECLIPTIC", None);
    ("TECLIPTIC", None);
    ("SUPERGAL", None);
    ("ITRF", None);
    ("TOPO", None);
    ("ICRS", Some ("icrs", 2000%Q)) ].

(** Equality of the values of the table when they are used as keys:
    [None == None], and tuples are compared component by component. *)
Definition frame_ref_eqb (a b : frame_ref) : bool :=
  String.eqb (fst a) (fst b) && Qeq_bool (snd a) (snd b).

Definition ref_key_eqb (a b : option frame_ref) : bool :=
  match a, b with
  | None, None => true
  | Some x, Some y => frame_ref_eqb x y
  | _, _ => false
  end.

(** [{ref: key for key, ref in COORD_PYUVDATA2CASA_DICT.items()}] *)
Definition reverse_dict : list (option frame_ref * string) :=
  fold_left (fun d kv => dict_set ref_key_eqb d (snd kv) (fst kv))
            COORD_PYUVDATA2CASA_DICT [].

Definition no_match_message (frame_name : string) : string :=
  "Frame " ++ frame_name ++
  " does not have a corresponding match to supported frames in the MS file format.".

(** [_parse_pyuvdata_frame_ref(frame_name, epoch_val, raise_error=...)].
    The message leaves out the formatted epoch. *)
Definition _parse_pyuvdata_frame_ref
  (frame_name : string) (epoch_val : option Q) (raise_error : bool)
  : W (option string) :=
  let key := (frame_name, match epoch_val with None => 2000%Q | Some e => e end) in
  match dict_get ref_key_eqb reverse_dict (Some key) with
  | Some ref_name => ret (Some ref_name)
  | None =>
      let message := no_match_message frame_name in
      if raise_error then raise (ValueError message)
      else (warn message ;;; ret None)%py
  end.

(** [_parse_casa_frame_ref(ref_name, raise_error=...)] *)
Definition _parse_casa_frame_ref (ref_name : string) (raise_error : bool)
  : W (option string * option Q) :=
  match dict_get String.eqb COORD_PYUVDATA2CASA_DICT ref_name with
  | Some None =>
      let message := "Support for the " ++ ref_name ++ " frame is not yet supported." in
      if raise_error then raise (NotImplementedError message)
      else (warn message ;;; ret (None, None))%py
  | Some (Some frame_tuple) =>
      ret (Some (fst frame_tuple), Some (snd frame_tuple))
  | None =>
      let message := "The coordinate frame " ++ ref_name ++
                     " is not one of the supported frames for measurement sets." in
      if raise_error then raise (ValueError message)
      else (warn message ;;; ret (None, None))%py
  end.

(** The supported set: the non-[None] values of the table. *)
Definition supported_frames : list frame_ref :=
  flat_map (fun kv => match snd kv with Some p => [p] | None => [] end)
           COORD_PYUVDATA2CASA_DICT.

(** *** The ANTENNA table *)

Definition vec3 : Type := (Q * Q * Q)%type.

Definition vec3_add (a b : vec3) : vec3 :=
  let '(ax, ay, az) := a in let '(bx, b_y, bz) := b in
  (ax + bx, ay + b_y, az + bz)%Q.

Definition vec3_zero : vec3 := (0, 0, 0)%Q.

(** [np.any(row)]: some component is not zero. *)
Definition vec3_any (a : vec3) : bool :=
  let '(ax, ay, az) := a in
  negb (Qeq_bool ax 0) || negb (Qeq_bool ay 0) || negb (Qeq_bool az 0).

(** The columns of the ANTENNA table that are read and written, and the
    [Ref] entry of the MEASINFO keyword of POSITION. *)
Record antenna_table : Type := {
  NAME : list string;
  STATION : list string;
  POSITION : list vec3;
  DISH_DIAMETER : list Q;
  MEASINFO_Ref : string
}.

(** [for ai, num in enumerate(antenna_numbers): table[num] = values[ai]] *)
Fixpoint scatter {A} (table : list A) (antenna_numbers : list nat) (values : list A)
  : result (list A) :=
  match antenna_numbers with
  | [] => Ok table
  | num :: nums =>
      match values with
      | [] => Raise (IndexError "list index out of range")
      | v :: vs =>
          if (num <? List.length table)%nat
          then scatter (Np.set_nth table num v) nums vs
          else Raise (IndexError "list assignment index out of range")
      end
  end.

(** [write_ms_antenna] with the antenna metadata given by keyword, for a
    [filepath] that passes [_ms_utils_call_checks]: the table written. *)
Definition write_ms_antenna
  (antenna_numbers : list nat) (antenna_names : list string)
  (antenna_positions : list vec3) (antenna_diameters : option (list Q))
  (telescope_location : vec3) (telescope_frame : string)
  : result antenna_table :=
  (max_num <-r Np.max antenna_numbers ;;
   let nants_table := (max_num + 1)%nat in
   (* antenna_table.addrows(nants_table) *)
   ant_names_table <-r scatter (repeat "" nants_table) antenna_numbers antenna_names ;;
   let ant_pos_absolute :=
     map (fun p => vec3_add p telescope_location) antenna_positions in
   ant_pos_table <-r
     scatter (repeat vec3_zero nants_table) antenna_numbers ant_pos_absolute ;;
   ant_diam_table <-r
     match antenna_diameters with
     | None => Ok (repeat 0%Q nants_table)
     | Some diameters =>
         if (List.length (Np.unique_Q diameters) =? 1)%nat then
           match diameters with
           | d :: _ => Ok (repeat d nants_table)
           | [] => Raise (IndexError "index 0 is out of bounds")
           end
         else scatter (repeat 0%Q nants_table) antenna_numbers diameters
     end ;;
   let telescope_frame := Str.upper telescope_frame in
   let telescope_frame :=
     if String.eqb telescope_frame "ITRS" then "ITRF" else telescope_frame in
   Ok {| NAME := ant_names_table;
         STATION := ant_names_table;
         POSITION := ant_pos_table;
         DISH_DIAMETER := ant_diam_table;
         MEASINFO_Ref := telescope_frame |})%py.

(** The dict [read_ms_ant] returns. *)
Record ant_dict : Type := {
  antenna_positions : list vec3;
  antenna_numbers : list nat;
  telescope_frame : string;
  antenna_names : list string;
  station_names : list string;
  antenna_diameters : list Q
}.

(** [read_ms_ant(filepath, check_frame)]; [None] for the table means
    that [filepath/ANTENNA] is no table. *)
Definition read_ms_ant (tb : option antenna_table) (check_frame : bool)
  : result ant_dict :=
  match tb with
  | None => Raise (FileNotFoundError "ANTENNA not found or not recognized as an MS table.")
  | Some tb_ant =>
      let antenna_positions := tb_ant.(POSITION) in
      let telescope_frame := Str.lower tb_ant.(MEASINFO_Ref) in
      (telescope_frame <-r
         (if check_frame then
            if negb (existsb (String.eqb telescope_frame) ["itrs"; "mcmf"; "itrf"])
            then Raise (ValueError "Only 'itrs' and 'mcmf' are currently supported.")
            else if String.eqb telescope_frame "itrf" then Ok "itrs"
            else Ok telescope_frame
          else Ok telescope_frame) ;;
       let n_ants_table := List.length antenna_positions in
       let good_mask := map vec3_any antenna_positions in
       Ok {| antenna_positions := Np.mask_select good_mask antenna_positions;
             antenna_numbers := Np.mask_select good_mask (Np.arange n_ants_table);
             telescope_frame := telescope_frame;
             antenna_names := Np.mask_select good_mask tb_ant.(NAME);
             station_names := Np.mask_select good_mask tb_ant.(STATION);
             antenna_diameters := Np.mask_select good_mask tb_ant.(DISH_DIAMETER) |})%py
  end.

(** *** The HISTORY table *)

(** One row of the HISTORY table. *)
Record history_row : Type := {
  APP_PARAMS : string;
  CLI_COMMAND : string;
  APPLICATION : string;
  MESSAGE : string;
  OBJECT_ID : Z;
  OBSERVATION_ID : Z;
  ORIGIN : string;
  PRIORITY : string;
  TIME : Q
}.

(** A HISTORY table as [read_ms_hist] sees it: its rows, and whether the
    columns APP_PARAMS and CLI_COMMAND can be read ([getcol] raises
    [RuntimeError] otherwise). *)
Record history_table : Type := {
  has_app_params : bool;
  has_cli_command : bool;
  table_rows : list history_row
}.

Definition ms_header : string := "APP_PARAMS;CLI_COMMAND;APPLICATION;MESSAGE".

Section History.

(** [int(s)] and [np.float64(s)] on a string ([None]: [ValueError]),
    [str(x)] on a float, the value of [Time.now().mjd * 3600.0 * 24.0] at
    its k-th evaluation within one call, and
    [uvutils._check_history_version], which is not part of these sources. *)
Variable py_int : string -> option Z.
Variable np_float64 : string -> option Q.
Variable str_float : Q -> string.
Variable now : nat -> Q.
Variable _check_history_version : string -> string -> bool.

(** The row every line of pyuvdata's own history becomes. *)
Definition pyuvdata_row (line : string) (time : Q) : history_row :=
  {| APP_PARAMS := "";
     CLI_COMMAND := "";
     APPLICATION := "pyuvdata";
     MESSAGE := line;
     OBJECT_ID := 0;
     OBSERVATION_ID := -1;
     ORIGIN := "pyuvdata";
     PRIORITY := "INFO";
     TIME := time |}.

(** The variables of the loop of [write_ms_history] over
    [history.splitlines()].  The nine column lists of the source grow
    together, so they are one list of rows. *)
Record history_state : Type := {
  ms_history : bool;
  ms_header_line_no : option nat;
  ms_end_line_no : option nat;
  pre_ms_history_lines : list string;
  post_ms_history_lines : list string;
  rows : list history_row
}.

Definition parse_failure_warning : string :=
  "Failed to parse prior history of MS file, switching to standard recording method.".

(** The nine fields of a line of the block, as a row. *)
Definition parse_row (line_parts : list string) : result history_row :=
  match line_parts with
  | [p0; p1; p2; p3; p4; p5; p6; p7; p8] =>
      match py_int p4, py_int p5, np_float64 p8 with
      | Some obj, Some obs, Some t =>
          Ok {| APP_PARAMS := p0; CLI_COMMAND := p1; APPLICATION := p2;
                MESSAGE := p3; OBJECT_ID := obj; OBSERVATION_ID := obs;
                ORIGIN := p6; PRIORITY := p7; TIME := t |}
      | None, _, _ | _, None, _ => Raise (ValueError "invalid literal for int()")
      | _, _, None => Raise (ValueError "could not convert string to float")
      end
  | _ => Raise (IndexError "list index out of range")
  end.

(** One iteration of the loop. *)
Definition history_step (st : history_state) (entry : nat * string)
  : W history_state :=
  let (line_no, line) := entry in
  if negb st.(ms_history) then ret st
  else if Str.contains ms_header line then
    ret {| ms_history := st.(ms_history);
           ms_header_line_no := Some line_no;
           ms_end_line_no := st.(ms_end_line_no);
           pre_ms_history_lines := st.(pre_ms_history_lines);
           post_ms_history_lines := st.(post_ms_history_lines);
           rows := st.(rows) |}
  else if Str.contains "End measurement set history" line then
    ret {| ms_history := st.(ms_history);
           ms_header_line_no := st.(ms_header_line_no);
           ms_end_line_no := Some line_no;
           pre_ms_history_lines := st.(pre_ms_history_lines);
           post_ms_history_lines := st.(post_ms_history_lines);
           rows := st.(rows) |}
  else
    match st.(ms_header_line_no), st.(ms_end_line_no) with
    | Some _, None =>
        let line_parts := Str.split ";" line in
        if negb (List.length line_parts =? 9)%nat then
          (warn parse_failure_warning ;;;
           ret {| ms_history := false;
                  ms_header_line_no := st.(ms_header_line_no);
                  ms_end_line_no := st.(ms_end_line_no);
                  pre_ms_history_lines := [];
                  post_ms_history_lines := [];
                  rows := st.(rows) |})%py
        else
          (row <- lift (parse_row line_parts) ;;
           ret {| ms_history := st.(ms_history);
                  ms_header_line_no := st.(ms_header_line_no);
                  ms_end_line_no := st.(ms_end_line_no);
                  pre_ms_history_lines := st.(pre_ms_history_lines);
                  post_ms_history_lines := st.(post_ms_history_lines);
                  rows := st.(rows) ++ [row] |})%py
    | None, _ =>
        ret {| ms_history := st.(ms_history);
               ms_header_line_no := st.(ms_header_line_no);
               ms_end_line_no := st.(ms_end_line_no);
               pre_ms_history_lines :=
                 if negb (Str.contains "Begin measurement set history" line)
                 then st.(pre_ms_history_lines) ++ [line]
                 else st.(pre_ms_history_lines);
               post_ms_history_lines := st.(post_ms_history_lines);
               rows := st.(rows) |}
    | Some _, Some _ =>
        ret {| ms_history := st.(ms_history);
               ms_header_line_no := st.(ms_header_line_no);
               ms_end_line_no := st.(ms_end_line_no);
               pre_ms_history_lines := st.(pre_ms_history_lines);
               post_ms_history_lines := st.(post_ms_history_lines) ++ [line];
               rows := st.(rows) |}
    end.

Fixpoint history_loop (st : history_state) (entries : list (nat * string))
  : W history_state :=
  match entries with
  | [] => ret st
  | e :: rest => (st' <- history_step st e ;; history_loop st' rest)%py
  end.

(** [write_ms_history(filepath, history)], for a [filepath] that passes
    [_ms_utils_call_checks]: the values handed to [putcol], row by row.
    APP_PARAMS and CLI_COMMAND are handed over as arrays of shape
    (nrows, 1); what casacore stores of them is not modelled. *)
Definition write_ms_history (history : string) : W (list history_row) :=
  let init := {| ms_history := Str.contains ms_header history;
                 ms_header_line_no := None;
                 ms_end_line_no := None;
                 pre_ms_history_lines := [];
                 post_ms_history_lines := [];
                 rows := [] |} in
  (st <- (if init.(ms_history)
          then history_loop init (Str.enumerate (Str.splitlines history))
          else ret init) ;;
   let pre := st.(pre_ms_history_lines) in
   let post := st.(post_ms_history_lines) in
   let rows1 :=
     if init.(ms_history) then
       let with_pre :=
         fold_left (fun acc e => Str.list_insert acc (fst e)
                                   (pyuvdata_row (snd e) (now (fst e))))
                   (Str.enumerate pre) st.(rows) in
       (with_pre ++
        map (fun e => pyuvdata_row (snd e) (now (List.length pre + fst e)))
            (Str.enumerate post))%list
     else st.(rows) in
   let clock := if init.(ms_history)
                then (List.length pre + List.length post)%nat else 0%nat in
   let rows2 :=
     if negb st.(ms_history) then
       (rows1 ++
        map (fun e => pyuvdata_row (snd e) (now (clock + fst e)))
            (Str.enumerate (Str.splitlines history)))%list
     else rows1 in
   ret rows2)%py.

(** The cells of one row in the order of [cols], each through [str]. *)
Definition row_cells (tb : history_table) (r : history_row) : list string :=
  ((if tb.(has_app_params) then [r.(APP_PARAMS)] else []) ++
   (if tb.(has_cli_command) then [r.(CLI_COMMAND)] else []) ++
   [ r.(APPLICATION); r.(MESSAGE); Str.of_int r.(OBJECT_ID);
     Str.of_int r.(OBSERVATION_ID); r.(ORIGIN); r.(PRIORITY);
     str_float r.(TIME) ])%list.

Definition is_pyuvdata_row (r : history_row) : bool :=
  Str.contains "pyuvdata" r.(APPLICATION).

(** The history string of [read_ms_hist] before the version check, and
    [pyuvdata_written]. *)
Definition assemble_history (tb : history_table) : string * bool :=
  let all_rows := tb.(table_rows) in
  match all_rows with
  | [] => ("", false)
  | _ =>
      let header :=
        "Begin measurement set history" ++ Str.nl ++
        (if tb.(has_app_params) then "APP_PARAMS;" else "") ++
        (if tb.(has_cli_command) then "CLI_COMMAND;" else "") ++
        "APPLICATION;MESSAGE;OBJECT_ID;OBSERVATION_ID;ORIGIN;PRIORITY;TIME" ++ Str.nl in
      let pyuvdata_line_idx :=
        map fst (filter (fun e => is_pyuvdata_row (snd e)) (Str.enumerate all_rows)) in
      let body :=
        fold_left (fun acc r =>
                     if is_pyuvdata_row r then acc
                     else acc ++ Str.join ";" (row_cells tb r) ++ Str.nl)
                  all_rows header in
      let history_str := body ++ "End measurement set history." ++ Str.nl in
      let ms_line_idx :=
        map (fun e => Z.of_nat (fst e))
            (filter (fun e => negb (is_pyuvdata_row (snd e))) (Str.enumerate all_rows)) in
      let ms_line_idx := match ms_line_idx with [] => [(-1)%Z] | _ => ms_line_idx end in
      let first_ms := fold_left Z.min ms_line_idx (hd 0%Z ms_line_idx) in
      let history_str :=
        fold_left (fun acc idx =>
                     let message := MESSAGE (nth idx all_rows (pyuvdata_row "" 0)) in
                     if (Z.of_nat idx <? first_ms)%Z
                     then message ++ Str.nl ++ acc
                     else acc ++ message ++ Str.nl)
                  pyuvdata_line_idx history_str in
      (history_str, negb (Nat.eqb (List.length pyuvdata_line_idx) 0))
  end.

(** [read_ms_hist(filepath, pyuvdata_version_str, check_origin)];
    [None] for the table means that [filepath/HISTORY] is no table. *)
Definition read_ms_hist (tb : option history_table)
  (pyuvdata_version_str : string) (check_origin : bool)
  : result (string * option bool) :=
  match tb with
  | None => Raise (FileNotFoundError "HISTORY not found or not recognized as an MS table.")
  | Some tb =>
      let (history_str, pyuvdata_written) := assemble_history tb in
      let history_str :=
        if negb (_check_history_version history_str pyuvdata_version_str)
        then history_str ++ pyuvdata_version_str
        else history_str in
      if check_origin then Ok (history_str, Some pyuvdata_written)
      else Ok (history_str, None)
  end.

End History.

(** A history whose structured block has one well-formed row followed by
    a line of a single field. *)
Definition mangled_history : string :=
  Str.join Str.nl
    [ "Begin measurement set history";
      "APP_PARAMS;CLI_COMMAND;APPLICATION;MESSAGE;OBJECT_ID;OBSERVATION_ID;ORIGIN;PRIORITY;TIME";
      ";;casa;imported;0;0;importuvfits;INFO;1.5";
      "garbled line";
      "End measurement set history." ] ++ Str.nl.

(** [str(x)] for a float of integral value, as in "5000000000.0". *)
Definition str_whole_float (x : Q) : string := Str.of_int (Qfloor x) ++ ".0".

(** Modelled from the spec: [uvutils._check_history_version] is not part
    of these sources.  The reader's result is a "history containing the
    software version": the check holds when the version string occurs in
    the history. *)
Definition contains_version (history version_string : string) : bool :=
  Str.contains version_string history.

(** A HISTORY table of one foreign row between two rows of pyuvdata. *)
Definition casa_history_table : history_table :=
  {| has_app_params := true;
     has_cli_command := true;
     table_rows :=
       [ {| APP_PARAMS := ""; CLI_COMMAND := ""; APPLICATION := "pyuvdata";
            MESSAGE := "Read with pyuvdata."; OBJECT_ID := 0; OBSERVATION_ID := -1;
            ORIGIN := "pyuvdata"; PRIORITY := "INFO"; TIME := 5000000000 # 1 |};
         {| APP_PARAMS := "vis=x.uvfits"; CLI_COMMAND := "importuvfits";
            APPLICATION := "casa"; MESSAGE := "imported"; OBJECT_ID := 0;
            OBSERVATION_ID := 0; ORIGIN := "importuvfits"; PRIORITY := "INFO";
            TIME := 5000000001 # 1 |};
         {| APP_PARAMS := ""; CLI_COMMAND := ""; APPLICATION := "pyuvdata";
            MESSAGE := "Written with pyuvdata."; OBJECT_ID := 0; OBSERVATION_ID := -1;
            ORIGIN := "pyuvdata"; PRIORITY := "INFO"; TIME := 5000000002 # 1 |} ] |}.

Definition version_str : string := "  Read/written with pyuvdata version: 3.0.".

(** A clock: MJD seconds that advance by one at every reading. *)
Definition test_clock (k : nat) : Q := inject_Z (5000000000 + Z.of_nat k).

End MsUtils.

(** ** [pyuvdata/uvcal/ms_cal.py]: the calibration main table *)

Module MsCal.

Open Scope string_scope.

(** *** Reading: the deduplicated time index of [read_ms_cal] *)

(** The state of the loop over [tb_main.getcol("TIME")]: [time_dict] (keys
    in insertion order), [row_timeidx_map] and [time_count]. *)
Record time_index_state : Type := {
  time_dict : list (Q * nat);
  row_timeidx_map : list nat;
  time_count : nat
}.

(** One iteration of the loop, for the raw timestamp [time].  [tols] is
    [self._time_array.tols], in days; the table stores seconds. *)
Definition time_index_step (tols : Q * Q) (st : time_index_state) (time : Q)
  : time_index_state :=
  match dict_get Qeq_bool st.(time_dict) time with
  | Some idx =>
      {| time_dict := st.(time_dict);
         row_timeidx_map := st.(row_timeidx_map) ++ [idx];
         time_count := st.(time_count) |}
  | None =>
      let close_check :=
        map (fun seen => Np.isclose seen time (fst tols * 86400) (snd tols * 86400))
            (map fst st.(time_dict)) in
      if Np.any close_check then
        (* time_dict[time] = np.where(close_check)[0][0] *)
        let v := hd 0%nat (Np.where_ close_check) in
        {| time_dict := dict_set Qeq_bool st.(time_dict) time v;
           row_timeidx_map := st.(row_timeidx_map) ++ [v];
           time_count := st.(time_count) |}
      else
        {| time_dict := dict_set Qeq_bool st.(time_dict) time st.(time_count);
           row_timeidx_map := st.(row_timeidx_map) ++ [st.(time_count)];
           time_count := S st.(time_count) |}
  end.

Definition time_index_init : time_index_state :=
  {| time_dict := []; row_timeidx_map := []; time_count := 0 |}.

(** The whole loop; [Ntimes] is the final [time_count]. *)
Definition build_time_index (tols : Q * Q) (times : list Q) : time_index_state :=
  fold_left (time_index_step tols) times time_index_init.

Definition Ntimes_read (tols : Q * Q) (times : list Q) : nat :=
  (build_time_index tols times).(time_count).

(** *** Writing: the row layout of [write_ms_cal] *)

(** The attributes of the calibration object that decide the rows. *)
Record UVCal : Type := {
  cal_type : string;
  wide_band : bool;
  Ntimes : nat;
  Nfreqs : nat;
  Nspws : nat;
  antenna_numbers : list nat;
  antenna_names : list string;
  ref_antenna_name : string;
  time_array : list Q;            (* JD, UTC *)
  integration_time : list Q;
  scan_number_array : option (list Z);
  phase_center_id_array : option (list Z);
  phase_center_catalog : list Z   (* the keys, in order *)
}.

(** What [write_ms_cal] asks of the main table: the rows added up front,
    the flat per-row columns handed to [putcol], and for every spectral
    window the row range ([startrow], [nrow]) of its [putcol] of the
    solution cells.  The cells themselves are not modelled, and neither
    is what casacore does with a column whose length is not the number
    of rows added. *)
Record main_table_layout : Type := {
  rows_added : nat;
  TIME : list Q;
  FIELD_ID : list Z;
  SPECTRAL_WINDOW_ID : list nat;
  ANTENNA1 : list nat;
  ANTENNA2 : list nat;
  INTERVAL : list Q;
  SCAN_NUMBER : list Z;
  OBSERVATION_ID : list nat;
  spw_segments : list (nat * nat)
}.

(** [antenna_names.index(name)] *)
Fixpoint list_index (name : string) (names : list string) : result nat :=
  match names with
  | [] => Raise (ValueError "name is not in list")
  | n :: rest =>
      if String.eqb n name then Ok 0%nat
      else (i <-r list_index name rest ;; Ok (S i))%py
  end.

Definition getitem {A} (l : list A) (i : nat) : result A :=
  match nth_error l i with
  | Some x => Ok x
  | None => Raise (IndexError "index out of bounds")
  end.

(** [Time(jd, format="jd", scale="utc").mjd * 86400.0] *)
Definition jd_to_mjd_seconds (jd : Q) : Q := (jd - 24000005 / 10) * 86400.

(** The row number in FIELD of every entry of [phase_center_id_array]. *)
Definition field_id_of (catalog : list Z) (cat_id : Z) : Z :=
  fold_left (fun acc ik => if Z.eqb cat_id (snd ik) then Z.of_nat (fst ik) else acc)
            (combine (seq 0 (List.length catalog)) catalog) 0%Z.

(** [Nants_casa = np.max(self.antenna_numbers) + 1] *)
Definition Nants_casa (cal : UVCal) : result nat :=
  (m <-r Np.max cal.(antenna_numbers) ;; Ok (m + 1)%nat)%py.

(** The row budget of the layout: one row per (spectral window, time,
    padded antenna). *)
Definition row_budget (cal : UVCal) : result nat :=
  (n <-r Nants_casa cal ;; Ok (cal.(Ntimes) * cal.(Nspws) * n)%nat)%py.

(** [write_ms_cal(filename, clobber)], up to the main table;
    [file_exists] is whether [filename] exists already. *)
Definition write_ms_cal (cal : UVCal) (file_exists clobber : bool)
  : result main_table_layout :=
  if file_exists && negb clobber then
    Raise (FileExistsError "File already exists, must set clobber=True to proceed.")
  else if negb (String.eqb cal.(cal_type) "gain") then
    Raise (NotImplementedError "Sorry, still working on this...")
  else
    (let time_array := map jd_to_mjd_seconds cal.(time_array) in
     Nants_casa <-r Nants_casa cal ;;
     (* ms.addrows(self.Ntimes * self.Nfreqs * Nants_casa) *)
     let rows := (cal.(Ntimes) * cal.(Nfreqs) * Nants_casa)%nat in
     let ant_array := Np.tile (Np.arange Nants_casa) (cal.(Ntimes) * cal.(Nspws)) in
     ref_idx <-r list_index cal.(ref_antenna_name) cal.(antenna_names) ;;
     refant <-r getitem cal.(antenna_numbers) ref_idx ;;
     let refant_array := map (fun _ => refant) ant_array in
     let interval_arr :=
       Np.tile (Np.repeat_each cal.(integration_time) Nants_casa) cal.(Nspws) in
     let time_array := Np.tile (Np.repeat_each time_array Nants_casa) cal.(Nspws) in
     let scan_number_array :=
       match cal.(scan_number_array) with
       | None => map (fun _ => 0%Z) time_array
       | Some sn => Np.tile (Np.repeat_each sn Nants_casa) cal.(Nspws)
       end in
     let field_ids :=
       match cal.(phase_center_id_array) with
       | None => map (fun _ => 0%Z) time_array
       | Some ids =>
           Np.tile (Np.repeat_each (map (field_id_of cal.(phase_center_catalog)) ids)
                                   Nants_casa) cal.(Nspws)
       end in
     let spw_id_array :=
       Np.repeat_each (Np.arange cal.(Nspws)) (Nants_casa * cal.(Ntimes)) in
     let obs_id_array := map (fun _ => 0%nat) spw_id_array in
     Ok {| rows_added := rows;
           TIME := time_array;
           FIELD_ID := field_ids;
           SPECTRAL_WINDOW_ID := spw_id_array;
           ANTENNA1 := ant_array;
           ANTENNA2 := refant_array;
           INTERVAL := interval_arr;
           SCAN_NUMBER := scan_number_array;
           OBSERVATION_ID := obs_id_array;
           spw_segments :=
             map (fun count => (count * (Nants_casa * cal.(Ntimes)),
                                Nants_casa * cal.(Ntimes))%nat)
                 (seq 0 cal.(Nspws)) |})%py.

(** A bandpass solution: one time, one spectral window of two channels,
    one antenna. *)
Definition bandpass_cal : UVCal :=
  {| cal_type := "gain";
     wide_band := false;
     Ntimes := 1;
     Nfreqs := 2;
     Nspws := 1;
     antenna_numbers := [0%nat];
     antenna_names := ["ant0"];
     ref_antenna_name := "ant0";
     time_array := [2460000 # 1];
     integration_time := [10 # 1];
     scan_number_array := None;
     phase_center_id_array := None;
     phase_center_catalog := [] |}.

(** Four raw timestamps (seconds): two pairs, each 0.1 microseconds apart. *)
Definition raw_times : list Q :=
  [100 # 1; 1000000001 # 10000000; 200 # 1; 2000000001 # 10000000].

(** The tolerances of [time_array]: one millisecond, in days. *)
Definition time_tols : Q * Q := (0, 1 # 86400000).

End MsCal.

(** ** [pyuvdata/utils/frequency.py] *)

Module Frequency.

Open Scope string_scope.

(** [a == b] for two arrays of integers, with NumPy's broadcasting of an
    array of one element; other shapes cannot be compared (an error from
    NumPy 1.25 on). *)
Definition array_eq (a b : list Z) : result (list bool) :=
  if (List.length a =? List.length b)%nat then
    Ok (map (fun xy => Z.eqb (fst xy) (snd xy)) (combine a b))
  else if (List.length a =? 1)%nat then Ok (map (Z.eqb (hd 0%Z a)) b)
  else if (List.length b =? 1)%nat then Ok (map (fun x => Z.eqb x (hd 0%Z b)) a)
  else Raise (ValueError "operands could not be broadcast together").

(** [np.sum(flex_spw_id_array[1:] != flex_spw_id_array[:-1])] *)
Definition n_breaks (flex_spw_id_array : list Z) : nat :=
  Np.count_true
    (map (fun xy => negb (Z.eqb (fst xy) (snd xy)))
         (combine (tl flex_spw_id_array) (removelast flex_spw_id_array))).

Definition not_in_spw_array_message : string :=
  "There are some entries in flex_spw_id_array that are not in spw_array. This is a bug, please report it in an issue.".

Definition interspersed_message : string :=
  "Channels from different spectral windows are interspersed with one another, rather than being grouped together along the frequency axis. Most file formats do not support such non-grouping of data.".

(** [_check_flex_spw_contiguous(spw_array=..., flex_spw_id_array=...)].
    When only one of the two is [None], [np.unique(None)] is an array
    holding [None], equal to no integer. *)
Definition _check_flex_spw_contiguous
  (spw_array flex_spw_id_array : option (list Z)) : result unit :=
  match spw_array, flex_spw_id_array with
  | None, None => Ok tt
  | Some spw_array, Some flex_spw_id_array =>
      let exp_spw_ids := Np.unique spw_array in
      (same <-r array_eq (Np.unique flex_spw_id_array) exp_spw_ids ;;
       if negb (Np.all same) then Raise (AssertionError not_in_spw_array_message)
       else if negb (n_breaks flex_spw_id_array + 1 =? List.length spw_array)%nat
            then Raise (ValueError interspersed_message)
            else Ok tt)%py
  | Some spw_array, None =>
      match Np.unique spw_array with
      | [] => Raise (TypeError "'NoneType' object is not subscriptable")
      | _ => Raise (AssertionError not_in_spw_array_message)
      end
  | None, Some flex_spw_id_array =>
      match Np.unique flex_spw_id_array with
      | [] => Raise (AttributeError "'NoneType' object has no attribute 'size'")
      | _ => Raise (AssertionError not_in_spw_array_message)
      end
  end.

(** Modelled from the spec: [tools._test_array_constant] is not part of
    these sources.  An array is "constant within tolerance" when its
    least and greatest values are equal or close under (rtol, atol); an
    array without values is constant. *)
Definition _test_array_constant (array : list Q) (tols : Q * Q) : bool :=
  match array with
  | [] => true
  | x :: rest =>
      let lo := fold_left Qmin rest x in
      let hi := fold_left Qmax rest x in
      Qeq_bool lo hi || Np.isclose lo hi (fst tols) (snd tols)
  end.

(** The body of the loop of [_check_freq_spacing] for the channels of one
    window, updating [(spacing_error, chanwidth_error)]. *)
Definition check_window (freq_tols channel_width_tols : Q * Q)
  (freqs : list Q) (widths : option (list Q)) (flags : bool * bool)
  : bool * bool :=
  let freq_spacing := Np.diff freqs in
  let freq_dir := if forallb (fun d => Np.Qlt_bool d 0) freq_spacing
                  then (- (1))%Q else 1%Q in
  let spacing_error :=
    if negb (_test_array_constant freq_spacing freq_tols) then true else fst flags in
  match widths with
  | None => (spacing_error, snd flags)
  | Some widths =>
      if negb (_test_array_constant widths channel_width_tols)
      then (true, snd flags)
      else if negb (Np.allclose freq_spacing
                      (option_map (fun m => m * freq_dir)%Q (Np.mean widths))
                      (fst channel_width_tols) (snd channel_width_tols))
           then (spacing_error, true)
           else (spacing_error, snd flags)
  end.

(** The loop over the windows, with the masks of each. *)
Fixpoint check_windows (freq_tols channel_width_tols : Q * Q)
  (freq_array : list Q) (channel_width : option (list Q))
  (flex_spw_id_array : list Z) (spw_array : list Z) (flags : bool * bool)
  : result (bool * bool) :=
  match spw_array with
  | [] => Ok flags
  | spw_id :: rest =>
      let mask := map (Z.eqb spw_id) flex_spw_id_array in
      if negb (Np.count_true mask =? 0)%nat then
        (freqs <-r Np.mask_get mask freq_array ;;
         widths <-r match channel_width with
                    | None => Ok None
                    | Some cw => (w <-r Np.mask_get mask cw ;; Ok (Some w))
                    end ;;
         check_windows freq_tols channel_width_tols freq_array channel_width
           flex_spw_id_array rest
           (check_window freq_tols channel_width_tols freqs widths flags))%py
      else
        check_windows freq_tols channel_width_tols freq_array channel_width
          flex_spw_id_array rest flags
  end.

Definition spacing_message : string :=
  "The frequencies are not evenly spaced (probably because of a select operation) or has differing values of channel widths. Some file formats (e.g. uvfits, miriad) do not support unevenly spaced frequencies.".

Definition chanwidth_message : string :=
  "The frequencies are separated by more than their channel width (probably because of a select operation). Some file formats (e.g. uvfits, miriad) do not support frequencies that are spaced by more than their channel width.".

(** The flags before the final raises. *)
Definition spacing_flags (freq_array : list Q) (freq_tols : Q * Q)
  (channel_width : option (list Q)) (channel_width_tols : Q * Q)
  (spw_array flex_spw_id_array : option (list Z)) : result (bool * bool) :=
  (_ <-r _check_flex_spw_contiguous spw_array flex_spw_id_array ;;
   match spw_array, flex_spw_id_array with
   | Some spw_array, Some flex_spw_id_array =>
       check_windows freq_tols channel_width_tols freq_array channel_width
         flex_spw_id_array spw_array (false, false)
   | _, _ =>
       Ok (check_window freq_tols channel_width_tols freq_array channel_width
             (false, false))
   end)%py.

(** [_check_freq_spacing(freq_array=..., freq_tols=..., channel_width=...,
    channel_width_tols=..., spw_array=..., flex_spw_id_array=...,
    raise_errors=...)] *)
Definition _check_freq_spacing (freq_array : list Q) (freq_tols : Q * Q)
  (channel_width : option (list Q)) (channel_width_tols : Q * Q)
  (spw_array flex_spw_id_array : option (list Z)) (raise_errors : bool)
  : result (bool * bool) :=
  (flags <-r spacing_flags freq_array freq_tols channel_width channel_width_tols
               spw_array flex_spw_id_array ;;
   let (spacing_error, chanwidth_error) := flags in
   if raise_errors && spacing_error then Raise (ValueError spacing_message)
   else if raise_errors && chanwidth_error then Raise (ValueError chanwidth_message)
   else Ok (spacing_error, chanwidth_error))%py.

(** The default tolerances: one millihertz, absolute. *)
Definition default_tols : Q * Q := (0, 1 # 1000).

Definition MHz (l : list Z) : list Q := map (fun f => inject_Z (f * 1000000)) l.

(** *** [_sort_freq_helper] *)

(** An ordering argument: a string, or an array of indices. *)
Inductive order_arg : Type :=
| OrderStr (s : string)
| OrderIdx (idx : list Z).

(** [select_spw]: one window id or several. *)
Inductive select_arg : Type :=
| SelectInt (spw : Z)
| SelectList (spws : list Z).

(** [a.size == n and np.all(np.sort(a) == np.arange(n))] *)
Definition is_index_array (a : list Z) (n : nat) : bool :=
  (List.length a =? n)%nat &&
  Np.all (map (fun xy => Z.eqb (fst xy) (snd xy))
              (combine (Np.sort_by Z.leb a) (map Z.of_nat (Np.arange n)))).

(** [s[0] == "-"] for a string that is not empty. *)
Definition first_is_minus (s : string) : bool :=
  match s with
  | String c _ => Ascii.eqb c "-"
  | EmptyString => false
  end.

Definition no_criteria_warning : string :=
  "Not specifying either spw_order or channel_order causes no sorting actions to be applied. Returning object unchanged.".

Definition select_ignored_warning : string :=
  "The select_spw argument is ignored when providing an array_like of int for channel_order".

Definition spw_order_ignored_warning : string :=
  "The spw_order argument is ignored when providing an array_like of int for channel_order".

Definition spw_order_select_warning : string :=
  "The spw_order argument is ignored when providing an argument for select_spw".

Definition select_without_channel_order_warning : string :=
  "Specifying select_spw without providing channel_order causes no sorting actions to be applied. Returning object unchanged.".

Definition channel_index_message : string :=
  "Index array for channel_order must contain all indicies for the frequency axis, without duplicates.".

Definition spw_index_message : string :=
  "Index array for spw_order must contain all indicies for the spw_array, without duplicates.".

Definition spw_order_message : string :=
  "spw_order can only be one of 'number', '-number', 'freq', '-freq', None or an index array of length Nspws".

Definition channel_order_message : string :=
  "channel_order can only be one of 'freq' or '-freq' or an index array of length Nfreqs".

(** [[np.median(temp_freqs[temp_spws == idx]) for idx in spw_array]] *)
Fixpoint window_medians (temp_freqs : list Q) (temp_spws : list Z)
  (spw_array : list Z) : result (list (option Q)) :=
  match spw_array with
  | [] => Ok []
  | idx :: rest =>
      (freqs <-r Np.mask_get (map (fun spw => Z.eqb spw idx) temp_spws) temp_freqs ;;
       meds <-r window_medians temp_freqs temp_spws rest ;;
       Ok (Np.median freqs :: meds))%py
  end.

(** The index array that [spw_order] becomes. *)
Definition window_order (Nspws : nat) (spw_array : list Z)
  (temp_freqs : list Q) (temp_spws : list Z) (spw_order : order_arg)
  : result (list nat) :=
  match spw_order with
  | OrderIdx idx =>
      if negb (is_index_array idx Nspws) then Raise (ValueError spw_index_message)
      else Ok (map Z.to_nat idx)
  | OrderStr s =>
      if negb (existsb (String.eqb s) ["number"; "freq"; "-number"; "-freq"])
      then Raise (ValueError spw_order_message)
      else if (1 <? Nspws)%nat then
        let flip_spws := first_is_minus s in
        (order <-r
           (if Str.contains "number" s then Ok (Np.argsort_by Z.leb spw_array)
            else if Str.contains "freq" s then
              (meds <-r window_medians temp_freqs temp_spws spw_array ;;
               Ok (Np.argsort_by Np.nan_last_leb meds))
            else Raise (TypeError "spw_order is still a string")) ;;
         Ok (if flip_spws then rev order else order))%py
      else Ok (Np.arange Nspws)
  end.

(** [np.concatenate([index_array[temp_spws == spw] for spw in windows])] *)
Fixpoint gather_windows (index_array : list nat) (temp_spws : list Z)
  (windows : list Z) : result (list nat) :=
  match windows with
  | [] => Ok []
  | spw :: rest =>
      (part <-r Np.mask_get (map (fun id => Z.eqb id spw) temp_spws) index_array ;;
       parts <-r gather_windows index_array temp_spws rest ;;
       Ok (part ++ parts)%list)%py
  end.

Definition concatenate_windows (index_array : list nat) (temp_spws : list Z)
  (windows : list Z) : result (list nat) :=
  match windows with
  | [] => Raise (ValueError "need at least one array to concatenate")
  | _ => gather_windows index_array temp_spws windows
  end.

(** The loop that sorts the channels within the windows. *)
Fixpoint sort_channels (descending : bool) (sort_spw : Z -> bool)
  (temp_freqs : list Q) (temp_spws : list Z) (spw_array : list Z)
  (index_array : list nat) : result (list nat) :=
  match spw_array with
  | [] => Ok index_array
  | idx :: rest =>
      if sort_spw idx then
        let select_mask := map (fun spw => Z.eqb spw idx) temp_spws in
        (subsort_order <-r Np.mask_get select_mask index_array ;;
         keys <-r Np.mask_get select_mask temp_freqs ;;
         subsort_order <-r Np.take subsort_order (Np.argsort_by Qle_bool keys) ;;
         sort_channels descending sort_spw temp_freqs temp_spws rest
           (Np.mask_assign select_mask index_array
              (if descending then rev subsort_order else subsort_order)))%py
      else sort_channels descending sort_spw temp_freqs temp_spws rest index_array
  end.

(** The last part of the branch: [if channel_order is not None: ...]. *)
Definition apply_channel_order (channel_order : option string)
  (sort_spw : Z -> bool) (temp_freqs : list Q) (temp_spws : list Z)
  (spw_array : list Z) (index_array : list nat) : result (list nat) :=
  match channel_order with
  | None => Ok index_array
  | Some s =>
      if negb (existsb (String.eqb s) ["freq"; "-freq"])
      then Raise (ValueError channel_order_message)
      else sort_channels (first_is_minus s) sort_spw temp_freqs temp_spws
             spw_array index_array
  end.

Definition is_some {A} (o : option A) : bool :=
  match o with Some _ => true | None => false end.

(** The index array at the final test of [_sort_freq_helper], for a call
    in which [spw_order] and [channel_order] are not both [None];
    [None] when the function has returned before computing one. *)
Definition index_array_for (Nfreqs : nat) (freq_array : list Q) (Nspws : nat)
  (spw_array : list Z) (flex_spw_id_array : list Z)
  (spw_order channel_order : option order_arg) (select_spw : option select_arg)
  : W (option (list nat)) :=
  match channel_order with
  | Some (OrderIdx channel_order) =>
      (when (is_some select_spw) (warn select_ignored_warning) ;;;
       when (is_some spw_order) (warn spw_order_ignored_warning) ;;;
       if negb (is_index_array channel_order Nfreqs)
       then raise (ValueError channel_index_message)
       else ret (Some (map Z.to_nat channel_order)))%py
  | _ =>
      let channel_order :=
        match channel_order with Some (OrderStr s) => Some s | _ => None end in
      let index_array := Np.arange Nfreqs in
      let temp_freqs := freq_array in
      let temp_spws := flex_spw_id_array in
      match select_spw with
      | Some select_spw =>
          (when (is_some spw_order) (warn spw_order_select_warning) ;;;
           match channel_order with
           | None => (warn select_without_channel_order_warning ;;; ret None)
           | Some _ =>
               let sort_spw :=
                 match select_spw with
                 | SelectList spws => fun idx => existsb (Z.eqb idx) spws
                 | SelectInt spw => fun idx => Z.eqb idx spw
                 end in
               (ia <- lift (apply_channel_order channel_order sort_spw temp_freqs
                              temp_spws spw_array index_array) ;;
                ret (Some ia))
           end)%py
      | None =>
          let sort_spw := fun _ : Z => is_some channel_order in
          match spw_order with
          | Some spw_order =>
              (ia <- lift
                 (order <-r window_order Nspws spw_array temp_freqs temp_spws spw_order ;;
                  windows <-r Np.take spw_array order ;;
                  index_array <-r concatenate_windows index_array temp_spws windows ;;
                  temp_freqs <-r Np.take temp_freqs index_array ;;
                  temp_spws <-r Np.take temp_spws index_array ;;
                  apply_channel_order channel_order sort_spw temp_freqs temp_spws
                    spw_array index_array) ;;
               ret (Some ia))%py
          | None =>
              (ia <- lift (apply_channel_order channel_order sort_spw temp_freqs
                             temp_spws spw_array index_array) ;;
               ret (Some ia))%py
          end
      end
  end.

(** [_sort_freq_helper(Nfreqs=..., freq_array=..., Nspws=..., spw_array=...,
    flex_spw_id_array=..., spw_order=..., channel_order=..., select_spw=...)];
    the result [None] is Python's [None]. *)
Definition _sort_freq_helper (Nfreqs : nat) (freq_array : list Q) (Nspws : nat)
  (spw_array : list Z) (flex_spw_id_array : list Z)
  (spw_order channel_order : option order_arg) (select_spw : option select_arg)
  : W (option (list nat)) :=
  if negb (is_some spw_order) && negb (is_some channel_order) then
    (warn no_criteria_warning ;;; ret None)%py
  else
    (ia <- index_array_for Nfreqs freq_array Nspws spw_array flex_spw_id_array
             spw_order channel_order select_spw ;;
     match ia with
     | None => ret None
     | Some index_array =>
         if Np.strictly_increasing index_array then ret None
         else ret (Some index_array)
     end)%py.

(** *** [_select_freq_helper] *)

(** An entry of [polarizations] or [jones]: a string or a number. *)
Inductive pol_item : Type :=
| PolStr (s : string)
| PolNum (n : Z).

Section Select.

(** [polstr2num] and [jstr2num] (with the x orientation) and
    [tools._test_array_constant_spacing] are not part of these sources. *)
Variable polstr2num : string -> option string -> result Z.
Variable jstr2num : string -> option string -> result Z.
Variable _test_array_constant_spacing : list Z -> bool.

(** The loop over [frequencies], growing [freq_chans]. *)
Fixpoint match_frequencies (obj_freq_array : list Q) (freq_tols : Q * Q)
  (invert : bool) (frequencies : list Q) (freq_chans : list Z) : result (list Z) :=
  match frequencies with
  | [] => Ok freq_chans
  | freq :: rest =>
      let close := map (fun f => Np.isclose f freq (fst freq_tols) (snd freq_tols))
                       obj_freq_array in
      if Np.any close then
        match_frequencies obj_freq_array freq_tols invert rest
          (freq_chans ++ Np.nonzero close)%list
      else if negb invert then
        Raise (ValueError "Frequency is not present in the freq_array.")
      else match_frequencies obj_freq_array freq_tols invert rest freq_chans
  end.

(** The loop over the polarization or Jones entries, giving [flx_nums]. *)
Fixpoint flex_numbers (str_eval : string -> option string -> result Z)
  (obj_x_orientation : option string) (obj_arr : list Z) (invert : bool)
  (sel_arr : list pol_item) : result (list Z) :=
  match sel_arr with
  | [] => Ok []
  | item :: rest =>
      (item_id <-r match item with
                   | PolStr s => str_eval s obj_x_orientation
                   | PolNum n => Ok n
                   end ;;
       if negb (existsb (Z.eqb item_id) obj_arr) && negb invert then
         Raise (ValueError "The polarization or Jones term is not present in the array")
       else
         (nums <-r flex_numbers str_eval obj_x_orientation obj_arr invert rest ;;
          Ok (item_id :: nums)))%py
  end.

Definition no_frequency_message : string :=
  "No data matching this frequency selection exists.".

Definition not_evenly_spaced_warning : string :=
  "Selected frequencies are not evenly spaced. This will make it impossible to write this data out to some file types".

Definition not_contiguous_warning : string :=
  "Selected frequencies are not contiguous. This will make it impossible to write this data out to some file types.".

(** The variables of the function between its parts. *)
Record selection : Type := {
  freq_inds : option (list Z);
  spw_inds : option (list Z);
  selections : list string;
  sel_spw_array : option (list Z)
}.

(** [if frequencies is not None: ...] and [if freq_chans is not None: ...] *)
Definition select_frequencies (frequencies : option (list Q))
  (freq_chans : option (list Z)) (obj_freq_array : list Q) (freq_tols : Q * Q)
  (obj_spw_array obj_spw_id_array : option (list Z)) (invert : bool)
  : result selection :=
  (freq_chans <-r
     match frequencies with
     | None => Ok freq_chans
     | Some frequencies =>
         (fc <-r match_frequencies obj_freq_array freq_tols invert frequencies
                   (match freq_chans with None => [] | Some fc => fc end) ;;
          Ok (Some fc))
     end ;;
   match freq_chans with
   | None => Ok {| freq_inds := None; spw_inds := None; selections := [];
                   sel_spw_array := None |}
   | Some freq_chans =>
       let freq_inds := Np.unique freq_chans in
       spw_inds <-r
         match obj_spw_array, obj_spw_id_array with
         | Some obj_spw_array, Some obj_spw_id_array =>
             (ids <-r Np.take_int obj_spw_id_array freq_inds ;;
              Ok (Some (Np.nonzero (Np.isin obj_spw_array ids invert))))
         | _, _ => Ok None
         end ;;
       if invert && (List.length freq_inds =? List.length freq_chans)%nat
       then Raise (ValueError no_frequency_message)
       else Ok {| freq_inds := Some freq_inds; spw_inds := spw_inds;
                  selections := ["frequencies"]; sel_spw_array := None |}
   end)%py.

(** [if spws is not None: ...]; without an [obj_spw_array] NumPy cannot
    index the windows. *)
Definition select_spws (spws : option (list Z)) (obj_spw_array : option (list Z))
  (invert : bool) (sel : selection) : result selection :=
  match spws with
  | None => Ok sel
  | Some spws =>
      match obj_spw_array with
      | None =>
          match spws with
          | _ :: _ =>
              if negb invert
              then Raise (ValueError "SPW number is not present in the spw_array")
              else Raise (TypeError "obj_spw_array is None")
          | [] => Raise (TypeError "obj_spw_array is None")
          end
      | Some obj_spw_array =>
          let spw_check := Np.isin spws obj_spw_array false in
          if negb (Np.all spw_check) && negb invert then
            Raise (ValueError "SPW number is not present in the spw_array")
          else
            let found := Np.nonzero (Np.isin obj_spw_array spws invert) in
            Ok {| freq_inds := sel.(freq_inds);
                  spw_inds := match sel.(spw_inds) with
                              | None => Some found
                              | Some si => Some (Np.intersect1d found si)
                              end;
                  selections := (sel.(selections) ++ ["spectral windows"])%list;
                  sel_spw_array := None |}
      end
  end.

(** The polarization or Jones part. *)
Definition select_flex (polarizations : option (list pol_item))
  (obj_flex_spw_pol_array : option (list Z)) (jones : option (list pol_item))
  (obj_flex_jones_array : option (list Z)) (obj_x_orientation : option string)
  (invert : bool) (sel : selection) : W selection :=
  let has_jones := is_some jones && is_some obj_flex_jones_array in
  if has_jones || (is_some polarizations && is_some obj_flex_spw_pol_array) then
    let plr_name := if has_jones then "jones polarization terms" else "polarizations" in
    let obj_arr := match (if has_jones then obj_flex_jones_array
                          else obj_flex_spw_pol_array) with
                   | Some a => a | None => [] end in
    let sel_arr := match (if has_jones then jones else polarizations) with
                   | Some a => a | None => [] end in
    let str_eval := if has_jones then jstr2num else polstr2num in
    (flx_nums <- lift (flex_numbers str_eval obj_x_orientation obj_arr invert sel_arr) ;;
     let flx_inds := Np.nonzero (Np.isin obj_arr flx_nums invert) in
     let spw_inds := match sel.(spw_inds) with
                     | None => flx_inds
                     | Some si => Np.intersect1d flx_inds si
                     end in
     if (List.length spw_inds =? 0)%nat then
       raise (ValueError "No data matching this selection exists.")
     else
       (chosen <- lift (Np.take_int obj_arr spw_inds) ;;
        when (negb (_test_array_constant_spacing (Np.unique chosen)))
             (warn ("Selected " ++ plr_name ++
                    " are not evenly spaced. This will make it impossible to write this data out to some file types.")) ;;;
        ret {| freq_inds := sel.(freq_inds);
               spw_inds := Some spw_inds;
               selections := (sel.(selections) ++ [plr_name])%list;
               sel_spw_array := None |}))%py
  else ret sel.

(** [if spw_inds is not None: ...] *)
Definition select_windows (obj_spw_array obj_spw_id_array : option (list Z))
  (sel : selection) : result selection :=
  match sel.(spw_inds) with
  | None => Ok sel
  | Some spw_inds =>
      match obj_spw_array with
      | None => Raise (TypeError "'NoneType' object is not subscriptable")
      | Some obj_spw_array =>
          (sel_spw_array <-r Np.take_int obj_spw_array spw_inds ;;
           if (List.length spw_inds =? 0)%nat then
             Raise (ValueError "No data matching this spectral window selection exists.")
           else
             let freq_inds :=
               match obj_spw_id_array with
               | None => sel.(freq_inds)
               | Some obj_spw_id_array =>
                   let in_windows :=
                     Np.nonzero (Np.isin obj_spw_id_array sel_spw_array false) in
                   match sel.(freq_inds) with
                   | None => Some in_windows
                   | Some fi => Some (Np.intersect1d fi in_windows)
                   end
               end in
             Ok {| freq_inds := freq_inds;
                   spw_inds := Some (Np.sorted_set spw_inds);
                   selections := sel.(selections);
                   sel_spw_array := Some sel_spw_array |})%py
      end
  end.

(** [if freq_inds is not None: ...]: the checks on the selected channels,
    and the channel indices returned. *)
Definition finish_freq_inds (obj_freq_array : list Q) (freq_tols : Q * Q)
  (obj_channel_width : option (list Q)) (channel_width_tols : Q * Q)
  (obj_spw_id_array : option (list Z)) (warn_freq_spacing : bool)
  (sel : selection) : W (option (list Z)) :=
  match sel.(freq_inds) with
  | None => ret None
  | Some freq_inds =>
      if (List.length freq_inds =? 0)%nat then raise (ValueError no_frequency_message)
      else
        (sel_chan_width <- lift match obj_channel_width with
                                | None => Ok None
                                | Some cw => (w <-r Np.take_int cw freq_inds ;; Ok (Some w))
                                end ;;
         sel_spw_id_array <- lift match obj_spw_id_array with
                                  | None => Ok None
                                  | Some ids =>
                                      (w <-r Np.take_int ids freq_inds ;; Ok (Some w))
                                  end ;;
         sel_freq_array <- lift (Np.take_int obj_freq_array freq_inds) ;;
         flags <- lift (_check_freq_spacing sel_freq_array freq_tols sel_chan_width
                          channel_width_tols sel.(sel_spw_array) sel_spw_id_array false) ;;
         when warn_freq_spacing
              (if fst flags then warn not_evenly_spaced_warning
               else if snd flags then warn not_contiguous_warning
               else ret tt) ;;;
         ret (Some (Np.sorted_set freq_inds)))%py
  end.

(** [_select_freq_helper(...)]: [(freq_inds, spw_inds, selections)]. *)
Definition _select_freq_helper
  (frequencies : option (list Q)) (freq_chans : option (list Z))
  (obj_freq_array : list Q) (freq_tols : Q * Q)
  (obj_channel_width : option (list Q)) (channel_width_tols : Q * Q)
  (spws obj_spw_array obj_spw_id_array : option (list Z))
  (polarizations : option (list pol_item)) (obj_flex_spw_pol_array : option (list Z))
  (jones : option (list pol_item)) (obj_flex_jones_array : option (list Z))
  (obj_x_orientation : option string) (warn_freq_spacing invert : bool)
  : W (option (list Z) * option (list Z) * list string) :=
  (sel <- lift (select_frequencies frequencies freq_chans obj_freq_array freq_tols
                  obj_spw_array obj_spw_id_array invert) ;;
   sel <- lift (select_spws spws obj_spw_array invert sel) ;;
   sel <- select_flex polarizations obj_flex_spw_pol_array jones obj_flex_jones_array
            obj_x_orientation invert sel ;;
   sel <- lift (select_windows obj_spw_array obj_spw_id_array sel) ;;
   freq_inds <- finish_freq_inds obj_freq_array freq_tols obj_channel_width
                  channel_width_tols obj_spw_id_array warn_freq_spacing sel ;;
   ret (freq_inds, sel.(spw_inds), sel.(selections)))%py.

End Select.

(** An object of ten channels of 1 MHz from 100 MHz, in one window 0. *)
Definition ten_channels : list Q := MHz (map Z.of_nat (seq 100 10)).
Definition ten_widths : list Q := MHz (repeat 1%Z 10).
Definition ten_ids : list Z := repeat 0%Z 10.

(** Stand-ins for the string conversions of polarizations and for the
    spacing test of their numbers, for calls that select none. *)
Definition no_str2num (s : string) (x_orientation : option string) : result Z :=
  Raise (ValueError "unknown polarization string").
Definition any_spacing (nums : list Z) : bool := true.

(** Two windows of three channels each, the second window first. *)
Definition two_window_freqs : list Q := [5 # 1; 4 # 1; 3 # 1; 10 # 1; 12 # 1; 11 # 1].
Definition two_window_ids : list Z := [1; 1; 1; 0; 0; 0]%Z.
Definition two_windows : list Z := [1; 0]%Z.

End Frequency.

(** ** The SPECTRAL_WINDOW table, and the frequency axis read from it *)

Module SpectralWindow.

Open Scope string_scope.

(** One row of the SPECTRAL_WINDOW table: the cells that
    [write_ms_spectral_window] puts. *)
Record spw_row : Type := {
  NUM_CHAN : nat;
  NAME : string;
  ASSOC_SPW_ID : Z;
  ASSOC_NATURE : string;
  CHAN_FREQ : list Q;
  CHAN_WIDTH : list Q;
  EFFECTIVE_BW : list Q;
  TOTAL_BANDWIDTH : Q;
  RESOLUTION : list Q;
  MEAS_FREQ_REF : Z;
  REF_FREQUENCY : Q
}.

(** [VEL_DICT["TOPO"]] *)
Definition VEL_DICT_TOPO : Z := 5.

(** The body of the loop of [write_ms_spectral_window] for one window. *)
Definition write_spw_row (freq_array channel_width : list Q)
  (flex_spw_id_array : option (list Z)) (spw_id : Z) : result spw_row :=
  let ch_mask :=
    match flex_spw_id_array with
    | None => repeat true (List.length freq_array)
    | Some ids => map (fun id => Z.eqb id spw_id) ids
    end in
  (chan_freq <-r Np.mask_get ch_mask freq_array ;;
   chan_width <-r Np.mask_get ch_mask channel_width ;;
   match freq_array with
   | [] => Raise (IndexError "index 0 is out of bounds")
   | ref_frequency :: _ =>
       Ok {| NUM_CHAN := Np.count_true ch_mask;
             NAME := "SPW" ++ Str.of_int spw_id;
             ASSOC_SPW_ID := spw_id;
             ASSOC_NATURE := "";
             CHAN_FREQ := chan_freq;
             CHAN_WIDTH := chan_width;
             EFFECTIVE_BW := chan_width;
             TOTAL_BANDWIDTH := fold_left Qplus chan_width 0;
             RESOLUTION := chan_width;
             MEAS_FREQ_REF := VEL_DICT_TOPO;
             REF_FREQUENCY := ref_frequency |}
   end)%py.

(** [write_ms_spectral_window(filepath, freq_array=..., channel_width=...,
    spw_array=..., flex_spw_id_array=...)] with future array shapes, for a
    [filepath] that passes [_ms_utils_call_checks]: the rows added. *)
Fixpoint write_ms_spectral_window (freq_array channel_width : list Q)
  (spw_array : list Z) (flex_spw_id_array : option (list Z))
  : result (list spw_row) :=
  match spw_array with
  | [] => Ok []
  | spw_id :: rest =>
      (row <-r write_spw_row freq_array channel_width flex_spw_id_array spw_id ;;
       rows <-r write_ms_spectral_window freq_array channel_width rest
                  flex_spw_id_array ;;
       Ok (row :: rows))%py
  end.

(** A SPECTRAL_WINDOW table as [read_ms_spw] sees it: its rows, and
    whether the column ASSOC_SPW_ID can be read ([getcol] raises
    [RuntimeError] otherwise). *)
Record spw_table : Type := {
  has_assoc_spw_id : bool;
  spw_rows : list spw_row
}.

(** The dict [read_ms_spw] returns.  The source stores the flag under
    the key "spoof_spw_id" when the column is there and under "spoof_spw"
    when it is not; an absent key is [None]. *)
Record spw_dict : Type := {
  chan_freq : list (list Q);
  chan_width : list (list Q);
  num_chan : list nat;
  row_idx : list nat;
  assoc_spw_id : list Z;
  spoof_spw_id : option bool;
  spoof_spw : option bool
}.

(** [read_ms_spw(filepath)]; [None] for the table means that
    [filepath/SPECTRAL_WINDOW] is no table. *)
Definition read_ms_spw (tb : option spw_table) : result spw_dict :=
  match tb with
  | None =>
      Raise (FileNotFoundError "SPECTRAL_WINDOW not found or not recognized as an MS table.")
  | Some tb_spws =>
      let n_rows := List.length tb_spws.(spw_rows) in
      Ok {| chan_freq := map CHAN_FREQ tb_spws.(spw_rows);
            chan_width := map CHAN_WIDTH tb_spws.(spw_rows);
            num_chan := map NUM_CHAN tb_spws.(spw_rows);
            row_idx := seq 0 n_rows;
            assoc_spw_id :=
              if tb_spws.(has_assoc_spw_id)
              then map ASSOC_SPW_ID tb_spws.(spw_rows)
              else map Z.of_nat (seq 0 n_rows);
            spoof_spw_id := if tb_spws.(has_assoc_spw_id) then Some false else None;
            spoof_spw := if tb_spws.(has_assoc_spw_id) then None else Some true |}
  end.

(** [np.cumsum] *)
Fixpoint cumsum_from (acc : nat) (l : list nat) : list nat :=
  match l with
  | [] => []
  | x :: rest => (acc + x)%nat :: cumsum_from (acc + x) rest
  end.

Definition cumsum (l : list nat) : list nat := cumsum_from 0 l.

(** [a[start:stop] = v] for an array [v]: the slice is clipped to the
    array, and [v] must have the length of the slice or one entry. *)
Definition assign_slice {A} (a : list A) (start stop : nat) (v : list A)
  : result (list A) :=
  let n := List.length (firstn (stop - start) (skipn start a)) in
  if (List.length v =? n)%nat then Ok (firstn start a ++ v ++ skipn (start + n) a)%list
  else
    match v with
    | [x] => Ok (firstn start a ++ repeat x n ++ skipn (start + n) a)%list
    | _ => Raise (ValueError "could not broadcast input array")
    end.

(** [a[start:stop] = x] for a scalar [x]. *)
Definition fill_slice {A} (a : list A) (start stop : nat) (x : A) : list A :=
  let n := List.length (firstn (stop - start) (skipn start a)) in
  (firstn start a ++ repeat x n ++ skipn (start + n) a)%list.

(** The frequency axis [read_ms_cal] builds from the SPECTRAL_WINDOW
    table. *)
Record spw_axis : Type := {
  spw_array : list Z;
  Nspws : nat;
  Nfreqs : nat;
  freq_array : list Q;
  channel_width : list Q;
  flex_spw_id_array : list Z;
  spw_slice_dict : list (nat * (nat * nat))
}.

(** One iteration of the loop over the zipped columns. *)
Definition spw_slice_step (st : spw_axis)
  (item : Z * (nat * (nat * (nat * (list Q * list Q))))) : result spw_axis :=
  let '(spw_id, (spw_idx, (spw_nchan, (spw_end_chan, (spw_freqs, spw_chan_width))))) :=
    item in
  let start := (spw_end_chan - spw_nchan)%nat in
  (freqs <-r assign_slice st.(freq_array) start spw_end_chan spw_freqs ;;
   widths <-r assign_slice st.(channel_width) start spw_end_chan spw_chan_width ;;
   Ok {| spw_array := st.(spw_array);
         Nspws := st.(Nspws);
         Nfreqs := st.(Nfreqs);
         freq_array := freqs;
         channel_width := widths;
         flex_spw_id_array := fill_slice st.(flex_spw_id_array) start spw_end_chan spw_id;
         spw_slice_dict :=
           dict_set Nat.eqb st.(spw_slice_dict) spw_idx (start, spw_end_chan) |})%py.

Fixpoint spw_slice_loop (st : spw_axis)
  (items : list (Z * (nat * (nat * (nat * (list Q * list Q)))))) : result spw_axis :=
  match items with
  | [] => Ok st
  | item :: rest => (st' <-r spw_slice_step st item ;; spw_slice_loop st' rest)%py
  end.

(** The part of [read_ms_cal] from [spw_info = ms_utils.read_ms_spw(filepath)]
    to the end of the loop over the windows. *)
Definition read_ms_cal_spws (spw_info : spw_dict) : result spw_axis :=
  let spw_array := spw_info.(assoc_spw_id) in
  let Nfreqs := fold_left Nat.add spw_info.(num_chan) 0%nat in
  spw_slice_loop
    {| spw_array := spw_array;
       Nspws := List.length spw_array;
       Nfreqs := Nfreqs;
       freq_array := repeat 0%Q Nfreqs;
       channel_width := repeat 0%Q Nfreqs;
       flex_spw_id_array := repeat 0%Z Nfreqs;
       spw_slice_dict := [] |}
    (combine spw_array
       (combine spw_info.(row_idx)
          (combine spw_info.(num_chan)
             (combine (cumsum spw_info.(num_chan))
                (combine spw_info.(chan_freq) spw_info.(chan_width)))))).

End SpectralWindow.

(** ** The FIELD and OBSERVATION tables *)

Module FieldObs.

Open Scope string_scope.

(** The two functions of the FIELD table and the writer of the
    OBSERVATION table can fail with Python errors that the other
    functions never raise. *)
Inductive table_exception : Type :=
| PyError (e : exception)
| KeyError (key : string)
| UnboundLocalError (name : string).

Inductive tresult (A : Type) : Type :=
| TOk (a : A)
| TRaise (e : table_exception).

Arguments TOk {A} a.
Arguments TRaise {A} e.

(** Warnings and a result, as [W] with the larger set of errors. *)
Definition T (A : Type) : Type := (list string * tresult A)%type.

Definition tret {A} (a : A) : T A := ([], TOk a).
Definition traise {A} (e : table_exception) : T A := ([], TRaise e).

Definition tbind {A B} (m : T A) (k : A -> T B) : T B :=
  match m with
  | (w, TOk a) => let (w', r) := k a in (w ++ w', r)%list
  | (w, TRaise e) => (w, TRaise e)
  end.

(** A call of a function of [ms_utils] that warns and raises as [W]. *)
Definition of_W {A} (m : W A) : T A :=
  match m with
  | (w, Ok a) => (w, TOk a)
  | (w, Raise e) => (w, TRaise (PyError e))
  end.

(** *** FIELD *)

(** The entries of a phase center that the two functions use, for a
    phase center with one longitude and latitude. *)
Record cat_entry : Type := {
  cat_name : string;
  cat_type : string;
  cat_lon : Q;
  cat_lat : Q;
  cat_frame : string;
  cat_epoch : option Q
}.

(** One row of the FIELD table.  A direction cell is an array of shape
    (terms, 2); the three reference columns of a table with variable
    references always hold one value, kept in [Dir_Ref]. *)
Record field_row : Type := {
  DELAY_DIR : list (Q * Q);
  PHASE_DIR : list (Q * Q);
  REFERENCE_DIR : list (Q * Q);
  NAME : string;
  NUM_POLY : Z;
  TIME : Q;
  SOURCE_ID : Z;
  Dir_Ref : option Z
}.

(** The FIELD table: its rows, the [Ref] entry of the MEASINFO keyword
    of the direction columns, and whether the columns of the variable
    references were added. *)
Record field_table : Type := {
  field_rows : list field_row;
  MEASINFO_Ref : option string;
  has_var_ref : bool
}.

(** [a != b] for two epochs, each a float or [None]. *)
Definition epoch_differs (a b : option Q) : bool :=
  match a, b with
  | None, None => false
  | Some x, Some y => negb (Qeq_bool x y)
  | _, _ => true
  end.

(** The loop that sets [var_ref], after its first iteration. *)
Fixpoint find_var_ref (sou_frame : string) (sou_epoch : option Q)
  (rest : list cat_entry) : bool :=
  match rest with
  | [] => false
  | phase_dict :: rest' =>
      if negb (String.eqb sou_frame phase_dict.(cat_frame))
         || epoch_differs sou_epoch phase_dict.(cat_epoch)
      then true
      else find_var_ref sou_frame sou_epoch rest'
  end.

(** [{key: val for val, key in enumerate(COORD_PYUVDATA2CASA_DICT)}[ref_dir]] *)
Fixpoint var_ref_index (keys : list string) (i : Z) (ref_dir : string) : option Z :=
  match keys with
  | [] => None
  | key :: rest =>
      if String.eqb key ref_dir then Some i else var_ref_index rest (i + 1) ref_dir
  end.

(** The loop over [sou_id_list] of [write_ms_field]. *)
Fixpoint field_rows_of (var_ref : bool) (time_val : Q)
  (catalog : list (Z * cat_entry)) : T (list field_row) :=
  match catalog with
  | [] => tret []
  | (sou_id, cat_dict) :: rest =>
      let phase_dir := [(cat_dict.(cat_lon), cat_dict.(cat_lat))] in
      tbind (of_W (MsUtils._parse_pyuvdata_frame_ref
                     cat_dict.(cat_frame) cat_dict.(cat_epoch) var_ref))
        (fun ref_dir =>
           tbind
             (if var_ref then
                match ref_dir with
                | Some name =>
                    match var_ref_index (map fst MsUtils.COORD_PYUVDATA2CASA_DICT)
                                        0 name with
                    | Some code => tret (Some code)
                    | None => traise (KeyError name)
                    end
                | None => traise (KeyError "None")
                end
              else tret None)
             (fun code =>
                tbind (field_rows_of var_ref time_val rest)
                  (fun rows =>
                     tret ({| DELAY_DIR := phase_dir;
                              PHASE_DIR := phase_dir;
                              REFERENCE_DIR := phase_dir;
                              NAME := cat_dict.(cat_name);
                              NUM_POLY := 0;
                              TIME := time_val;
                              SOURCE_ID := sou_id;
                              Dir_Ref := code |} :: rows))))
  end.

(** [write_ms_field(filepath, phase_center_catalog=..., time_val=...)],
    for a [filepath] that passes [_ms_utils_call_checks]: the table
    written. *)
Definition write_ms_field (phase_center_catalog : list (Z * cat_entry))
  (time_val : Q) : T field_table :=
  match phase_center_catalog with
  | [] => traise (UnboundLocalError "sou_frame")
  | (_, first) :: rest =>
      let sou_frame := first.(cat_frame) in
      let sou_epoch := first.(cat_epoch) in
      let var_ref := find_var_ref sou_frame sou_epoch (map snd rest) in
      tbind (of_W (MsUtils._parse_pyuvdata_frame_ref sou_frame sou_epoch true))
        (fun ref_frame =>
           tbind (field_rows_of var_ref time_val phase_center_catalog)
             (fun rows =>
                tret {| field_rows := rows;
                        MEASINFO_Ref := ref_frame;
                        has_var_ref := var_ref |}))
  end.

(** The dict [read_ms_field] builds. *)
Record field_dict : Type := {
  name : list string;
  ra : list Q;
  dec : list Q;
  source_id : list Z;
  frame : string;
  epoch : Q
}.

Definition polynomial_message : string :=
  "PHASE_DIR is expressed as a polynomial. We do not currently support this mode, please make an issue.".

(** The loop over the rows of [read_ms_field]: [(ra, dec, source_id)]. *)
Fixpoint read_field_rows (rows : list field_row)
  : tresult (list Q * list Q * list Z) :=
  match rows with
  | [] => TOk ([], [], [])
  | row :: rest =>
      match row.(PHASE_DIR) with
      | [(lon, lat)] =>
          match read_field_rows rest with
          | TOk (ras, decs, ids) =>
              TOk (lon :: ras, lat :: decs, row.(SOURCE_ID) :: ids)
          | TRaise e => TRaise e
          end
      | _ => TRaise (PyError (AssertionError polynomial_message))
      end
  end.

(** The second loop: the catalog, keyed by source id. *)
Fixpoint catalog_of (field_frame : string) (field_epoch : Q)
  (entries : list (Z * (string * (Q * Q)))) (catalog : list (Z * cat_entry))
  : list (Z * cat_entry) :=
  match entries with
  | [] => catalog
  | (id, (nm, (lon, lat))) :: rest =>
      catalog_of field_frame field_epoch rest
        (dict_set Z.eqb catalog id
           {| cat_name := nm; cat_type := "sidereal"; cat_lon := lon;
              cat_lat := lat; cat_frame := field_frame;
              cat_epoch := Some field_epoch |})
  end.

(** [read_ms_field(filepath, return_phase_center_catalog)]; [None] for
    the table means that [filepath/FIELD] is no table.  The entries of
    the catalog that the function sets to [None] are left out. *)
Definition read_ms_field (tb : option field_table)
  (return_phase_center_catalog : bool)
  : tresult (field_dict + list (Z * cat_entry)) :=
  match tb with
  | None =>
      TRaise (PyError (FileNotFoundError "FIELD not found or not recognized as an MS table."))
  | Some tb_field =>
      match tb_field.(MEASINFO_Ref) with
      | None => TRaise (KeyError "None")
      | Some frame_keyword =>
          match dict_get String.eqb MsUtils.COORD_PYUVDATA2CASA_DICT frame_keyword with
          | None => TRaise (KeyError frame_keyword)
          | Some None =>
              TRaise (PyError (TypeError "cannot unpack non-iterable NoneType object"))
          | Some (Some (field_frame, field_epoch)) =>
              match read_field_rows tb_field.(field_rows) with
              | TRaise e => TRaise e
              | TOk (ras, decs, ids) =>
                  let names := map NAME tb_field.(field_rows) in
                  if negb return_phase_center_catalog then
                    TOk (inl {| name := names; ra := ras; dec := decs;
                                source_id := ids; frame := field_frame;
                                epoch := field_epoch |})
                  else
                    TOk (inr (catalog_of field_frame field_epoch
                                (combine ids (combine names (combine ras decs))) []))
              end
          end
      end
  end.

(** *** OBSERVATION *)

(** What [write_ms_observation] reads from the object. *)
Record obs_object : Type := {
  telescope_name : string;
  telescope_location : MsUtils.vec3;
  extra_keywords : list (string * string)
}.

(** The OBSERVATION table: one entry per row of the columns
    TELESCOPE_NAME and OBSERVER, and the column TELESCOPE_LOCATION when
    the table has it. *)
Record obs_table : Type := {
  TELESCOPE_NAME : list string;
  OBSERVER : list string;
  TELESCOPE_LOCATION : option (list MsUtils.vec3)
}.

(** The loop over [uvobj.extra_keywords]. *)
Definition observer_of (uvobj : obs_object) : string :=
  fold_left (fun observer kv =>
               if String.eqb (Str.upper (fst kv)) "OBSERVER" then snd kv
               else observer)
            uvobj.(extra_keywords) uvobj.(telescope_name).

(** [write_ms_observation(filepath, uvobj)], for a [filepath] that passes
    [_ms_utils_call_checks]: the table written. *)
Definition write_ms_observation (uvobj : option obs_object) : tresult obs_table :=
  match uvobj with
  | None => TRaise (UnboundLocalError "telescope_name")
  | Some uvobj =>
      TOk {| TELESCOPE_NAME := [uvobj.(telescope_name)];
             OBSERVER := [observer_of uvobj];
             TELESCOPE_LOCATION := Some [uvobj.(telescope_location)] |}
  end.

(** [np.squeeze] of the column TELESCOPE_LOCATION: one row gives the
    vector itself. *)
Inductive squeezed : Type :=
| Vector (v : MsUtils.vec3)
| Matrix (rows : list MsUtils.vec3).

Definition squeeze (column : list MsUtils.vec3) : squeezed :=
  match column with
  | [v] => Vector v
  | _ => Matrix column
  end.

(** The dict [read_ms_obs] returns; an absent key is [None]. *)
Record obs_dict : Type := {
  obs_telescope_name : string;
  obs_observer : string;
  obs_telescope_location : option squeezed
}.

(** [read_ms_obs(filepath)]; [None] for the table means that
    [filepath/OBSERVATION] is no table. *)
Definition read_ms_obs (tb : option obs_table) : result obs_dict :=
  match tb with
  | None =>
      Raise (FileNotFoundError "OBSERVATION not found or not recognized as an MS table.")
  | Some tb_obs =>
      match tb_obs.(TELESCOPE_NAME), tb_obs.(OBSERVER) with
      | telescope :: _, observer :: _ =>
          Ok {| obs_telescope_name := telescope;
                obs_observer := observer;
                obs_telescope_location :=
                  option_map squeeze tb_obs.(TELESCOPE_LOCATION) |}
      | _, _ => Raise (IndexError "index 0 is out of bounds")
      end
  end.

End FieldObs.

(** ** [read_ms_cal]: the loop over the rows of the main table *)

Module MsCalRead.

Open Scope string_scope.

(** One row of the main table of a calibration table: the cells the loop
    reads, without the solution cells CPARAM, PARAMERR and FLAG. *)
Record main_row : Type := {
  ANTENNA1 : nat;
  TIME : Q;
  FIELD_ID : Z;
  SCAN_NUMBER : Z;
  INTERVAL : Q;
  SPECTRAL_WINDOW_ID : nat
}.

(** The arrays with one entry per time that the loop fills. *)
Record time_arrays : Type := {
  time_array : list Q;
  integration_time : list Q;
  phase_center_id_array : list Z;
  scan_number_array : list Z
}.

(** [a[i] = x] on a NumPy array, for an index that is not negative. *)
Definition setitem {A} (a : list A) (i : nat) (x : A) : result (list A) :=
  if (i <? List.length a)%nat then Ok (Np.set_nth a i x)
  else Raise (IndexError "index is out of bounds").

(** [{ant: idx for idx, ant in enumerate(self.antenna_numbers)}] *)
Definition ant_dict (antenna_numbers : list nat) : list (nat * nat) :=
  fold_left (fun d ia => dict_set Nat.eqb d (snd ia) (fst ia))
            (Str.enumerate antenna_numbers) [].

(** One iteration of the loop over [enumerate(row_timeidx_map)]; a
    [KeyError] of one of the two dicts skips the row.  The solution
    cells are taken to fit their slices. *)
Definition main_loop_step (ants : list (nat * nat))
  (spw_slice_dict : list (nat * (nat * nat))) (st : time_arrays)
  (entry : main_row * nat) : result time_arrays :=
  let (row, time_idx) := entry in
  match dict_get Nat.eqb ants row.(ANTENNA1) with
  | None => Ok st
  | Some ant_idx =>
      match dict_get Nat.eqb spw_slice_dict row.(SPECTRAL_WINDOW_ID) with
      | None => Ok st
      | Some spw_slice =>
          (times <-r setitem st.(time_array) time_idx row.(TIME) ;;
           intervals <-r setitem st.(integration_time) time_idx row.(INTERVAL) ;;
           fields <-r setitem st.(phase_center_id_array) time_idx row.(FIELD_ID) ;;
           scans <-r setitem st.(scan_number_array) time_idx row.(SCAN_NUMBER) ;;
           Ok {| time_array := times;
                 integration_time := intervals;
                 phase_center_id_array := fields;
                 scan_number_array := scans |})%py
      end
  end.

Fixpoint main_loop (ants : list (nat * nat))
  (spw_slice_dict : list (nat * (nat * nat))) (st : time_arrays)
  (entries : list (main_row * nat)) : result time_arrays :=
  match entries with
  | [] => Ok st
  | entry :: rest =>
      (st' <-r main_loop_step ants spw_slice_dict st entry ;;
       main_loop ants spw_slice_dict st' rest)%py
  end.

(** The part of [read_ms_cal] from the time index to the end of the loop
    over the rows: [Ntimes] and the arrays, times still in MJD seconds. *)
Definition read_main_rows (tols : Q * Q) (antenna_numbers : list nat)
  (spw_slice_dict : list (nat * (nat * nat))) (rows : list main_row)
  : result (nat * time_arrays) :=
  let index := MsCal.build_time_index tols (map TIME rows) in
  let time_count := index.(MsCal.time_count) in
  (st <-r main_loop (ant_dict antenna_numbers) spw_slice_dict
            {| time_array := repeat 0%Q time_count;
               integration_time := repeat 0%Q time_count;
               phase_center_id_array := repeat 0%Z time_count;
               scan_number_array := repeat 0%Z time_count |}
            (combine rows index.(MsCal.row_timeidx_map)) ;;
   Ok (time_count, st))%py.

(** The main table between [write_ms_cal] and [read_ms_cal]:
    [putcol(col, values)] stores entry [r] of [values] in row [r], and
    [getcell(col, r)] reads it back.  The rows are those added by
    [addrows]; [None] when a column read does not have one entry for
    each of them. *)
Definition row_of_layout (layout : MsCal.main_table_layout) (r : nat) : main_row :=
  {| ANTENNA1 := nth r layout.(MsCal.ANTENNA1) 0%nat;
     TIME := nth r layout.(MsCal.TIME) 0%Q;
     FIELD_ID := nth r layout.(MsCal.FIELD_ID) 0%Z;
     SCAN_NUMBER := nth r layout.(MsCal.SCAN_NUMBER) 0%Z;
     INTERVAL := nth r layout.(MsCal.INTERVAL) 0%Q;
     SPECTRAL_WINDOW_ID := nth r layout.(MsCal.SPECTRAL_WINDOW_ID) 0%nat |}.

Definition table_rows (layout : MsCal.main_table_layout) : option (list main_row) :=
  let rows := layout.(MsCal.rows_added) in
  if forallb (Nat.eqb rows)
       [List.length layout.(MsCal.ANTENNA1); List.length layout.(MsCal.TIME);
        List.length layout.(MsCal.FIELD_ID); List.length layout.(MsCal.SCAN_NUMBER);
        List.length layout.(MsCal.INTERVAL);
        List.length layout.(MsCal.SPECTRAL_WINDOW_ID)]
  then Some (map (row_of_layout layout) (seq 0 rows))
  else None.

End MsCalRead.

(** ** [write_ms_cal] and [read_ms_cal]: info, keywords, reference antenna *)

Module CalHeader.

Open Scope string_scope.

(** The value of a table keyword: a string, or a record of keywords (a
    Python [dict]). *)
Local Unset Elimination Schemes.
Inductive keyword_value : Type :=
| KwStr (s : string)
| KwDict (d : list (string * keyword_value)).
Local Set Elimination Schemes.

(** [ms.info()] *)
Record table_info : Type := {
  type : string;
  subType : string;
  readme : string
}.

(** The main table of a calibration table, as far as its info and its
    keywords go. *)
Record cal_table : Type := {
  info : table_info;
  keywords : list (string * keyword_value)
}.

Definition putkeyword (ms : cal_table) (key : string) (value : keyword_value)
  : cal_table :=
  {| info := ms.(info);
     keywords := dict_set String.eqb ms.(keywords) key value |}.

(** [init_ms_cal_file(filename)]: the info and the keywords of the new
    table; [version] is [__version__].  The column descriptions are not
    modelled. *)
Definition init_ms_cal_file (version : string) : cal_table :=
  fold_left (fun ms kv => putkeyword ms (fst kv) (KwStr (snd kv)))
    [("ParType", "Complex"); ("MSName", "unknown"); ("VisCal", "unknown");
     ("PolBasis", "unknown"); ("CASA_Version", "unknown")]
    {| info := {| type := "Calibration";
                  subType := "G Jones";
                  readme := "Written with pyuvdata version: " ++ version ++ "." |};
       keywords := [] |}.

(** [d.pop(key)] for a key of [d]: the value and what is left. *)
Definition dict_pop {V} (d : list (string * V)) (key : string)
  : option V * list (string * V) :=
  (dict_get String.eqb d key,
   filter (fun kv => negb (String.eqb (fst kv) key)) d).

(** The part of [write_ms_cal] on the info and the keywords of the table
    that [init_ms_cal_file] made. *)
Definition write_cal_header (cal_type : string) (wide_band : bool)
  (extra_keywords : list (string * keyword_value)) (x_orientation : option string)
  (ms : cal_table) : result cal_table :=
  if String.eqb cal_type "gain" then
    let casa_subtype := if wide_band then "G Jones" else "B Jones" in
    let ms := {| info := {| type := ms.(info).(type);
                            subType := casa_subtype;
                            readme := ms.(info).(readme) |};
                 keywords := ms.(keywords) |} in
    let ms := putkeyword ms "VisCal" (KwStr casa_subtype) in
    let ms :=
      if negb (List.length extra_keywords =? 0)%nat then
        let '(ms, extra_copy) :=
          fold_left
            (fun (acc : cal_table * list (string * keyword_value)) key =>
               let (ms, extra_copy) := acc in
               match dict_get String.eqb extra_keywords key with
               | Some _ =>
                   match dict_pop extra_copy key with
                   | (Some value, rest) => (putkeyword ms key value, rest)
                   | (None, rest) => (ms, rest)
                   end
               | None => (ms, extra_copy)
               end)
            ["CASA_Version"; "MSName"] (ms, extra_keywords) in
        if negb (List.length extra_copy =? 0)%nat
        then putkeyword ms "pyuvdata_extra" (KwDict extra_copy)
        else ms
      else ms in
    let ms :=
      match x_orientation with
      | Some x => putkeyword ms "pyuvdata_xorient" (KwStr x)
      | None => ms
      end in
    Ok ms
  else Raise (NotImplementedError "Sorry, still working on this...").

(** What [read_ms_cal] takes from the info and the keywords. *)
Record header_read : Type := {
  wide_band : bool;
  cal_type : string;
  extra_keywords : list (string * keyword_value);
  jones_array : list Z;
  x_orientation : string
}.

(** The parts of [read_ms_cal] on the info and the keywords of the main
    table, in the order of the code; the tables read in between are left
    out.  [extra_keywords0] is the object's [extra_keywords] before the
    call and [Njones] the second dimension of the first CPARAM cell. *)
Definition read_cal_header (tb_main : cal_table)
  (extra_keywords0 : list (string * keyword_value)) (Njones : nat)
  : FieldObs.T header_read :=
  let main_info_dict := tb_main.(info) in
  if String.eqb main_info_dict.(type) "Measurement Set" then
    FieldObs.traise
      (FieldObs.PyError
         (ValueError ("This seems to be a Measurement Set containing visibilities, "
                      ++ "not a calibration table.")))
  else
    FieldObs.tbind
      (if String.eqb main_info_dict.(subType) "G Jones" then
         FieldObs.tret (true, "gain")
       else if String.eqb main_info_dict.(subType) "B Jones" then
         FieldObs.tret (false, "gain")
       else if String.eqb main_info_dict.(subType) "K Jones" then
         FieldObs.traise
           (FieldObs.PyError (NotImplementedError "No support yet for delay solutions."))
       else
         (["Cannot recognize solution type, treating as wideband gain solutions."],
          FieldObs.TOk (true, "gain")))
      (fun kind =>
         let main_keywords := tb_main.(keywords) in
         let extra :=
           fold_left
             (fun extra keyword =>
                match dict_get String.eqb main_keywords keyword with
                | Some value => dict_set String.eqb extra keyword value
                | None => extra
                end)
             ["CASA_Version"; "MSName"] extra_keywords0 in
         match dict_get String.eqb main_keywords "PolBasis" with
         | None => FieldObs.traise (FieldObs.KeyError "PolBasis")
         | Some (KwDict _) =>
             FieldObs.traise
               (FieldObs.PyError
                  (AttributeError "'dict' object has no attribute 'lower'"))
         | Some (KwStr basis) =>
             if String.eqb (Str.lower basis) "unknown" then
               (["Unknown polarization basis for solutions, jones_array values "
                 ++ "may be spurious."],
                FieldObs.TOk {| wide_band := fst kind;
                                cal_type := snd kind;
                                extra_keywords := extra;
                                jones_array := repeat 0%Z Njones;
                                x_orientation := "east" |})
             else
               FieldObs.traise
                 (FieldObs.PyError
                    (NotImplementedError "Not sure how to read this file yet..."))
         end).

(** *** The reference antenna *)

(** The antenna names kept by [read_ms_cal]: the station names when the
    names repeat or one of them is empty. *)
Definition choose_antenna_names (antenna_names station_names : list string)
  : list string :=
  if negb (List.length antenna_names
           =? List.length (Np.unique_by String.eqb String.ltb antenna_names))%nat
     || existsb (String.eqb "") antenna_names
  then station_names
  else antenna_names.

(** [ref_antenna_name] from the column ANTENNA2. *)
Definition read_ref_antenna (antenna_names : list string) (antenna_numbers : list nat)
  (ref_ant_array : list nat) : W string :=
  match ref_ant_array with
  | [] => raise (IndexError "index 0 is out of bounds for axis 0 with size 0")
  | first :: _ =>
      (when (negb (Np.all (map (Nat.eqb first) ref_ant_array)))
         (warn ("Multiple ref ants detected, which UVCal cannot handle. Using the "
                ++ "first entry as the default")) ;;;
       match Np.where_ (map (fun num => Nat.eqb num first) antenna_numbers) with
       | [] => raise (IndexError "index 0 is out of bounds for axis 0 with size 0")
       | position :: _ =>
           match nth_error antenna_names position with
           | Some name => ret name
           | None => raise (IndexError "list index out of range")
           end
       end)%py
  end.

(** *** Phase center ids *)

(** [[field_id_map[idx] for idx in self.phase_center_id_array]] with
    [field_id_map = dict(enumerate(self.phase_center_catalog))];
    [catalog] holds the keys of the catalog in order. *)
Fixpoint read_phase_center_ids (catalog : list Z) (field_rows : list Z)
  : FieldObs.tresult (list Z) :=
  match field_rows with
  | [] => FieldObs.TOk []
  | idx :: rest =>
      match (if (0 <=? idx)%Z then nth_error catalog (Z.to_nat idx) else None) with
      | None => FieldObs.TRaise (FieldObs.KeyError (Str.of_int idx))
      | Some cat_id =>
          match read_phase_center_ids catalog rest with
          | FieldObs.TOk ids => FieldObs.TOk (cat_id :: ids)
          | FieldObs.TRaise e => FieldObs.TRaise e
          end
      end
  end.

End CalHeader.

(** ** Sample inputs *)

Module Samples.

Open Scope string_scope.

(** A wide-band solution: two times, two spectral windows, antennas 0
    and 2. *)
Definition wide_band_cal : MsCal.UVCal :=
  {| MsCal.cal_type := "gain";
     MsCal.wide_band := true;
     MsCal.Ntimes := 2;
     MsCal.Nfreqs := 2;
     MsCal.Nspws := 2;
     MsCal.antenna_numbers := [0; 2]%nat;
     MsCal.antenna_names := ["ant0"; "ant2"];
     MsCal.ref_antenna_name := "ant2";
     MsCal.time_array := [2460000 # 1; 4920001 # 2]%Q;
     MsCal.integration_time := [10 # 1; 12 # 1]%Q;
     MsCal.scan_number_array := Some [1; 2]%Z;
     MsCal.phase_center_id_array := Some [7; 3]%Z;
     MsCal.phase_center_catalog := [3; 7]%Z |}.

(** A solution of one channel per spectral window: three times, two
    windows, antennas 0 and 2. *)
Definition three_time_cal : MsCal.UVCal :=
  {| MsCal.cal_type := "gain";
     MsCal.wide_band := false;
     MsCal.Ntimes := 3;
     MsCal.Nfreqs := 2;
     MsCal.Nspws := 2;
     MsCal.antenna_numbers := [0; 2]%nat;
     MsCal.antenna_names := ["ant0"; "ant2"];
     MsCal.ref_antenna_name := "ant0";
     MsCal.time_array := [2460000 # 1; 4920001 # 2; 2460001 # 1]%Q;
     MsCal.integration_time := [10 # 1; 12 # 1; 8 # 1]%Q;
     MsCal.scan_number_array := Some [1; 2; 2]%Z;
     MsCal.phase_center_id_array := None;
     MsCal.phase_center_catalog := [3; 7]%Z |}.

(** Raw timestamps (seconds) that repeat exactly. *)
Definition repeated_times : list Q := [100 # 1; 200 # 1; 100 # 1; 200 # 2; 300 # 1]%Q.

(** An ANTENNA table of four rows in which rows 1 and 3 are padding. *)
Definition sparse_antenna_table : MsUtils.antenna_table :=
  {| MsUtils.NAME := ["HH0"; ""; "HH2"; ""];
     MsUtils.STATION := ["pad0"; ""; "pad2"; ""];
     MsUtils.POSITION := [(5109360 # 1, 2006852 # 1, - (3238948 # 1));
                          (0, 0, 0);
                          (5109374 # 1, 2006852 # 1, - (3238948 # 1));
                          (0, 0, 0)]%Q;
     MsUtils.DISH_DIAMETER := [14 # 1; 0; 14 # 1; 0]%Q;
     MsUtils.MEASINFO_Ref := "ITRF" |}.

(** What [read_ms_ant] makes of it. *)
Definition sparse_antenna_dict : MsUtils.ant_dict :=
  {| MsUtils.antenna_positions := [(5109360 # 1, 2006852 # 1, - (3238948 # 1));
                                   (5109374 # 1, 2006852 # 1, - (3238948 # 1))]%Q;
     MsUtils.antenna_numbers := [0; 2]%nat;
     MsUtils.telescope_frame := "itrs";
     MsUtils.antenna_names := ["HH0"; "HH2"];
     MsUtils.station_names := ["pad0"; "pad2"];
     MsUtils.antenna_diameters := [14 # 1; 14 # 1]%Q |}.

(** Rows of a HISTORY table: one written by CASA, one by pyuvdata. *)
Definition foreign_history_rows : list MsUtils.history_row :=
  [ {| MsUtils.APP_PARAMS := "vis=x.uvfits"; MsUtils.CLI_COMMAND := "importuvfits";
       MsUtils.APPLICATION := "casa"; MsUtils.MESSAGE := "imported";
       MsUtils.OBJECT_ID := 0; MsUtils.OBSERVATION_ID := -1;
       MsUtils.ORIGIN := "importuvfits"; MsUtils.PRIORITY := "INFO";
       MsUtils.TIME := 50000000010 # 10 |} ].

Definition pyuvdata_history_rows : list MsUtils.history_row :=
  [ MsUtils.pyuvdata_row "Read/written with pyuvdata version: 3.0." (5000000002 # 1) ].

(** A SPECTRAL_WINDOW table of two rows without the column
    ASSOC_SPW_ID. *)
Definition two_row_spw_table : SpectralWindow.spw_table :=
  {| SpectralWindow.has_assoc_spw_id := false;
     SpectralWindow.spw_rows :=
       [ {| SpectralWindow.NUM_CHAN := 2;
            SpectralWindow.NAME := "SPW7";
            SpectralWindow.ASSOC_SPW_ID := 7;
            SpectralWindow.ASSOC_NATURE := "";
            SpectralWindow.CHAN_FREQ := [100 # 1; 101 # 1]%Q;
            SpectralWindow.CHAN_WIDTH := [1; 1]%Q;
            SpectralWindow.EFFECTIVE_BW := [1; 1]%Q;
            SpectralWindow.TOTAL_BANDWIDTH := 2;
            SpectralWindow.RESOLUTION := [1; 1]%Q;
            SpectralWindow.MEAS_FREQ_REF := 5;
            SpectralWindow.REF_FREQUENCY := 100 # 1 |};
         {| SpectralWindow.NUM_CHAN := 1;
            SpectralWindow.NAME := "SPW3";
            SpectralWindow.ASSOC_SPW_ID := 3;
            SpectralWindow.ASSOC_NATURE := "";
            SpectralWindow.CHAN_FREQ := [200 # 1]%Q;
            SpectralWindow.CHAN_WIDTH := [2 # 1]%Q;
            SpectralWindow.EFFECTIVE_BW := [2 # 1]%Q;
            SpectralWindow.TOTAL_BANDWIDTH := 2;
            SpectralWindow.RESOLUTION := [2 # 1]%Q;
            SpectralWindow.MEAS_FREQ_REF := 5;
            SpectralWindow.REF_FREQUENCY := 100 # 1 |} ] |}.

(** Rows of the main table of a calibration table: three distinct
    timestamps, one row of an antenna that is not in the ANTENNA table
    (5) and one of a spectral window without a slice (3). *)
Definition solution_rows : list MsCalRead.main_row :=
  [ {| MsCalRead.ANTENNA1 := 0; MsCalRead.TIME := 100 # 1; MsCalRead.FIELD_ID := 0;
       MsCalRead.SCAN_NUMBER := 1; MsCalRead.INTERVAL := 10 # 1;
       MsCalRead.SPECTRAL_WINDOW_ID := 0 |};
    {| MsCalRead.ANTENNA1 := 2; MsCalRead.TIME := 200 # 1; MsCalRead.FIELD_ID := 1;
       MsCalRead.SCAN_NUMBER := 2; MsCalRead.INTERVAL := 12 # 1;
       MsCalRead.SPECTRAL_WINDOW_ID := 1 |};
    {| MsCalRead.ANTENNA1 := 5; MsCalRead.TIME := 100 # 1; MsCalRead.FIELD_ID := 4;
       MsCalRead.SCAN_NUMBER := 9; MsCalRead.INTERVAL := 1 # 1;
       MsCalRead.SPECTRAL_WINDOW_ID := 0 |};
    {| MsCalRead.ANTENNA1 := 2; MsCalRead.TIME := 200 # 2; MsCalRead.FIELD_ID := 0;
       MsCalRead.SCAN_NUMBER := 1; MsCalRead.INTERVAL := 10 # 1;
       MsCalRead.SPECTRAL_WINDOW_ID := 0 |};
    {| MsCalRead.ANTENNA1 := 0; MsCalRead.TIME := 300 # 1; MsCalRead.FIELD_ID := 1;
       MsCalRead.SCAN_NUMBER := 3; MsCalRead.INTERVAL := 12 # 1;
       MsCalRead.SPECTRAL_WINDOW_ID := 3 |} ]%Q.

(** The slices of two spectral windows of two and one channels. *)
Definition two_window_slices : list (nat * (nat * nat)) :=
  [(0, (0, 2)); (1, (2, 3))]%nat.

(** Rows whose timestamps are those of [MsCal.raw_times]. *)
Definition close_time_rows : list MsCalRead.main_row :=
  map (fun t => {| MsCalRead.ANTENNA1 := 0; MsCalRead.TIME := t;
                   MsCalRead.FIELD_ID := 0; MsCalRead.SCAN_NUMBER := 1;
                   MsCalRead.INTERVAL := 10 # 1;
                   MsCalRead.SPECTRAL_WINDOW_ID := 0 |})
      MsCal.raw_times.

End Samples.

(* ===================================================================== *)
(** * Part II: properties                                                 *)
(* ===================================================================== *)

Module MsUtilsFacts.
Import MsUtils.
Open Scope string_scope.

(** C2. Frame round trip: for every (frame, epoch) pair of the supported
    set, the forward translation succeeds without a warning and gives a
    CASA reference code whose inverse translation is exactly that pair. *)
Theorem frame_round_trip :
  forall (frame : string) (epoch : Q) (raise_error raise_error' : bool),
    In (frame, epoch) supported_frames ->
    exists ref_name,
      _parse_pyuvdata_frame_ref frame (Some epoch) raise_error
        = ([], Ok (Some ref_name)) /\
      _parse_casa_frame_ref ref_name raise_error'
        = ([], Ok (Some frame, Some epoch)).
Proof.
  intros frame epoch re re' Hin.
  unfold supported_frames in Hin; simpl in Hin.
  repeat (destruct Hin as [Hin | Hin];
          [ inversion Hin; subst; eexists; split; reflexivity | ]).
  contradiction.
Qed.

Lemma frame_round_trip_witness :
  In ("fk4", 1979%Q) supported_frames /\
  exists ref_name,
    _parse_pyuvdata_frame_ref "fk4" (Some 1979%Q) true = ([], Ok (Some ref_name)) /\
    _parse_casa_frame_ref ref_name true = ([], Ok (Some "fk4", Some 1979%Q)).
Proof.
  split.
  - simpl. right; right; right; left. reflexivity.
  - apply (@frame_round_trip "fk4" 1979%Q true true).
    simpl. right; right; right; left. reflexivity.
Defined.

End MsUtilsFacts.

Module MsCalFacts.
Import MsCal.
Open Scope string_scope.

(** Every flat per-row column of the layout has one entry per
    (spectral window, time, padded antenna). *)
Lemma tile_length : forall (A : Type) (a : list A) (n : nat),
  List.length (Np.tile a n) = (n * List.length a)%nat.
Proof.
  induction n as [| n IH]; simpl; [reflexivity |].
  rewrite length_app, IH. reflexivity.
Qed.

Lemma repeat_each_length : forall (A : Type) (a : list A) (n : nat),
  List.length (Np.repeat_each a n) = (List.length a * n)%nat.
Proof.
  induction a as [| x a IH]; intros n; simpl; [reflexivity |].
  unfold Np.repeat_each in *. simpl.
  rewrite length_app, repeat_length, IH. reflexivity.
Qed.

Lemma write_ms_cal_columns_fill_budget :
  forall cal ex clobber layout budget,
    write_ms_cal cal ex clobber = Ok layout ->
    row_budget cal = Ok budget ->
    List.length layout.(ANTENNA1) = budget /\
    List.length layout.(ANTENNA2) = budget /\
    List.length layout.(SPECTRAL_WINDOW_ID) = budget /\
    List.length layout.(OBSERVATION_ID) = budget /\
    fold_right (fun seg acc => (snd seg + acc)%nat) 0%nat layout.(spw_segments) = budget.
Proof.
  intros cal ex clobber layout budget Hw Hb.
  unfold write_ms_cal, row_budget in *.
  destruct (ex && negb clobber); [discriminate |].
  destruct (negb (cal_type cal =? "gain")); [discriminate |].
  destruct (Nants_casa cal) as [n |]; simpl in *; [| discriminate].
  destruct (list_index _ _) as [ri |]; simpl in *; [| discriminate].
  destruct (getitem _ ri) as [refant |]; simpl in *; [| discriminate].
  inversion Hw; subst layout; clear Hw. inversion Hb; subst budget; clear Hb.
  simpl.
  rewrite !length_map, !tile_length, !repeat_each_length.
  unfold Np.arange. rewrite !length_seq.
  repeat split; try lia.
  generalize 0%nat at 2.
  induction (Nspws cal) as [| k IH]; intros s; simpl; [lia |].
  rewrite IH. lia.
Qed.

(** The rows added up front are counted with [Nfreqs]. *)
Lemma write_ms_cal_rows_added :
  forall cal ex clobber layout n,
    write_ms_cal cal ex clobber = Ok layout ->
    Nants_casa cal = Ok n ->
    layout.(rows_added) = (cal.(Ntimes) * cal.(Nfreqs) * n)%nat.
Proof.
  intros cal ex clobber layout n Hw Hn.
  unfold write_ms_cal in Hw.
  destruct (ex && negb clobber); [discriminate |].
  destruct (negb (cal_type cal =? "gain")); [discriminate |].
  rewrite Hn in Hw. simpl in Hw.
  destruct (list_index _ _) as [ri |]; simpl in Hw; [| discriminate].
  destruct (getitem _ ri) as [refant |]; simpl in Hw; [| discriminate].
  inversion Hw; subst layout. reflexivity.
Qed.

(** C1. On a bandpass object with one spectral window of two channels the
    rows added up front are [Ntimes * Nfreqs * Nants_casa = 2], while the
    row budget [Ntimes * Nspws * Nants_casa], which is the length of the
    columns written and the sum of the per-window segments, is 1. *)
Theorem write_ms_cal_rows_bandpass :
  exists layout,
    write_ms_cal bandpass_cal false false = Ok layout /\
    layout.(rows_added) = 2%nat /\
    row_budget bandpass_cal = Ok 1%nat /\
    List.length layout.(ANTENNA1) = 1%nat /\
    layout.(spw_segments) = [(0%nat, 1%nat)].
Proof.
  eexists. split; [reflexivity |]. simpl. repeat split; reflexivity.
Qed.

(** C3. On four raw timestamps forming two close pairs, the second pair's
    later member is given the position of its match among the keys of
    [time_dict] (2), not that key's time index (1): the row map is
    [0; 0; 1; 2] while [Ntimes] is 2, so its last entry is no valid index
    into the time arrays. *)
Theorem time_index_beyond_Ntimes :
  (build_time_index time_tols raw_times).(row_timeidx_map) = [0; 0; 1; 2]%nat /\
  Ntimes_read time_tols raw_times = 2%nat /\
  Np.isclose (200 # 1) (2000000001 # 10000000)
             (fst time_tols * 86400) (snd time_tols * 86400) = true /\
  ~ Forall (fun idx => (idx < Ntimes_read time_tols raw_times)%nat)
           (build_time_index time_tols raw_times).(row_timeidx_map).
Proof.
  assert (Hmap : (build_time_index time_tols raw_times).(row_timeidx_map)
                 = [0; 0; 1; 2]%nat) by (vm_compute; reflexivity).
  assert (Hn : Ntimes_read time_tols raw_times = 2%nat) by (vm_compute; reflexivity).
  split; [exact Hmap |]. split; [exact Hn |]. split; [vm_compute; reflexivity |].
  rewrite Hmap, Hn. intros HF.
  inversion HF as [| ? ? _ HF1]; subst.
  inversion HF1 as [| ? ? _ HF2]; subst.
  inversion HF2 as [| ? ? _ HF3]; subst.
  inversion HF3 as [| ? ? Hlt _]; subst.
  lia.
Qed.

End MsCalFacts.

Module AntennaFacts.
Import MsUtils.
Open Scope string_scope.

Lemma insert_uniq_not_nil : forall (x : Q) (l : list Q),
  Np.insert_uniq Qeq_bool Np.Qlt_bool x l <> [].
Proof.
  intros x [| y l]; simpl; [discriminate |].
  destruct (Qeq_bool x y); [discriminate |].
  destruct (Np.Qlt_bool x y); discriminate.
Qed.

Lemma insert_uniq_singleton : forall (x y : Q) (l : list Q),
  Np.insert_uniq Qeq_bool Np.Qlt_bool x l = [y] ->
  (x == y)%Q /\ (l = [] \/ l = [y]).
Proof.
  intros x y [| z l]; simpl; intros H.
  - inversion H; subst. split; [reflexivity | left; reflexivity].
  - destruct (Qeq_bool x z) eqn:E.
    + inversion H; subst. apply Qeq_bool_iff in E. split; [exact E | right; reflexivity].
    + destruct (Np.Qlt_bool x z); [discriminate |].
      inversion H as [[Hz Hl]]. exfalso. exact (insert_uniq_not_nil _ _ Hl).
Qed.

(** When [np.unique] leaves one value, every entry equals it. *)
Lemma unique_Q_singleton : forall (l : list Q) (y : Q),
  Np.unique_Q l = [y] -> Forall (fun x => (x == y)%Q) l.
Proof.
  induction l as [| x l IH]; intros y H; [constructor |].
  unfold Np.unique_Q, Np.unique_by in H; simpl in H.
  apply insert_uniq_singleton in H. destruct H as [Hx [Hl | Hl]].
  - constructor; [exact Hx |].
    destruct l as [| z l]; [constructor |].
    simpl in Hl. exfalso. exact (insert_uniq_not_nil _ _ Hl).
  - constructor; [exact Hx | apply IH; exact Hl].
Qed.

(** C5 (as amended). In the frame "itrs" or "mcmf", antennas numbered 0,
    2 and 5 whose stored positions (the position handed to the writer
    plus the telescope location) are not the zero vector are written to
    a table of six rows in which rows 1, 3 and 4 have a zero position,
    and are read back as exactly the numbers 0, 2, 5 with their names
    (also as station names), their stored positions, their diameters and
    the frame. *)
Theorem antenna_round_trip_0_2_5 :
  forall (n0 n2 n5 : string) (p0 p2 p5 : vec3) (d0 d2 d5 : Q)
         (tel : vec3) (frame : string),
    frame = "itrs" \/ frame = "mcmf" ->
    vec3_any (vec3_add p0 tel) = true ->
    vec3_any (vec3_add p2 tel) = true ->
    vec3_any (vec3_add p5 tel) = true ->
    exists tb ant,
      write_ms_antenna [0; 2; 5]%nat [n0; n2; n5] [p0; p2; p5]
                       (Some [d0; d2; d5]) tel frame = Ok tb /\
      List.length tb.(POSITION) = 6%nat /\
      map vec3_any tb.(POSITION) = [true; false; true; false; false; true] /\
      read_ms_ant (Some tb) true = Ok ant /\
      ant.(antenna_numbers) = [0; 2; 5]%nat /\
      ant.(antenna_names) = [n0; n2; n5] /\
      ant.(station_names) = [n0; n2; n5] /\
      ant.(antenna_positions) = [vec3_add p0 tel; vec3_add p2 tel; vec3_add p5 tel] /\
      Forall2 Qeq ant.(antenna_diameters) [d0; d2; d5] /\
      ant.(telescope_frame) = frame.
Proof.
  intros n0 n2 n5 p0 p2 p5 d0 d2 d5 tel frame Hframe H0 H2 H5.
  unfold write_ms_antenna. simpl Np.max. cbn [rbind].
  cbn [scatter repeat Nat.add Nat.max fold_left List.length Nat.ltb Nat.leb
       Np.set_nth map rbind].
  destruct (List.length (Np.unique_Q [d0; d2; d5]) =? 1)%nat eqn:Hu.
  - (* one diameter for all rows *)
    apply Nat.eqb_eq in Hu.
    destruct (Np.unique_Q [d0; d2; d5]) as [| y [| z l]] eqn:Hy; try discriminate.
    apply unique_Q_singleton in Hy.
    inversion Hy as [| ? ? E0 Hy1]; subst.
    inversion Hy1 as [| ? ? E2 Hy2]; subst.
    inversion Hy2 as [| ? ? E5 _]; subst.
    cbn [rbind repeat].
    destruct Hframe as [Hf | Hf]; rewrite Hf;
      (eexists; eexists; split; [reflexivity |];
       unfold read_ms_ant;
       cbn [POSITION NAME STATION DISH_DIAMETER MEASINFO_Ref map List.length];
       rewrite H0, H2, H5;
       change (vec3_any vec3_zero) with false;
       repeat split; try reflexivity;
       change (Forall2 Qeq [d0; d0; d0] [d0; d2; d5]); constructor;
       [ reflexivity
       | constructor;
         [ rewrite E0, E2; reflexivity
         | constructor; [ rewrite E0, E5; reflexivity | constructor ] ] ]).
  - (* diameters stored antenna by antenna *)
    cbn [scatter repeat Nat.add Nat.max fold_left List.length Nat.ltb Nat.leb
         Np.set_nth map rbind].
    destruct Hframe as [Hf | Hf]; rewrite Hf;
      (eexists; eexists; split; [reflexivity |];
       unfold read_ms_ant;
       cbn [POSITION NAME STATION DISH_DIAMETER MEASINFO_Ref map List.length];
       rewrite H0, H2, H5;
       change (vec3_any vec3_zero) with false;
       repeat split; try reflexivity;
       change (Forall2 Qeq [d0; d2; d5] [d0; d2; d5]); constructor;
       [ reflexivity
       | constructor;
         [ reflexivity | constructor; [ reflexivity | constructor ] ] ]).
Qed.

End AntennaFacts.

Module AntennaWitness.
Import MsUtils AntennaFacts.
Open Scope string_scope.

Lemma antenna_round_trip_0_2_5_witness :
  let tel : vec3 := (5109360 # 1, 2006852 # 1, - (3238948 # 1))%Q in
  let p0 : vec3 := (0, 0, 0)%Q in
  let p2 : vec3 := (14 # 1, 0, 0)%Q in
  let p5 : vec3 := (0, - (28 # 1), 1 # 2)%Q in
  vec3_any (vec3_add p0 tel) = true /\
  vec3_any (vec3_add p2 tel) = true /\
  vec3_any (vec3_add p5 tel) = true /\
  exists tb ant,
    write_ms_antenna [0; 2; 5]%nat ["HH0"; "HH2"; "HH5"] [p0; p2; p5]
                     (Some [14 # 1; 14 # 1; 12 # 1]%Q) tel "itrs" = Ok tb /\
    List.length tb.(POSITION) = 6%nat /\
    map vec3_any tb.(POSITION) = [true; false; true; false; false; true] /\
    read_ms_ant (Some tb) true = Ok ant /\
    ant.(antenna_numbers) = [0; 2; 5]%nat /\
    ant.(antenna_names) = ["HH0"; "HH2"; "HH5"] /\
    ant.(station_names) = ["HH0"; "HH2"; "HH5"] /\
    ant.(antenna_positions) = [vec3_add p0 tel; vec3_add p2 tel; vec3_add p5 tel] /\
    Forall2 Qeq ant.(antenna_diameters) [14 # 1; 14 # 1; 12 # 1]%Q /\
    ant.(telescope_frame) = "itrs".
Proof.
  intros tel p0 p2 p5.
  split; [reflexivity |]. split; [reflexivity |]. split; [reflexivity |].
  apply (@antenna_round_trip_0_2_5 "HH0" "HH2" "HH5" p0 p2 p5
           (14 # 1)%Q (14 # 1)%Q (12 # 1)%Q tel "itrs").
  - left; reflexivity.
  - reflexivity.
  - reflexivity.
  - reflexivity.
Defined.

(** C5, the claim as stated fails: the reader tells an antenna from a
    padding row by its stored position alone.  Antenna 0 handed to the
    writer at minus the telescope location is stored at the zero vector,
    and the numbers read back are 2 and 5 only; and in a frame other
    than "itrs" and "mcmf" the table written cannot be read back. *)
Lemma antenna_round_trip_zero_position :
  exists tb ant,
    write_ms_antenna [0; 2; 5]%nat ["HH0"; "HH2"; "HH5"]
      [(- (5109360 # 1), - (2006852 # 1), 3238948 # 1);
       (14 # 1, 0, 0); (0, - (28 # 1), 1 # 2)]%Q
      (Some [14 # 1; 14 # 1; 12 # 1]%Q)
      (5109360 # 1, 2006852 # 1, - (3238948 # 1))%Q "itrs" = Ok tb /\
    map vec3_any tb.(POSITION) = [false; false; true; false; false; true] /\
    read_ms_ant (Some tb) true = Ok ant /\
    ant.(antenna_numbers) = [2; 5]%nat /\
    ant.(antenna_names) = ["HH2"; "HH5"] /\
    (exists tb' msg,
       write_ms_antenna [0; 2; 5]%nat ["HH0"; "HH2"; "HH5"]
         [(0, 0, 0); (14 # 1, 0, 0); (0, - (28 # 1), 1 # 2)]%Q
         (Some [14 # 1; 14 # 1; 12 # 1]%Q)
         (5109360 # 1, 2006852 # 1, - (3238948 # 1))%Q "gcrs" = Ok tb' /\
       read_ms_ant (Some tb') true = Raise (ValueError msg)).
Proof.
  eexists. eexists. split; [reflexivity |].
  split; [reflexivity |]. split; [reflexivity |].
  split; [reflexivity |]. split; [reflexivity |].
  eexists. eexists. split; reflexivity.
Qed.

End AntennaWitness.

Module HistoryFacts.
Import MsUtils.
Open Scope string_scope.

Lemma prefix_refl : forall s : string, String.prefix s s = true.
Proof.
  induction s as [| c s IH]; simpl; [reflexivity |].
  destruct (ascii_dec c c) as [_ | Hne]; [exact IH | contradiction].
Qed.

Lemma contains_refl : forall s : string, Str.contains s s = true.
Proof.
  intros s. destruct s; simpl; [reflexivity |].
  change (String.prefix (String a s) (String a s) || Str.contains (String a s) s = true).
  rewrite prefix_refl. reflexivity.
Qed.

(** A string ending with [v] contains [v]. *)
Lemma contains_app_r : forall h v : string, Str.contains v (h ++ v) = true.
Proof.
  induction h as [| c h IH]; intros v.
  - apply contains_refl.
  - change (String.prefix v (String c (h ++ v)) || Str.contains v (h ++ v) = true).
    rewrite IH. apply orb_true_r.
Qed.

(** Without the header of a structured block every line of the history
    becomes one row of pyuvdata's own. *)
Lemma write_ms_history_plain :
  forall py_int np_float64 now history,
    Str.contains ms_header history = false ->
    write_ms_history py_int np_float64 now history =
    ([], Ok (map (fun e => pyuvdata_row (snd e) (now (fst e)))
                 (Str.enumerate (Str.splitlines history)))).
Proof.
  intros py_int np_float64 now history H.
  unfold write_ms_history. cbn [ms_history]. rewrite H. reflexivity.
Qed.

(** C4. For a history whose structured block has a well-formed row and
    then a line of one field, the writer warns and records every line as
    a row of pyuvdata's own, but the row parsed before the malformed line
    stays in front of them: the first row is attributed to "casa". *)
Theorem write_ms_history_keeps_parsed_rows :
  exists rows,
    write_ms_history Str.dec_int Str.dec_float test_clock mangled_history
      = ([parse_failure_warning], Ok rows) /\
    map APPLICATION rows =
      ["casa"; "pyuvdata"; "pyuvdata"; "pyuvdata"; "pyuvdata"; "pyuvdata"] /\
    map MESSAGE rows =
      "imported" :: Str.splitlines mangled_history /\
    map ORIGIN rows =
      ["importuvfits"; "pyuvdata"; "pyuvdata"; "pyuvdata"; "pyuvdata"; "pyuvdata"] /\
    ~ Forall (fun r => r.(APPLICATION) = "pyuvdata") rows.
Proof.
  eexists. split; [vm_compute; reflexivity |].
  split; [vm_compute; reflexivity |].
  split; [vm_compute; reflexivity |].
  split; [vm_compute; reflexivity |].
  intros HF. inversion HF as [| ? ? Happ _]; subst. simpl in Happ. discriminate.
Qed.

(** C10. Provided the version check accepts every history that ends with
    the supplied version string, the history reader returns, for every
    HISTORY table, a string that passes the check: the assembled history
    itself when it passes already, and otherwise the assembled history
    followed by the version string. *)
Theorem read_ms_hist_records_version :
  forall (str_float : Q -> string) (check : string -> string -> bool)
         (version : string),
    (forall h, check (h ++ version) version = true) ->
    forall (tb : history_table) (check_origin : bool),
    exists h,
      read_ms_hist str_float check (Some tb) version check_origin
        = Ok (h, if check_origin
                 then Some (snd (assemble_history str_float tb)) else None) /\
      check h version = true /\
      h = (if check (fst (assemble_history str_float tb)) version
           then fst (assemble_history str_float tb)
           else fst (assemble_history str_float tb) ++ version).
Proof.
  intros str_float check version Happ tb check_origin.
  unfold read_ms_hist.
  destruct (assemble_history str_float tb) as [hist written] eqn:Hasm.
  cbn [fst snd].
  destruct (check hist version) eqn:Hc; cbn [negb].
  - exists hist. destruct check_origin; repeat split; assumption || reflexivity.
  - exists (hist ++ version).
    destruct check_origin; repeat split; try reflexivity; apply Happ.
Qed.

Lemma read_ms_hist_records_version_witness :
  (forall h, contains_version (h ++ version_str) version_str = true) /\
  exists h,
    read_ms_hist str_whole_float contains_version
                 (Some casa_history_table) version_str false = Ok (h, None) /\
    contains_version h version_str = true /\
    h = (if contains_version (fst (assemble_history str_whole_float casa_history_table))
                             version_str
         then fst (assemble_history str_whole_float casa_history_table)
         else fst (assemble_history str_whole_float casa_history_table) ++ version_str).
Proof.
  split.
  - intros h. apply contains_app_r.
  - apply (@read_ms_hist_records_version str_whole_float contains_version
             version_str (fun h => contains_app_r h version_str)
             casa_history_table false).
Defined.

End HistoryFacts.

Module FrequencyCheckFacts.
Import Frequency.
Open Scope string_scope.

Lemma array_eq_refl : forall u : list Z,
  array_eq u u = Ok (map (fun xy => Z.eqb (fst xy) (snd xy)) (combine u u)) /\
  Np.all (map (fun xy => Z.eqb (fst xy) (snd xy)) (combine u u)) = true.
Proof.
  intros u. split.
  - unfold array_eq. rewrite Nat.eqb_refl. reflexivity.
  - unfold Np.all. induction u as [| x u IH]; simpl; [reflexivity |].
    rewrite Z.eqb_refl. exact IH.
Qed.

(** On an object whose channels carry exactly the window ids of
    [spw_array], the check is decided by the number of transitions. *)
Lemma contiguous_decided_by_breaks : forall spw_array flex_spw_id_array,
  Np.unique flex_spw_id_array = Np.unique spw_array ->
  _check_flex_spw_contiguous (Some spw_array) (Some flex_spw_id_array) =
  if (n_breaks flex_spw_id_array + 1 =? List.length spw_array)%nat
  then Ok tt else Raise (ValueError interspersed_message).
Proof.
  intros spw flex Hu. unfold _check_flex_spw_contiguous.
  rewrite Hu. destruct (array_eq_refl (Np.unique spw)) as [He Ha].
  rewrite He. cbn [rbind]. rewrite Ha. cbn [negb].
  destruct (n_breaks flex + 1 =? List.length spw)%nat; reflexivity.
Qed.

(** C6 (as amended). When the window ids occurring in the per-channel
    sequence are exactly those of [spw_array], the contiguity check
    passes if and only if the sequence has (number of windows - 1)
    transitions, and raises the [ValueError] of interspersed channels
    otherwise.  [0,0,0,1,1,2,2,2] with [spw_array = [0,1,2]] passes, and
    [0,1,0,1] with the same [spw_array] raises. *)
Theorem contiguity_check_transitions :
  forall spw_array flex_spw_id_array : list Z,
    Np.unique flex_spw_id_array = Np.unique spw_array ->
    (_check_flex_spw_contiguous (Some spw_array) (Some flex_spw_id_array) = Ok tt
     <-> (n_breaks flex_spw_id_array + 1 = List.length spw_array)%nat) /\
    ((n_breaks flex_spw_id_array + 1 <> List.length spw_array)%nat ->
     _check_flex_spw_contiguous (Some spw_array) (Some flex_spw_id_array)
       = Raise (ValueError interspersed_message)) /\
    _check_flex_spw_contiguous (Some [0; 1; 2]%Z) (Some [0; 0; 0; 1; 1; 2; 2; 2]%Z)
      = Ok tt /\
    (exists e, _check_flex_spw_contiguous (Some [0; 1; 2]%Z) (Some [0; 1; 0; 1]%Z)
               = Raise e).
Proof.
  intros spw flex Hu.
  rewrite (contiguous_decided_by_breaks _ _ Hu).
  destruct (n_breaks flex + 1 =? List.length spw)%nat eqn:E.
  - apply Nat.eqb_eq in E. repeat split; try (intros; assumption || reflexivity).
    + intros Hne. contradiction.
    + eexists; reflexivity.
  - apply Nat.eqb_neq in E. repeat split; try reflexivity.
    + intros H; discriminate.
    + intros H; contradiction.
    + eexists; reflexivity.
Qed.

Lemma contiguity_check_transitions_witness :
  Np.unique [0; 0; 1; 2; 2]%Z = Np.unique [2; 0; 1]%Z /\
  (_check_flex_spw_contiguous (Some [2; 0; 1]%Z) (Some [0; 0; 1; 2; 2]%Z) = Ok tt
   <-> (n_breaks [0; 0; 1; 2; 2]%Z + 1 = List.length [2; 0; 1]%Z)%nat).
Proof.
  split; [reflexivity |].
  exact (proj1 (@contiguity_check_transitions [2; 0; 1]%Z [0; 0; 1; 2; 2]%Z eq_refl)).
Defined.

(** C6, the claim as stated fails: a sequence over two windows with
    exactly one transition does not pass, and a sequence with the wrong
    number of transitions raises an [AssertionError], when the ids in the
    sequence are not those of [spw_array]. *)
Lemma contiguity_check_assertion_first :
  (n_breaks [5; 5; 6]%Z + 1 = List.length [0; 1]%Z)%nat /\
  _check_flex_spw_contiguous (Some [0; 1]%Z) (Some [5; 5; 6]%Z)
    = Raise (AssertionError not_in_spw_array_message) /\
  (n_breaks [0; 0]%Z + 1 <> List.length [0; 1]%Z)%nat /\
  _check_flex_spw_contiguous (Some [0; 1]%Z) (Some [0; 0]%Z)
    = Raise (AssertionError not_in_spw_array_message).
Proof.
  repeat split; try reflexivity. vm_compute. discriminate.
Qed.

(** C7. The spacing check reports the two flags separately; asked to
    raise, it raises exactly when one of them is set and otherwise
    returns them.  Evenly spaced channels of matching width give
    (False, False); a gap sets the spacing flag (with or without declared
    widths); a declared width of twice the spacing sets the channel-width
    flag only; unequal widths set the spacing flag only. *)
Theorem freq_spacing_flags :
  (forall freq_array freq_tols channel_width channel_width_tols spw_array flex,
     _check_freq_spacing freq_array freq_tols channel_width channel_width_tols
                         spw_array flex true =
     match _check_freq_spacing freq_array freq_tols channel_width channel_width_tols
                               spw_array flex false with
     | Ok (spacing_error, chanwidth_error) =>
         if spacing_error then Raise (ValueError spacing_message)
         else if chanwidth_error then Raise (ValueError chanwidth_message)
         else Ok (false, false)
     | Raise e => Raise e
     end) /\
  _check_freq_spacing (MHz [100; 101; 102; 103]%Z) default_tols
                      (Some (MHz [1; 1; 1; 1]%Z)) default_tols None None true
    = Ok (false, false) /\
  (exists chanwidth_error,
     _check_freq_spacing (MHz [100; 101; 103; 104]%Z) default_tols
                         (Some (MHz [1; 1; 1; 1]%Z)) default_tols None None false
       = Ok (true, chanwidth_error)) /\
  _check_freq_spacing (MHz [100; 101; 103; 104]%Z) default_tols
                      (Some (MHz [1; 1; 1; 1]%Z)) default_tols None None true
    = Raise (ValueError spacing_message) /\
  _check_freq_spacing (MHz [100; 101; 102]%Z) default_tols
                      (Some (MHz [2; 2; 2]%Z)) default_tols None None false
    = Ok (false, true) /\
  _check_freq_spacing (MHz [100; 101; 102]%Z) default_tols
                      (Some (MHz [2; 2; 2]%Z)) default_tols None None true
    = Raise (ValueError chanwidth_message) /\
  _check_freq_spacing (MHz [100; 101; 102]%Z) default_tols
                      (Some (MHz [1; 2; 1]%Z)) default_tols None None false
    = Ok (true, false) /\
  _check_freq_spacing (MHz [100; 101; 103; 104]%Z) default_tols
                      None default_tols None None false
    = Ok (true, false).
Proof.
  split.
  - intros fa ft cw cwt spw flex. unfold _check_freq_spacing.
    destruct (spacing_flags fa ft cw cwt spw flex) as [[s c] | e]; cbn [rbind];
      [| reflexivity].
    destruct s, c; reflexivity.
  - repeat split; try (vm_compute; reflexivity).
    eexists; vm_compute; reflexivity.
Qed.

End FrequencyCheckFacts.

(** ** Facts about the NumPy operations *)

Module NpFacts.

Section Sorting.
Variable K : Type.
Variable leb : K -> K -> bool.

Lemma insert_key_perm : forall (x : K * nat) (l : list (K * nat)),
  Permutation (Np.insert_key leb x l) (x :: l).
Proof.
  induction l as [| y l IH]; simpl; [apply Permutation_refl |].
  destruct (leb (fst x) (fst y)); [apply Permutation_refl |].
  apply Permutation_trans with (y :: x :: l).
  - apply perm_skip. exact IH.
  - apply perm_swap.
Qed.

Lemma fold_insert_key_perm : forall l : list (K * nat),
  Permutation (fold_right (Np.insert_key leb) [] l) l.
Proof.
  induction l as [| x l IH]; simpl; [apply Permutation_refl |].
  apply Permutation_trans with (x :: fold_right (Np.insert_key leb) [] l).
  - apply insert_key_perm.
  - apply perm_skip. exact IH.
Qed.

Lemma combine_seq_fst : forall (keys : list K) (s : nat),
  map fst (combine keys (seq s (List.length keys))) = keys.
Proof.
  induction keys as [| k keys IH]; intros s; simpl; [reflexivity |].
  rewrite IH. reflexivity.
Qed.

Lemma combine_seq_snd : forall (keys : list K) (s : nat),
  map snd (combine keys (seq s (List.length keys))) = seq s (List.length keys).
Proof.
  induction keys as [| k keys IH]; intros s; simpl; [reflexivity |].
  rewrite IH. reflexivity.
Qed.

(** [np.argsort] returns a rearrangement of the positions. *)
Lemma argsort_perm : forall keys : list K,
  Permutation (Np.argsort_by leb keys) (seq 0 (List.length keys)).
Proof.
  intros keys. unfold Np.argsort_by, Np.sort_keys.
  eapply Permutation_trans.
  - apply Permutation_map. apply fold_insert_key_perm.
  - rewrite combine_seq_snd. apply Permutation_refl.
Qed.

Lemma sort_by_perm : forall keys : list K,
  Permutation (Np.sort_by leb keys) keys.
Proof.
  intros keys. unfold Np.sort_by, Np.sort_keys.
  eapply Permutation_trans.
  - apply Permutation_map. apply fold_insert_key_perm.
  - rewrite combine_seq_fst. apply Permutation_refl.
Qed.

Lemma argsort_length : forall keys : list K,
  List.length (Np.argsort_by leb keys) = List.length keys.
Proof.
  intros keys. rewrite (Permutation_length (argsort_perm keys)). apply length_seq.
Qed.

End Sorting.

Section Indexing.
Variable A : Type.

Lemma flat_map_opt_some : forall l : list A,
  flat_map (fun o : option A => match o with Some x => [x] | None => [] end)
           (map Some l) = l.
Proof.
  induction l as [| x l IH]; simpl; [reflexivity | rewrite IH; reflexivity].
Qed.

Lemma take_spec : forall (a : list A) (idx : list nat) (r : list A),
  Np.take a idx = Ok r <-> map (nth_error a) idx = map Some r.
Proof.
  intros a. induction idx as [| i idx IH]; intros r; simpl.
  - split; intros H.
    + inversion H; reflexivity.
    + destruct r; [reflexivity | discriminate].
  - destruct (nth_error a i) as [x |] eqn:E.
    + destruct (Np.take a idx) as [xs | e] eqn:Et; cbn [rbind].
      * split; intros H.
        -- inversion H; subst. simpl. f_equal. apply IH. reflexivity.
        -- destruct r as [| y r]; [discriminate |]. simpl in H.
           inversion H; subst. apply IH in H2. inversion H2; subst. reflexivity.
      * split; intros H; [discriminate |].
        destruct r as [| y r]; [discriminate |]. simpl in H.
        inversion H; subst. apply IH in H2. discriminate.
    + split; intros H; [discriminate |].
      destruct r; simpl in H; discriminate.
Qed.

Lemma take_total : forall (a : list A) (idx : list nat),
  Forall (fun i => (i < List.length a)%nat) idx ->
  exists r, Np.take a idx = Ok r.
Proof.
  intros a. induction idx as [| i idx IH]; intros H; simpl.
  - eexists; reflexivity.
  - inversion H as [| ? ? Hi Hrest]; subst.
    destruct (nth_error a i) as [x |] eqn:E.
    + destruct (IH Hrest) as [r Hr]. rewrite Hr. eexists; reflexivity.
    + apply nth_error_None in E. lia.
Qed.

Lemma map_nth_error_seq : forall (a : list A),
  map (nth_error a) (seq 0 (List.length a)) = map Some a.
Proof.
  intros a. induction a as [| x a IH] using rev_ind; [reflexivity |].
  rewrite length_app. simpl. rewrite Nat.add_1_r, seq_S, !map_app. simpl.
  rewrite nth_error_app2 by lia. rewrite Nat.sub_diag. simpl.
  f_equal. rewrite <- IH. apply map_ext_in.
  intros i Hi. apply in_seq in Hi. apply nth_error_app1. lia.
Qed.

Lemma take_length : forall (a : list A) (idx : list nat) (r : list A),
  Np.take a idx = Ok r -> List.length r = List.length idx.
Proof.
  intros a idx r H. apply take_spec in H.
  apply (f_equal (@List.length _)) in H. rewrite !length_map in H. symmetry; exact H.
Qed.

(** Indexing an array by a rearrangement of its positions succeeds and
    rearranges the array. *)
Lemma take_perm : forall (a : list A) (idx : list nat),
  Permutation idx (seq 0 (List.length a)) ->
  exists r, Np.take a idx = Ok r /\ Permutation r a.
Proof.
  intros a idx Hp.
  assert (Hall : Forall (fun i => (i < List.length a)%nat) idx).
  { apply Forall_forall. intros i Hi.
    apply (Permutation_in _ Hp) in Hi. apply in_seq in Hi. lia. }
  destruct (@take_total a idx Hall) as [r Hr]. exists r. split; [exact Hr |].
  apply take_spec in Hr.
  rewrite <- (flat_map_opt_some r), <- (flat_map_opt_some a).
  rewrite <- Hr, <- map_nth_error_seq.
  apply Permutation_flat_map. apply Permutation_map. exact Hp.
Qed.

Lemma mask_select_length : forall (mask : list bool) (a : list A),
  List.length mask = List.length a ->
  List.length (Np.mask_select mask a) = Np.count_true mask.
Proof.
  unfold Np.mask_select, Np.count_true.
  induction mask as [| b mask IH]; intros [| x a] H; simpl in *; try discriminate;
    [reflexivity |].
  destruct b; simpl; rewrite IH by lia; reflexivity.
Qed.

Lemma mask_get_ok : forall (mask : list bool) (a : list A),
  List.length mask = List.length a ->
  Np.mask_get mask a = Ok (Np.mask_select mask a).
Proof.
  intros mask a H. unfold Np.mask_get. rewrite H, Nat.eqb_refl. reflexivity.
Qed.

Lemma mask_get_inv : forall (mask : list bool) (a r : list A),
  Np.mask_get mask a = Ok r ->
  List.length mask = List.length a /\ r = Np.mask_select mask a.
Proof.
  intros mask a r H. unfold Np.mask_get in H.
  destruct (List.length mask =? List.length a)%nat eqn:E; [| discriminate].
  apply Nat.eqb_eq in E. inversion H; subst. split; [exact E | reflexivity].
Qed.

Lemma mask_assign_length : forall (mask : list bool) (a values : list A),
  List.length (Np.mask_assign mask a values) = List.length a.
Proof.
  induction mask as [| b mask IH]; intros [| x a] values; simpl; try reflexivity.
  - destruct b; reflexivity.
  - destruct b.
    + destruct values as [| v vs]; simpl; [reflexivity | rewrite IH; reflexivity].
    + simpl. rewrite IH. reflexivity.
Qed.

(** Assigning through a mask keeps the unselected entries and stores the
    values. *)
Lemma mask_assign_perm_rest : forall (mask : list bool) (a values : list A),
  List.length mask = List.length a ->
  List.length values = Np.count_true mask ->
  Permutation (Np.mask_assign mask a values)
              (values ++ Np.mask_select (map negb mask) a).
Proof.
  unfold Np.count_true, Np.mask_select.
  induction mask as [| b mask IH]; intros [| x a] values Hl Hv; simpl in *;
    try discriminate.
  - destruct values; [apply Permutation_refl | discriminate].
  - destruct b; simpl in *.
    + destruct values as [| v vs]; [discriminate |]. simpl in *.
      apply perm_skip. apply IH; lia.
    + apply Permutation_trans with (x :: (values ++ map snd (filter fst (combine (map negb mask) a)))).
      * apply perm_skip. apply IH; lia.
      * apply Permutation_middle.
Qed.

Lemma mask_select_split : forall (mask : list bool) (a : list A),
  List.length mask = List.length a ->
  Permutation a (Np.mask_select mask a ++ Np.mask_select (map negb mask) a).
Proof.
  unfold Np.mask_select.
  induction mask as [| b mask IH]; intros [| x a] Hl; simpl in *; try discriminate.
  - apply Permutation_refl.
  - destruct b; simpl.
    + apply perm_skip. apply IH; lia.
    + apply Permutation_trans with (x :: (map snd (filter fst (combine mask a)) ++
                                          map snd (filter fst (combine (map negb mask) a)))).
      * apply perm_skip. apply IH; lia.
      * apply Permutation_middle.
Qed.

(** Storing a rearrangement of the selected entries rearranges the array. *)
Lemma mask_assign_perm : forall (mask : list bool) (a values : list A),
  List.length mask = List.length a ->
  Permutation values (Np.mask_select mask a) ->
  Permutation (Np.mask_assign mask a values) a.
Proof.
  intros mask a values Hl Hp.
  apply Permutation_trans with (values ++ Np.mask_select (map negb mask) a).
  - apply mask_assign_perm_rest; [exact Hl |].
    rewrite (Permutation_length Hp). apply mask_select_length. exact Hl.
  - apply Permutation_trans with
      (Np.mask_select mask a ++ Np.mask_select (map negb mask) a).
    + apply Permutation_app_tail. exact Hp.
    + apply Permutation_sym. apply mask_select_split. exact Hl.
Qed.

End Indexing.

End NpFacts.

(** ** Facts about [_sort_freq_helper] *)

Module SortFacts.
Import Frequency NpFacts.

Lemma snd_bind : forall (A B : Type) (m : W A) (k : A -> W B),
  snd (bind m k) = match snd m with
                   | Ok a => snd (k a)
                   | Raise e => Raise e
                   end.
Proof.
  intros A B [w [a | e]] k; simpl; [| reflexivity].
  destruct (k a); reflexivity.
Qed.

Lemma snd_when_warn : forall (b : bool) (msg : string),
  snd (when b (warn msg)) = Ok tt.
Proof. intros [|] msg; reflexivity. Qed.

Lemma combine_eqb_all : forall l1 l2 : list Z,
  List.length l1 = List.length l2 ->
  Np.all (map (fun xy => Z.eqb (fst xy) (snd xy)) (combine l1 l2)) = true ->
  l1 = l2.
Proof.
  unfold Np.all.
  induction l1 as [| x l1 IH]; intros [| y l2] Hl H; simpl in *; try discriminate;
    [reflexivity |].
  apply andb_true_iff in H. destruct H as [Hxy H].
  apply Z.eqb_eq in Hxy. subst y. f_equal. apply IH; [lia | exact H].
Qed.

(** An accepted index array lists every position once. *)
Lemma is_index_array_perm : forall (a : list Z) (n : nat),
  is_index_array a n = true -> Permutation (map Z.to_nat a) (seq 0 n).
Proof.
  intros a n H. unfold is_index_array in H.
  apply andb_true_iff in H. destruct H as [Hlen Hall].
  apply Nat.eqb_eq in Hlen.
  apply combine_eqb_all in Hall.
  - assert (Hp : Permutation a (map Z.of_nat (Np.arange n))).
    { rewrite <- Hall. apply Permutation_sym. apply sort_by_perm. }
    apply (Permutation_map Z.to_nat) in Hp.
    rewrite map_map in Hp. unfold Np.arange in Hp.
    rewrite (map_ext _ (fun x => x)) in Hp by (intros; apply Nat2Z.id).
    rewrite map_id in Hp. exact Hp.
  - rewrite (Permutation_length (sort_by_perm Z.leb a)).
    rewrite length_map. unfold Np.arange. rewrite length_seq. exact Hlen.
Qed.

(** The channels of one window among those selected by [temp_spws]. *)
Lemma window_part_cons : forall (t w : Z) (ts : list Z) (i : nat) (ia : list nat),
  Np.mask_select (map (fun id => Z.eqb id w) (t :: ts)) (i :: ia) =
  if Z.eqb t w
  then i :: Np.mask_select (map (fun id => Z.eqb id w) ts) ia
  else Np.mask_select (map (fun id => Z.eqb id w) ts) ia.
Proof.
  intros. unfold Np.mask_select. simpl. destruct (Z.eqb t w); reflexivity.
Qed.

Lemma flat_map_cons_none : forall (t : Z) (i : nat) (f : Z -> list nat) (ws : list Z),
  ~ In t ws ->
  flat_map (fun w => if Z.eqb t w then i :: f w else f w) ws = flat_map f ws.
Proof.
  induction ws as [| w ws IH]; intros Hn; simpl; [reflexivity |].
  destruct (Z.eqb t w) eqn:E.
  - apply Z.eqb_eq in E. exfalso. apply Hn. left. symmetry; exact E.
  - rewrite IH; [reflexivity |]. intros Hin. apply Hn. right; exact Hin.
Qed.

Lemma flat_map_cons_once : forall (t : Z) (i : nat) (f : Z -> list nat) (ws : list Z),
  NoDup ws -> In t ws ->
  Permutation (flat_map (fun w => if Z.eqb t w then i :: f w else f w) ws)
              (i :: flat_map f ws).
Proof.
  induction ws as [| w ws IH]; intros Hnd Hin; [contradiction |].
  inversion Hnd as [| ? ? Hnotin Hnd']; subst. simpl.
  destruct (Z.eqb t w) eqn:E.
  - apply Z.eqb_eq in E. subst w.
    rewrite flat_map_cons_none by exact Hnotin. apply Permutation_refl.
  - apply Z.eqb_neq in E. destruct Hin as [Hw | Hin]; [congruence |].
    apply Permutation_trans with (f w ++ i :: flat_map f ws)%list.
    + apply Permutation_app_head. apply IH; assumption.
    + apply Permutation_sym. apply Permutation_middle.
Qed.

(** Gathering the channels window by window, over distinct windows that
    cover every channel, rearranges the channels. *)
Lemma window_parts_perm : forall (ws : list Z) (ts : list Z) (ia : list nat),
  List.length ts = List.length ia ->
  NoDup ws ->
  (forall id, In id ts -> In id ws) ->
  Permutation
    (flat_map (fun w => Np.mask_select (map (fun id => Z.eqb id w) ts) ia) ws) ia.
Proof.
  intros ws. induction ts as [| t ts IH]; intros [| i ia] Hl Hnd Hcov;
    simpl in Hl; try discriminate.
  - clear. induction ws as [| w ws IH]; simpl; [apply Permutation_refl | exact IH].
  - rewrite (flat_map_ext _ _ (fun w => window_part_cons t w ts i ia)).
    apply Permutation_trans with
      (i :: flat_map (fun w => Np.mask_select (map (fun id => Z.eqb id w) ts) ia) ws).
    + apply flat_map_cons_once; [exact Hnd |]. apply Hcov. left; reflexivity.
    + apply perm_skip. apply IH; [lia | exact Hnd |].
      intros id Hid. apply Hcov. right; exact Hid.
Qed.

Lemma gather_windows_ok : forall (ws : list Z) (ts : list Z) (ia : list nat),
  List.length ts = List.length ia ->
  gather_windows ia ts ws =
  Ok (flat_map (fun w => Np.mask_select (map (fun id => Z.eqb id w) ts) ia) ws).
Proof.
  induction ws as [| w ws IH]; intros ts ia Hl; simpl; [reflexivity |].
  rewrite mask_get_ok by (rewrite length_map; exact Hl). cbn [rbind].
  rewrite IH by exact Hl. reflexivity.
Qed.

(** The loop over the windows rearranges the index array. *)
Lemma sort_channels_perm :
  forall (descending : bool) (sort_spw : Z -> bool) (tf : list Q) (ts : list Z)
         (ws : list Z) (ia : list nat),
    List.length ts = List.length ia ->
    List.length tf = List.length ia ->
    exists r, sort_channels descending sort_spw tf ts ws ia = Ok r /\
              Permutation r ia.
Proof.
  intros descending sort_spw tf ts ws.
  induction ws as [| idx ws IH]; intros ia Hts Htf; simpl.
  - exists ia. split; [reflexivity | apply Permutation_refl].
  - destruct (sort_spw idx); [| apply IH; assumption].
    set (mask := map (fun spw => Z.eqb spw idx) ts).
    assert (Hm : List.length mask = List.length ia)
      by (unfold mask; rewrite length_map; exact Hts).
    rewrite (mask_get_ok mask ia Hm). cbn [rbind].
    rewrite (mask_get_ok mask tf) by (rewrite Hm; symmetry; exact Htf). cbn [rbind].
    destruct (@take_perm nat (Np.mask_select mask ia)
                (Np.argsort_by Qle_bool (Np.mask_select mask tf))) as [sub [Hsub Hp]].
    { rewrite (mask_select_length mask ia Hm).
      rewrite <- (mask_select_length mask tf) by (rewrite Hm; symmetry; exact Htf).
      apply argsort_perm. }
    rewrite Hsub. cbn [rbind].
    set (vals := if descending then rev sub else sub).
    assert (Hv : Permutation vals (Np.mask_select mask ia)).
    { unfold vals. destruct descending; [| exact Hp].
      apply Permutation_trans with sub; [| exact Hp].
      apply Permutation_sym. apply Permutation_rev. }
    destruct (IH (Np.mask_assign mask ia vals)) as [r [Hr Hpr]].
    + rewrite mask_assign_length. exact Hts.
    + rewrite mask_assign_length. exact Htf.
    + exists r. split; [exact Hr |].
      apply Permutation_trans with (Np.mask_assign mask ia vals); [exact Hpr |].
      apply mask_assign_perm; assumption.
Qed.

Lemma window_medians_ok : forall (tf : list Q) (ts : list Z) (ws : list Z),
  List.length ts = List.length tf ->
  exists meds, window_medians tf ts ws = Ok meds /\
               List.length meds = List.length ws.
Proof.
  intros tf ts ws Hl. induction ws as [| w ws IH]; simpl.
  - exists []. split; reflexivity.
  - rewrite mask_get_ok by (rewrite length_map; exact Hl). cbn [rbind].
    destruct IH as [meds [Hm Hlen]]. rewrite Hm. cbn [rbind].
    eexists. split; [reflexivity |]. simpl. rewrite Hlen. reflexivity.
Qed.

Lemma spw_order_string_cases : forall s : string,
  existsb (String.eqb s) ["number"; "freq"; "-number"; "-freq"]%string = true ->
  s = "number"%string \/ s = "freq"%string \/
  s = "-number"%string \/ s = "-freq"%string.
Proof.
  intros s H. simpl in H. rewrite !orb_true_iff in H.
  destruct H as [H | [H | [H | [H | H]]]]; try discriminate;
    apply String.eqb_eq in H; auto.
Qed.

(** The order of the windows is a rearrangement of their positions, unless
    [spw_order] is rejected. *)
Lemma window_order_good :
  forall (Nspws : nat) (spw_array : list Z) (tf : list Q) (ts : list Z)
         (spw_order : order_arg),
    List.length spw_array = Nspws ->
    List.length ts = List.length tf ->
    match window_order Nspws spw_array tf ts spw_order with
    | Ok order => Permutation order (seq 0 Nspws)
    | Raise e => exists msg, e = ValueError msg
    end.
Proof.
  intros Nspws spw_array tf ts [s | idx] Hn Hl; unfold window_order.
  - destruct (existsb (String.eqb s) _) eqn:Hs; cbn [negb];
      [| eexists; reflexivity].
    destruct (1 <? Nspws)%nat; [| apply Permutation_refl].
    apply spw_order_string_cases in Hs.
    assert (Hargs : Permutation (Np.argsort_by Z.leb spw_array) (seq 0 Nspws))
      by (rewrite <- Hn; apply argsort_perm).
    destruct (window_medians_ok tf ts spw_array Hl) as [meds [Hm Hlen]].
    assert (Hargm : Permutation (Np.argsort_by Np.nan_last_leb meds) (seq 0 Nspws))
      by (rewrite <- Hn, <- Hlen; apply argsort_perm).
    destruct Hs as [Hs | [Hs | [Hs | Hs]]]; subst s; cbn -[Np.argsort_by seq];
      try rewrite Hm; cbn -[Np.argsort_by seq].
    + exact Hargs.
    + exact Hargm.
    + eapply Permutation_trans; [apply Permutation_sym, Permutation_rev | exact Hargs].
    + eapply Permutation_trans; [apply Permutation_sym, Permutation_rev | exact Hargm].
  - destruct (is_index_array idx Nspws) eqn:Hi; cbn [negb];
      [| eexists; reflexivity].
    apply is_index_array_perm. exact Hi.
Qed.

(** Sorting the channels rearranges the index array, unless
    [channel_order] is rejected. *)
Lemma apply_channel_order_good :
  forall (channel_order : option string) (sort_spw : Z -> bool)
         (tf : list Q) (ts ws : list Z) (ia : list nat),
    List.length ts = List.length ia ->
    List.length tf = List.length ia ->
    match apply_channel_order channel_order sort_spw tf ts ws ia with
    | Ok r => Permutation r ia
    | Raise e => exists msg, e = ValueError msg
    end.
Proof.
  intros [s |] sort_spw tf ts ws ia Hts Htf; unfold apply_channel_order;
    [| apply Permutation_refl].
  destruct (existsb (String.eqb s) _); cbn [negb]; [| eexists; reflexivity].
  destruct (sort_channels_perm (first_is_minus s) sort_spw tf ts ws ia Hts Htf)
    as [r [Hr Hp]].
  rewrite Hr. exact Hp.
Qed.

(** The index array is absent only when [select_spw] comes without a
    [channel_order]. *)
Lemma index_array_for_none :
  forall Nfreqs freq_array Nspws spw_array flex spw_order channel_order select_spw,
    snd (index_array_for Nfreqs freq_array Nspws spw_array flex
           spw_order channel_order select_spw) = Ok None <->
    (select_spw <> None /\ channel_order = None).
Proof.
  intros Nfreqs freq_array Nspws spw_array flex spw_order channel_order select_spw.
  unfold index_array_for.
  destruct channel_order as [[s | co] |].
  - (* a string *)
    split; [| intros [_ H]; discriminate]. intros H. exfalso.
    destruct select_spw as [sel |].
    + rewrite snd_bind, snd_when_warn, snd_bind in H. unfold lift in H. cbn [snd] in H.
      destruct (apply_channel_order _ _ _ _ _ _); discriminate.
    + destruct spw_order as [so |]; rewrite snd_bind in H; unfold lift in H;
        cbn [snd] in H;
        match type of H with
        | match ?r with _ => _ end = _ => destruct r; discriminate
        end.
  - (* an index array *)
    split; [| intros [_ H]; discriminate]. intros H. exfalso.
    rewrite snd_bind, snd_when_warn, snd_bind, snd_when_warn in H.
    destruct (is_index_array co Nfreqs); discriminate.
  - (* no channel order *)
    destruct select_spw as [sel |].
    + split; [intros _; split; [discriminate | reflexivity] |].
      intros _. rewrite snd_bind, snd_when_warn. reflexivity.
    + split; [| intros [H _]; contradiction]. intros H. exfalso.
      destruct spw_order as [so |]; rewrite snd_bind in H; unfold lift in H;
        cbn [snd] in H;
        match type of H with
        | match ?r with _ => _ end = _ => destruct r; discriminate
        end.
Qed.

(** On a consistent object the index array, when there is one, lists
    every channel once; the only exception raised is a [ValueError]. *)
Lemma index_array_for_good :
  forall Nfreqs freq_array Nspws spw_array flex spw_order channel_order select_spw,
    List.length freq_array = Nfreqs ->
    List.length flex = Nfreqs ->
    List.length spw_array = Nspws ->
    NoDup spw_array ->
    (forall id, In id flex -> In id spw_array) ->
    match snd (index_array_for Nfreqs freq_array Nspws spw_array flex
                 spw_order channel_order select_spw) with
    | Ok (Some ia) => Permutation ia (seq 0 Nfreqs)
    | Ok None => True
    | Raise e => exists msg, e = ValueError msg
    end.
Proof.
  intros Nfreqs freq_array Nspws spw_array flex spw_order channel_order select_spw
         Hfreq Hflex Hspw Hnd Hcov.
  assert (Har : List.length (Np.arange Nfreqs) = Nfreqs)
    by (unfold Np.arange; apply length_seq).
  assert (Hdirect : forall co sort_spw,
            match snd (bind (lift (apply_channel_order co sort_spw freq_array flex
                                     spw_array (Np.arange Nfreqs)))
                            (fun ia => ret (Some ia))) with
            | Ok (Some ia) => Permutation ia (seq 0 Nfreqs)
            | Ok None => True
            | Raise e => exists msg, e = ValueError msg
            end).
  { intros co sort_spw. rewrite snd_bind. unfold lift. cbn [snd].
    pose proof (@apply_channel_order_good co sort_spw freq_array flex spw_array
                  (Np.arange Nfreqs)) as Hg.
    rewrite Har in Hg. specialize (Hg Hflex Hfreq).
    destruct (apply_channel_order _ _ _ _ _ _); [exact Hg | exact Hg]. }
  unfold index_array_for.
  destruct channel_order as [[s | co] |].
  - destruct select_spw as [sel |].
    + rewrite snd_bind, snd_when_warn. apply Hdirect.
    + destruct spw_order as [so |]; [| apply Hdirect].
      rewrite snd_bind. unfold lift. cbn [snd].
      pose proof (@window_order_good Nspws spw_array freq_array flex so Hspw) as Hwo.
      rewrite Hflex, Hfreq in Hwo. specialize (Hwo eq_refl).
      destruct (window_order Nspws spw_array freq_array flex so) as [order | e];
        cbn [rbind]; [| exact Hwo].
      destruct (@take_perm Z spw_array order) as [windows [Hw Hpw]];
        [rewrite Hspw; exact Hwo |].
      rewrite Hw. cbn [rbind].
      unfold concatenate_windows.
      destruct windows as [| w0 windows']; cbn [rbind]; [eexists; reflexivity |].
      rewrite gather_windows_ok by (rewrite Har; exact Hflex).
      cbn [rbind].
      set (ia := flat_map _ (w0 :: windows')).
      assert (Hia : Permutation ia (Np.arange Nfreqs)).
      { unfold ia. apply window_parts_perm.
        - rewrite Har; exact Hflex.
        - apply (Permutation_NoDup (Permutation_sym Hpw)). exact Hnd.
        - intros id Hid. apply (Permutation_in _ (Permutation_sym Hpw)).
          apply Hcov. exact Hid. }
      assert (Hlen : List.length ia = Nfreqs)
        by (rewrite (Permutation_length Hia); exact Har).
      destruct (@take_perm Q freq_array ia) as [tf [Htf _]];
        [rewrite Hfreq; exact Hia |].
      destruct (@take_perm Z flex ia) as [ts [Hts _]];
        [rewrite Hflex; exact Hia |].
      rewrite Htf. cbn [rbind]. rewrite Hts. cbn [rbind].
      pose proof (@apply_channel_order_good (Some s) (fun _ : Z => is_some (Some s))
                    tf ts spw_array ia) as Hg.
      rewrite (take_length _ _ Htf), (take_length _ _ Hts) in Hg.
      specialize (Hg eq_refl eq_refl).
      destruct (apply_channel_order _ _ _ _ _ _) as [r | e]; [| exact Hg].
      cbn [snd ret]. apply Permutation_trans with ia; assumption.
  - rewrite snd_bind, snd_when_warn, snd_bind, snd_when_warn.
    destruct (is_index_array co Nfreqs) eqn:Hi; cbn [negb snd ret raise];
      [| eexists; reflexivity].
    apply is_index_array_perm. exact Hi.
  - destruct select_spw as [sel |].
    + rewrite snd_bind, snd_when_warn. cbn. exact I.
    + destruct spw_order as [so |]; [| apply Hdirect].
      rewrite snd_bind. unfold lift. cbn [snd].
      pose proof (@window_order_good Nspws spw_array freq_array flex so Hspw) as Hwo.
      rewrite Hflex, Hfreq in Hwo. specialize (Hwo eq_refl).
      destruct (window_order Nspws spw_array freq_array flex so) as [order | e];
        cbn [rbind]; [| exact Hwo].
      destruct (@take_perm Z spw_array order) as [windows [Hw Hpw]];
        [rewrite Hspw; exact Hwo |].
      rewrite Hw. cbn [rbind].
      unfold concatenate_windows.
      destruct windows as [| w0 windows']; cbn [rbind]; [eexists; reflexivity |].
      rewrite gather_windows_ok by (rewrite Har; exact Hflex).
      cbn [rbind].
      set (ia := flat_map _ (w0 :: windows')).
      assert (Hia : Permutation ia (Np.arange Nfreqs)).
      { unfold ia. apply window_parts_perm.
        - rewrite Har; exact Hflex.
        - apply (Permutation_NoDup (Permutation_sym Hpw)). exact Hnd.
        - intros id Hid. apply (Permutation_in _ (Permutation_sym Hpw)).
          apply Hcov. exact Hid. }
      destruct (@take_perm Q freq_array ia) as [tf [Htf _]];
        [rewrite Hfreq; exact Hia |].
      destruct (@take_perm Z flex ia) as [ts [Hts _]];
        [rewrite Hflex; exact Hia |].
      rewrite Htf. cbn [rbind]. rewrite Hts. cbn [rbind].
      cbn [apply_channel_order snd ret]. exact Hia.
Qed.

(** The result of [_sort_freq_helper] in terms of the index array. *)
Lemma sort_freq_helper_result :
  forall Nfreqs freq_array Nspws spw_array flex spw_order channel_order select_spw,
    snd (_sort_freq_helper Nfreqs freq_array Nspws spw_array flex
           spw_order channel_order select_spw) =
    if negb (is_some spw_order) && negb (is_some channel_order) then Ok None
    else
      match snd (index_array_for Nfreqs freq_array Nspws spw_array flex
                   spw_order channel_order select_spw) with
      | Ok None => Ok None
      | Ok (Some ia) => if Np.strictly_increasing ia then Ok None else Ok (Some ia)
      | Raise e => Raise e
      end.
Proof.
  intros. unfold _sort_freq_helper.
  destruct (negb (is_some spw_order) && negb (is_some channel_order));
    [reflexivity |].
  rewrite snd_bind.
  destruct (snd (index_array_for _ _ _ _ _ _ _ _)) as [[ia |] | e];
    try reflexivity.
  destruct (Np.strictly_increasing ia); reflexivity.
Qed.

(** C8 (as amended). For every call, the sort-order computation returns
    None in exactly three situations: neither [spw_order] nor
    [channel_order] was given (it warns); [select_spw] was given without
    a [channel_order] (after a [spw_order] it warns that the order is
    ignored and that nothing is sorted); the computed index array is
    already strictly ascending.  An index array it returns is the
    computed one and is not strictly ascending.  On an object whose
    arrays have the declared lengths and whose spectral windows are
    distinct and cover every channel, an index array returned is a
    permutation of the channel indices and the only exception raised is
    a [ValueError]. *)
Theorem sort_order_none_or_permutation :
  forall Nfreqs freq_array Nspws spw_array flex spw_order channel_order select_spw,
    let call := _sort_freq_helper Nfreqs freq_array Nspws spw_array flex
                  spw_order channel_order select_spw in
    let computed := snd (index_array_for Nfreqs freq_array Nspws spw_array flex
                           spw_order channel_order select_spw) in
    (snd call = Ok None <->
       (spw_order = None /\ channel_order = None) \/
       (select_spw <> None /\ channel_order = None) \/
       (exists ia, computed = Ok (Some ia) /\ Np.strictly_increasing ia = true)) /\
    (spw_order = None /\ channel_order = None ->
       call = ([no_criteria_warning], Ok None)) /\
    (spw_order <> None /\ select_spw <> None /\ channel_order = None ->
       call = ([spw_order_select_warning; select_without_channel_order_warning],
               Ok None)) /\
    (forall ia, snd call = Ok (Some ia) ->
       computed = Ok (Some ia) /\ Np.strictly_increasing ia = false) /\
    (List.length freq_array = Nfreqs ->
     List.length flex = Nfreqs ->
     List.length spw_array = Nspws ->
     NoDup spw_array ->
     (forall id, In id flex -> In id spw_array) ->
     (forall ia, snd call = Ok (Some ia) -> Permutation ia (seq 0 Nfreqs)) /\
     (forall e, snd call = Raise e -> exists msg, e = ValueError msg)).
Proof.
  intros Nfreqs freq_array Nspws spw_array flex spw_order channel_order select_spw
         call computed.
  pose proof (sort_freq_helper_result Nfreqs freq_array Nspws spw_array flex
                spw_order channel_order select_spw) as Hres.
  pose proof (index_array_for_none Nfreqs freq_array Nspws spw_array flex
                spw_order channel_order select_spw) as Hnone.
  fold call in Hres. fold computed in Hres, Hnone.
  split; [| split; [| split; [| split]]].
  - (* the situations in which None is returned *)
    rewrite Hres.
    destruct (negb (is_some spw_order) && negb (is_some channel_order)) eqn:Hboth.
    + split; [| reflexivity]. intros _. left.
      destruct spw_order, channel_order; try discriminate. split; reflexivity.
    + assert (Hnot : ~ (spw_order = None /\ channel_order = None)).
      { intros [H1 H2]. subst. discriminate. }
      destruct computed as [[ia |] | e] eqn:Hc.
      * destruct (Np.strictly_increasing ia) eqn:Hinc.
        -- split; [| reflexivity]. intros _. right; right. exists ia.
           split; [reflexivity | exact Hinc].
        -- split; [discriminate |].
           intros [H | [H | [ia' [Hia' Hinc']]]].
           ++ contradiction.
           ++ apply Hnone in H. discriminate.
           ++ inversion Hia'; subst. congruence.
      * split; [| reflexivity]. intros _. right; left. apply Hnone. reflexivity.
      * split; [discriminate |].
        intros [H | [H | [ia' [Hia' _]]]].
        -- contradiction.
        -- apply Hnone in H. discriminate.
        -- discriminate.
  - intros [H1 H2]. subst. reflexivity.
  - intros [H1 [H2 H3]]. subst.
    destruct spw_order as [so |]; [| contradiction].
    destruct select_spw as [sel |]; [| contradiction].
    reflexivity.
  - intros ia Hia. rewrite Hres in Hia.
    destruct (negb (is_some spw_order) && negb (is_some channel_order));
      [discriminate |].
    destruct computed as [[ia' |] | e]; try discriminate.
    destruct (Np.strictly_increasing ia') eqn:Hinc; [discriminate |].
    inversion Hia; subst. split; [reflexivity | exact Hinc].
  - intros Hfreq Hflex Hspw Hnd Hcov.
    pose proof (@index_array_for_good Nfreqs freq_array Nspws spw_array flex
                  spw_order channel_order select_spw Hfreq Hflex Hspw Hnd Hcov)
      as Hgood.
    fold computed in Hgood.
    split.
    + intros ia Hia. rewrite Hres in Hia.
      destruct (negb (is_some spw_order) && negb (is_some channel_order));
        [discriminate |].
      destruct computed as [[ia' |] | e]; try discriminate.
      destruct (Np.strictly_increasing ia'); [discriminate |].
      inversion Hia; subst. exact Hgood.
    + intros e He. rewrite Hres in He.
      destruct (negb (is_some spw_order) && negb (is_some channel_order));
        [discriminate |].
      destruct computed as [[ia' |] | e']; try discriminate.
      * destruct (Np.strictly_increasing ia'); discriminate.
      * inversion He; subst. exact Hgood.
Qed.

(** C8, the claim as stated fails: with [spw_order = "-number"] and a
    [select_spw] but no [channel_order], None is returned although an
    ordering was given and no index array was computed; and on an object
    that lists a window twice the array returned is no permutation of the
    channel indices. *)
Lemma sort_order_third_none :
  _sort_freq_helper 6 two_window_freqs 2 two_windows two_window_ids
    (Some (OrderStr "-number")) None (Some (SelectInt 0))
  = ([spw_order_select_warning; select_without_channel_order_warning], Ok None) /\
  ~ (Some (OrderStr "-number") = None /\ @None order_arg = None) /\
  snd (index_array_for 6 two_window_freqs 2 two_windows two_window_ids
         (Some (OrderStr "-number")) None (Some (SelectInt 0))) = Ok None /\
  ~ (exists ia,
       snd (index_array_for 6 two_window_freqs 2 two_windows two_window_ids
              (Some (OrderStr "-number")) None (Some (SelectInt 0))) = Ok (Some ia) /\
       Np.strictly_increasing ia = true) /\
  _sort_freq_helper 2 [1 # 1; 2 # 1]%Q 2 [0; 0]%Z [0; 0]%Z
    (Some (OrderStr "number")) None None
  = ([], Ok (Some [0; 1; 0; 1]%nat)) /\
  ~ Permutation [0; 1; 0; 1]%nat (seq 0 2).
Proof.
  split; [reflexivity |]. split; [intros [H _]; discriminate |].
  split; [reflexivity |]. split; [intros [ia [H _]]; discriminate |].
  split; [reflexivity |].
  intros Hp. apply Permutation_length in Hp. discriminate.
Qed.

Lemma sort_order_none_or_permutation_witness :
  List.length two_window_freqs = 6%nat /\
  List.length two_window_ids = 6%nat /\
  List.length two_windows = 2%nat /\
  NoDup two_windows /\
  (forall id, In id two_window_ids -> In id two_windows) /\
  snd (_sort_freq_helper 6 two_window_freqs 2 two_windows two_window_ids
         (Some (OrderStr "-freq")) (Some (OrderStr "-freq")) None)
    = Ok (Some [4; 5; 3; 0; 1; 2]%nat) /\
  Permutation [4; 5; 3; 0; 1; 2]%nat (seq 0 6).
Proof.
  assert (Hnd : NoDup two_windows).
  { unfold two_windows. constructor.
    - simpl. intros [H | []]. discriminate.
    - constructor; [simpl; tauto | constructor]. }
  assert (Hcov : forall id, In id two_window_ids -> In id two_windows).
  { unfold two_window_ids, two_windows. simpl. intros id H.
    repeat (destruct H as [H | H]; [subst; tauto |]). contradiction. }
  repeat (split; [first [reflexivity | exact Hnd | exact Hcov] |]).
  exact (proj1 (proj2 (proj2 (proj2 (proj2
           (@sort_order_none_or_permutation 6 two_window_freqs 2 two_windows
              two_window_ids (Some (OrderStr "-freq")) (Some (OrderStr "-freq")) None))))
           eq_refl eq_refl eq_refl Hnd Hcov) [4; 5; 3; 0; 1; 2]%nat eq_refl).
Defined.

End SortFacts.

(** ** Facts about [_select_freq_helper] *)

Module SelectFacts.
Import Frequency.

Lemma bind_ok_inv : forall (A B : Type) (m : W A) (k : A -> W B) w (b : B),
  bind m k = (w, Ok b) ->
  exists w1 a w2, m = (w1, Ok a) /\ k a = (w2, Ok b) /\ w = (w1 ++ w2)%list.
Proof.
  intros A B [w1 [a | e]] k w b H; simpl in H; [| discriminate].
  destruct (k a) as [w2 r] eqn:Hk. inversion H; subst.
  exists w1, a, w2. split; [reflexivity |]. split; [exact Hk | reflexivity].
Qed.

Lemma insert_uniq_hd : forall (x y : Z) (l : list Z),
  (y < x)%Z -> HdRel Z.lt y l ->
  HdRel Z.lt y (Np.insert_uniq Z.eqb Z.ltb x l).
Proof.
  intros x y [| z l] Hyx Hhd; simpl.
  - constructor. exact Hyx.
  - inversion Hhd; subst.
    destruct (Z.eqb x z); [constructor; assumption |].
    destruct (Z.ltb x z); constructor; assumption.
Qed.

Lemma insert_uniq_sorted : forall (x : Z) (l : list Z),
  Sorted Z.lt l -> Sorted Z.lt (Np.insert_uniq Z.eqb Z.ltb x l).
Proof.
  intros x l Hs. induction Hs as [| y l Hs IH Hhd]; simpl.
  - constructor; constructor.
  - destruct (Z.eqb x y) eqn:Eeq; [constructor; assumption |].
    destruct (Z.ltb x y) eqn:Elt.
    + apply Z.ltb_lt in Elt. constructor; [constructor; assumption |].
      constructor. exact Elt.
    + apply Z.eqb_neq in Eeq. apply Z.ltb_ge in Elt.
      constructor; [exact IH |].
      apply insert_uniq_hd; [lia | exact Hhd].
Qed.

(** [sorted(set(l))] is strictly ascending. *)
Lemma sorted_set_sorted : forall l : list Z, StronglySorted Z.lt (Np.sorted_set l).
Proof.
  intros l. apply Sorted_StronglySorted.
  - intros a b c Hab Hbc. lia.
  - unfold Np.sorted_set, Np.unique_by.
    induction l as [| x l IH]; simpl; [constructor |].
    apply insert_uniq_sorted. exact IH.
Qed.

Lemma strictly_ascending_nodup : forall l : list Z,
  StronglySorted Z.lt l -> NoDup l.
Proof.
  intros l Hs. induction Hs as [| x l Hs IH Hall]; constructor; [| exact IH].
  intros Hin. rewrite Forall_forall in Hall. specialize (Hall x Hin). lia.
Qed.

(** The channel indices leave the last part of the function through
    [sorted(set(...))]. *)
Lemma finish_freq_inds_sorted_set :
  forall obj_freq_array freq_tols obj_channel_width channel_width_tols
         obj_spw_id_array warn_freq_spacing sel w fi,
    finish_freq_inds obj_freq_array freq_tols obj_channel_width channel_width_tols
                     obj_spw_id_array warn_freq_spacing sel = (w, Ok (Some fi)) ->
    exists raw, sel.(freq_inds) = Some raw /\ raw <> [] /\ fi = Np.sorted_set raw.
Proof.
  intros ofa ft ocw cwt osia wfs sel w fi H. unfold finish_freq_inds in H.
  destruct (freq_inds sel) as [raw |]; [| discriminate].
  destruct (List.length raw =? 0)%nat eqn:Hlen; [discriminate |].
  apply bind_ok_inv in H. destruct H as (w1 & cw & w2 & _ & H & _).
  apply bind_ok_inv in H. destruct H as (w3 & ids & w4 & _ & H & _).
  apply bind_ok_inv in H. destruct H as (w5 & fa & w6 & _ & H & _).
  apply bind_ok_inv in H. destruct H as (w7 & flags & w8 & _ & H & _).
  apply bind_ok_inv in H. destruct H as (w9 & u & w10 & _ & H & _).
  inversion H; subst. exists raw. repeat split.
  intros Hnil. subst raw. discriminate.
Qed.

(** C9. Whenever the selection-index computation returns a channel-index
    set, that set is strictly ascending and has no duplicates, whatever
    the order or multiplicity of the requested frequencies, channels or
    spectral windows. *)
Theorem select_freq_inds_ascending :
  forall polstr2num jstr2num test_spacing
         frequencies freq_chans obj_freq_array freq_tols obj_channel_width
         channel_width_tols spws obj_spw_array obj_spw_id_array polarizations
         obj_flex_spw_pol_array jones obj_flex_jones_array obj_x_orientation
         warn_freq_spacing invert warnings chans windows names,
    _select_freq_helper polstr2num jstr2num test_spacing
      frequencies freq_chans obj_freq_array freq_tols obj_channel_width
      channel_width_tols spws obj_spw_array obj_spw_id_array polarizations
      obj_flex_spw_pol_array jones obj_flex_jones_array obj_x_orientation
      warn_freq_spacing invert
    = (warnings, Ok (Some chans, windows, names)) ->
    StronglySorted Z.lt chans /\ NoDup chans /\ chans <> [].
Proof.
  intros until names. intros H. unfold _select_freq_helper in H.
  apply bind_ok_inv in H. destruct H as (w1 & sel1 & w2 & _ & H & _).
  apply bind_ok_inv in H. destruct H as (w3 & sel2 & w4 & _ & H & _).
  apply bind_ok_inv in H. destruct H as (w5 & sel3 & w6 & _ & H & _).
  apply bind_ok_inv in H. destruct H as (w7 & sel4 & w8 & _ & H & _).
  apply bind_ok_inv in H. destruct H as (w9 & fi & w10 & Hfin & H & _).
  inversion H; subst.
  apply finish_freq_inds_sorted_set in Hfin.
  destruct Hfin as (raw & _ & Hne & Hfi). subst chans.
  pose proof (sorted_set_sorted raw) as Hs.
  split; [exact Hs |]. split; [apply strictly_ascending_nodup; exact Hs |].
  destruct raw as [| x raw]; [contradiction |].
  unfold Np.sorted_set, Np.unique_by. simpl.
  destruct (fold_right _ _ raw) as [| y l]; simpl; [discriminate |].
  destruct (Z.eqb x y); [discriminate |]. destruct (Z.ltb x y); discriminate.
Qed.

Lemma select_freq_inds_ascending_witness :
  _select_freq_helper no_str2num no_str2num any_spacing
    None (Some [5; 2; 2]%Z) ten_channels default_tols (Some ten_widths) default_tols
    None (Some [0%Z]) (Some ten_ids) None None None None None true false
  = ([not_contiguous_warning], Ok (Some [2; 5]%Z, Some [0%Z], ["frequencies"%string])) /\
  StronglySorted Z.lt [2; 5]%Z /\ NoDup [2; 5]%Z /\ [2; 5]%Z <> [].
Proof.
  split; [vm_compute; reflexivity |].
  apply (@select_freq_inds_ascending no_str2num no_str2num any_spacing
           None (Some [5; 2; 2]%Z) ten_channels default_tols (Some ten_widths)
           default_tols None (Some [0%Z]) (Some ten_ids) None None None None None
           true false [not_contiguous_warning] [2; 5]%Z (Some [0%Z])
           ["frequencies"%string]).
  vm_compute; reflexivity.
Defined.

End SelectFacts.

(** ** More on the coordinate frame translator *)

Module FrameFacts.
Import MsUtils.
Open Scope string_scope.

Lemma dict_get_in : forall (V : Type) (d : list (string * V)) (k : string) (v : V),
  dict_get String.eqb d k = Some v -> In (k, v) d.
Proof.
  induction d as [| [k' v'] d IH]; intros k v H; simpl in H; [discriminate |].
  destruct (String.eqb k' k) eqn:E.
  - apply String.eqb_eq in E. inversion H; subst. left; reflexivity.
  - right. apply IH. exact H.
Qed.

Lemma dict_get_not_in : forall (V : Type) (d : list (string * V)) (k : string),
  dict_get String.eqb d k = None -> forall v, ~ In (k, v) d.
Proof.
  induction d as [| [k' v'] d IH]; intros k H v Hin; simpl in *; [contradiction |].
  destruct (String.eqb k' k) eqn:E; [discriminate |].
  destruct Hin as [Heq | Hin].
  - inversion Heq; subst. rewrite String.eqb_refl in E. discriminate.
  - exact (IH k H v Hin).
Qed.

Lemma reverse_dict_value :
  reverse_dict =
  [ (Some ("fk5", 2000%Q), "J2000"); (None, "TOPO"); (Some ("gcrs", 2000%Q), "APP");
    (Some ("fk4", 1950%Q), "B1950"); (Some ("fk4", 1979%Q), "B1950_VLA");
    (Some ("icrs", 2000%Q), "ICRS") ].
Proof. reflexivity. Qed.

(** The inverse translation has three outcomes, decided by the table: a
    code with a frame succeeds in both modes and without warning; a code
    listed without a frame raises [NotImplementedError], or warns once
    and returns (None, None); a code that is not listed raises
    [ValueError], or warns once and returns (None, None). *)
Theorem parse_casa_frame_ref_outcomes :
  forall ref_name : string,
    (exists frame epoch,
        In (ref_name, Some (frame, epoch)) COORD_PYUVDATA2CASA_DICT /\
        forall raise_error,
          _parse_casa_frame_ref ref_name raise_error
            = ([], Ok (Some frame, Some epoch))) \/
    (In (ref_name, None) COORD_PYUVDATA2CASA_DICT /\
     (exists msg, _parse_casa_frame_ref ref_name true
                    = ([], Raise (NotImplementedError msg))) /\
     (exists msg, _parse_casa_frame_ref ref_name false
                    = ([msg], Ok (None, None)))) \/
    ((forall v, ~ In (ref_name, v) COORD_PYUVDATA2CASA_DICT) /\
     (exists msg, _parse_casa_frame_ref ref_name true
                    = ([], Raise (ValueError msg))) /\
     (exists msg, _parse_casa_frame_ref ref_name false
                    = ([msg], Ok (None, None)))).
Proof.
  intros ref_name. unfold _parse_casa_frame_ref.
  destruct (dict_get String.eqb COORD_PYUVDATA2CASA_DICT ref_name)
    as [[[frame epoch] |] |] eqn:Hget.
  - left. exists frame, epoch. split; [apply dict_get_in; exact Hget |].
    intros raise_error. reflexivity.
  - right; left. split; [apply dict_get_in; exact Hget |].
    split; eexists; reflexivity.
  - right; right. split; [apply dict_get_not_in; exact Hget |].
    split; eexists; reflexivity.
Qed.

(** Every CASA code that the inverse translation maps to a frame is given
    back by the forward translation of that frame. *)
Theorem casa_code_round_trip :
  forall (ref_name frame : string) (epoch : Q) (raise_error raise_error' : bool),
    _parse_casa_frame_ref ref_name raise_error = ([], Ok (Some frame, Some epoch)) ->
    _parse_pyuvdata_frame_ref frame (Some epoch) raise_error'
      = ([], Ok (Some ref_name)).
Proof.
  intros ref_name frame epoch re re' H.
  unfold _parse_casa_frame_ref in H.
  destruct (dict_get String.eqb COORD_PYUVDATA2CASA_DICT ref_name)
    as [[[f e] |] |] eqn:Hget.
  - inversion H; subst f e. clear H.
    apply dict_get_in in Hget. simpl in Hget.
    repeat (destruct Hget as [Hget | Hget];
            [ inversion Hget; subst; reflexivity | ]).
    contradiction.
  - destruct re; discriminate.
  - destruct re; discriminate.
Qed.

Lemma casa_code_round_trip_witness :
  _parse_casa_frame_ref "B1950_VLA" true = ([], Ok (Some "fk4", Some 1979%Q)) /\
  _parse_pyuvdata_frame_ref "fk4" (Some 1979%Q) false = ([], Ok (Some "B1950_VLA")).
Proof.
  split; [reflexivity |].
  apply (@casa_code_round_trip "B1950_VLA" "fk4" 1979%Q true false). reflexivity.
Defined.

(** A frame and epoch that match no pair of the supported set (an absent
    epoch counting as 2000.0) have no CASA code: the forward translation
    raises [ValueError], or warns once and returns None. *)
Theorem parse_pyuvdata_frame_ref_unsupported :
  forall (frame : string) (epoch_val : option Q),
    (forall p, In p supported_frames ->
       frame_ref_eqb p (frame, match epoch_val with None => 2000%Q | Some e => e end)
         = false) ->
    _parse_pyuvdata_frame_ref frame epoch_val true
      = ([], Raise (ValueError (no_match_message frame))) /\
    _parse_pyuvdata_frame_ref frame epoch_val false
      = ([no_match_message frame], Ok None).
Proof.
  intros frame epoch_val H.
  unfold _parse_pyuvdata_frame_ref. rewrite reverse_dict_value.
  set (key := (frame, match epoch_val with None => 2000%Q | Some e => e end)) in *.
  assert (Hget : dict_get ref_key_eqb
            [ (Some ("fk5", 2000%Q), "J2000"); (None, "TOPO");
              (Some ("gcrs", 2000%Q), "APP"); (Some ("fk4", 1950%Q), "B1950");
              (Some ("fk4", 1979%Q), "B1950_VLA"); (Some ("icrs", 2000%Q), "ICRS") ]
            (Some key) = None).
  { cbn [dict_get ref_key_eqb].
    rewrite (H ("fk5", 2000%Q)) by (simpl; tauto).
    rewrite (H ("gcrs", 2000%Q)) by (simpl; tauto).
    rewrite (H ("fk4", 1950%Q)) by (simpl; tauto).
    rewrite (H ("fk4", 1979%Q)) by (simpl; tauto).
    rewrite (H ("icrs", 2000%Q)) by (simpl; tauto).
    reflexivity. }
  rewrite Hget. split; reflexivity.
Qed.

Lemma parse_pyuvdata_frame_ref_unsupported_witness :
  (forall p, In p supported_frames -> frame_ref_eqb p ("fk5", 1950%Q) = false) /\
  _parse_pyuvdata_frame_ref "fk5" (Some 1950%Q) true
    = ([], Raise (ValueError (no_match_message "fk5"))) /\
  _parse_pyuvdata_frame_ref "fk5" (Some 1950%Q) false
    = ([no_match_message "fk5"], Ok None).
Proof.
  assert (H : forall p, In p supported_frames -> frame_ref_eqb p ("fk5", 1950%Q) = false).
  { intros p Hp. simpl in Hp.
    repeat (destruct Hp as [Hp | Hp]; [subst p; reflexivity |]). contradiction. }
  split; [exact H |].
  exact (@parse_pyuvdata_frame_ref_unsupported "fk5" (Some 1950%Q) H).
Defined.

End FrameFacts.

(** ** The row layout written by [write_ms_cal] *)

Module CalLayoutFacts.
Import MsCal.

Lemma nth_error_tile : forall (A : Type) (a : list A) (k r : nat),
  (r < k * List.length a)%nat ->
  nth_error (Np.tile a k) r = nth_error a (r mod List.length a).
Proof.
  intros A a k. induction k as [| k IH]; intros r Hr; simpl in *; [lia |].
  destruct (Nat.lt_ge_cases r (List.length a)) as [Hlt | Hge].
  - rewrite nth_error_app1 by exact Hlt. rewrite Nat.mod_small by exact Hlt. reflexivity.
  - rewrite nth_error_app2 by exact Hge. rewrite IH by lia.
    f_equal.
    replace r with ((r - List.length a) + 1 * List.length a)%nat at 2 by lia.
    rewrite Nat.Div0.mod_add. reflexivity.
Qed.

Lemma nth_error_repeat_each : forall (A : Type) (a : list A) (n r : nat),
  (r < List.length a * n)%nat ->
  nth_error (Np.repeat_each a n) r = nth_error a (r / n).
Proof.
  intros A a n. unfold Np.repeat_each.
  induction a as [| x a IH]; intros r Hr; simpl in *; [lia |].
  assert (Hn : (0 < n)%nat) by (destruct n; [lia | lia]).
  destruct (Nat.lt_ge_cases r n) as [Hlt | Hge].
  - rewrite nth_error_app1 by (rewrite repeat_length; exact Hlt).
    rewrite Nat.div_small by exact Hlt. simpl.
    apply nth_error_repeat. exact Hlt.
  - rewrite nth_error_app2 by (rewrite repeat_length; exact Hge).
    rewrite repeat_length. rewrite IH by lia.
    replace r with ((r - n) + 1 * n)%nat at 2 by lia.
    rewrite Nat.div_add by lia. rewrite Nat.add_1_r. reflexivity.
Qed.

Lemma div_mod_swap : forall r n t : nat,
  (0 < n)%nat -> ((r mod (t * n)) / n = (r / n) mod t)%nat.
Proof.
  intros r n t Hn.
  rewrite (Nat.mul_comm t n).
  rewrite Nat.Div0.mod_mul_r.
  rewrite (Nat.mul_comm n ((r / n) mod t)), Nat.div_add by lia.
  rewrite Nat.div_small by (apply Nat.mod_upper_bound; lia). reflexivity.
Qed.

Lemma nth_error_segments : forall (f : nat -> nat * nat) (n k : nat),
  (k < n)%nat -> nth_error (map f (seq 0 n)) k = Some (f k).
Proof.
  intros f n k Hk. rewrite nth_error_map.
  rewrite nth_error_seq. destruct (Nat.ltb_spec k n); [reflexivity | lia].
Qed.

(** Row [r] of the main table belongs to antenna [r mod Nants_casa], to
    time [(r / Nants_casa) mod Ntimes] and to spectral window
    [r / (Nants_casa * Ntimes)]: every flat column holds the value of that
    antenna, time or window at row [r], and the row lies in the segment
    written for that window. *)
Theorem write_ms_cal_row_alignment :
  forall (cal : UVCal) (file_exists clobber : bool) (layout : main_table_layout)
         (n r : nat),
    write_ms_cal cal file_exists clobber = Ok layout ->
    Nants_casa cal = Ok n ->
    List.length cal.(time_array) = cal.(Ntimes) ->
    List.length cal.(integration_time) = cal.(Ntimes) ->
    (r < cal.(Ntimes) * cal.(Nspws) * n)%nat ->
    let ant := (r mod n)%nat in
    let time := ((r / n) mod cal.(Ntimes))%nat in
    let spw := (r / (n * cal.(Ntimes)))%nat in
    nth_error layout.(ANTENNA1) r = Some ant /\
    nth_error layout.(SPECTRAL_WINDOW_ID) r = Some spw /\
    nth_error layout.(TIME) r
      = option_map jd_to_mjd_seconds (nth_error cal.(time_array) time) /\
    nth_error layout.(INTERVAL) r = nth_error cal.(integration_time) time /\
    (time < cal.(Ntimes))%nat /\ (spw < cal.(Nspws))%nat /\
    nth_error layout.(spw_segments) spw
      = Some ((spw * (n * cal.(Ntimes)))%nat, (n * cal.(Ntimes))%nat) /\
    (spw * (n * cal.(Ntimes)) <= r < spw * (n * cal.(Ntimes)) + n * cal.(Ntimes))%nat.
Proof.
  intros cal ex clobber layout n r Hw Hn Htime Hint Hr ant time spw.
  unfold write_ms_cal in Hw.
  destruct (ex && negb clobber); [discriminate |].
  destruct (negb (String.eqb (cal_type cal) "gain")); [discriminate |].
  rewrite Hn in Hw. cbn [rbind] in Hw.
  destruct (list_index _ _) as [ri |]; cbn [rbind] in Hw; [| discriminate].
  destruct (getitem _ ri) as [refant |]; cbn [rbind] in Hw; [| discriminate].
  inversion Hw; subst layout; clear Hw. cbn.
  assert (Hnpos : (0 < n)%nat) by (destruct n; lia).
  assert (Htpos : (0 < Ntimes cal)%nat) by (destruct (Ntimes cal); lia).
  assert (Hspw : (spw < Nspws cal)%nat).
  { unfold spw. apply Nat.Div0.div_lt_upper_bound. nia. }
  assert (Htm : (time < Ntimes cal)%nat)
    by (unfold time; apply Nat.mod_upper_bound; lia).
  split; [| split; [| split; [| split; [| split; [| split; [| split]]]]]].
  - rewrite nth_error_tile by (unfold Np.arange; rewrite length_seq; nia).
    unfold Np.arange. rewrite length_seq, nth_error_seq.
    destruct (Nat.ltb_spec (r mod n) n) as [_ | Hbad]; [reflexivity |].
    pose proof (Nat.mod_upper_bound r n). lia.
  - rewrite nth_error_repeat_each by (unfold Np.arange; rewrite length_seq; nia).
    unfold Np.arange. rewrite nth_error_seq.
    fold spw. destruct (Nat.ltb_spec spw (Nspws cal)); [reflexivity | lia].
  - rewrite nth_error_tile
      by (rewrite MsCalFacts.repeat_each_length, length_map, Htime; nia).
    rewrite MsCalFacts.repeat_each_length, length_map, Htime.
    rewrite nth_error_repeat_each
      by (rewrite length_map, Htime; apply Nat.mod_upper_bound; nia).
    rewrite div_mod_swap by exact Hnpos.
    apply nth_error_map.
  - rewrite nth_error_tile
      by (rewrite MsCalFacts.repeat_each_length, Hint; nia).
    rewrite MsCalFacts.repeat_each_length, Hint.
    rewrite nth_error_repeat_each by (rewrite Hint; apply Nat.mod_upper_bound; nia).
    rewrite div_mod_swap by exact Hnpos. reflexivity.
  - exact Htm.
  - exact Hspw.
  - rewrite (nth_error_segments
               (fun count => ((count * (n * Ntimes cal))%nat, (n * Ntimes cal)%nat)))
      by exact Hspw.
    reflexivity.
  - unfold spw.
    pose proof (Nat.div_mod_eq r (n * Ntimes cal)) as Hdm.
    pose proof (Nat.mod_upper_bound r (n * Ntimes cal)) as Hub.
    nia.
Qed.

Lemma write_ms_cal_row_alignment_witness :
  exists layout,
    write_ms_cal Samples.wide_band_cal false false = Ok layout /\
    nth_error layout.(ANTENNA1) 5 = Some 2%nat /\
    nth_error layout.(SPECTRAL_WINDOW_ID) 5 = Some 0%nat /\
    nth_error layout.(TIME) 5
      = option_map jd_to_mjd_seconds (nth_error Samples.wide_band_cal.(time_array) 1) /\
    nth_error layout.(spw_segments) 0 = Some (0%nat, 6%nat).
Proof.
  eexists. split; [reflexivity |].
  pose proof (@write_ms_cal_row_alignment Samples.wide_band_cal false false _ 3 5
                eq_refl eq_refl eq_refl eq_refl) as H.
  cbv zeta in H.
  assert (Hr : (5 < Ntimes Samples.wide_band_cal * Nspws Samples.wide_band_cal * 3)%nat)
    by (simpl; lia).
  destruct (H Hr) as (Ha & Hs & Ht & _ & _ & _ & Hseg & _).
  repeat split; assumption.
Defined.

End CalLayoutFacts.

(** ** The time index of [read_ms_cal] *)

Module TimeIndexFacts.
Import MsCal.

Lemma time_index_step_map_length : forall tols st time,
  List.length (time_index_step tols st time).(row_timeidx_map)
  = S (List.length st.(row_timeidx_map)).
Proof.
  intros tols st time. unfold time_index_step.
  destruct (dict_get Qeq_bool (time_dict st) time); [| destruct (Np.any _)];
    cbn [row_timeidx_map]; rewrite length_app; simpl; lia.
Qed.

Lemma dict_set_length : forall (d : list (Q * nat)) (k : Q) (v : nat),
  (List.length d <= List.length (dict_set Qeq_bool d k v) <= S (List.length d))%nat.
Proof.
  induction d as [| [k' v'] d IH]; intros k v; simpl; [lia |].
  destruct (Qeq_bool k' k); simpl; [lia |]. specialize (IH k v). lia.
Qed.

Lemma dict_get_none_set : forall (d : list (Q * nat)) (k : Q) (v : nat),
  dict_get Qeq_bool d k = None ->
  dict_set Qeq_bool d k v = (d ++ [(k, v)])%list.
Proof.
  induction d as [| [k' v'] d IH]; intros k v H; simpl in *; [reflexivity |].
  destruct (Qeq_bool k' k); [discriminate |]. rewrite IH by exact H. reflexivity.
Qed.

(** What the loop keeps whatever the timestamps are. *)
Lemma time_index_fold_bounds : forall tols times st,
  (st.(time_count) <= List.length st.(time_dict))%nat ->
  let st' := fold_left (time_index_step tols) times st in
  List.length st'.(row_timeidx_map)
    = (List.length st.(row_timeidx_map) + List.length times)%nat /\
  (st.(time_count) <= st'.(time_count))%nat /\
  (st'.(time_count) <= List.length st'.(time_dict))%nat /\
  (List.length st'.(time_dict) <= List.length st.(time_dict) + List.length times)%nat.
Proof.
  intros tols times. induction times as [| t times IH]; intros st Hc; simpl.
  - repeat split; lia.
  - assert (Hstep : (time_count st <= time_count (time_index_step tols st t))%nat /\
                    (time_count (time_index_step tols st t)
                     <= List.length (time_dict (time_index_step tols st t)))%nat /\
                    (List.length (time_dict (time_index_step tols st t))
                     <= S (List.length (time_dict st)))%nat).
    { unfold time_index_step.
      destruct (dict_get Qeq_bool (time_dict st) t) eqn:Hg; cbn; [lia |].
      destruct (Np.any _); cbn.
      - pose proof (dict_set_length (time_dict st) t
                      (hd 0%nat (Np.where_
                         (map (fun seen => Np.isclose seen t (fst tols * 86400)
                                             (snd tols * 86400))
                              (map fst (time_dict st)))))). lia.
      - rewrite (dict_get_none_set _ _ _ Hg), length_app. simpl. lia. }
    destruct Hstep as (H1 & H2 & H3).
    specialize (IH (time_index_step tols st t) H2). cbv zeta in IH.
    destruct IH as (I1 & I2 & I3 & I4).
    rewrite time_index_step_map_length in I1.
    repeat split; lia.
Qed.

(** Every row gets a time index, there are at most as many time indices
    as rows, at least one when there is a row, and the first row has
    index 0. *)
Theorem time_index_counts :
  forall (tols : Q * Q) (times : list Q),
    let st := build_time_index tols times in
    List.length st.(row_timeidx_map) = List.length times /\
    (Ntimes_read tols times <= List.length times)%nat /\
    (times <> [] -> (1 <= Ntimes_read tols times)%nat /\
                    hd_error st.(row_timeidx_map) = Some 0%nat).
Proof.
  intros tols times st.
  pose proof (@time_index_fold_bounds tols times time_index_init) as H.
  cbv zeta in H. specialize (H (Nat.le_refl _)).
  destruct H as (H1 & _ & H3 & H4). simpl in H1, H4.
  unfold st, Ntimes_read, build_time_index.
  split; [exact H1 |]. split; [lia |].
  intros Hne. destruct times as [| t times]; [contradiction |].
  simpl.
  change (time_index_step tols time_index_init t)
    with {| time_dict := [(t, 0%nat)]; row_timeidx_map := [0%nat]; time_count := 1 |}.
  pose proof (@time_index_fold_bounds tols times
                {| time_dict := [(t, 0%nat)]; row_timeidx_map := [0%nat];
                   time_count := 1 |}) as H.
  cbv zeta in H. simpl in H. specialize (H (Nat.le_refl _)).
  destruct H as (_ & H2 & _ & _).
  split; [exact H2 |].
  clear. generalize [(t, 0%nat)] as d. generalize 1%nat as c.
  assert (G : forall l st, hd_error (row_timeidx_map st) = Some 0%nat ->
              hd_error (row_timeidx_map (fold_left (time_index_step tols) l st))
              = Some 0%nat).
  { induction l as [| x l IHl]; intros st0 Hst; simpl; [exact Hst |].
    apply IHl. unfold time_index_step.
    destruct (dict_get Qeq_bool (time_dict st0) x); [| destruct (Np.any _)];
      cbn [row_timeidx_map]; destruct (row_timeidx_map st0); simpl in *;
      try discriminate; exact Hst. }
  intros c d. apply G. reflexivity.
Qed.

Lemma dict_get_none_keys : forall (d : list (Q * nat)) (k : Q),
  dict_get Qeq_bool d k = None ->
  Forall (fun key => ~ (key == k)%Q) (map fst d).
Proof.
  induction d as [| [k' v'] d IH]; intros k H; simpl in *; [constructor |].
  destruct (Qeq_bool k' k) eqn:E; [discriminate |].
  constructor; [| apply IH; exact H].
  intros Heq. apply Qeq_bool_iff in Heq. congruence.
Qed.

Lemma dict_get_some_key : forall (d : list (Q * nat)) (k : Q) (idx s : nat),
  map snd d = seq s (List.length d) ->
  dict_get Qeq_bool d k = Some idx ->
  exists u, nth_error (map fst d) (idx - s) = Some u /\ (u == k)%Q /\
            (s <= idx)%nat.
Proof.
  induction d as [| [k' v'] d IH]; intros k idx s Hv H; simpl in *; [discriminate |].
  inversion Hv as [[Hv1 Hv2]].
  destruct (Qeq_bool k' k) eqn:E.
  - inversion H; subst. exists k'. rewrite Nat.sub_diag. simpl.
    apply Qeq_bool_iff in E. repeat split; [exact E | lia].
  - destruct (IH k idx (S s) Hv2 H) as (u & Hu & Heq & Hle).
    exists u. replace (idx - s)%nat with (S (idx - S s)) by lia.
    simpl. repeat split; [exact Hu | exact Heq | lia].
Qed.

Lemma any_all_false : forall (A : Type) (f : A -> bool) (l : list A),
  Forall (fun x => f x = false) l -> Np.any (map f l) = false.
Proof.
  intros A f l H. unfold Np.any. induction H as [| x l Hx _ IH]; simpl;
    [reflexivity |]. rewrite Hx. exact IH.
Qed.

(** The loop on timestamps that are close only when they are equal: the
    keys of [time_dict] stay pairwise different, key number [i] carries
    index [i], and every processed timestamp has the index of its key. *)
Lemma time_index_fold_separated :
  forall (tols : Q * Q) (all : list Q),
    (forall a b, In a all -> In b all ->
       Np.isclose a b (fst tols * 86400) (snd tols * 86400) = true -> (a == b)%Q) ->
    forall (times seen : list Q) (st : time_index_state),
      (forall t, In t times -> In t all) ->
      (forall k, In k (map fst st.(time_dict)) -> In k all) ->
      map snd st.(time_dict) = seq 0 (List.length st.(time_dict)) ->
      st.(time_count) = List.length st.(time_dict) ->
      (forall i j u v, nth_error (map fst st.(time_dict)) i = Some u ->
                       nth_error (map fst st.(time_dict)) j = Some v ->
                       (u == v)%Q -> i = j) ->
      Forall2 (fun t idx => exists u, nth_error (map fst st.(time_dict)) idx = Some u /\
                                      (u == t)%Q)
              seen st.(row_timeidx_map) ->
      let st' := fold_left (time_index_step tols) times st in
      st'.(time_count) = List.length st'.(time_dict) /\
      (forall i j u v, nth_error (map fst st'.(time_dict)) i = Some u ->
                       nth_error (map fst st'.(time_dict)) j = Some v ->
                       (u == v)%Q -> i = j) /\
      Forall2 (fun t idx => exists u, nth_error (map fst st'.(time_dict)) idx = Some u /\
                                      (u == t)%Q)
              (seen ++ times) st'.(row_timeidx_map).
Proof.
  intros tols all Hsep times.
  induction times as [| t times IH]; intros seen st Hin Hkeys Hvals Hcount Hdist Hmap.
  - simpl. rewrite app_nil_r. repeat split; assumption.
  - simpl.
    replace (seen ++ t :: times)%list with ((seen ++ [t]) ++ times)%list
      by (rewrite <- app_assoc; reflexivity).
    assert (Ht : In t all) by (apply Hin; left; reflexivity).
    unfold time_index_step.
    destruct (dict_get Qeq_bool (time_dict st) t) as [idx |] eqn:Hg.
    + (* the timestamp is a key already *)
      destruct (@dict_get_some_key _ _ _ 0%nat Hvals Hg) as (u & Hu & Heq & _).
      rewrite Nat.sub_0_r in Hu.
      apply IH; cbn [time_dict row_timeidx_map time_count]; try assumption.
      * intros x Hx. apply Hin. right; exact Hx.
      * apply Forall2_app; [exact Hmap |].
        constructor; [| constructor]. exists u. split; assumption.
    + (* a new timestamp: no key is close to it *)
      pose proof (dict_get_none_keys _ _ Hg) as Hnone.
      assert (Hfar : Forall (fun key => Np.isclose key t (fst tols * 86400)
                                           (snd tols * 86400) = false)
                            (map fst (time_dict st))).
      { apply Forall_forall. intros key Hkey.
        destruct (Np.isclose key t _ _) eqn:Hc; [| reflexivity].
        exfalso. rewrite Forall_forall in Hnone. apply (Hnone key Hkey).
        apply Hsep; [apply Hkeys; exact Hkey | exact Ht | exact Hc]. }
      rewrite (any_all_false _ Hfar).
      rewrite (dict_get_none_set _ _ _ Hg).
      apply IH; cbn [time_dict row_timeidx_map time_count].
      * intros x Hx. apply Hin. right; exact Hx.
      * intros k Hk. rewrite map_app in Hk. apply in_app_or in Hk.
        destruct Hk as [Hk | [Hk | []]]; [apply Hkeys; exact Hk | subst k; exact Ht].
      * rewrite map_app, length_app. simpl. rewrite Nat.add_1_r, seq_S.
        rewrite Hvals, Hcount. reflexivity.
      * rewrite length_app. simpl. lia.
      * intros i j u v Hi Hj Huv. rewrite map_app in Hi, Hj. simpl in Hi, Hj.
        assert (Hlen : List.length (map fst (time_dict st)) = List.length (time_dict st))
          by apply length_map.
        destruct (Nat.lt_ge_cases i (List.length (time_dict st))) as [Hil | Hig];
        destruct (Nat.lt_ge_cases j (List.length (time_dict st))) as [Hjl | Hjg].
        -- rewrite nth_error_app1 in Hi, Hj by lia. eapply Hdist; eassumption.
        -- rewrite nth_error_app1 in Hi by lia. rewrite nth_error_app2 in Hj by lia.
           destruct (j - List.length (map fst (time_dict st)))%nat as [| j'] eqn:Ej;
             [| destruct j'; discriminate].
           simpl in Hj. inversion Hj; subst v.
           exfalso. rewrite Forall_forall in Hnone.
           apply (Hnone u); [eapply nth_error_In; exact Hi | exact Huv].
        -- rewrite nth_error_app2 in Hi by lia. rewrite nth_error_app1 in Hj by lia.
           destruct (i - List.length (map fst (time_dict st)))%nat as [| i'] eqn:Ei;
             [| destruct i'; discriminate].
           simpl in Hi. inversion Hi; subst u.
           exfalso. rewrite Forall_forall in Hnone.
           apply (Hnone v); [eapply nth_error_In; exact Hj | symmetry; exact Huv].
        -- rewrite nth_error_app2 in Hi, Hj by lia.
           destruct (i - List.length (map fst (time_dict st)))%nat as [| i'] eqn:Ei;
             [| destruct i'; discriminate].
           destruct (j - List.length (map fst (time_dict st)))%nat as [| j'] eqn:Ej;
             [| destruct j'; discriminate].
           lia.
      * apply Forall2_app.
        -- eapply Forall2_impl; [| exact Hmap].
           intros x idx (u & Hu & Hux). exists u. split; [| exact Hux].
           rewrite map_app. rewrite nth_error_app1; [exact Hu |].
           apply nth_error_Some. congruence.
        -- constructor; [| constructor]. exists t. split; [| reflexivity].
           rewrite map_app, nth_error_app2 by (rewrite length_map; lia).
           rewrite length_map, Hcount, Nat.sub_diag. reflexivity.
Qed.

(** When raw timestamps are within the tolerance of each other only if
    they are equal, the time index is a deduplication: the distinct
    timestamps seen (the keys of [time_dict]) are pairwise different,
    [Ntimes] is their number, and every row's index is a valid index
    pointing at a key equal to the row's timestamp. *)
Theorem time_index_separated :
  forall (tols : Q * Q) (times : list Q),
    (forall a b, In a times -> In b times ->
       Np.isclose a b (fst tols * 86400) (snd tols * 86400) = true -> (a == b)%Q) ->
    let st := build_time_index tols times in
    let keys := map fst st.(time_dict) in
    Ntimes_read tols times = List.length keys /\
    (forall i j u v, nth_error keys i = Some u -> nth_error keys j = Some v ->
                     (u == v)%Q -> i = j) /\
    Forall2 (fun t idx => (idx < Ntimes_read tols times)%nat /\
                          exists u, nth_error keys idx = Some u /\ (u == t)%Q)
            times st.(row_timeidx_map).
Proof.
  intros tols times Hsep st keys.
  pose proof (@time_index_fold_separated tols times Hsep times [] time_index_init)
    as H.
  cbv zeta in H. simpl in H.
  destruct H as (Hc & Hd & Hm).
  - intros t Ht; exact Ht.
  - intros k [].
  - reflexivity.
  - reflexivity.
  - intros i j u v Hi. destruct i; discriminate.
  - constructor.
  - fold (build_time_index tols times) in Hc, Hd, Hm. fold st in Hc, Hd, Hm.
    fold keys in Hd, Hm.
    assert (Hn : Ntimes_read tols times = List.length keys).
    { unfold Ntimes_read. fold st. rewrite Hc. unfold keys.
      rewrite length_map. reflexivity. }
    split; [exact Hn |]. split; [exact Hd |].
    eapply Forall2_impl; [| exact Hm].
    intros t idx (u & Hu & Hut). split; [| exists u; split; assumption].
    rewrite Hn. apply nth_error_Some. congruence.
Qed.

Lemma time_index_separated_witness :
  (forall a b, In a Samples.repeated_times -> In b Samples.repeated_times ->
     Np.isclose a b (fst time_tols * 86400) (snd time_tols * 86400) = true ->
     (a == b)%Q) /\
  Ntimes_read time_tols Samples.repeated_times = 3%nat /\
  (build_time_index time_tols Samples.repeated_times).(row_timeidx_map)
    = [0; 1; 0; 0; 2]%nat /\
  Forall2 (fun t idx => (idx < Ntimes_read time_tols Samples.repeated_times)%nat /\
             exists u,
               nth_error (map fst (build_time_index time_tols
                                     Samples.repeated_times).(time_dict)) idx = Some u /\
               (u == t)%Q)
          Samples.repeated_times
          (build_time_index time_tols Samples.repeated_times).(row_timeidx_map).
Proof.
  assert (Hsep : forall a b, In a Samples.repeated_times -> In b Samples.repeated_times ->
     Np.isclose a b (fst time_tols * 86400) (snd time_tols * 86400) = true ->
     (a == b)%Q).
  { intros a b Ha Hb. unfold Samples.repeated_times in Ha, Hb. simpl in Ha, Hb.
    repeat (destruct Ha as [Ha | Ha]; [subst a |]); try contradiction;
    repeat (destruct Hb as [Hb | Hb]; [subst b |]); try contradiction;
    intros Hc; first [ reflexivity | vm_compute; reflexivity
                      | vm_compute in Hc; discriminate ]. }
  split; [exact Hsep |]. split; [vm_compute; reflexivity |].
  split; [vm_compute; reflexivity |].
  exact (proj2 (proj2 (@time_index_separated time_tols Samples.repeated_times Hsep))).
Defined.

End TimeIndexFacts.

(** ** More on [np.unique] and on the contiguity check *)

Module UniqueFacts.
Import Frequency.

Lemma insert_uniq_in : forall (x y : Z) (l : list Z),
  In y (Np.insert_uniq Z.eqb Z.ltb x l) <-> y = x \/ In y l.
Proof.
  intros x y l. induction l as [| z l IH]; simpl.
  - intuition congruence.
  - destruct (Z.eqb x z) eqn:E.
    + apply Z.eqb_eq in E. subst z. simpl. intuition congruence.
    + destruct (Z.ltb x z); simpl.
      * intuition congruence.
      * rewrite IH. intuition congruence.
Qed.

(** [np.unique] keeps exactly the values of the array. *)
Lemma unique_in : forall (l : list Z) (x : Z), In x (Np.unique l) <-> In x l.
Proof.
  unfold Np.unique, Np.unique_by.
  induction l as [| y l IH]; intros x; simpl; [tauto |].
  rewrite insert_uniq_in, IH. split; intros [H | H]; auto.
Qed.

Lemma unique_sorted : forall l : list Z, StronglySorted Z.lt (Np.unique l).
Proof. intros l. exact (SelectFacts.sorted_set_sorted l). Qed.

Lemma sorted_ext_eq : forall l1 l2 : list Z,
  StronglySorted Z.lt l1 -> StronglySorted Z.lt l2 ->
  (forall x, In x l1 <-> In x l2) -> l1 = l2.
Proof.
  induction l1 as [| x l1 IH]; intros l2 H1 H2 Hext.
  - destruct l2 as [| y l2]; [reflexivity |].
    exfalso. apply (proj2 (Hext y)). left; reflexivity.
  - destruct l2 as [| y l2].
    + exfalso. apply (proj1 (Hext x)). left; reflexivity.
    + inversion H1 as [| ? ? H1' Hx]; subst. inversion H2 as [| ? ? H2' Hy]; subst.
      rewrite Forall_forall in Hx, Hy.
      assert (Hxy : x = y).
      { destruct (proj1 (Hext x) (or_introl eq_refl)) as [E | Hin]; [auto |].
        destruct (proj2 (Hext y) (or_introl eq_refl)) as [E | Hin']; [auto |].
        specialize (Hx y Hin'). specialize (Hy x Hin). lia. }
      subst y. f_equal. apply IH; try assumption.
      intros z. split; intros Hz.
      * destruct (proj1 (Hext z) (or_intror Hz)) as [E | Hin]; [| exact Hin].
        subst z. specialize (Hx x Hz). lia.
      * destruct (proj2 (Hext z) (or_intror Hz)) as [E | Hin]; [| exact Hin].
        subst z. specialize (Hy x Hz). lia.
Qed.

(** [np.unique] depends on the values only, not on order or repeats. *)
Lemma unique_ext : forall l1 l2 : list Z,
  (forall x, In x l1 <-> In x l2) -> Np.unique l1 = Np.unique l2.
Proof.
  intros l1 l2 H. apply sorted_ext_eq; try apply unique_sorted.
  intros x. rewrite !unique_in. apply H.
Qed.

Lemma insert_uniq_length_new : forall (x : Z) (l : list Z),
  ~ In x l ->
  List.length (Np.insert_uniq Z.eqb Z.ltb x l) = S (List.length l).
Proof.
  intros x l. induction l as [| z l IH]; intros Hn; simpl; [reflexivity |].
  destruct (Z.eqb x z) eqn:E.
  - apply Z.eqb_eq in E. exfalso. apply Hn. left. symmetry; exact E.
  - destruct (Z.ltb x z); simpl; [reflexivity |].
    rewrite IH; [reflexivity |]. intros Hin. apply Hn. right; exact Hin.
Qed.

Lemma unique_length_nodup : forall l : list Z,
  NoDup l -> List.length (Np.unique l) = List.length l.
Proof.
  intros l H. induction H as [| x l Hx Hnd IH]; [reflexivity |].
  unfold Np.unique, Np.unique_by in *. simpl.
  rewrite insert_uniq_length_new; [rewrite IH; reflexivity |].
  intros Hin. apply Hx. apply (proj1 (unique_in l x)). exact Hin.
Qed.

Lemma n_breaks_cons : forall (x y : Z) (l : list Z),
  n_breaks (x :: y :: l)
  = ((if Z.eqb y x then 0 else 1) + n_breaks (y :: l))%nat.
Proof.
  intros x y l. unfold n_breaks, Np.count_true.
  change (removelast (x :: y :: l)) with (x :: removelast (y :: l)).
  cbn [tl combine map filter fst snd].
  destruct (Z.eqb y x); reflexivity.
Qed.

Lemma n_breaks_block : forall (id : Z) (k : nat) (rest : list Z),
  n_breaks (repeat id (S k) ++ rest)
  = match rest with
    | [] => 0%nat
    | y :: _ => ((if Z.eqb y id then 0 else 1) + n_breaks rest)%nat
    end.
Proof.
  intros id k rest. induction k as [| k IH].
  - simpl. destruct rest as [| y rest]; [reflexivity |]. apply n_breaks_cons.
  - change (repeat id (S (S k)) ++ rest)%list
      with (id :: id :: (repeat id k ++ rest))%list.
    rewrite n_breaks_cons, Z.eqb_refl. exact IH.
Qed.

Lemma n_breaks_blocks : forall blocks : list (Z * nat),
  blocks <> [] -> NoDup (map fst blocks) ->
  (n_breaks (flat_map (fun b => repeat (fst b) (S (snd b))) blocks) + 1
   = List.length blocks)%nat.
Proof.
  induction blocks as [| [id k] blocks IH]; intros Hne Hnd; [contradiction |].
  cbn [flat_map fst snd]. rewrite n_breaks_block.
  destruct blocks as [| [id' k'] blocks'].
  - reflexivity.
  - inversion Hnd as [| ? ? Hnotin Hnd']; subst.
    cbn [flat_map fst snd repeat app].
    assert (Hne' : Z.eqb id' id = false).
    { apply Z.eqb_neq. intros E. apply Hnotin. left. exact E. }
    rewrite Hne'.
    specialize (IH ltac:(discriminate) Hnd').
    cbn [flat_map fst snd repeat app] in IH. simpl List.length in *. lia.
Qed.

(** A frequency axis made of one block of channels per spectral window
    passes the contiguity check, in whatever order [spw_array] lists the
    windows. *)
Theorem contiguous_blocks_pass :
  forall (blocks : list (Z * nat)) (spw_array : list Z),
    blocks <> [] ->
    NoDup (map fst blocks) ->
    Permutation spw_array (map fst blocks) ->
    _check_flex_spw_contiguous
      (Some spw_array)
      (Some (flat_map (fun b => repeat (fst b) (S (snd b))) blocks)) = Ok tt.
Proof.
  intros blocks spw_array Hne Hnd Hp.
  rewrite FrequencyCheckFacts.contiguous_decided_by_breaks.
  - rewrite n_breaks_blocks by assumption.
    rewrite (Permutation_length Hp), length_map, Nat.eqb_refl. reflexivity.
  - apply unique_ext. intros x. split; intros Hx.
    + apply (Permutation_in _ (Permutation_sym Hp)).
      apply in_flat_map in Hx. destruct Hx as (b & Hb & Hx).
      apply repeat_spec in Hx. subst x. apply in_map. exact Hb.
    + apply (Permutation_in _ Hp) in Hx. apply in_map_iff in Hx.
      destruct Hx as (b & Hb & Hin). apply in_flat_map. exists b.
      split; [exact Hin |]. subst x. simpl. left; reflexivity.
Qed.

Lemma contiguous_blocks_pass_witness :
  _check_flex_spw_contiguous (Some [7; 2; 5]%Z) (Some [2; 2; 2; 5; 7; 7]%Z) = Ok tt.
Proof.
  apply (@contiguous_blocks_pass [(2%Z, 2%nat); (5%Z, 0%nat); (7%Z, 1%nat)] [7; 2; 5]%Z).
  - discriminate.
  - simpl. repeat constructor; simpl; intuition discriminate.
  - simpl. apply Permutation_trans with [2; 7; 5]%Z.
    + apply perm_swap.
    + apply perm_skip. apply perm_swap.
Defined.

End UniqueFacts.

(** ** More on [_select_freq_helper] *)

Module SelectMoreFacts.
Import Frequency.

Lemma lift_ok_inv : forall (A : Type) (r : result A) w (a : A),
  lift r = (w, Ok a) -> r = Ok a.
Proof. intros A r w a H. unfold lift in H. inversion H; reflexivity. Qed.

Lemma snd_bind_raise : forall (A B : Type) (m : W A) (k : A -> W B) e,
  snd m = Raise e -> snd (bind m k) = Raise e.
Proof.
  intros A B [w [a | e']] k e H; simpl in *; [discriminate |].
  inversion H; reflexivity.
Qed.

Lemma sorted_set_nonempty : forall l : list Z, l <> [] -> Np.sorted_set l <> [].
Proof.
  intros [| x l] H; [contradiction |].
  unfold Np.sorted_set, Np.unique_by. simpl.
  destruct (fold_right _ _ l) as [| y l']; simpl; [discriminate |].
  destruct (Z.eqb x y); [discriminate |]. destruct (Z.ltb x y); discriminate.
Qed.

Lemma sorted_set_in : forall (l : list Z) (x : Z), In x (Np.sorted_set l) <-> In x l.
Proof. intros l x. exact (UniqueFacts.unique_in l x). Qed.

(** What [select_windows] returns when it returns window indices. *)
Lemma select_windows_inv : forall osa osia sel sel' si,
  select_windows osa osia sel = Ok sel' ->
  sel'.(spw_inds) = Some si ->
  exists raw arr ssa,
    sel.(spw_inds) = Some raw /\ raw <> [] /\ si = Np.sorted_set raw /\
    osa = Some arr /\ Np.take_int arr raw = Ok ssa /\
    sel'.(sel_spw_array) = Some ssa /\
    sel'.(freq_inds) =
      match osia with
      | None => sel.(freq_inds)
      | Some ids =>
          match sel.(freq_inds) with
          | None => Some (Np.nonzero (Np.isin ids ssa false))
          | Some fi => Some (Np.intersect1d fi (Np.nonzero (Np.isin ids ssa false)))
          end
      end.
Proof.
  intros osa osia sel sel' si H Hsi. unfold select_windows in H.
  destruct (spw_inds sel) as [raw |] eqn:Hraw.
  - destruct osa as [arr |]; [| discriminate].
    destruct (Np.take_int arr raw) as [ssa | e] eqn:Ht; cbn [rbind] in H;
      [| discriminate].
    destruct (List.length raw =? 0)%nat eqn:Hlen; [discriminate |].
    inversion H; subst sel'. cbn in Hsi |- *. inversion Hsi; subst si.
    exists raw, arr, ssa. repeat split; try reflexivity; try assumption.
    intros Hnil. subst raw. discriminate.
  - inversion H; subst sel'. congruence.
Qed.

(** The window indices returned are strictly ascending, without
    duplicates, and not empty. *)
Theorem select_spw_inds_ascending :
  forall polstr2num jstr2num test_spacing
         frequencies freq_chans obj_freq_array freq_tols obj_channel_width
         channel_width_tols spws obj_spw_array obj_spw_id_array polarizations
         obj_flex_spw_pol_array jones obj_flex_jones_array obj_x_orientation
         warn_freq_spacing invert warnings chans windows names,
    _select_freq_helper polstr2num jstr2num test_spacing
      frequencies freq_chans obj_freq_array freq_tols obj_channel_width
      channel_width_tols spws obj_spw_array obj_spw_id_array polarizations
      obj_flex_spw_pol_array jones obj_flex_jones_array obj_x_orientation
      warn_freq_spacing invert
    = (warnings, Ok (chans, Some windows, names)) ->
    StronglySorted Z.lt windows /\ NoDup windows /\ windows <> [].
Proof.
  intros until names. intros H. unfold _select_freq_helper in H.
  apply SelectFacts.bind_ok_inv in H. destruct H as (w1 & sel1 & w2 & _ & H & _).
  apply SelectFacts.bind_ok_inv in H. destruct H as (w3 & sel2 & w4 & _ & H & _).
  apply SelectFacts.bind_ok_inv in H. destruct H as (w5 & sel3 & w6 & _ & H & _).
  apply SelectFacts.bind_ok_inv in H. destruct H as (w7 & sel4 & w8 & Hw & H & _).
  apply SelectFacts.bind_ok_inv in H. destruct H as (w9 & fi & w10 & _ & H & _).
  inversion H; subst. apply lift_ok_inv in Hw.
  destruct (select_windows_inv _ _ _ Hw H3)
    as (raw & arr & ssa & _ & Hne & Hsi & _).
  subst windows.
  pose proof (SelectFacts.sorted_set_sorted raw) as Hs.
  split; [exact Hs |]. split; [apply SelectFacts.strictly_ascending_nodup; exact Hs |].
  apply sorted_set_nonempty. exact Hne.
Qed.

Lemma select_spw_inds_ascending_witness :
  _select_freq_helper no_str2num no_str2num any_spacing
    None None two_window_freqs default_tols None default_tols
    (Some [0; 1; 0]%Z) (Some two_windows) (Some two_window_ids)
    None None None None None false false
  = ([], Ok (Some [0; 1; 2; 3; 4; 5]%Z, Some [0; 1]%Z, ["spectral windows"%string])) /\
  StronglySorted Z.lt [0; 1]%Z /\ NoDup [0; 1]%Z /\ [0; 1]%Z <> [].
Proof.
  split; [vm_compute; reflexivity |].
  apply (@select_spw_inds_ascending no_str2num no_str2num any_spacing
           None None two_window_freqs default_tols None default_tols
           (Some [0; 1; 0]%Z) (Some two_windows) (Some two_window_ids)
           None None None None None false false []
           (Some [0; 1; 2; 3; 4; 5]%Z) [0; 1]%Z ["spectral windows"%string]).
  vm_compute; reflexivity.
Defined.

Lemma match_frequencies_missing :
  forall (obj_freq_array : list Q) (freq_tols : Q * Q) (frequencies : list Q)
         (freq_chans : list Z) (f : Q),
    In f frequencies ->
    Np.any (map (fun g => Np.isclose g f (fst freq_tols) (snd freq_tols))
                obj_freq_array) = false ->
    match_frequencies obj_freq_array freq_tols false frequencies freq_chans
    = Raise (ValueError "Frequency is not present in the freq_array.").
Proof.
  intros ofa tols frequencies. induction frequencies as [| g rest IH];
    intros fc f Hin Hf; [contradiction |].
  cbn [match_frequencies].
  destruct (Np.any (map (fun f0 => Np.isclose f0 g (fst tols) (snd tols)) ofa))
    eqn:Hg.
  - destruct Hin as [Heq | Hin].
    + subst g. rewrite Hf in Hg. discriminate.
    + apply (IH _ f Hin Hf).
  - reflexivity.
Qed.

(** Without [invert], one requested frequency that no channel of the
    object is close to makes the call raise a [ValueError], whatever else
    is selected. *)
Theorem select_missing_frequency_raises :
  forall polstr2num jstr2num test_spacing
         (frequencies : list Q) freq_chans obj_freq_array freq_tols
         obj_channel_width channel_width_tols spws obj_spw_array
         obj_spw_id_array polarizations obj_flex_spw_pol_array jones
         obj_flex_jones_array obj_x_orientation warn_freq_spacing (f : Q),
    In f frequencies ->
    Np.any (map (fun g => Np.isclose g f (fst freq_tols) (snd freq_tols))
                obj_freq_array) = false ->
    snd (_select_freq_helper polstr2num jstr2num test_spacing
           (Some frequencies) freq_chans obj_freq_array freq_tols
           obj_channel_width channel_width_tols spws obj_spw_array
           obj_spw_id_array polarizations obj_flex_spw_pol_array jones
           obj_flex_jones_array obj_x_orientation warn_freq_spacing false)
    = Raise (ValueError "Frequency is not present in the freq_array.").
Proof.
  intros until f. intros Hin Hf. unfold _select_freq_helper.
  apply snd_bind_raise. unfold lift, select_frequencies. cbn [snd].
  rewrite (match_frequencies_missing _ _ _ _ _ Hin Hf). reflexivity.
Qed.

Lemma select_missing_frequency_raises_witness :
  snd (_select_freq_helper no_str2num no_str2num any_spacing
         (Some (MHz [103; 250]%Z)) None ten_channels default_tols
         (Some ten_widths) default_tols None (Some [0%Z]) (Some ten_ids)
         None None None None None true false)
  = Raise (ValueError "Frequency is not present in the freq_array.").
Proof.
  apply (@select_missing_frequency_raises no_str2num no_str2num any_spacing
           (MHz [103; 250]%Z) None ten_channels default_tols
           (Some ten_widths) default_tols None (Some [0%Z]) (Some ten_ids)
           None None None None None true (250000000 # 1)).
  - right; left. vm_compute. reflexivity.
  - vm_compute. reflexivity.
Defined.

Lemma take_int_raise : forall (A : Type) (a : list A) (idx : list Z) e,
  Np.take_int a idx = Raise e -> e = IndexError "index is out of bounds".
Proof.
  intros A a idx. induction idx as [| i rest IH]; intros e H; [discriminate |].
  cbn [Np.take_int] in H.
  destruct (_ || _)%bool; [inversion H; reflexivity |].
  destruct (nth_error a _); [| inversion H; reflexivity].
  destruct (Np.take_int a rest) as [xs | e'] eqn:Hr; cbn [rbind] in H;
    [discriminate |].
  inversion H; subst. apply IH. reflexivity.
Qed.

(** With [invert] and channel numbers given without repetition (and no
    frequencies), the call never returns: it raises the no-data
    [ValueError], or the [IndexError] of a channel number outside the
    window-id array. *)
Theorem select_invert_distinct_channels_raise :
  forall polstr2num jstr2num test_spacing
         (freq_chans : list Z) obj_freq_array freq_tols
         obj_channel_width channel_width_tols spws obj_spw_array
         obj_spw_id_array polarizations obj_flex_spw_pol_array jones
         obj_flex_jones_array obj_x_orientation warn_freq_spacing,
    NoDup freq_chans ->
    exists e,
      snd (_select_freq_helper polstr2num jstr2num test_spacing
             None (Some freq_chans) obj_freq_array freq_tols
             obj_channel_width channel_width_tols spws obj_spw_array
             obj_spw_id_array polarizations obj_flex_spw_pol_array jones
             obj_flex_jones_array obj_x_orientation warn_freq_spacing true)
      = Raise e /\
      (e = ValueError no_frequency_message \/
       e = IndexError "index is out of bounds").
Proof.
  intros until warn_freq_spacing. intros Hnd.
  assert (Hsel : exists e,
    select_frequencies None (Some freq_chans) obj_freq_array freq_tols
      obj_spw_array obj_spw_id_array true = Raise e /\
    (e = ValueError no_frequency_message \/
     e = IndexError "index is out of bounds")).
  { unfold select_frequencies. cbn [rbind andb].
    rewrite (UniqueFacts.unique_length_nodup Hnd), Nat.eqb_refl.
    destruct obj_spw_array as [osa |]; [destruct obj_spw_id_array as [osia |] |].
    - destruct (Np.take_int osia (Np.unique freq_chans)) as [ids | e] eqn:Ht;
        cbn [rbind].
      + eexists; split; [reflexivity | left; reflexivity].
      + exists e. split; [reflexivity |]. right.
        apply (take_int_raise _ _ Ht).
    - eexists; split; [reflexivity | left; reflexivity].
    - eexists; split; [reflexivity | left; reflexivity]. }
  destruct Hsel as (e & He & Hcase). exists e. split; [| exact Hcase].
  unfold _select_freq_helper. apply snd_bind_raise. unfold lift. cbn [snd].
  exact He.
Qed.

Lemma select_invert_distinct_channels_raise_witness :
  NoDup [2; 5; 3]%Z /\
  exists e,
    snd (_select_freq_helper no_str2num no_str2num any_spacing
           None (Some [2; 5; 3]%Z) ten_channels default_tols
           (Some ten_widths) default_tols None (Some [0%Z]) (Some ten_ids)
           None None None None None true true)
    = Raise e /\
    (e = ValueError no_frequency_message \/
     e = IndexError "index is out of bounds").
Proof.
  assert (Hnd : NoDup [2; 5; 3]%Z).
  { repeat constructor; simpl; intuition discriminate. }
  split; [exact Hnd |].
  apply (@select_invert_distinct_channels_raise no_str2num no_str2num any_spacing
           [2; 5; 3]%Z ten_channels default_tols
           (Some ten_widths) default_tols None (Some [0%Z]) (Some ten_ids)
           None None None None None true Hnd).
Defined.

Lemma where_from_in : forall (mask : list bool) (i q : nat),
  In q (Np.where_from i mask) <->
  exists p, q = (i + p)%nat /\ nth_error mask p = Some true.
Proof.
  induction mask as [| b m IH]; intros i q; cbn [Np.where_from].
  - split; [contradiction |]. intros (p & _ & Hp). destruct p; discriminate.
  - assert (Hrest : In q (Np.where_from (S i) m) <->
                    exists p, q = (i + S p)%nat /\ nth_error m p = Some true).
    { rewrite IH. split; intros (p & Hq & Hp); exists p; split; auto; lia. }
    destruct b; cbn [In]; rewrite Hrest; split.
    + intros [Hq | (p & Hq & Hp)].
      * exists 0%nat. split; [lia | reflexivity].
      * exists (S p). split; assumption.
    + intros ([| p] & Hq & Hp).
      * left; lia.
      * right. exists p. split; assumption.
    + intros (p & Hq & Hp). exists (S p). split; assumption.
    + intros ([| p] & Hq & Hp); [discriminate |].
      exists p. split; assumption.
Qed.

Lemma nonzero_in : forall (mask : list bool) (z : Z),
  In z (Np.nonzero mask) <->
  exists p, z = Z.of_nat p /\ nth_error mask p = Some true.
Proof.
  intros mask z. unfold Np.nonzero, Np.where_. rewrite in_map_iff. split.
  - intros (q & Hz & Hq). apply where_from_in in Hq.
    destruct Hq as (p & Hq & Hp). exists p. split; [subst; reflexivity | exact Hp].
  - intros (p & Hz & Hp). exists p. split; [symmetry; exact Hz |].
    apply where_from_in. exists p. split; [reflexivity | exact Hp].
Qed.

Lemma isin_true : forall (element test : list Z) (p : nat),
  nth_error (Np.isin element test false) p = Some true <->
  exists x, nth_error element p = Some x /\ In x test.
Proof.
  intros element test p. unfold Np.isin. rewrite nth_error_map.
  destruct (nth_error element p) as [x |]; cbn [option_map xorb].
  - split.
    + intros H. injection H as Hx. apply existsb_exists in Hx.
      destruct Hx as (y & Hy & Heq). apply Z.eqb_eq in Heq. subst y.
      exists x. split; [reflexivity | exact Hy].
    + intros (y & Hy & Hin). inversion Hy; subst y. f_equal.
      apply existsb_exists. exists x. split; [exact Hin | apply Z.eqb_refl].
  - split; [discriminate | intros (x & Hx & _); discriminate].
Qed.

Lemma intersect1d_in : forall (a b : list Z) (x : Z),
  In x (Np.intersect1d a b) <-> In x a /\ In x b.
Proof.
  intros a b x. unfold Np.intersect1d.
  rewrite UniqueFacts.unique_in, filter_In. split; intros [Ha Hb]; split; auto.
  - apply existsb_exists in Hb. destruct Hb as (y & Hy & Heq).
    apply Z.eqb_eq in Heq. subst y. exact Hy.
  - apply existsb_exists. exists x. split; [exact Hb | apply Z.eqb_refl].
Qed.

Lemma take_int_in : forall (A : Type) (a : list A) (idx : list Z) (r : list A) (x : A),
  Np.take_int a idx = Ok r -> In x r ->
  exists j, In j idx /\ Np.take_int a [j] = Ok [x].
Proof.
  intros A a idx. induction idx as [| i rest IH]; intros r x H Hin.
  - inversion H; subst. contradiction.
  - cbn [Np.take_int] in H |- *.
    destruct (_ || _)%bool eqn:Hb; [discriminate |].
    destruct (nth_error a _) as [y |] eqn:Hy; [| discriminate].
    destruct (Np.take_int a rest) as [xs |] eqn:Hr; cbn [rbind] in H;
      [| discriminate].
    inversion H; subst r. destruct Hin as [Heq | Hin].
    + subst y. exists i. split; [left; reflexivity |].
      cbn [Np.take_int]. rewrite Hb, Hy. reflexivity.
    + destruct (IH xs x eq_refl Hin) as (j & Hj & Htj).
      exists j. split; [right; exact Hj | exact Htj].
Qed.

(** When both window arrays are on the object and channels and windows
    are returned, every returned channel lies in the window-id array and
    belongs to one of the returned windows. *)
Theorem select_channels_in_selected_windows :
  forall polstr2num jstr2num test_spacing
         frequencies freq_chans obj_freq_array freq_tols obj_channel_width
         channel_width_tols spws (obj_spw_array obj_spw_id_array : list Z)
         polarizations obj_flex_spw_pol_array jones obj_flex_jones_array
         obj_x_orientation warn_freq_spacing invert warnings chans windows names,
    _select_freq_helper polstr2num jstr2num test_spacing
      frequencies freq_chans obj_freq_array freq_tols obj_channel_width
      channel_width_tols spws (Some obj_spw_array) (Some obj_spw_id_array)
      polarizations obj_flex_spw_pol_array jones obj_flex_jones_array
      obj_x_orientation warn_freq_spacing invert
    = (warnings, Ok (Some chans, Some windows, names)) ->
    forall i, In i chans ->
      exists (p : nat) (j win : Z),
        i = Z.of_nat p /\
        nth_error obj_spw_id_array p = Some win /\
        In j windows /\
        Np.take_int obj_spw_array [j] = Ok [win].
Proof.
  intros until names. intros H i Hi. unfold _select_freq_helper in H.
  apply SelectFacts.bind_ok_inv in H. destruct H as (w1 & sel1 & w2 & _ & H & _).
  apply SelectFacts.bind_ok_inv in H. destruct H as (w3 & sel2 & w4 & _ & H & _).
  apply SelectFacts.bind_ok_inv in H. destruct H as (w5 & sel3 & w6 & _ & H & _).
  apply SelectFacts.bind_ok_inv in H. destruct H as (w7 & sel4 & w8 & Hw & H & _).
  apply SelectFacts.bind_ok_inv in H. destruct H as (w9 & fi & w10 & Hfin & H & _).
  inversion H; subst. apply lift_ok_inv in Hw.
  destruct (select_windows_inv _ _ _ Hw H3)
    as (raw & arr & ssa & _ & _ & Hsi & Harr & Htake & _ & Hfi).
  inversion Harr; subst arr. subst windows.
  destruct (SelectFacts.finish_freq_inds_sorted_set _ _ _ _ _ _ _ Hfin)
    as (raw_fi & Hraw_fi & _ & Hchans).
  subst chans. apply (proj1 (sorted_set_in _ _)) in Hi.
  assert (Hin : In i (Np.nonzero (Np.isin obj_spw_id_array ssa false))).
  { rewrite Hraw_fi in Hfi. destruct (freq_inds sel3) as [fi3 |].
    - inversion Hfi; subst raw_fi.
      apply (proj1 (intersect1d_in _ _ _)) in Hi. tauto.
    - inversion Hfi; subst raw_fi. exact Hi. }
  apply (proj1 (nonzero_in _ _)) in Hin. destruct Hin as (p & Hp & Hmask).
  apply (proj1 (isin_true _ _ _)) in Hmask. destruct Hmask as (win & Hwin & Hssa).
  destruct (@take_int_in _ _ _ _ _ Htake Hssa) as (j & Hj & Htj).
  exists p, j, win. split; [exact Hp |]. split; [exact Hwin |].
  split; [| exact Htj]. apply (proj2 (sorted_set_in _ _)). exact Hj.
Qed.

Lemma select_channels_in_selected_windows_witness :
  exists (p : nat) (j win : Z),
    4%Z = Z.of_nat p /\
    nth_error two_window_ids p = Some win /\
    In j [1%Z] /\
    Np.take_int two_windows [j] = Ok [win].
Proof.
  apply (@select_channels_in_selected_windows no_str2num no_str2num any_spacing
           None None two_window_freqs default_tols None default_tols
           (Some [0%Z]) two_windows two_window_ids
           None None None None None false false []
           [3; 4; 5]%Z [1%Z] ["spectral windows"%string]).
  - vm_compute; reflexivity.
  - right; left; reflexivity.
Defined.

End SelectMoreFacts.

(** ** More on [_sort_freq_helper] *)

Module SortMoreFacts.
Import Frequency.

Section InsertionSort.
Variable K : Type.
Variable leb : K -> K -> bool.
Hypothesis leb_total : forall a b, leb a b = true \/ leb b a = true.

Local Abbreviation key_le := (fun x y : K * nat => leb (fst x) (fst y) = true).

Lemma insert_key_hd : forall (x y : K * nat) (l : list (K * nat)),
  key_le y x -> HdRel key_le y l -> HdRel key_le y (Np.insert_key leb x l).
Proof.
  intros x y l Hyx Hl. destruct l as [| z l]; simpl.
  - constructor. exact Hyx.
  - destruct (leb (fst x) (fst z)); constructor; [exact Hyx |].
    inversion Hl; assumption.
Qed.

Lemma insert_key_sorted : forall (x : K * nat) (l : list (K * nat)),
  Sorted key_le l -> Sorted key_le (Np.insert_key leb x l).
Proof.
  intros x l. induction l as [| y l IH]; intros Hs; simpl.
  - constructor; constructor.
  - inversion Hs as [| ? ? Hs' Hhd]; subst.
    destruct (leb (fst x) (fst y)) eqn:E.
    + constructor; [exact Hs |]. constructor. exact E.
    + constructor; [apply IH; exact Hs' |].
      apply insert_key_hd; [| exact Hhd].
      destruct (leb_total (fst x) (fst y)) as [H | H]; [congruence | exact H].
Qed.

Lemma sort_keys_sorted : forall keys : list K,
  Sorted key_le (Np.sort_keys leb keys).
Proof.
  intros keys. unfold Np.sort_keys.
  induction (combine keys (seq 0 (List.length keys))) as [| x l IH]; simpl.
  - constructor.
  - apply insert_key_sorted. exact IH.
Qed.

Lemma sorted_map_fst : forall l : list (K * nat),
  Sorted key_le l -> Sorted (fun a b => leb a b = true) (map fst l).
Proof.
  induction l as [| x l IH]; intros Hs; simpl; [constructor |].
  inversion Hs as [| ? ? Hs' Hhd]; subst. constructor; [apply IH; exact Hs' |].
  destruct l as [| y l]; simpl; constructor. inversion Hhd; assumption.
Qed.

(** The sorted keys ascend. *)
Lemma sort_by_sorted : forall keys : list K,
  Sorted (fun a b => leb a b = true) (Np.sort_by leb keys).
Proof.
  intros keys. unfold Np.sort_by. apply sorted_map_fst. apply sort_keys_sorted.
Qed.

End InsertionSort.

Lemma Zleb_total : forall a b : Z, Z.leb a b = true \/ Z.leb b a = true.
Proof.
  intros a b. destruct (Z.leb a b) eqn:E; [left; reflexivity |].
  right. apply Z.leb_le. apply Z.leb_gt in E. lia.
Qed.

Lemma sorted_Z_unique : forall l1 l2 : list Z,
  StronglySorted Z.le l1 -> StronglySorted Z.le l2 -> Permutation l1 l2 ->
  l1 = l2.
Proof.
  induction l1 as [| x l1 IH]; intros l2 H1 H2 Hp.
  - apply Permutation_nil in Hp. symmetry; exact Hp.
  - destruct l2 as [| y l2].
    + apply Permutation_sym, Permutation_nil in Hp. discriminate.
    + inversion H1 as [| ? ? H1' Hx]; subst.
      inversion H2 as [| ? ? H2' Hy]; subst.
      assert (Hxy : x = y).
      { assert (Hyx : (y <= x)%Z).
        { assert (Hin : In x (y :: l2))
            by (apply (Permutation_in _ Hp); left; reflexivity).
          destruct Hin as [-> | Hin]; [lia |].
          apply (proj1 (Forall_forall _ _) Hy _ Hin). }
        assert (Hxy : (x <= y)%Z).
        { assert (Hin : In y (x :: l1))
            by (apply (Permutation_in _ (Permutation_sym Hp)); left; reflexivity).
          destruct Hin as [-> | Hin]; [lia |].
          apply (proj1 (Forall_forall _ _) Hx _ Hin). }
        lia. }
      subst y. f_equal. apply IH; try assumption.
      apply (Permutation_cons_inv Hp).
Qed.

Lemma positions_sorted : forall s n : nat,
  StronglySorted Z.le (map Z.of_nat (seq s n)).
Proof.
  intros s n. revert s. induction n as [| n IH]; intros s; simpl; constructor.
  - apply IH.
  - apply Forall_forall. intros z Hz. apply in_map_iff in Hz.
    destruct Hz as (k & <- & Hk). apply in_seq in Hk. lia.
Qed.

Lemma sort_by_Z_sorted : forall a : list Z,
  StronglySorted Z.le (Np.sort_by Z.leb a).
Proof.
  intros a. apply Sorted_StronglySorted.
  - intros x y z Hxy Hyz. lia.
  - pose proof (@sort_by_sorted Z Z.leb Zleb_total a) as H.
    induction H as [| x l Hs IH Hhd]; constructor; [exact IH |].
    destruct Hhd; constructor. apply Z.leb_le. assumption.
Qed.

Lemma all_eqb_refl : forall l : list Z,
  Np.all (map (fun xy => Z.eqb (fst xy) (snd xy)) (combine l l)) = true.
Proof.
  unfold Np.all. induction l as [| x l IH]; simpl; [reflexivity |].
  rewrite Z.eqb_refl. exact IH.
Qed.

(** The test on an index array accepts exactly the rearrangements of
    [0, ..., n-1]. *)
Lemma is_index_array_iff : forall (a : list Z) (n : nat),
  is_index_array a n = true <-> Permutation a (map Z.of_nat (seq 0 n)).
Proof.
  intros a n. unfold is_index_array, Np.arange. split.
  - intros H. apply andb_true_iff in H. destruct H as [Hlen Hall].
    apply Nat.eqb_eq in Hlen. apply SortFacts.combine_eqb_all in Hall.
    + rewrite <- Hall. apply Permutation_sym. apply NpFacts.sort_by_perm.
    + rewrite (Permutation_length (NpFacts.sort_by_perm Z.leb a)).
      rewrite length_map, length_seq. exact Hlen.
  - intros Hp. apply andb_true_iff. split.
    + apply Nat.eqb_eq. rewrite (Permutation_length Hp), length_map, length_seq.
      reflexivity.
    + assert (Hs : Np.sort_by Z.leb a = map Z.of_nat (seq 0 n)).
      { apply sorted_Z_unique.
        - apply sort_by_Z_sorted.
        - apply positions_sorted.
        - apply Permutation_trans with a; [apply NpFacts.sort_by_perm | exact Hp]. }
      rewrite Hs. apply all_eqb_refl.
Qed.

Lemma strictly_increasing_seq : forall n s : nat,
  Np.strictly_increasing (seq s n) = true.
Proof.
  induction n as [| n IH]; intros s; [reflexivity |].
  specialize (IH (S s)). destruct n as [| n]; [reflexivity |].
  change (seq s (S (S n))) with (s :: seq (S s) (S n)).
  change (seq (S s) (S n)) with (S s :: seq (S (S s)) n) in *.
  cbn [Np.strictly_increasing] in *. rewrite IH.
  replace (s <? S s)%nat with true by (symmetry; apply Nat.ltb_lt; lia).
  reflexivity.
Qed.

Lemma strictly_increasing_sorted : forall l : list nat,
  Np.strictly_increasing l = true -> StronglySorted Z.le (map Z.of_nat l).
Proof.
  intros l H. apply Sorted_StronglySorted; [intros x y z; lia |].
  induction l as [| x l IH]; simpl; [constructor |].
  destruct l as [| y l]; [constructor; constructor |].
  cbn [Np.strictly_increasing] in H. apply andb_true_iff in H.
  destruct H as [Hxy H]. apply Nat.ltb_lt in Hxy.
  constructor; [apply IH; exact H |]. simpl. constructor. lia.
Qed.

Lemma of_nat_to_nat_positions : forall (a : list Z) (n : nat),
  Permutation a (map Z.of_nat (seq 0 n)) -> map Z.of_nat (map Z.to_nat a) = a.
Proof.
  intros a n Hp. rewrite map_map. rewrite <- (map_id a) at 2.
  apply map_ext_in. intros z Hz.
  apply (Permutation_in _ Hp) in Hz. apply in_map_iff in Hz.
  destruct Hz as (k & <- & _). rewrite Nat2Z.id. reflexivity.
Qed.

(** A rearrangement of the positions ascends only when it is the
    positions themselves. *)
Lemma strictly_increasing_identity : forall (a : list Z) (n : nat),
  Permutation a (map Z.of_nat (seq 0 n)) ->
  (Np.strictly_increasing (map Z.to_nat a) = true <-> a = map Z.of_nat (seq 0 n)).
Proof.
  intros a n Hp. split.
  - intros H. rewrite <- (@of_nat_to_nat_positions a n Hp).
    apply sorted_Z_unique.
    + apply strictly_increasing_sorted. exact H.
    + apply positions_sorted.
    + rewrite (@of_nat_to_nat_positions a n Hp). exact Hp.
  - intros ->. rewrite map_map.
    rewrite (map_ext _ (fun x => x)) by (intros; apply Nat2Z.id).
    rewrite map_id. apply strictly_increasing_seq.
Qed.

(** An index array given as [channel_order] decides the result alone:
    an array that is not a rearrangement of [0, ..., Nfreqs-1] raises the
    [ValueError]; the positions in their own order give [None]; any
    other rearrangement is returned as it is. *)
Theorem channel_index_array_decides :
  forall Nfreqs freq_array Nspws spw_array flex_spw_id_array spw_order select_spw
         (idx : list Z),
    (~ Permutation idx (map Z.of_nat (seq 0 Nfreqs)) ->
     snd (_sort_freq_helper Nfreqs freq_array Nspws spw_array flex_spw_id_array
            spw_order (Some (OrderIdx idx)) select_spw)
     = Raise (ValueError channel_index_message)) /\
    (idx = map Z.of_nat (seq 0 Nfreqs) ->
     snd (_sort_freq_helper Nfreqs freq_array Nspws spw_array flex_spw_id_array
            spw_order (Some (OrderIdx idx)) select_spw)
     = Ok None) /\
    (Permutation idx (map Z.of_nat (seq 0 Nfreqs)) ->
     idx <> map Z.of_nat (seq 0 Nfreqs) ->
     snd (_sort_freq_helper Nfreqs freq_array Nspws spw_array flex_spw_id_array
            spw_order (Some (OrderIdx idx)) select_spw)
     = Ok (Some (map Z.to_nat idx))).
Proof.
  intros Nfreqs freq_array Nspws spw_array flex spw_order select_spw idx.
  assert (Hcall :
    snd (_sort_freq_helper Nfreqs freq_array Nspws spw_array flex
           spw_order (Some (OrderIdx idx)) select_spw)
    = if is_index_array idx Nfreqs
      then if Np.strictly_increasing (map Z.to_nat idx) then Ok None
           else Ok (Some (map Z.to_nat idx))
      else Raise (ValueError channel_index_message)).
  { rewrite SortFacts.sort_freq_helper_result.
    replace (negb (is_some spw_order) && negb (is_some (Some (OrderIdx idx))))
      with false by (destruct spw_order; reflexivity).
    unfold index_array_for.
    rewrite !SortFacts.snd_bind, !SortFacts.snd_when_warn.
    destruct (is_index_array idx Nfreqs); reflexivity. }
  rewrite Hcall. split; [| split].
  - intros Hn. destruct (is_index_array idx Nfreqs) eqn:E; [| reflexivity].
    exfalso. apply Hn. apply is_index_array_iff. exact E.
  - intros Hid.
    assert (Hp : Permutation idx (map Z.of_nat (seq 0 Nfreqs)))
      by (rewrite Hid; apply Permutation_refl).
    rewrite (proj2 (is_index_array_iff _ _) Hp).
    rewrite (proj2 (@strictly_increasing_identity idx Nfreqs Hp) Hid). reflexivity.
  - intros Hp Hne. rewrite (proj2 (is_index_array_iff _ _) Hp).
    destruct (Np.strictly_increasing (map Z.to_nat idx)) eqn:E; [| reflexivity].
    exfalso. apply Hne. apply (proj1 (@strictly_increasing_identity idx Nfreqs Hp)). exact E.
Qed.

End SortMoreFacts.

(** ** The ANTENNA table for any numbering *)

Module AntennaMoreFacts.
Import MsUtils.
Open Scope string_scope.

Section Rows.
Variable A : Type.

Lemma set_nth_length : forall (l : list A) (i : nat) (x : A),
  List.length (Np.set_nth l i x) = List.length l.
Proof.
  induction l as [| y l IH]; intros [| i] x; simpl; try reflexivity.
  rewrite IH. reflexivity.
Qed.

Lemma set_nth_same : forall (l : list A) (i : nat) (x : A),
  (i < List.length l)%nat -> nth_error (Np.set_nth l i x) i = Some x.
Proof.
  induction l as [| y l IH]; intros [| i] x H; simpl in *; try lia;
    [reflexivity |].
  apply IH. lia.
Qed.

Lemma set_nth_other : forall (l : list A) (i k : nat) (x : A),
  k <> i -> nth_error (Np.set_nth l i x) k = nth_error l k.
Proof.
  induction l as [| y l IH]; intros [| i] [| k] x H; simpl; try reflexivity;
    try congruence.
  apply IH. congruence.
Qed.

(** What the loop [table[num] = values[ai]] leaves in the table, for
    numbers without repetition. *)
Lemma scatter_spec : forall (nums : list nat) (table values r : list A),
  NoDup nums -> scatter table nums values = Ok r ->
  List.length r = List.length table /\
  (forall k, ~ In k nums -> nth_error r k = nth_error table k) /\
  (forall i num, nth_error nums i = Some num ->
     exists v, nth_error values i = Some v /\ nth_error r num = Some v).
Proof.
  induction nums as [| num nums IH]; intros table values r Hnd H.
  - inversion H; subst. split; [reflexivity |]. split; [reflexivity |].
    intros [| i] n Hn; discriminate.
  - cbn [scatter] in H. destruct values as [| v vs]; [discriminate |].
    destruct (num <? List.length table)%nat eqn:Hlt; [| discriminate].
    apply Nat.ltb_lt in Hlt. inversion Hnd as [| ? ? Hnotin Hnd']; subst.
    destruct (IH _ _ _ Hnd' H) as (Hlen & Hout & Hin).
    rewrite set_nth_length in Hlen. split; [exact Hlen |]. split.
    + intros k Hk. rewrite Hout by (intros Hc; apply Hk; right; exact Hc).
      apply set_nth_other. intros ->. apply Hk. left; reflexivity.
    + intros [| i] n Hn; simpl in Hn.
      * inversion Hn; subst n. exists v. split; [reflexivity |].
        rewrite (Hout _ Hnotin). apply set_nth_same. exact Hlt.
      * apply (Hin _ _ Hn).
Qed.

Lemma scatter_total : forall (nums : list nat) (table values : list A),
  Forall (fun k => (k < List.length table)%nat) nums ->
  (List.length nums <= List.length values)%nat ->
  exists r, scatter table nums values = Ok r.
Proof.
  induction nums as [| num nums IH]; intros table values Hall Hlen.
  - exists table. reflexivity.
  - cbn [scatter]. destruct values as [| v vs]; [simpl in Hlen; lia |].
    inversion Hall as [| ? ? Hnum Hall']; subst.
    rewrite (proj2 (Nat.ltb_lt _ _) Hnum). apply IH.
    + rewrite set_nth_length. exact Hall'.
    + simpl in Hlen. lia.
Qed.

Lemma filter_map_shift : forall (f : nat -> bool) (l : list nat),
  filter f (map S l) = map S (filter (fun k => f (S k)) l).
Proof.
  induction l as [| k l IH]; simpl; [reflexivity |].
  destruct (f (S k)); simpl; rewrite IH; reflexivity.
Qed.

(** [a[mask]] lists the entries of [a] at the positions where the mask
    is true, in ascending order of position. *)
Lemma mask_select_rows : forall (d : A) (mask : list bool) (a : list A),
  List.length mask = List.length a ->
  Np.mask_select mask a
  = map (fun k => nth k a d)
        (filter (fun k => nth k mask false) (seq 0 (List.length a))).
Proof.
  intros d. unfold Np.mask_select.
  induction mask as [| b mask IH]; intros [| x a] Hl; simpl in Hl; try discriminate;
    [reflexivity |].
  cbn [List.length]. rewrite <- cons_seq, <- seq_shift.
  cbn [combine filter fst nth]. rewrite filter_map_shift.
  cbn [nth]. destruct b; cbn [map snd fst nth];
    rewrite map_map; cbn [nth]; rewrite <- IH by lia; reflexivity.
Qed.

End Rows.

Lemma filter_seq_sorted : forall (f : nat -> bool) (n s : nat),
  StronglySorted lt (filter f (seq s n)).
Proof.
  intros f n. induction n as [| n IH]; intros s; simpl; [constructor |].
  destruct (f s); [| apply IH].
  constructor; [apply IH |]. apply Forall_forall. intros k Hk.
  apply filter_In in Hk. destruct Hk as [Hk _]. apply in_seq in Hk. lia.
Qed.

Lemma fold_left_max_ge : forall (l : list nat) (x : nat),
  (x <= fold_left Nat.max l x)%nat /\
  Forall (fun y => (y <= fold_left Nat.max l x)%nat) l.
Proof.
  induction l as [| y l IH]; intros x; simpl; [split; [lia | constructor] |].
  destruct (IH (Nat.max x y)) as [H1 H2]. split; [lia |].
  constructor; [lia | exact H2].
Qed.

Lemma max_bounds : forall (l : list nat) (m : nat),
  Np.max l = Ok m -> Forall (fun y => (y < S m)%nat) l.
Proof.
  intros [| x l] m H; [constructor |]. simpl in H. inversion H; subst m.
  destruct (fold_left_max_ge l x) as [H1 H2].
  constructor; [lia |]. eapply Forall_impl; [| exact H2].
  intros y Hy. simpl in Hy. lia.
Qed.

Lemma good_mask_nth : forall (positions : list vec3) (k : nat),
  nth k (map vec3_any positions) false = vec3_any (nth k positions vec3_zero).
Proof.
  intros positions k. change false with (vec3_any vec3_zero). apply map_nth.
Qed.

(** The rows [read_ms_ant] keeps, and what it returns for them. *)
Lemma read_ms_ant_rows : forall (tb : antenna_table) (check : bool) (ant : ant_dict),
  List.length tb.(NAME) = List.length tb.(POSITION) ->
  List.length tb.(STATION) = List.length tb.(POSITION) ->
  List.length tb.(DISH_DIAMETER) = List.length tb.(POSITION) ->
  read_ms_ant (Some tb) check = Ok ant ->
  ant.(antenna_numbers)
  = filter (fun k => vec3_any (nth k tb.(POSITION) vec3_zero))
           (seq 0 (List.length tb.(POSITION))) /\
  ant.(antenna_positions)
  = map (fun k => nth k tb.(POSITION) vec3_zero) ant.(antenna_numbers) /\
  ant.(antenna_names) = map (fun k => nth k tb.(NAME) "") ant.(antenna_numbers) /\
  ant.(station_names) = map (fun k => nth k tb.(STATION) "") ant.(antenna_numbers) /\
  ant.(antenna_diameters)
  = map (fun k => nth k tb.(DISH_DIAMETER) 0%Q) ant.(antenna_numbers).
Proof.
  intros tb check ant Hn Hs Hd H. unfold read_ms_ant in H.
  destruct (if check then _ else _) as [fr | e]; cbn [rbind] in H; [| discriminate].
  inversion H; subst ant; clear H.
  cbn [antenna_numbers antenna_positions antenna_names station_names
       antenna_diameters].
  assert (Hrows :
    Np.mask_select (map vec3_any (POSITION tb)) (Np.arange (List.length (POSITION tb)))
    = filter (fun k => vec3_any (nth k tb.(POSITION) vec3_zero))
             (seq 0 (List.length tb.(POSITION)))).
  { rewrite (@mask_select_rows nat 0%nat)
      by (unfold Np.arange; rewrite length_map, length_seq; reflexivity).
    unfold Np.arange. rewrite length_seq.
    rewrite (filter_ext _ _ (good_mask_nth (POSITION tb))).
    rewrite <- (map_id (filter _ _)) at 2. apply map_ext_in.
    intros k Hk. apply filter_In in Hk. destruct Hk as [Hk _].
    apply in_seq in Hk. rewrite seq_nth by lia. reflexivity. }
  rewrite Hrows. split; [reflexivity |].
  split; [| split; [| split]].
  - rewrite (@mask_select_rows vec3 vec3_zero) by apply length_map.
    rewrite (filter_ext _ _ (good_mask_nth (POSITION tb))). reflexivity.
  - rewrite (@mask_select_rows string "")
      by (rewrite length_map; symmetry; exact Hn).
    rewrite (filter_ext _ _ (good_mask_nth (POSITION tb))), Hn. reflexivity.
  - rewrite (@mask_select_rows string "")
      by (rewrite length_map; symmetry; exact Hs).
    rewrite (filter_ext _ _ (good_mask_nth (POSITION tb))), Hs. reflexivity.
  - rewrite (@mask_select_rows Q 0%Q)
      by (rewrite length_map; symmetry; exact Hd).
    rewrite (filter_ext _ _ (good_mask_nth (POSITION tb))), Hd. reflexivity.
Qed.

(** For any ANTENNA table with columns of one length, [read_ms_ant]
    returns the row numbers of the rows whose position is not the zero
    vector, in ascending order, and for each of them the row's name,
    station, position and diameter; no returned position is zero. *)
Theorem read_ms_ant_keeps_nonzero_rows :
  forall (tb : antenna_table) (check : bool) (ant : ant_dict),
    List.length tb.(NAME) = List.length tb.(POSITION) ->
    List.length tb.(STATION) = List.length tb.(POSITION) ->
    List.length tb.(DISH_DIAMETER) = List.length tb.(POSITION) ->
    read_ms_ant (Some tb) check = Ok ant ->
    StronglySorted lt ant.(antenna_numbers) /\
    (forall k, In k ant.(antenna_numbers) <->
               exists p, nth_error tb.(POSITION) k = Some p /\ vec3_any p = true) /\
    Forall (fun p => vec3_any p = true) ant.(antenna_positions) /\
    (forall j k, nth_error ant.(antenna_numbers) j = Some k ->
       nth_error ant.(antenna_positions) j = nth_error tb.(POSITION) k /\
       nth_error ant.(antenna_names) j = nth_error tb.(NAME) k /\
       nth_error ant.(station_names) j = nth_error tb.(STATION) k /\
       nth_error ant.(antenna_diameters) j = nth_error tb.(DISH_DIAMETER) k).
Proof.
  intros tb check ant Hn Hs Hd H.
  destruct (@read_ms_ant_rows tb check ant Hn Hs Hd H)
    as (Hnum & Hpos & Hnam & Hsta & Hdia).
  assert (Hin : forall k, In k ant.(antenna_numbers) ->
                  (k < List.length tb.(POSITION))%nat /\
                  vec3_any (nth k tb.(POSITION) vec3_zero) = true).
  { intros k Hk. rewrite Hnum in Hk. apply filter_In in Hk.
    destruct Hk as [Hk Hv]. apply in_seq in Hk. split; [lia | exact Hv]. }
  split; [rewrite Hnum; apply filter_seq_sorted |]. split; [| split].
  - intros k. split.
    + intros Hk. destruct (Hin k Hk) as [Hlt Hv].
      exists (nth k tb.(POSITION) vec3_zero). split; [| exact Hv].
      apply nth_error_nth'. exact Hlt.
    + intros (p & Hp & Hv). rewrite Hnum. apply filter_In. split.
      * apply in_seq. assert (k < List.length tb.(POSITION))%nat
          by (apply nth_error_Some; congruence). lia.
      * rewrite (nth_error_nth _ _ _ Hp). exact Hv.
  - rewrite Hpos. apply Forall_forall. intros p Hp. apply in_map_iff in Hp.
    destruct Hp as (k & <- & Hk). apply (Hin k Hk).
  - intros j k Hj.
    assert (Hk : In k ant.(antenna_numbers)) by (apply (nth_error_In _ _ Hj)).
    destruct (Hin k Hk) as [Hlt _].
    rewrite Hpos, Hnam, Hsta, Hdia, !nth_error_map, Hj. cbn [option_map].
    repeat split; symmetry; apply nth_error_nth'; lia.
Qed.

Lemma read_ms_ant_keeps_nonzero_rows_witness :
  read_ms_ant (Some Samples.sparse_antenna_table) true
  = Ok Samples.sparse_antenna_dict /\
  StronglySorted lt Samples.sparse_antenna_dict.(antenna_numbers) /\
  (forall k, In k Samples.sparse_antenna_dict.(antenna_numbers) <->
             exists p, nth_error Samples.sparse_antenna_table.(POSITION) k = Some p /\
                       vec3_any p = true) /\
  Forall (fun p => vec3_any p = true) Samples.sparse_antenna_dict.(antenna_positions) /\
  (forall j k, nth_error Samples.sparse_antenna_dict.(antenna_numbers) j = Some k ->
     nth_error Samples.sparse_antenna_dict.(antenna_positions) j
     = nth_error Samples.sparse_antenna_table.(POSITION) k /\
     nth_error Samples.sparse_antenna_dict.(antenna_names) j
     = nth_error Samples.sparse_antenna_table.(NAME) k /\
     nth_error Samples.sparse_antenna_dict.(station_names) j
     = nth_error Samples.sparse_antenna_table.(STATION) k /\
     nth_error Samples.sparse_antenna_dict.(antenna_diameters) j
     = nth_error Samples.sparse_antenna_table.(DISH_DIAMETER) k).
Proof.
  split; [vm_compute; reflexivity |].
  apply (@read_ms_ant_keeps_nonzero_rows Samples.sparse_antenna_table true
           Samples.sparse_antenna_dict); reflexivity.
Defined.

Lemma stored_frame_read_back : forall frame : string,
  frame = "itrs" \/ frame = "mcmf" ->
  (let telescope_frame :=
     Str.lower (if String.eqb (Str.upper frame) "ITRS" then "ITRF"
                else Str.upper frame) in
   if negb (existsb (String.eqb telescope_frame) ["itrs"; "mcmf"; "itrf"])
   then Raise (ValueError "Only 'itrs' and 'mcmf' are currently supported.")
   else if String.eqb telescope_frame "itrf" then Ok "itrs"
   else Ok telescope_frame) = Ok frame.
Proof. intros frame [-> | ->]; vm_compute; reflexivity. Qed.

(** The diameter column that [write_ms_antenna] stores. *)
Lemma diameter_column : forall (nums : list nat) (diams : list Q) (m : nat),
  nums <> [] -> NoDup nums ->
  Forall (fun y => (y < S m)%nat) nums ->
  List.length diams = List.length nums ->
  exists diam_tb,
    (if (List.length (Np.unique_Q diams) =? 1)%nat then
       match diams with
       | d :: _ => Ok (repeat d (m + 1))
       | [] => Raise (IndexError "index 0 is out of bounds")
       end
     else scatter (repeat 0%Q (m + 1)) nums diams) = Ok diam_tb /\
    List.length diam_tb = (m + 1)%nat /\
    (forall i num, nth_error nums i = Some num ->
       exists d d', nth_error diam_tb num = Some d /\
                    nth_error diams i = Some d' /\ (d == d')%Q).
Proof.
  intros nums diams m Hne Hnd Hb Hld.
  destruct (List.length (Np.unique_Q diams) =? 1)%nat eqn:Hu.
  - destruct diams as [| d0 rest].
    { destruct nums; [contradiction | discriminate]. }
    exists (repeat d0 (m + 1)). split; [reflexivity |].
    split; [apply repeat_length |]. intros i num Hi.
    assert (Hlt : (i < List.length (d0 :: rest))%nat).
    { rewrite Hld. apply nth_error_Some. congruence. }
    exists d0, (nth i (d0 :: rest) 0%Q). split; [| split].
    + assert (Hnum : (num < m + 1)%nat).
      { pose proof (proj1 (Forall_forall _ _) Hb num (nth_error_In _ _ Hi)) as Hlt'.
        cbv beta in Hlt'. lia. }
      rewrite (nth_error_nth' _ d0) by (rewrite repeat_length; exact Hnum).
      rewrite nth_repeat. reflexivity.
    + apply nth_error_nth'. exact Hlt.
    + apply Nat.eqb_eq in Hu.
      destruct (Np.unique_Q (d0 :: rest)) as [| y [| z l]] eqn:Hy; try discriminate.
      apply AntennaFacts.unique_Q_singleton in Hy.
      pose proof (proj1 (Forall_forall _ _) Hy) as Hall.
      assert (H0 : (d0 == y)%Q) by (apply (Hall d0); left; reflexivity).
      assert (H1 : (nth i (d0 :: rest) 0 == y)%Q)
        by (apply (Hall (nth i (d0 :: rest) 0%Q)); apply nth_In; exact Hlt).
      exact (Qeq_trans _ _ _ H0 (Qeq_sym _ _ H1)).
  - destruct (@scatter_total Q nums (repeat 0%Q (m + 1)) diams) as [diam_tb Hdt].
    + rewrite repeat_length. eapply Forall_impl; [| exact Hb].
      intros y Hy. simpl in Hy. lia.
    + lia.
    + exists diam_tb. split; [exact Hdt |].
      destruct (@scatter_spec Q nums _ _ _ Hnd Hdt) as (Hlen & _ & Hin).
      rewrite repeat_length in Hlen. split; [exact Hlen |].
      intros i num Hi. destruct (Hin i num Hi) as (v & Hv & Hr).
      exists v, v. split; [exact Hr |]. split; [exact Hv | reflexivity].
Qed.

(** Antennas with any numbers without repetition, whose stored
    (absolute) positions are not the zero vector, are written and read
    back in ascending order of number: the numbers read are a
    rearrangement of the numbers written, and each antenna written is
    found at one index of the lists read, with its name (also as
    station), its stored position and its diameter. *)
Theorem antenna_round_trip_any_numbers :
  forall (nums : list nat) (names : list string) (pos : list vec3)
         (diams : list Q) (tel : vec3) (frame : string),
    nums <> [] -> NoDup nums ->
    List.length names = List.length nums ->
    List.length pos = List.length nums ->
    List.length diams = List.length nums ->
    Forall (fun p => vec3_any (vec3_add p tel) = true) pos ->
    frame = "itrs" \/ frame = "mcmf" ->
    exists tb ant,
      write_ms_antenna nums names pos (Some diams) tel frame = Ok tb /\
      read_ms_ant (Some tb) true = Ok ant /\
      StronglySorted lt ant.(antenna_numbers) /\
      Permutation ant.(antenna_numbers) nums /\
      (forall i num, nth_error nums i = Some num ->
         exists j,
           nth_error ant.(antenna_numbers) j = Some num /\
           nth_error ant.(antenna_names) j = nth_error names i /\
           nth_error ant.(station_names) j = nth_error names i /\
           nth_error ant.(antenna_positions) j
           = nth_error (map (fun p => vec3_add p tel) pos) i /\
           exists d d', nth_error ant.(antenna_diameters) j = Some d /\
                        nth_error diams i = Some d' /\ (d == d')%Q) /\
      ant.(telescope_frame) = frame.
Proof.
  intros nums names pos diams tel frame Hne Hnd Hln Hlp Hld Hnz Hframe.
  destruct (Np.max nums) as [m | e] eqn:Hmax.
  2: { destruct nums; [contradiction | discriminate]. }
  pose proof (max_bounds _ Hmax) as Hb.
  assert (Hrows : forall (A : Type) (d : A),
            Forall (fun k => (k < List.length (repeat d (m + 1)))%nat) nums).
  { intros A d. rewrite repeat_length. eapply Forall_impl; [| exact Hb].
    intros y Hy. simpl in Hy. lia. }
  destruct (@scatter_total string nums (repeat "" (m + 1)) names (Hrows _ _))
    as [names_tb Hnt]; [lia |].
  destruct (@scatter_spec string nums _ _ _ Hnd Hnt) as (Hnl & _ & Hnin).
  destruct (@scatter_total vec3 nums (repeat vec3_zero (m + 1))
              (map (fun p => vec3_add p tel) pos) (Hrows _ _))
    as [pos_tb Hpt]; [rewrite length_map; lia |].
  destruct (@scatter_spec vec3 nums _ _ _ Hnd Hpt) as (Hpl & Hpout & Hpin).
  destruct (@diameter_column nums diams m Hne Hnd Hb Hld)
    as (diam_tb & Hdt & Hdl & Hdin).
  rewrite repeat_length in Hnl, Hpl.
  unfold write_ms_antenna. rewrite Hmax. cbv zeta. cbn [rbind].
  rewrite Hnt. cbn [rbind]. rewrite Hpt. cbn [rbind]. rewrite Hdt. cbn [rbind].
  eexists. 
  assert (Hread : exists ant,
    read_ms_ant
      (Some {| NAME := names_tb; STATION := names_tb; POSITION := pos_tb;
               DISH_DIAMETER := diam_tb;
               MEASINFO_Ref := if String.eqb (Str.upper frame) "ITRS" then "ITRF"
                               else Str.upper frame |}) true = Ok ant /\
    ant.(telescope_frame) = frame).
  { unfold read_ms_ant. cbn [MEASINFO_Ref POSITION NAME STATION DISH_DIAMETER].
    pose proof (stored_frame_read_back Hframe) as Hf. cbv zeta in Hf.
    rewrite Hf. cbn [rbind]. eexists. split; reflexivity. }
  destruct Hread as (ant & Hread & Hfr). exists ant.
  split; [reflexivity |]. split; [exact Hread |].
  apply read_ms_ant_rows in Hread;
    cbn [MEASINFO_Ref POSITION NAME STATION DISH_DIAMETER]; try lia.
  cbn [MEASINFO_Ref POSITION NAME STATION DISH_DIAMETER] in Hread.
  destruct Hread as (Hnum & Hpos & Hnam & Hsta & Hdia).
  assert (Hiff : forall k, In k ant.(antenna_numbers) <-> In k nums).
  { intros k. rewrite Hnum, filter_In, in_seq. split.
    - intros [Hk Hv]. destruct (in_dec Nat.eq_dec k nums) as [Hin | Hout];
        [exact Hin | exfalso].
      assert (Hz : nth_error pos_tb k = Some vec3_zero).
      { rewrite (Hpout k Hout). rewrite (nth_error_nth' _ vec3_zero)
          by (rewrite repeat_length; lia).
        rewrite nth_repeat. reflexivity. }
      rewrite (nth_error_nth _ _ _ Hz) in Hv. discriminate.
    - intros Hin. destruct (In_nth_error _ _ Hin) as (i & Hi).
      destruct (Hpin i k Hi) as (v & Hv & Hr). split.
      + assert (k < List.length pos_tb)%nat by (apply nth_error_Some; congruence).
        lia.
      + rewrite (nth_error_nth _ _ _ Hr).
        rewrite nth_error_map in Hv.
        destruct (nth_error pos i) as [p |] eqn:Hp; [| discriminate].
        inversion Hv; subst v.
        apply (proj1 (Forall_forall _ _) Hnz p (nth_error_In _ _ Hp)). }
  split; [rewrite Hnum; apply filter_seq_sorted |].
  split.
  { apply NoDup_Permutation; [| exact Hnd | exact Hiff].
    rewrite Hnum. apply NoDup_filter. apply seq_NoDup. }
  split; [| exact Hfr].
  intros i num Hi.
  assert (Hin : In num ant.(antenna_numbers))
    by (apply Hiff; apply (nth_error_In _ _ Hi)).
  destruct (In_nth_error _ _ Hin) as (j & Hj). exists j.
  split; [exact Hj |].
  rewrite Hnam, Hsta, Hpos, Hdia, !nth_error_map, Hj. cbn [option_map].
  destruct (Hnin i num Hi) as (nm & Hnm & Hnr).
  destruct (Hpin i num Hi) as (pv & Hpv & Hpr).
  destruct (Hdin i num Hi) as (d & d' & Hdr & Hd' & Hdd).
  rewrite (nth_error_nth _ _ _ Hnr), (nth_error_nth _ _ _ Hpr),
    (nth_error_nth _ _ _ Hdr).
  split; [symmetry; exact Hnm |]. split; [symmetry; exact Hnm |].
  split; [symmetry; rewrite <- nth_error_map; exact Hpv |].
  exists d, d'. split; [reflexivity |]. split; [exact Hd' | exact Hdd].
Qed.

Lemma antenna_round_trip_any_numbers_witness :
  let tel : vec3 := (5109360 # 1, 2006852 # 1, - (3238948 # 1))%Q in
  let pos : list vec3 := [(14 # 1, 0, 0); (0, - (28 # 1), 1 # 2)]%Q in
  exists tb ant,
    write_ms_antenna [3; 1]%nat ["HH3"; "HH1"] pos (Some [14 # 1; 12 # 1]%Q)
                     tel "mcmf" = Ok tb /\
    read_ms_ant (Some tb) true = Ok ant /\
    StronglySorted lt ant.(antenna_numbers) /\
    Permutation ant.(antenna_numbers) [3; 1]%nat /\
    (forall i num, nth_error [3; 1]%nat i = Some num ->
       exists j,
         nth_error ant.(antenna_numbers) j = Some num /\
         nth_error ant.(antenna_names) j = nth_error ["HH3"; "HH1"] i /\
         nth_error ant.(station_names) j = nth_error ["HH3"; "HH1"] i /\
         nth_error ant.(antenna_positions) j
         = nth_error (map (fun p => vec3_add p tel) pos) i /\
         exists d d', nth_error ant.(antenna_diameters) j = Some d /\
                      nth_error [14 # 1; 12 # 1]%Q i = Some d' /\ (d == d')%Q) /\
    ant.(telescope_frame) = "mcmf".
Proof.
  intros tel pos.
  apply (@antenna_round_trip_any_numbers [3; 1]%nat ["HH3"; "HH1"] pos
           [14 # 1; 12 # 1]%Q tel "mcmf").
  - discriminate.
  - repeat constructor; simpl; intuition discriminate.
  - reflexivity.
  - reflexivity.
  - reflexivity.
  - repeat constructor.
  - right; reflexivity.
Defined.

End AntennaMoreFacts.

(** ** The HISTORY table: reading and writing back *)

Module HistoryMoreFacts.
Import MsUtils.
Open Scope string_scope.

Lemma append_assoc : forall a b c : string, (a ++ b) ++ c = a ++ (b ++ c).
Proof.
  induction a as [| x a IH]; intros b c; simpl; [reflexivity |].
  rewrite IH. reflexivity.
Qed.

Lemma append_nil_r : forall a : string, a ++ "" = a.
Proof.
  induction a as [| x a IH]; simpl; [reflexivity |]. rewrite IH. reflexivity.
Qed.

Lemma splitlines_not_nil : forall (c : ascii) (s : string),
  Str.splitlines (String c s) <> [].
Proof.
  intros c s. cbn [Str.splitlines]. destruct (Str.is_line_boundary c).
  - destruct s as [| c' s']; [discriminate |]. destruct (_ && _)%bool; discriminate.
  - destruct (Str.splitlines s); discriminate.
Qed.

(** A string that [splitlines] keeps as one line stays one line in front
    of any other text. *)
Lemma splitlines_line : forall l rest : string,
  Str.splitlines (l ++ Str.nl) = [l] ->
  Str.splitlines (l ++ Str.nl ++ rest) = l :: Str.splitlines rest.
Proof.
  induction l as [| c l IH]; intros rest H.
  - change ("" ++ Str.nl ++ rest) with (String "010" rest).
    cbn [Str.splitlines].
    change (Str.is_line_boundary "010") with true. cbv iota.
    destruct rest as [| c' rest']; reflexivity.
  - change (String c l ++ Str.nl) with (String c (l ++ Str.nl)) in H.
    change (String c l ++ Str.nl ++ rest) with (String c (l ++ Str.nl ++ rest)).
    cbn [Str.splitlines] in H |- *.
    destruct (Str.is_line_boundary c).
    + exfalso. destruct (l ++ Str.nl) as [| c' s']; [discriminate |].
      destruct (_ && _)%bool; discriminate.
    + destruct (Str.splitlines (l ++ Str.nl)) as [| x ls] eqn:E.
      * exfalso. destruct l as [| c' l'].
        -- vm_compute in E. discriminate.
        -- change (String c' l' ++ Str.nl) with (String c' (l' ++ Str.nl)) in E.
           exact (@splitlines_not_nil _ _ E).
      * inversion H; subst x ls. rewrite (IH rest eq_refl). reflexivity.
Qed.

Lemma split_not_nil : forall (sep : ascii) (s : string), Str.split sep s <> [].
Proof.
  intros sep [| c s]; cbn [Str.split]; [discriminate |].
  destruct (Ascii.eqb c sep); [discriminate |].
  destruct (Str.split sep s); discriminate.
Qed.

(** A cell that [split] keeps whole is one field in front of a
    separator. *)
Lemma split_cell : forall (sep : ascii) (cell rest : string),
  Str.split sep cell = [cell] ->
  Str.split sep (cell ++ String sep rest) = cell :: Str.split sep rest.
Proof.
  intros sep. induction cell as [| c cell IH]; intros rest H.
  - cbn [append Str.split]. rewrite Ascii.eqb_refl. reflexivity.
  - change (String c cell ++ String sep rest)
      with (String c (cell ++ String sep rest)).
    cbn [Str.split] in H |- *.
    destruct (Ascii.eqb c sep); [discriminate |].
    destruct (Str.split sep cell) as [| x ls] eqn:E.
    + exfalso. exact (@split_not_nil _ _ E).
    + inversion H; subst x ls. rewrite (IH rest eq_refl). reflexivity.
Qed.

Lemma split_join : forall (sep : ascii) (cells : list string),
  cells <> [] ->
  Forall (fun cell => Str.split sep cell = [cell]) cells ->
  Str.split sep (Str.join (String sep "") cells) = cells.
Proof.
  intros sep. induction cells as [| x cells IH]; intros Hne Hall; [contradiction |].
  inversion Hall as [| ? ? Hx Hrest]; subst.
  destruct cells as [| y cells]; [exact Hx |].
  change (Str.join (String sep "") (x :: y :: cells))
    with (x ++ String sep (Str.join (String sep "") (y :: cells))).
  rewrite (@split_cell sep x _ Hx). f_equal. apply IH; [discriminate | exact Hrest].
Qed.

Lemma contains_skip : forall needle a b : string,
  Str.contains needle b = true -> Str.contains needle (a ++ b) = true.
Proof.
  intros needle. induction a as [| c a IH]; intros b H; [exact H |].
  change (String c a ++ b) with (String c (a ++ b)).
  change (String.prefix needle (String c (a ++ b))
          || Str.contains needle (a ++ b) = true).
  rewrite (IH b H). apply orb_true_r.
Qed.

Lemma enumerate_from_app : forall (A : Type) (l1 l2 : list A) (s : nat),
  combine (seq s (List.length (l1 ++ l2))) (l1 ++ l2)
  = (combine (seq s (List.length l1)) l1
     ++ combine (seq (s + List.length l1) (List.length l2)) l2)%list.
Proof.
  induction l1 as [| x l1 IH]; intros l2 s.
  - simpl. rewrite Nat.add_0_r. reflexivity.
  - cbn [List.length app seq combine]. rewrite IH.
    replace (S s + List.length l1)%nat with (s + S (List.length l1))%nat by lia.
    reflexivity.
Qed.

Lemma enumerate_from_snd : forall (A : Type) (l : list A) (s : nat),
  map snd (combine (seq s (List.length l)) l) = l.
Proof.
  induction l as [| x l IH]; intros s; simpl; [reflexivity |].
  rewrite IH. reflexivity.
Qed.

Lemma enumerate_from_fst : forall (A : Type) (l : list A) (s : nat),
  map fst (combine (seq s (List.length l)) l) = seq s (List.length l).
Proof.
  induction l as [| x l IH]; intros s; simpl; [reflexivity |].
  rewrite IH. reflexivity.
Qed.

Lemma filter_combine_all : forall (A : Type) (p : A -> bool) (l : list A) (idx : list nat),
  Forall (fun x => p x = true) l ->
  filter (fun e => p (snd e)) (combine idx l) = combine idx l.
Proof.
  induction l as [| x l IH]; intros idx H.
  - destruct idx; reflexivity.
  - destruct idx as [| i idx]; [reflexivity |].
    inversion H as [| ? ? Hx Hl]; subst. cbn [combine filter snd].
    rewrite Hx, (IH idx Hl). reflexivity.
Qed.

Lemma filter_combine_none : forall (A : Type) (p : A -> bool) (l : list A) (idx : list nat),
  Forall (fun x => p x = false) l ->
  filter (fun e => p (snd e)) (combine idx l) = [].
Proof.
  induction l as [| x l IH]; intros idx H.
  - destruct idx; reflexivity.
  - destruct idx as [| i idx]; [reflexivity |].
    inversion H as [| ? ? Hx Hl]; subst. cbn [combine filter snd].
    rewrite Hx. apply (IH idx Hl).
Qed.

Lemma fold_min_le : forall (l : list Z) (x : Z), (fold_left Z.min l x <= x)%Z.
Proof.
  induction l as [| y l IH]; intros x; simpl; [lia |].
  specialize (IH (Z.min x y)). lia.
Qed.

Section ReadBack.
Variable str_float : Q -> string.

(** The table with both optional columns. *)
Local Abbreviation full_table rows :=
  {| has_app_params := true; has_cli_command := true; table_rows := rows |}.

(** The line of a row in the assembled history. *)
Local Abbreviation row_line r :=
  (Str.join ";" (row_cells str_float (full_table (@nil history_row)) r)).

Local Abbreviation cat := (fold_right append "").

Lemma row_cells_any_rows : forall (rows : list history_row) (r : history_row),
  row_cells str_float (full_table rows) r
  = row_cells str_float (full_table (@nil history_row)) r.
Proof. reflexivity. Qed.

Lemma body_foreign : forall (rows F : list history_row) (acc : string),
  Forall (fun r => is_pyuvdata_row r = false) F ->
  fold_left (fun acc r =>
               if is_pyuvdata_row r then acc
               else acc ++ Str.join ";" (row_cells str_float (full_table rows) r)
                        ++ Str.nl) F acc
  = acc ++ cat (map (fun r => row_line r ++ Str.nl) F).
Proof.
  intros rows. induction F as [| r F IH]; intros acc H; simpl.
  - rewrite append_nil_r. reflexivity.
  - inversion H as [| ? ? Hr HF]; subst. rewrite Hr, (IH _ HF).
    rewrite !append_assoc. reflexivity.
Qed.

Lemma body_pyuvdata : forall (rows P : list history_row) (acc : string),
  Forall (fun r => is_pyuvdata_row r = true) P ->
  fold_left (fun acc r =>
               if is_pyuvdata_row r then acc
               else acc ++ Str.join ";" (row_cells str_float (full_table rows) r)
                        ++ Str.nl) P acc
  = acc.
Proof.
  intros rows. induction P as [| r P IH]; intros acc H; simpl; [reflexivity |].
  inversion H as [| ? ? Hr HP]; subst. rewrite Hr. apply (IH _ HP).
Qed.

Lemma message_fold : forall (P F : list history_row) (first_ms : Z) (init : string),
  (first_ms <= 0)%Z ->
  fold_left (fun acc idx =>
               let message := MESSAGE (nth idx (F ++ P)%list (pyuvdata_row "" 0)) in
               if (Z.of_nat idx <? first_ms)%Z
               then message ++ Str.nl ++ acc
               else acc ++ message ++ Str.nl)
            (seq (List.length F) (List.length P)) init
  = init ++ cat (map (fun p => MESSAGE p ++ Str.nl) P).
Proof.
  induction P as [| p P IH]; intros F first_ms init Hle.
  - simpl. rewrite append_nil_r. reflexivity.
  - cbn [List.length seq fold_left map fold_right]. cbv zeta.
    replace (Z.of_nat (List.length F) <? first_ms)%Z with false
      by (symmetry; apply Z.ltb_ge; lia).
    rewrite nth_middle.
    specialize (IH (F ++ [p])%list first_ms (init ++ MESSAGE p ++ Str.nl) Hle).
    rewrite length_app in IH. cbn [List.length] in IH.
    rewrite Nat.add_1_r, <- app_assoc in IH. cbn [app] in IH.
    rewrite IH. rewrite !append_assoc. reflexivity.
Qed.

(** The history assembled from foreign rows followed by rows of
    pyuvdata. *)
Lemma assemble_foreign_then_pyuvdata : forall F P : list history_row,
  (F ++ P)%list <> [] ->
  Forall (fun r => is_pyuvdata_row r = false) F ->
  Forall (fun r => is_pyuvdata_row r = true) P ->
  assemble_history str_float (full_table (F ++ P)%list)
  = ("Begin measurement set history" ++ Str.nl ++
     "APP_PARAMS;CLI_COMMAND;APPLICATION;MESSAGE;OBJECT_ID;OBSERVATION_ID;ORIGIN;PRIORITY;TIME"
     ++ Str.nl ++
     cat (map (fun r => row_line r ++ Str.nl) F) ++
     "End measurement set history." ++ Str.nl ++
     cat (map (fun p => MESSAGE p ++ Str.nl) P),
     negb (List.length P =? 0)%nat).
Proof.
  intros F P Hne HF HP. unfold assemble_history.
  cbn [table_rows has_app_params has_cli_command].
  destruct (F ++ P)%list as [| r0 rest] eqn:E; [contradiction |].
  clear Hne. rewrite <- E. clear E r0 rest.
  assert (Hpy : filter (fun e => is_pyuvdata_row (snd e)) (Str.enumerate (F ++ P)%list)
                = combine (seq (List.length F) (List.length P)) P).
  { unfold Str.enumerate. rewrite enumerate_from_app, filter_app.
    rewrite (filter_combine_none is_pyuvdata_row _ HF).
    rewrite (filter_combine_all is_pyuvdata_row _ HP). reflexivity. }
  assert (Hms : filter (fun e => negb (is_pyuvdata_row (snd e)))
                       (Str.enumerate (F ++ P)%list)
                = combine (seq 0 (List.length F)) F).
  { unfold Str.enumerate. rewrite enumerate_from_app, filter_app.
    rewrite (filter_combine_all (fun r => negb (is_pyuvdata_row r))).
    - rewrite (filter_combine_none (fun r => negb (is_pyuvdata_row r))).
      + apply app_nil_r.
      + eapply Forall_impl; [| exact HP]. intros r Hr. simpl. rewrite Hr. reflexivity.
    - eapply Forall_impl; [| exact HF]. intros r Hr. simpl. rewrite Hr. reflexivity. }
  rewrite Hpy, Hms. rewrite enumerate_from_fst.
  rewrite fold_left_app, (body_foreign _ _ HF), (body_pyuvdata _ _ HP).
  rewrite length_seq.
  rewrite message_fold.
  - f_equal. rewrite !append_assoc. reflexivity.
  - destruct F as [| r F']; [simpl; lia |].
    cbn [List.length seq combine map fst hd fold_left].
    eapply Z.le_trans; [apply fold_min_le | simpl; lia].
Qed.

End ReadBack.

Lemma bind_ret_l : forall (A B : Type) (a : A) (k : A -> W B),
  bind ([], Ok a) k = k a.
Proof. intros A B a k. unfold bind. destruct (k a). reflexivity. Qed.

Lemma splitlines_cat : forall (ls : list string) (rest : string),
  Forall (fun l => Str.splitlines (l ++ Str.nl) = [l]) ls ->
  Str.splitlines (fold_right append "" (map (fun l => l ++ Str.nl) ls) ++ rest)
  = (ls ++ Str.splitlines rest)%list.
Proof.
  induction ls as [| l ls IH]; intros rest H; [reflexivity |].
  inversion H as [| ? ? Hl Hls]; subst.
  cbn [map fold_right app]. rewrite !append_assoc.
  rewrite (@splitlines_line l _ Hl), (IH rest Hls). reflexivity.
Qed.

Section WriteBack.
Variable py_int : string -> option Z.
Variable np_float64 : string -> option Q.
Variable str_float : Q -> string.

Local Abbreviation cells r :=
  (row_cells str_float
     {| has_app_params := true; has_cli_command := true; table_rows := [] |} r).

Lemma loop_foreign :
  forall (F : list history_row) (entries rest : list (nat * string)) (n : nat)
         (acc : list history_row),
    map snd entries = map (fun r => Str.join ";" (cells r)) F ->
    Forall (fun r =>
              Str.contains ms_header (Str.join ";" (cells r)) = false /\
              Str.contains "End measurement set history" (Str.join ";" (cells r))
              = false /\
              Str.split ";" (Str.join ";" (cells r)) = cells r /\
              parse_row py_int np_float64 (cells r) = Ok r) F ->
    history_loop py_int np_float64
      {| ms_history := true; ms_header_line_no := Some n; ms_end_line_no := None;
         pre_ms_history_lines := []; post_ms_history_lines := []; rows := acc |}
      (entries ++ rest)
    = history_loop py_int np_float64
        {| ms_history := true; ms_header_line_no := Some n; ms_end_line_no := None;
           pre_ms_history_lines := []; post_ms_history_lines := [];
           rows := (acc ++ F)%list |}
        rest.
Proof.
  induction F as [| r F IH]; intros entries rest n acc Hm HF.
  - apply map_eq_nil in Hm. subst entries. rewrite app_nil_r. reflexivity.
  - destruct entries as [| [k l] entries]; [discriminate |].
    inversion HF as [| ? ? Hr HF']; subst. destruct Hr as (Hh & He & Hs & Hp).
    change (snd (k, l) :: map snd entries
            = Str.join ";" (cells r) :: map (fun r => Str.join ";" (cells r)) F)
      in Hm.
    set (line := Str.join ";" (cells r)) in *.
    injection Hm as Hl Hm'. cbn [snd] in Hl. subst l.
    change (((k, line) :: entries) ++ rest)%list
      with ((k, line) :: (entries ++ rest))%list.
    cbn [history_loop]. unfold history_step.
    cbn [ms_history negb ms_header_line_no ms_end_line_no rows
         pre_ms_history_lines post_ms_history_lines].
    rewrite Hh, He, Hs.
    change (negb (List.length (cells r) =? 9)%nat) with false. cbv iota.
    rewrite Hp. unfold lift. rewrite bind_ret_l. unfold ret. rewrite bind_ret_l.
    rewrite (IH entries rest n (acc ++ [r])%list Hm' HF').
    rewrite <- app_assoc. reflexivity.
Qed.

Lemma loop_post :
  forall (msgs : list string) (entries : list (nat * string)) (n m : nat)
         (acc : list history_row) (post : list string),
    map snd entries = msgs ->
    Forall (fun l => Str.contains ms_header l = false /\
                     Str.contains "End measurement set history" l = false) msgs ->
    history_loop py_int np_float64
      {| ms_history := true; ms_header_line_no := Some n; ms_end_line_no := Some m;
         pre_ms_history_lines := []; post_ms_history_lines := post; rows := acc |}
      entries
    = ret {| ms_history := true; ms_header_line_no := Some n;
             ms_end_line_no := Some m; pre_ms_history_lines := [];
             post_ms_history_lines := (post ++ msgs)%list; rows := acc |}.
Proof.
  induction msgs as [| l msgs IH]; intros entries n m acc post Hm HF.
  - apply map_eq_nil in Hm. subst entries. rewrite app_nil_r. reflexivity.
  - destruct entries as [| [k l'] entries]; [discriminate |].
    cbn [map snd] in Hm. injection Hm as Hl Hm'. subst l'.
    inversion HF as [| ? ? (Hh & He) HF']; subst.
    cbn [history_loop]. unfold history_step.
    cbn [ms_history negb ms_header_line_no ms_end_line_no rows
         pre_ms_history_lines post_ms_history_lines].
    rewrite Hh, He. unfold ret at 1. rewrite bind_ret_l.
    rewrite (IH entries n m acc (post ++ [l])%list eq_refl HF').
    rewrite <- app_assoc. reflexivity.
Qed.

End WriteBack.

Lemma parse_row_cells :
  forall (py_int : string -> option Z) (np_float64 : string -> option Q)
         (str_float : Q -> string) (rows : list history_row) (r : history_row),
    py_int (Str.of_int r.(OBJECT_ID)) = Some r.(OBJECT_ID) ->
    py_int (Str.of_int r.(OBSERVATION_ID)) = Some r.(OBSERVATION_ID) ->
    np_float64 (str_float r.(TIME)) = Some r.(TIME) ->
    parse_row py_int np_float64
      (row_cells str_float
         {| has_app_params := true; has_cli_command := true; table_rows := rows |} r)
    = Ok r.
Proof.
  intros py_int np_float64 str_float rows r H1 H2 H3.
  unfold row_cells, parse_row. cbn [has_app_params has_cli_command app].
  rewrite H1, H2, H3. destruct r; reflexivity.
Qed.

(** A HISTORY table of foreign rows followed by rows of pyuvdata, read
    into a history string and handed to the writer: the values the
    writer hands to [putcol] are, row by row, the cells of the foreign
    rows as they were read, followed by one row of pyuvdata for each of
    pyuvdata's messages, and nothing is warned.  The cells of the foreign
    rows and the messages must be free of field separators, line ends
    and the block markers, the parsers must read the printed numbers
    back, and the table must already record the version. *)
Theorem history_read_then_written :
  forall (py_int : string -> option Z) (np_float64 : string -> option Q)
         (str_float : Q -> string) (now : nat -> Q)
         (check : string -> string -> bool) (version : string)
         (F P : list history_row),
    let tb := {| has_app_params := true; has_cli_command := true;
                 table_rows := (F ++ P)%list |} in
    (F ++ P)%list <> [] ->
    Forall (fun r =>
              is_pyuvdata_row r = false /\
              Forall (fun cell => Str.split ";" cell = [cell]) (row_cells str_float tb r) /\
              Str.splitlines (Str.join ";" (row_cells str_float tb r) ++ Str.nl)
              = [Str.join ";" (row_cells str_float tb r)] /\
              Str.contains ms_header (Str.join ";" (row_cells str_float tb r)) = false /\
              Str.contains "End measurement set history"
                           (Str.join ";" (row_cells str_float tb r)) = false /\
              py_int (Str.of_int r.(OBJECT_ID)) = Some r.(OBJECT_ID) /\
              py_int (Str.of_int r.(OBSERVATION_ID)) = Some r.(OBSERVATION_ID) /\
              np_float64 (str_float r.(TIME)) = Some r.(TIME)) F ->
    Forall (fun p =>
              is_pyuvdata_row p = true /\
              Str.splitlines (MESSAGE p ++ Str.nl) = [MESSAGE p] /\
              Str.contains ms_header (MESSAGE p) = false /\
              Str.contains "End measurement set history" (MESSAGE p) = false) P ->
    check (fst (assemble_history str_float tb)) version = true ->
    exists h,
      read_ms_hist str_float check (Some tb) version false = Ok (h, None) /\
      write_ms_history py_int np_float64 now h
      = ([], Ok (F ++ map (fun e => pyuvdata_row (snd e) (now (fst e)))
                          (Str.enumerate (map MESSAGE P)))%list).
Proof.
  intros py_int np_float64 str_float now check version F P tb Hne HF HP Hcheck.
  assert (HF1 : Forall (fun r => is_pyuvdata_row r = false) F)
    by (eapply Forall_impl; [| exact HF]; intros r Hr; apply Hr).
  assert (HP1 : Forall (fun p => is_pyuvdata_row p = true) P)
    by (eapply Forall_impl; [| exact HP]; intros p Hp; apply Hp).
  pose proof (@assemble_foreign_then_pyuvdata str_float F P Hne HF1 HP1) as Hasm.
  fold tb in Hasm.
  exists (fst (assemble_history str_float tb)). split.
  - unfold read_ms_hist. destruct (assemble_history str_float tb) as [hs pw].
    cbn [fst] in Hcheck. rewrite Hcheck. reflexivity.
  - rewrite Hasm. cbn [fst]. clear Hasm Hcheck.
    set (lines := map (fun r => Str.join ";" (row_cells str_float tb r)) F).
    set (msgs := map MESSAGE P).
    assert (Hlines :
      Str.splitlines
        ("Begin measurement set history" ++ Str.nl ++
         "APP_PARAMS;CLI_COMMAND;APPLICATION;MESSAGE;OBJECT_ID;OBSERVATION_ID;ORIGIN;PRIORITY;TIME"
         ++ Str.nl ++
         fold_right append ""
           (map (fun r => Str.join ";"
                            (row_cells str_float
                               {| has_app_params := true; has_cli_command := true;
                                  table_rows := [] |} r) ++ Str.nl) F) ++
         "End measurement set history." ++ Str.nl ++
         fold_right append "" (map (fun p => MESSAGE p ++ Str.nl) P))
      = ("Begin measurement set history"
         :: "APP_PARAMS;CLI_COMMAND;APPLICATION;MESSAGE;OBJECT_ID;OBSERVATION_ID;ORIGIN;PRIORITY;TIME"
         :: lines ++ "End measurement set history." :: msgs)%list).
    { rewrite (@splitlines_line "Begin measurement set history" _ eq_refl).
      rewrite (@splitlines_line
                 "APP_PARAMS;CLI_COMMAND;APPLICATION;MESSAGE;OBJECT_ID;OBSERVATION_ID;ORIGIN;PRIORITY;TIME"
                 _ eq_refl).
      f_equal. f_equal.
      replace (map (fun r => Str.join ";"
                               (row_cells str_float
                                  {| has_app_params := true; has_cli_command := true;
                                     table_rows := [] |} r) ++ Str.nl) F)
        with (map (fun l => l ++ Str.nl) lines)
        by (unfold lines; rewrite map_map; reflexivity).
      replace (map (fun p => MESSAGE p ++ Str.nl) P)
        with (map (fun l => l ++ Str.nl) msgs)
        by (unfold msgs; rewrite map_map; reflexivity).
      rewrite splitlines_cat.
      - f_equal.
        rewrite (@splitlines_line "End measurement set history." _ eq_refl).
        f_equal.
        rewrite <- (append_nil_r (fold_right append "" _)).
        rewrite splitlines_cat.
        + apply app_nil_r.
        + apply Forall_map. eapply Forall_impl; [| exact HP]. intros p Hp. apply Hp.
      - apply Forall_map. eapply Forall_impl; [| exact HF]. intros r Hr. apply Hr. }
    assert (Hcont : forall rest : string,
      Str.contains ms_header
        ("Begin measurement set history" ++ Str.nl ++
         "APP_PARAMS;CLI_COMMAND;APPLICATION;MESSAGE;OBJECT_ID;OBSERVATION_ID;ORIGIN;PRIORITY;TIME"
         ++ rest) = true).
    { intros rest. vm_compute. reflexivity. }
    unfold write_ms_history. cbv zeta. cbn [ms_history].
    rewrite Hcont, Hlines. clear Hcont Hlines.
    assert (Hloop :
      history_loop py_int np_float64
        {| ms_history := true; ms_header_line_no := None; ms_end_line_no := None;
           pre_ms_history_lines := []; post_ms_history_lines := []; rows := [] |}
        (Str.enumerate
           ("Begin measurement set history"
            :: "APP_PARAMS;CLI_COMMAND;APPLICATION;MESSAGE;OBJECT_ID;OBSERVATION_ID;ORIGIN;PRIORITY;TIME"
            :: lines ++ "End measurement set history." :: msgs)%list)
      = ret {| ms_history := true; ms_header_line_no := Some 1%nat;
               ms_end_line_no := Some (2 + List.length lines)%nat;
               pre_ms_history_lines := []; post_ms_history_lines := msgs;
               rows := F |}).
    { unfold Str.enumerate. cbn [List.length seq combine].
      rewrite enumerate_from_app. cbn [List.length seq combine].
      cbn [history_loop].
      change (history_step py_int np_float64
                {| ms_history := true; ms_header_line_no := None;
                   ms_end_line_no := None; pre_ms_history_lines := [];
                   post_ms_history_lines := []; rows := [] |}
                (0%nat, "Begin measurement set history"))
        with (@ret history_state
                {| ms_history := true; ms_header_line_no := None;
                   ms_end_line_no := None; pre_ms_history_lines := [];
                   post_ms_history_lines := []; rows := [] |}).
      unfold ret at 1. rewrite bind_ret_l.
      change (history_step py_int np_float64
                {| ms_history := true; ms_header_line_no := None;
                   ms_end_line_no := None; pre_ms_history_lines := [];
                   post_ms_history_lines := []; rows := [] |}
                (1%nat,
                 "APP_PARAMS;CLI_COMMAND;APPLICATION;MESSAGE;OBJECT_ID;OBSERVATION_ID;ORIGIN;PRIORITY;TIME"))
        with (@ret history_state
                {| ms_history := true; ms_header_line_no := Some 1%nat;
                   ms_end_line_no := None; pre_ms_history_lines := [];
                   post_ms_history_lines := []; rows := [] |}).
      unfold ret at 1. rewrite bind_ret_l.
      rewrite (@loop_foreign py_int np_float64 str_float F).
      - cbn [app history_loop].
        change (history_step py_int np_float64
                  {| ms_history := true; ms_header_line_no := Some 1%nat;
                     ms_end_line_no := None; pre_ms_history_lines := [];
                     post_ms_history_lines := []; rows := F |}
                  ((2 + List.length lines)%nat, "End measurement set history."))
          with (@ret history_state
                  {| ms_history := true; ms_header_line_no := Some 1%nat;
                     ms_end_line_no := Some (2 + List.length lines)%nat;
                     pre_ms_history_lines := [];
                     post_ms_history_lines := []; rows := F |}).
        unfold ret at 1. rewrite bind_ret_l.
        rewrite (@loop_post py_int np_float64 msgs _ 1%nat (2 + List.length lines)%nat F []).
        + reflexivity.
        + apply enumerate_from_snd.
        + apply Forall_map. eapply Forall_impl; [| exact HP].
          intros p Hp. split; apply Hp.
      - apply enumerate_from_snd.
      - eapply Forall_impl; [| exact HF].
        intros r (_ & Hcells & _ & Hh & He & H1 & H2 & H3).
        split; [exact Hh |]. split; [exact He |]. split.
        + apply split_join; [discriminate | exact Hcells].
        + apply parse_row_cells; assumption. }
    rewrite Hloop. unfold ret at 1. rewrite bind_ret_l.
    cbn [ms_history negb pre_ms_history_lines post_ms_history_lines rows
         Str.enumerate List.length seq combine fold_left].
    reflexivity.
Qed.

Lemma history_read_then_written_witness :
  exists h,
    read_ms_hist str_whole_float contains_version
      (Some {| has_app_params := true; has_cli_command := true;
               table_rows := (Samples.foreign_history_rows
                              ++ Samples.pyuvdata_history_rows)%list |})
      "pyuvdata version: 3.0" false = Ok (h, None) /\
    write_ms_history Str.dec_int Str.dec_float test_clock h
    = ([], Ok (Samples.foreign_history_rows
               ++ map (fun e => pyuvdata_row (snd e) (test_clock (fst e)))
                      (Str.enumerate (map MESSAGE Samples.pyuvdata_history_rows)))%list).
Proof.
  apply (@history_read_then_written Str.dec_int Str.dec_float str_whole_float
           test_clock contains_version "pyuvdata version: 3.0"
           Samples.foreign_history_rows Samples.pyuvdata_history_rows).
  - discriminate.
  - repeat constructor.
  - repeat constructor.
  - vm_compute. reflexivity.
Defined.

(** A history without the header of a structured block is written as one
    row of pyuvdata per line; read back, these rows give an empty block
    followed by the lines of the history, each ended by a line feed. *)
Theorem plain_history_written_then_read :
  forall (py_int : string -> option Z) (np_float64 : string -> option Q)
         (str_float : Q -> string) (now : nat -> Q) (history : string),
    Str.contains ms_header history = false ->
    Str.splitlines history <> [] ->
    exists rows,
      write_ms_history py_int np_float64 now history = ([], Ok rows) /\
      map MESSAGE rows = Str.splitlines history /\
      Forall (fun r => APPLICATION r = "pyuvdata" /\ ORIGIN r = "pyuvdata") rows /\
      assemble_history str_float
        {| has_app_params := true; has_cli_command := true; table_rows := rows |}
      = ("Begin measurement set history" ++ Str.nl ++
         "APP_PARAMS;CLI_COMMAND;APPLICATION;MESSAGE;OBJECT_ID;OBSERVATION_ID;ORIGIN;PRIORITY;TIME"
         ++ Str.nl ++
         "End measurement set history." ++ Str.nl ++
         fold_right append "" (map (fun l => l ++ Str.nl) (Str.splitlines history)),
         true).
Proof.
  intros py_int np_float64 str_float now history Hplain Hne.
  eexists. split; [apply HistoryFacts.write_ms_history_plain; exact Hplain |].
  set (rows := map (fun e => pyuvdata_row (snd e) (now (fst e)))
                   (Str.enumerate (Str.splitlines history))).
  assert (Hmsg : map MESSAGE rows = Str.splitlines history).
  { unfold rows. rewrite map_map. cbn [MESSAGE pyuvdata_row].
    apply enumerate_from_snd. }
  split; [exact Hmsg |]. split.
  { unfold rows. apply Forall_map. apply Forall_forall. intros e _.
    split; reflexivity. }
  assert (Hpy : Forall (fun r => is_pyuvdata_row r = true) rows).
  { unfold rows. apply Forall_map. apply Forall_forall. intros e _. reflexivity. }
  assert (Hrows : ([] ++ rows)%list <> []).
  { intros Hnil. apply Hne. rewrite <- Hmsg. cbn [app] in Hnil. rewrite Hnil.
    reflexivity. }
  pose proof (@assemble_foreign_then_pyuvdata str_float [] rows Hrows
                (Forall_nil _) Hpy) as Hasm.
  cbn [app map fold_right] in Hasm. rewrite Hasm. f_equal.
  - rewrite <- Hmsg, map_map. reflexivity.
  - destruct rows; [contradiction | reflexivity].
Qed.

Lemma plain_history_written_then_read_witness :
  exists rows,
    write_ms_history Str.dec_int Str.dec_float test_clock
      ("Read with pyuvdata." ++ Str.nl ++ "Selected antennas.") = ([], Ok rows) /\
    map MESSAGE rows
    = Str.splitlines ("Read with pyuvdata." ++ Str.nl ++ "Selected antennas.") /\
    Forall (fun r => APPLICATION r = "pyuvdata" /\ ORIGIN r = "pyuvdata") rows /\
    assemble_history str_whole_float
      {| has_app_params := true; has_cli_command := true; table_rows := rows |}
    = ("Begin measurement set history" ++ Str.nl ++
       "APP_PARAMS;CLI_COMMAND;APPLICATION;MESSAGE;OBJECT_ID;OBSERVATION_ID;ORIGIN;PRIORITY;TIME"
       ++ Str.nl ++
       "End measurement set history." ++ Str.nl ++
       fold_right append ""
         (map (fun l => l ++ Str.nl)
              (Str.splitlines ("Read with pyuvdata." ++ Str.nl ++ "Selected antennas."))),
       true).
Proof.
  apply (@plain_history_written_then_read Str.dec_int Str.dec_float
           str_whole_float test_clock
           ("Read with pyuvdata." ++ Str.nl ++ "Selected antennas.")).
  - vm_compute. reflexivity.
  - vm_compute. discriminate.
Defined.

Lemma fold_min_seq : forall (n s : nat) (x : Z),
  (x <= Z.of_nat s)%Z ->
  fold_left Z.min (map Z.of_nat (seq s n)) x = x.
Proof.
  induction n as [| n IH]; intros s x Hx; [reflexivity |].
  cbn [seq map fold_left]. rewrite Z.min_l by exact Hx. apply IH. lia.
Qed.

Lemma message_fold_prepend :
  forall (P0 F : list history_row) (first_ms : Z) (init : string),
    (Z.of_nat (List.length P0) <= first_ms)%Z ->
    fold_left (fun acc idx =>
                 let message := MESSAGE (nth idx (P0 ++ F)%list (pyuvdata_row "" 0)) in
                 if (Z.of_nat idx <? first_ms)%Z
                 then message ++ Str.nl ++ acc
                 else acc ++ message ++ Str.nl)
              (seq 0 (List.length P0)) init
    = fold_right append "" (map (fun p => MESSAGE p ++ Str.nl) (rev P0)) ++ init.
Proof.
  induction P0 as [| p P0 IH] using rev_ind; intros F first_ms init Hle;
    [reflexivity |].
  rewrite length_app in Hle |- *. cbn [List.length] in Hle |- *.
  replace ((P0 ++ [p]) ++ F)%list with (P0 ++ p :: F)%list
    by (rewrite <- app_assoc; reflexivity).
  rewrite seq_app, fold_left_app.
  cbv zeta in IH |- *.
  rewrite (IH (p :: F) first_ms init) by lia.
  cbn [seq fold_left Nat.add]. cbv zeta.
  replace (Z.of_nat (List.length P0) <? first_ms)%Z with true
    by (symmetry; apply Z.ltb_lt; lia).
  rewrite nth_middle, rev_app_distr. cbn [rev app map fold_right].
  rewrite !append_assoc. reflexivity.
Qed.

(** Rows of pyuvdata that precede the first foreign row are put in front
    of the block one after the other, so their messages appear in the
    history in reverse order. *)
Theorem leading_pyuvdata_rows_reversed :
  forall (str_float : Q -> string) (P0 F : list history_row),
    F <> [] ->
    Forall (fun r => is_pyuvdata_row r = true) P0 ->
    Forall (fun r => is_pyuvdata_row r = false) F ->
    assemble_history str_float
      {| has_app_params := true; has_cli_command := true;
         table_rows := (P0 ++ F)%list |}
    = (fold_right append "" (map (fun p => MESSAGE p ++ Str.nl) (rev P0)) ++
       "Begin measurement set history" ++ Str.nl ++
       "APP_PARAMS;CLI_COMMAND;APPLICATION;MESSAGE;OBJECT_ID;OBSERVATION_ID;ORIGIN;PRIORITY;TIME"
       ++ Str.nl ++
       fold_right append ""
         (map (fun r =>
                 Str.join ";"
                   (row_cells str_float
                      {| has_app_params := true; has_cli_command := true;
                         table_rows := (P0 ++ F)%list |} r) ++ Str.nl) F) ++
       "End measurement set history." ++ Str.nl,
       negb (List.length P0 =? 0)%nat).
Proof.
  intros str_float P0 F Hne HP HF. unfold assemble_history.
  cbn [table_rows has_app_params has_cli_command].
  destruct (P0 ++ F)%list as [| r0 rest] eqn:E.
  { destruct P0; [simpl in E; contradiction | discriminate]. }
  rewrite <- E. clear E r0 rest.
  assert (Hpy : filter (fun e => is_pyuvdata_row (snd e)) (Str.enumerate (P0 ++ F)%list)
                = combine (seq 0 (List.length P0)) P0).
  { unfold Str.enumerate. rewrite enumerate_from_app, filter_app.
    rewrite (filter_combine_all is_pyuvdata_row _ HP).
    rewrite (filter_combine_none is_pyuvdata_row _ HF). apply app_nil_r. }
  assert (Hms : filter (fun e => negb (is_pyuvdata_row (snd e)))
                       (Str.enumerate (P0 ++ F)%list)
                = combine (seq (List.length P0) (List.length F)) F).
  { unfold Str.enumerate. rewrite enumerate_from_app, filter_app.
    rewrite (filter_combine_none (fun r => negb (is_pyuvdata_row r))).
    - rewrite (filter_combine_all (fun r => negb (is_pyuvdata_row r))).
      + reflexivity.
      + eapply Forall_impl; [| exact HF]. intros r Hr. simpl. rewrite Hr. reflexivity.
    - eapply Forall_impl; [| exact HP]. intros r Hr. simpl. rewrite Hr. reflexivity. }
  rewrite Hpy, Hms. rewrite enumerate_from_fst.
  rewrite fold_left_app, (body_pyuvdata _ _ _ HP), (body_foreign _ _ _ HF).
  rewrite length_seq.
  rewrite message_fold_prepend.
  - reflexivity.
  - rewrite <- (map_map fst Z.of_nat), enumerate_from_fst.
    destruct F as [| r F']; [contradiction |].
    cbn [List.length seq map hd fold_left]. rewrite Z.min_id.
    rewrite fold_min_seq; lia.
Qed.

Lemma leading_pyuvdata_rows_reversed_witness :
  assemble_history str_whole_float
    {| has_app_params := true; has_cli_command := true;
       table_rows := ([pyuvdata_row "first" (5000000000 # 1);
                       pyuvdata_row "second" (5000000001 # 1)]
                      ++ Samples.foreign_history_rows)%list |}
  = (fold_right append ""
       (map (fun p => MESSAGE p ++ Str.nl)
            (rev [pyuvdata_row "first" (5000000000 # 1);
                  pyuvdata_row "second" (5000000001 # 1)])) ++
     "Begin measurement set history" ++ Str.nl ++
     "APP_PARAMS;CLI_COMMAND;APPLICATION;MESSAGE;OBJECT_ID;OBSERVATION_ID;ORIGIN;PRIORITY;TIME"
     ++ Str.nl ++
     fold_right append ""
       (map (fun r =>
               Str.join ";"
                 (row_cells str_whole_float
                    {| has_app_params := true; has_cli_command := true;
                       table_rows := ([pyuvdata_row "first" (5000000000 # 1);
                                       pyuvdata_row "second" (5000000001 # 1)]
                                      ++ Samples.foreign_history_rows)%list |} r)
               ++ Str.nl)
            Samples.foreign_history_rows) ++
     "End measurement set history." ++ Str.nl,
     negb (List.length [pyuvdata_row "first" (5000000000 # 1);
                        pyuvdata_row "second" (5000000001 # 1)] =? 0)%nat).
Proof.
  apply (@leading_pyuvdata_rows_reversed str_whole_float
           [pyuvdata_row "first" (5000000000 # 1);
            pyuvdata_row "second" (5000000001 # 1)]
           Samples.foreign_history_rows).
  - discriminate.
  - repeat constructor.
  - repeat constructor.
Defined.

End HistoryMoreFacts.

(** ** The SPECTRAL_WINDOW table and the frequency axis *)

Module SpwFacts.
Import SpectralWindow.

Section Slices.
Variable A : Type.

Lemma firstn_prefix : forall l1 l2 : list A,
  firstn (List.length l1) (l1 ++ l2) = l1.
Proof.
  intros l1 l2. rewrite firstn_app, Nat.sub_diag, firstn_all. simpl.
  apply app_nil_r.
Qed.

Lemma skipn_prefix : forall (l1 l2 : list A) (n : nat),
  skipn (List.length l1 + n) (l1 ++ l2) = skipn n l2.
Proof.
  intros l1 l2 n. rewrite skipn_app.
  rewrite (skipn_all2 l1) by lia.
  replace (List.length l1 + n - List.length l1)%nat with n by lia. reflexivity.
Qed.

Lemma slice_block : forall (done : list A) (x : A) (n k : nat),
  firstn (List.length done + n - List.length done)
         (skipn (List.length done) (done ++ repeat x (n + k)))
  = repeat x n.
Proof.
  intros done x n k.
  replace (List.length done + n - List.length done)%nat with n by lia.
  rewrite <- (Nat.add_0_r (List.length done)) at 1.
  rewrite skipn_prefix. cbn [skipn].
  rewrite repeat_app. rewrite <- (repeat_length x n) at 1. apply firstn_prefix.
Qed.

Lemma skip_block : forall (done : list A) (x : A) (n k : nat),
  skipn (List.length done + n) (done ++ repeat x (n + k)) = repeat x k.
Proof.
  intros done x n k. rewrite skipn_prefix, repeat_app.
  rewrite <- (repeat_length x n) at 1.
  rewrite <- (Nat.add_0_r (List.length (repeat x n))), skipn_prefix. reflexivity.
Qed.

(** Assigning the next block of an array filled from the left. *)
Lemma assign_slice_block : forall (done v : list A) (x : A) (n k : nat),
  List.length v = n ->
  assign_slice (done ++ repeat x (n + k))
               (List.length done + n - n) (List.length done + n) v
  = Ok ((done ++ v) ++ repeat x k)%list.
Proof.
  intros done v x n k Hv. unfold assign_slice.
  replace (List.length done + n - n)%nat with (List.length done) by lia.
  rewrite slice_block, repeat_length, Hv, Nat.eqb_refl.
  rewrite firstn_prefix, skip_block, app_assoc. reflexivity.
Qed.

Lemma fill_slice_block : forall (done : list A) (x y : A) (n k : nat),
  fill_slice (done ++ repeat x (n + k))
             (List.length done + n - n) (List.length done + n) y
  = ((done ++ repeat y n) ++ repeat x k)%list.
Proof.
  intros done x y n k. unfold fill_slice.
  replace (List.length done + n - n)%nat with (List.length done) by lia.
  rewrite slice_block, repeat_length.
  rewrite firstn_prefix, skip_block, app_assoc. reflexivity.
Qed.

End Slices.

Lemma fold_add_list_sum : forall (l : list nat) (a : nat),
  fold_left Nat.add l a = (a + list_sum l)%nat.
Proof.
  induction l as [| x l IH]; intros a; simpl; [lia |]. rewrite IH. lia.
Qed.

(** The loop over the windows fills the three arrays from the left, one
    block per row of the table. *)
Lemma spw_slice_loop_blocks :
  forall (rows : list spw_row) (ids : list Z) (idxs : list nat) (st : spw_axis)
         (df dw : list Q) (di : list Z),
    List.length ids = List.length rows ->
    List.length idxs = List.length rows ->
    Forall (fun r => List.length (CHAN_FREQ r) = NUM_CHAN r /\
                     List.length (CHAN_WIDTH r) = NUM_CHAN r) rows ->
    List.length dw = List.length df ->
    List.length di = List.length df ->
    st.(freq_array) = (df ++ repeat 0%Q (list_sum (map NUM_CHAN rows)))%list ->
    st.(channel_width) = (dw ++ repeat 0%Q (list_sum (map NUM_CHAN rows)))%list ->
    st.(flex_spw_id_array) = (di ++ repeat 0%Z (list_sum (map NUM_CHAN rows)))%list ->
    exists st',
      spw_slice_loop st
        (combine ids
           (combine idxs
              (combine (map NUM_CHAN rows)
                 (combine (cumsum_from (List.length df) (map NUM_CHAN rows))
                    (combine (map CHAN_FREQ rows) (map CHAN_WIDTH rows))))))
      = Ok st' /\
      st'.(freq_array) = (df ++ List.concat (map CHAN_FREQ rows))%list /\
      st'.(channel_width) = (dw ++ List.concat (map CHAN_WIDTH rows))%list /\
      st'.(flex_spw_id_array)
      = (di ++ flat_map (fun b => repeat (fst b) (snd b))
                        (combine ids (map NUM_CHAN rows)))%list /\
      st'.(spw_array) = st.(spw_array) /\
      st'.(Nspws) = st.(Nspws) /\
      st'.(Nfreqs) = st.(Nfreqs).
Proof.
  induction rows as [| r rows IH];
    intros ids idxs st df dw di Hids Hidxs Hwf Hldw Hldi Hf Hw Hi.
  - destruct ids; [| discriminate]. exists st. cbn in Hf, Hw, Hi |- *.
    rewrite Hf, Hw, Hi. repeat split; reflexivity.
  - destruct ids as [| id ids]; [discriminate |].
    destruct idxs as [| ix idxs]; [discriminate |].
    inversion Hwf as [| ? ? [Hrf Hrw] Hwf']; subst.
    cbn [map combine cumsum_from list_sum fold_right] in Hf, Hw, Hi |- *.
    cbn [spw_slice_loop]. unfold spw_slice_step.
    assert (Ef : assign_slice (freq_array st)
                   (List.length df + NUM_CHAN r - NUM_CHAN r)
                   (List.length df + NUM_CHAN r) (CHAN_FREQ r)
                 = Ok ((df ++ CHAN_FREQ r) ++ repeat 0%Q (list_sum (map NUM_CHAN rows)))%list).
    { rewrite Hf. apply assign_slice_block. exact Hrf. }
    assert (Ew : assign_slice (channel_width st)
                   (List.length df + NUM_CHAN r - NUM_CHAN r)
                   (List.length df + NUM_CHAN r) (CHAN_WIDTH r)
                 = Ok ((dw ++ CHAN_WIDTH r) ++ repeat 0%Q (list_sum (map NUM_CHAN rows)))%list).
    { rewrite Hw, <- Hldw. apply assign_slice_block. exact Hrw. }
    assert (Ei : fill_slice (flex_spw_id_array st)
                   (List.length df + NUM_CHAN r - NUM_CHAN r)
                   (List.length df + NUM_CHAN r) id
                 = ((di ++ repeat id (NUM_CHAN r))
                    ++ repeat 0%Z (list_sum (map NUM_CHAN rows)))%list).
    { rewrite Hi, <- Hldi. apply fill_slice_block. }
    rewrite Ef. cbn [rbind]. rewrite Ew. cbn [rbind]. rewrite Ei.
    edestruct (IH ids idxs
                 {| spw_array := spw_array st; Nspws := Nspws st; Nfreqs := Nfreqs st;
                    freq_array := ((df ++ CHAN_FREQ r)
                                   ++ repeat 0%Q (list_sum (map NUM_CHAN rows)))%list;
                    channel_width := ((dw ++ CHAN_WIDTH r)
                                      ++ repeat 0%Q (list_sum (map NUM_CHAN rows)))%list;
                    flex_spw_id_array := ((di ++ repeat id (NUM_CHAN r))
                                          ++ repeat 0%Z (list_sum (map NUM_CHAN rows)))%list;
                    spw_slice_dict :=
                      dict_set Nat.eqb (spw_slice_dict st) ix
                        ((List.length df + NUM_CHAN r - NUM_CHAN r)%nat,
                         (List.length df + NUM_CHAN r)%nat) |}
                 (df ++ CHAN_FREQ r)%list (dw ++ CHAN_WIDTH r)%list
                 (di ++ repeat id (NUM_CHAN r))%list)
      as (st' & Hloop & H1 & H2 & H3 & H4 & H5 & H6);
      try reflexivity.
    + simpl in Hids. lia.
    + simpl in Hidxs. lia.
    + exact Hwf'.
    + rewrite !length_app. lia.
    + rewrite !length_app, repeat_length. lia.
    + exists st'. rewrite length_app, Hrf in Hloop. split; [exact Hloop |].
      cbn [spw_array Nspws Nfreqs] in H4, H5, H6.
      rewrite H1, H2, H3, <- !app_assoc. cbn [List.concat flat_map fst snd].
      repeat split; assumption.
Qed.

Lemma spws_of_rows :
  forall (rows : list spw_row) (ids : list Z) (flag1 flag2 : option bool),
    List.length ids = List.length rows ->
    Forall (fun r => List.length (CHAN_FREQ r) = NUM_CHAN r /\
                     List.length (CHAN_WIDTH r) = NUM_CHAN r) rows ->
    exists axis,
      read_ms_cal_spws
        {| chan_freq := map CHAN_FREQ rows;
           chan_width := map CHAN_WIDTH rows;
           num_chan := map NUM_CHAN rows;
           row_idx := seq 0 (List.length rows);
           assoc_spw_id := ids;
           spoof_spw_id := flag1;
           spoof_spw := flag2 |} = Ok axis /\
      axis.(spw_array) = ids /\
      axis.(Nspws) = List.length rows /\
      axis.(Nfreqs) = List.length axis.(freq_array) /\
      axis.(freq_array) = List.concat (map CHAN_FREQ rows) /\
      axis.(channel_width) = List.concat (map CHAN_WIDTH rows) /\
      axis.(flex_spw_id_array)
      = flat_map (fun b => repeat (fst b) (snd b)) (combine ids (map NUM_CHAN rows)).
Proof.
  intros rows ids flag1 flag2 Hids Hwf. unfold read_ms_cal_spws, cumsum.
  cbn [assoc_spw_id num_chan row_idx chan_freq chan_width].
  rewrite fold_add_list_sum. cbn [Nat.add].
  edestruct (@spw_slice_loop_blocks rows ids (seq 0 (List.length rows))
               {| spw_array := ids; Nspws := List.length ids;
                  Nfreqs := list_sum (map NUM_CHAN rows);
                  freq_array := repeat 0%Q (list_sum (map NUM_CHAN rows));
                  channel_width := repeat 0%Q (list_sum (map NUM_CHAN rows));
                  flex_spw_id_array := repeat 0%Z (list_sum (map NUM_CHAN rows));
                  spw_slice_dict := [] |} [] [] [])
    as (axis & Hloop & H1 & H2 & H3 & H4 & H5 & H6);
    try reflexivity; try assumption.
  - apply length_seq.
  - exists axis. cbn [List.length app] in Hloop, H1, H2, H3.
    cbn [spw_array Nspws Nfreqs] in H4, H5, H6.
    split; [exact Hloop |]. split; [exact H4 |]. split; [congruence |].
    split; [| split; [exact H1 | split; [exact H2 | exact H3]]].
    rewrite H6, H1, length_concat, map_map. f_equal.
    apply map_ext_in. intros r Hr.
    symmetry. apply (proj1 (Forall_forall _ _) Hwf r Hr).
Qed.

(** For a SPECTRAL_WINDOW table in which every row holds NUM_CHAN
    frequencies and widths, the frequency axis that [read_ms_cal] builds
    is the rows' channels one row after the other: [freq_array] and
    [channel_width] are the concatenated cells, [flex_spw_id_array] gives
    each row's channels the row's window id, and [Nfreqs] is their
    number. *)
Theorem read_ms_cal_spws_concatenates :
  forall (tb : spw_table) (info : spw_dict),
    Forall (fun r => List.length (CHAN_FREQ r) = NUM_CHAN r /\
                     List.length (CHAN_WIDTH r) = NUM_CHAN r) tb.(spw_rows) ->
    read_ms_spw (Some tb) = Ok info ->
    exists axis,
      read_ms_cal_spws info = Ok axis /\
      axis.(spw_array) = info.(assoc_spw_id) /\
      axis.(Nspws) = List.length tb.(spw_rows) /\
      axis.(Nfreqs) = List.length axis.(freq_array) /\
      axis.(freq_array) = List.concat (map CHAN_FREQ tb.(spw_rows)) /\
      axis.(channel_width) = List.concat (map CHAN_WIDTH tb.(spw_rows)) /\
      axis.(flex_spw_id_array)
      = flat_map (fun b => repeat (fst b) (snd b))
                 (combine info.(assoc_spw_id) (map NUM_CHAN tb.(spw_rows))).
Proof.
  intros tb info Hwf Hread. unfold read_ms_spw in Hread.
  inversion Hread; subst info; clear Hread.
  cbn [assoc_spw_id]. apply spws_of_rows; [| exact Hwf].
  destruct (has_assoc_spw_id tb); rewrite !length_map; [| rewrite length_seq];
    reflexivity.
Qed.

Lemma read_ms_cal_spws_concatenates_witness :
  exists info axis,
    read_ms_spw (Some Samples.two_row_spw_table) = Ok info /\
    info.(assoc_spw_id) = [0; 1]%Z /\
    read_ms_cal_spws info = Ok axis /\
    axis.(spw_array) = info.(assoc_spw_id) /\
    axis.(Nspws) = List.length Samples.two_row_spw_table.(spw_rows) /\
    axis.(Nfreqs) = List.length axis.(freq_array) /\
    axis.(freq_array) = List.concat (map CHAN_FREQ Samples.two_row_spw_table.(spw_rows)) /\
    axis.(channel_width)
    = List.concat (map CHAN_WIDTH Samples.two_row_spw_table.(spw_rows)) /\
    axis.(flex_spw_id_array)
    = flat_map (fun b => repeat (fst b) (snd b))
               (combine info.(assoc_spw_id)
                        (map NUM_CHAN Samples.two_row_spw_table.(spw_rows))).
Proof.
  eexists. 
  assert (Hwf : Forall (fun r => List.length (CHAN_FREQ r) = NUM_CHAN r /\
                                 List.length (CHAN_WIDTH r) = NUM_CHAN r)
                       Samples.two_row_spw_table.(spw_rows))
    by (repeat constructor).
  destruct (@read_ms_cal_spws_concatenates Samples.two_row_spw_table _ Hwf eq_refl)
    as (axis & H). exists axis.
  split; [reflexivity |]. split; [reflexivity |]. exact H.
Defined.

Section Masks.
Variable A : Type.

Lemma mask_select_map : forall (B : Type) (f : A -> B) (mask : list bool) (a : list A),
  Np.mask_select mask (map f a) = map f (Np.mask_select mask a).
Proof.
  unfold Np.mask_select. intros B f.
  induction mask as [| b mask IH]; intros [| x a]; simpl; try reflexivity.
  destruct b; simpl; rewrite IH; reflexivity.
Qed.

Lemma list_as_map_nth : forall (l : list A) (d : A),
  map (fun i => nth i l d) (seq 0 (List.length l)) = l.
Proof.
  induction l as [| x l IH]; intros d; [reflexivity |].
  cbn [List.length seq map nth]. rewrite <- seq_shift, map_map. cbn [nth].
  rewrite IH. reflexivity.
Qed.

Lemma mask_select_app : forall (m1 m2 : list bool) (a1 a2 : list A),
  List.length m1 = List.length a1 ->
  Np.mask_select (m1 ++ m2) (a1 ++ a2)
  = (Np.mask_select m1 a1 ++ Np.mask_select m2 a2)%list.
Proof.
  unfold Np.mask_select.
  induction m1 as [| b m1 IH]; intros m2 [| x a1] a2 H; simpl in H; try discriminate;
    [reflexivity |].
  cbn [app combine filter fst]. destruct b; cbn [map snd app]; rewrite IH by lia;
    reflexivity.
Qed.

Lemma mask_select_all : forall (a : list A),
  Np.mask_select (repeat true (List.length a)) a = a.
Proof.
  unfold Np.mask_select. induction a as [| x a IH]; simpl; [reflexivity |].
  rewrite IH. reflexivity.
Qed.

Lemma mask_select_none : forall (n : nat) (a : list A),
  Np.mask_select (repeat false n) a = [].
Proof.
  unfold Np.mask_select. induction n as [| n IH]; intros [| x a]; simpl;
    try reflexivity. apply IH.
Qed.

End Masks.

Lemma mask_absent : forall (A : Type) (w : Z) (ids : list Z) (a : list A),
  ~ In w ids -> Np.mask_select (map (fun id => Z.eqb id w) ids) a = [].
Proof.
  intros A w ids a Hw.
  replace (map (fun id => Z.eqb id w) ids) with (repeat false (List.length ids)).
  - apply mask_select_none.
  - induction ids as [| id ids IH]; [reflexivity |]. cbn [List.length repeat map].
    rewrite IH by (intros Hc; apply Hw; right; exact Hc).
    f_equal. symmetry. apply Z.eqb_neq. intros ->. apply Hw. left; reflexivity.
Qed.

Lemma mask_select_self : forall (w : Z) (ids : list Z),
  Np.mask_select (map (fun id => Z.eqb id w) ids) ids
  = repeat w (Np.count_true (map (fun id => Z.eqb id w) ids)).
Proof.
  unfold Np.mask_select, Np.count_true. intros w.
  induction ids as [| id ids IH]; [reflexivity |].
  cbn [map combine filter fst]. destruct (Z.eqb id w) eqn:E.
  - apply Z.eqb_eq in E. subst id. cbn [map snd List.length repeat filter].
    rewrite IH. reflexivity.
  - exact IH.
Qed.

(** What [write_ms_spectral_window] puts into the rows. *)
Lemma write_rows_spec :
  forall (freq cw : list Q) (ids ws : list Z),
    List.length ids = List.length freq ->
    List.length cw = List.length freq ->
    freq <> [] ->
    exists rows,
      write_ms_spectral_window freq cw ws (Some ids) = Ok rows /\
      map ASSOC_SPW_ID rows = ws /\
      map CHAN_FREQ rows
      = map (fun w => Np.mask_select (map (fun id => Z.eqb id w) ids) freq) ws /\
      map CHAN_WIDTH rows
      = map (fun w => Np.mask_select (map (fun id => Z.eqb id w) ids) cw) ws /\
      map NUM_CHAN rows
      = map (fun w => Np.count_true (map (fun id => Z.eqb id w) ids)) ws /\
      Forall (fun r => List.length (CHAN_FREQ r) = NUM_CHAN r /\
                       List.length (CHAN_WIDTH r) = NUM_CHAN r) rows.
Proof.
  intros freq cw ids ws Hids Hcw Hne.
  induction ws as [| w ws IH].
  - exists []. repeat split; constructor.
  - destruct IH as (rows & Hw & H1 & H2 & H3 & H4 & H5).
    cbn [write_ms_spectral_window]. unfold write_spw_row.
    rewrite (@NpFacts.mask_get_ok Q) by (rewrite length_map; exact Hids).
    cbn [rbind].
    rewrite (@NpFacts.mask_get_ok Q) by (rewrite length_map; lia).
    cbn [rbind]. destruct freq as [| f0 freq']; [contradiction |].
    rewrite Hw. cbn [rbind]. eexists. split; [reflexivity |].
    cbn [map ASSOC_SPW_ID CHAN_FREQ CHAN_WIDTH NUM_CHAN].
    rewrite H1, H2, H3, H4. repeat split; try reflexivity.
    constructor; [| exact H5]. cbn [CHAN_FREQ CHAN_WIDTH NUM_CHAN]. split.
    + apply NpFacts.mask_select_length. rewrite length_map. exact Hids.
    + apply NpFacts.mask_select_length. rewrite length_map. lia.
Qed.

Lemma gather_as_map : forall (B : Type) (vals : list B) (d : B) (ids ws : list Z),
  flat_map (fun w => Np.mask_select (map (fun id => Z.eqb id w) ids) vals) ws
  = map (fun i => nth i vals d)
        (flat_map (fun w => Np.mask_select (map (fun id => Z.eqb id w) ids)
                                           (seq 0 (List.length vals))) ws).
Proof.
  intros B vals d ids ws. induction ws as [| w ws IH]; [reflexivity |].
  cbn [flat_map]. rewrite map_app, <- IH, <- mask_select_map, list_as_map_nth.
  reflexivity.
Qed.

Lemma blocks_by_window : forall ws : list Z,
  forall f : Z -> nat,
  flat_map (fun b => repeat (fst b) (snd b)) (combine ws (map f ws))
  = flat_map (fun w => repeat w (f w)) ws.
Proof.
  intros ws f. induction ws as [| w ws IH]; [reflexivity |].
  cbn [map combine flat_map fst snd]. rewrite IH. reflexivity.
Qed.

Lemma spw_write_read_formulas :
  forall (freq cw : list Q) (ids ws : list Z),
    List.length ids = List.length freq ->
    List.length cw = List.length freq ->
    freq <> [] ->
    exists rows info axis,
      write_ms_spectral_window freq cw ws (Some ids) = Ok rows /\
      read_ms_spw (Some {| has_assoc_spw_id := true; spw_rows := rows |}) = Ok info /\
      read_ms_cal_spws info = Ok axis /\
      axis.(spw_array) = ws /\
      axis.(freq_array)
      = flat_map (fun w => Np.mask_select (map (fun id => Z.eqb id w) ids) freq) ws /\
      axis.(channel_width)
      = flat_map (fun w => Np.mask_select (map (fun id => Z.eqb id w) ids) cw) ws /\
      axis.(flex_spw_id_array)
      = flat_map (fun w => Np.mask_select (map (fun id => Z.eqb id w) ids) ids) ws.
Proof.
  intros freq cw ids ws Hids Hcw Hne.
  destruct (@write_rows_spec freq cw ids ws Hids Hcw Hne)
    as (rows & Hw & H1 & H2 & H3 & H4 & H5).
  destruct (@spws_of_rows rows (map ASSOC_SPW_ID rows) (Some false) None
              (length_map _ _) H5)
    as (axis & Ha & A1 & A2 & A3 & A4 & A5 & A6).
  exists rows. eexists. exists axis.
  split; [exact Hw |]. split; [reflexivity |]. split; [exact Ha |].
  rewrite H1 in A1, A6. rewrite H2 in A4. rewrite H3 in A5. rewrite H4 in A6.
  rewrite blocks_by_window in A6. rewrite <- flat_map_concat_map in A4, A5.
  split; [exact A1 |]. split; [exact A4 |]. split; [exact A5 |].
  rewrite A6. apply flat_map_ext. intros w. symmetry. apply mask_select_self.
Qed.

(** The window arrays of an object, written to a SPECTRAL_WINDOW table
    and read back into a frequency axis, come back grouped by window in
    the order of [spw_array]: each array is the channels of the first
    window, then those of the second, and so on, every group in its
    original order.  When the windows are distinct and cover every
    channel the arrays read are rearrangements of those written. *)
Theorem spw_write_read_groups_channels :
  forall (freq cw : list Q) (ids ws : list Z),
    List.length ids = List.length freq ->
    List.length cw = List.length freq ->
    freq <> [] ->
    exists rows info axis,
      write_ms_spectral_window freq cw ws (Some ids) = Ok rows /\
      read_ms_spw (Some {| has_assoc_spw_id := true; spw_rows := rows |}) = Ok info /\
      read_ms_cal_spws info = Ok axis /\
      axis.(spw_array) = ws /\
      axis.(freq_array)
      = flat_map (fun w => Np.mask_select (map (fun id => Z.eqb id w) ids) freq) ws /\
      axis.(channel_width)
      = flat_map (fun w => Np.mask_select (map (fun id => Z.eqb id w) ids) cw) ws /\
      axis.(flex_spw_id_array)
      = flat_map (fun w => Np.mask_select (map (fun id => Z.eqb id w) ids) ids) ws /\
      (NoDup ws -> (forall id, In id ids -> In id ws) ->
       Permutation axis.(freq_array) freq /\
       Permutation axis.(channel_width) cw /\
       Permutation axis.(flex_spw_id_array) ids).
Proof.
  intros freq cw ids ws Hids Hcw Hne.
  destruct (@spw_write_read_formulas freq cw ids ws Hids Hcw Hne)
    as (rows & info & axis & Hw & Hr & Ha & A1 & A4 & A5 & A6).
  exists rows, info, axis.
  split; [exact Hw |]. split; [exact Hr |]. split; [exact Ha |].
  split; [exact A1 |]. split; [exact A4 |]. split; [exact A5 |].
  split; [exact A6 |].
  intros Hnd Hcov.
  assert (Hperm : forall (B : Type) (vals : list B) (d : B),
            List.length vals = List.length ids ->
            Permutation
              (flat_map (fun w => Np.mask_select (map (fun id => Z.eqb id w) ids) vals) ws)
              vals).
  { intros B vals d Hl. rewrite (gather_as_map vals d ids ws).
    apply Permutation_trans
      with (map (fun i => nth i vals d) (seq 0 (List.length vals))).
    - apply Permutation_map.
      apply SortFacts.window_parts_perm;
        [rewrite length_seq; lia | exact Hnd | exact Hcov].
    - rewrite list_as_map_nth. apply Permutation_refl. }
  rewrite A4, A5, A6. split; [| split].
  - apply (Hperm Q freq 0%Q). lia.
  - apply (Hperm Q cw 0%Q). lia.
  - apply (Hperm Z ids 0%Z). reflexivity.
Qed.

Lemma spw_write_read_groups_channels_witness :
  exists rows info axis,
    write_ms_spectral_window [100 # 1; 200 # 1; 101 # 1; 201 # 1]%Q [1; 2 # 1; 1; 2 # 1]%Q
      [0; 1]%Z (Some [0; 1; 0; 1]%Z) = Ok rows /\
    read_ms_spw (Some {| has_assoc_spw_id := true; spw_rows := rows |}) = Ok info /\
    read_ms_cal_spws info = Ok axis /\
    axis.(spw_array) = [0; 1]%Z /\
    axis.(freq_array)
    = flat_map (fun w => Np.mask_select (map (fun id => Z.eqb id w) [0; 1; 0; 1]%Z)
                                        [100 # 1; 200 # 1; 101 # 1; 201 # 1]%Q)
               [0; 1]%Z /\
    axis.(channel_width)
    = flat_map (fun w => Np.mask_select (map (fun id => Z.eqb id w) [0; 1; 0; 1]%Z)
                                        [1; 2 # 1; 1; 2 # 1]%Q)
               [0; 1]%Z /\
    axis.(flex_spw_id_array)
    = flat_map (fun w => Np.mask_select (map (fun id => Z.eqb id w) [0; 1; 0; 1]%Z)
                                        [0; 1; 0; 1]%Z)
               [0; 1]%Z /\
    (NoDup [0; 1]%Z -> (forall id, In id [0; 1; 0; 1]%Z -> In id [0; 1]%Z) ->
     Permutation axis.(freq_array) [100 # 1; 200 # 1; 101 # 1; 201 # 1]%Q /\
     Permutation axis.(channel_width) [1; 2 # 1; 1; 2 # 1]%Q /\
     Permutation axis.(flex_spw_id_array) [0; 1; 0; 1]%Z).
Proof.
  apply (@spw_write_read_groups_channels
           [100 # 1; 200 # 1; 101 # 1; 201 # 1]%Q [1; 2 # 1; 1; 2 # 1]%Q
           [0; 1; 0; 1]%Z [0; 1]%Z).
  - reflexivity.
  - reflexivity.
  - discriminate.
Defined.

Lemma ids_of_blocks_in : forall (blocks : list (Z * nat)) (w : Z),
  In w (flat_map (fun b => repeat (fst b) (S (snd b))) blocks) ->
  In w (map fst blocks).
Proof.
  intros blocks w H. apply in_flat_map in H. destruct H as (b & Hb & Hw).
  apply repeat_spec in Hw. subst w. apply in_map. exact Hb.
Qed.

(** Gathering window by window undoes nothing when the channels already
    come in one block per window. *)
Lemma blocks_gather : forall (A : Type) (blocks : list (Z * nat)) (vals : list A),
  NoDup (map fst blocks) ->
  List.length vals
  = List.length (flat_map (fun b => repeat (fst b) (S (snd b))) blocks) ->
  flat_map
    (fun w => Np.mask_select
                (map (fun id => Z.eqb id w)
                     (flat_map (fun b => repeat (fst b) (S (snd b))) blocks))
                vals)
    (map fst blocks)
  = vals.
Proof.
  intros A. induction blocks as [| [w k] blocks IH]; intros vals Hnd Hlen.
  - destruct vals; [reflexivity | discriminate].
  - inversion Hnd as [| ? ? Hw Hnd']; subst.
    cbn [flat_map fst snd map] in Hlen |- *.
    rewrite length_app, repeat_length in Hlen.
    rewrite <- (firstn_skipn (S k) vals).
    set (v1 := firstn (S k) vals). set (v2 := skipn (S k) vals).
    assert (Hv1 : List.length v1 = S k)
      by (unfold v1; rewrite length_firstn; lia).
    assert (Hv2 : List.length v2
                  = List.length (flat_map (fun b => repeat (fst b) (S (snd b))) blocks))
      by (unfold v2; rewrite length_skipn; lia).
    f_equal.
    + rewrite map_app, map_repeat, Z.eqb_refl.
      rewrite mask_select_app by (rewrite repeat_length; symmetry; exact Hv1).
      rewrite <- Hv1, mask_select_all.
      rewrite mask_absent; [apply app_nil_r |].
      intros Hin. apply Hw. apply ids_of_blocks_in. exact Hin.
    + etransitivity; [| apply (IH v2 Hnd' Hv2)].
      rewrite !flat_map_concat_map. f_equal. apply map_ext_in. intros w' Hw'.
      rewrite map_app, map_repeat.
      replace (Z.eqb w w') with false
        by (symmetry; apply Z.eqb_neq; intros ->; apply Hw; exact Hw').
      rewrite mask_select_app by (rewrite repeat_length; symmetry; exact Hv1).
      rewrite mask_select_none. reflexivity.
Qed.

(** An object whose channels come in one non-empty block per window, for
    distinct windows in the order of [spw_array], keeps its frequency
    axis through the SPECTRAL_WINDOW table: the arrays read are the
    arrays written, and they pass the contiguity check. *)
Theorem spw_round_trip_contiguous :
  forall (blocks : list (Z * nat)) (freq cw : list Q),
    blocks <> [] ->
    NoDup (map fst blocks) ->
    List.length freq
    = List.length (flat_map (fun b => repeat (fst b) (S (snd b))) blocks) ->
    List.length cw = List.length freq ->
    exists rows info axis,
      write_ms_spectral_window freq cw (map fst blocks)
        (Some (flat_map (fun b => repeat (fst b) (S (snd b))) blocks)) = Ok rows /\
      read_ms_spw (Some {| has_assoc_spw_id := true; spw_rows := rows |}) = Ok info /\
      read_ms_cal_spws info = Ok axis /\
      axis.(spw_array) = map fst blocks /\
      axis.(freq_array) = freq /\
      axis.(channel_width) = cw /\
      axis.(flex_spw_id_array) = flat_map (fun b => repeat (fst b) (S (snd b))) blocks /\
      Frequency._check_flex_spw_contiguous
        (Some axis.(spw_array)) (Some axis.(flex_spw_id_array)) = Ok tt.
Proof.
  intros blocks freq cw Hne Hnd Hlf Hlc.
  assert (Hfne : freq <> []).
  { intros ->. destruct blocks as [| [w k] bs]; [contradiction | discriminate]. }
  destruct (@spw_write_read_formulas freq cw
              (flat_map (fun b => repeat (fst b) (S (snd b))) blocks)
              (map fst blocks) (eq_sym Hlf) Hlc Hfne)
    as (rows & info & axis & Hw & Hr & Ha & A1 & A4 & A5 & A6).
  exists rows, info, axis.
  split; [exact Hw |]. split; [exact Hr |]. split; [exact Ha |].
  rewrite (blocks_gather blocks freq Hnd Hlf) in A4.
  rewrite (blocks_gather blocks cw Hnd) in A5 by lia.
  rewrite (blocks_gather blocks _ Hnd eq_refl) in A6.
  split; [exact A1 |]. split; [exact A4 |]. split; [exact A5 |].
  split; [exact A6 |].
  rewrite A1, A6.
  rewrite FrequencyCheckFacts.contiguous_decided_by_breaks.
  - rewrite UniqueFacts.n_breaks_blocks by assumption.
    rewrite length_map, Nat.eqb_refl. reflexivity.
  - apply UniqueFacts.unique_ext. intros x. split; intros Hx.
    + apply ids_of_blocks_in. exact Hx.
    + apply in_map_iff in Hx. destruct Hx as (b & Hb & Hin).
      apply in_flat_map. exists b. split; [exact Hin |].
      subst x. simpl. left; reflexivity.
Qed.

Lemma spw_round_trip_contiguous_witness :
  exists rows info axis,
    write_ms_spectral_window Frequency.two_window_freqs (repeat 1%Q 6) [1; 0]%Z
      (Some [1; 1; 1; 0; 0; 0]%Z) = Ok rows /\
    read_ms_spw (Some {| has_assoc_spw_id := true; spw_rows := rows |}) = Ok info /\
    read_ms_cal_spws info = Ok axis /\
    axis.(spw_array) = [1; 0]%Z /\
    axis.(freq_array) = Frequency.two_window_freqs /\
    axis.(channel_width) = repeat 1%Q 6 /\
    axis.(flex_spw_id_array) = [1; 1; 1; 0; 0; 0]%Z /\
    Frequency._check_flex_spw_contiguous
      (Some axis.(spw_array)) (Some axis.(flex_spw_id_array)) = Ok tt.
Proof.
  apply (@spw_round_trip_contiguous [(1%Z, 2%nat); (0%Z, 2%nat)]
           Frequency.two_window_freqs (repeat 1%Q 6)).
  - discriminate.
  - repeat constructor; simpl; intuition discriminate.
  - reflexivity.
  - reflexivity.
Defined.

End SpwFacts.

(** ** Channels sorted by frequency within their windows *)

Module ChannelSortFacts.
Import Frequency.

Section Take.
Variable A : Type.

Lemma take_map : forall (B : Type) (f : A -> B) (a : list A) (idx : list nat)
                        (r : list A),
  Np.take a idx = Ok r -> Np.take (map f a) idx = Ok (map f r).
Proof.
  intros B f a idx r H. apply NpFacts.take_spec in H. apply NpFacts.take_spec.
  rewrite map_map. rewrite (map_ext _ (fun i => option_map f (nth_error a i))).
  - rewrite <- (map_map (nth_error a) (option_map f)), H, !map_map. reflexivity.
  - intros i. apply nth_error_map.
Qed.

Lemma enumerated_keys : forall (keys pre : list A),
  Forall (fun pr : A * nat => nth_error (pre ++ keys)%list (snd pr) = Some (fst pr))
         (combine keys (seq (List.length pre) (List.length keys))).
Proof.
  induction keys as [| k keys IH]; intros pre; [constructor |].
  cbn [List.length seq combine]. constructor.
  - cbn [fst snd]. rewrite nth_error_app2 by lia. rewrite Nat.sub_diag. reflexivity.
  - specialize (IH (pre ++ [k])%list). rewrite length_app in IH. cbn [List.length] in IH.
    rewrite Nat.add_1_r, <- app_assoc in IH. exact IH.
Qed.

Lemma take_pairs : forall (keys : list A) (pairs : list (A * nat)),
  Forall (fun pr => nth_error keys (snd pr) = Some (fst pr)) pairs ->
  Np.take keys (map snd pairs) = Ok (map fst pairs).
Proof.
  intros keys. induction pairs as [| p pairs IH]; intros H; [reflexivity |].
  inversion H as [| ? ? Hp Hrest]; subst. cbn [map Np.take].
  rewrite Hp, (IH Hrest). reflexivity.
Qed.

(** Indexing the keys by their argsort gives the sorted keys. *)
Lemma take_argsort : forall (leb : A -> A -> bool) (keys : list A),
  Np.take keys (Np.argsort_by leb keys) = Ok (Np.sort_by leb keys).
Proof.
  intros leb keys. unfold Np.argsort_by, Np.sort_by. apply take_pairs.
  unfold Np.sort_keys.
  apply (Permutation_Forall
           (Permutation_sym (NpFacts.fold_insert_key_perm leb _))).
  exact (enumerated_keys keys []).
Qed.

Lemma mask_assign_same : forall (mask : list bool) (a values : list A),
  List.length mask = List.length a ->
  List.length values = Np.count_true mask ->
  Np.mask_select mask (Np.mask_assign mask a values) = values.
Proof.
  unfold Np.mask_select, Np.count_true.
  induction mask as [| b mask IH]; intros [| x a] values Hl Hv; simpl in Hl, Hv;
    try discriminate.
  - destruct values; [reflexivity | discriminate].
  - destruct b; cbn [filter] in Hv.
    + destruct values as [| v vs]; [discriminate |].
      cbn [Np.mask_assign combine filter fst map snd]. f_equal.
      apply IH; [lia | simpl in Hv; lia].
    + cbn [Np.mask_assign combine filter fst]. apply IH; [lia | exact Hv].
Qed.

Lemma mask_member : forall (mask : list bool) (a : list A) (p : nat) (x : A),
  nth_error mask p = Some true -> nth_error a p = Some x ->
  In x (Np.mask_select mask a).
Proof.
  unfold Np.mask_select.
  induction mask as [| b mask IH]; intros [| y a] [| p] x Hm Ha; simpl in *;
    try discriminate.
  - inversion Hm; subst b. inversion Ha; subst y. left; reflexivity.
  - destruct b; simpl; [right |]; apply (IH a p x Hm Ha).
Qed.

End Take.

Lemma mask_assign_other :
  forall (A : Type) (ids : list Z) (w w' : Z) (a values : list A),
    w <> w' ->
    Np.mask_select (map (fun id => Z.eqb id w') ids)
                   (Np.mask_assign (map (fun id => Z.eqb id w) ids) a values)
    = Np.mask_select (map (fun id => Z.eqb id w') ids) a.
Proof.
  unfold Np.mask_select. intros A ids w w' a values Hne. revert a values.
  induction ids as [| id ids IH]; intros [| x a] values; try reflexivity.
  - cbn [map Np.mask_assign]. destruct (Z.eqb id w); reflexivity.
  - cbn [map Np.mask_assign]. destruct (Z.eqb id w) eqn:E.
    + apply Z.eqb_eq in E. subst id.
      replace (Z.eqb w w') with false by (symmetry; apply Z.eqb_neq; exact Hne).
      destruct values as [| v vs]; [reflexivity |].
      cbn [combine filter fst]. apply IH.
    + cbn [combine filter fst]. destruct (Z.eqb id w'); cbn [map snd];
        rewrite IH; reflexivity.
Qed.

(** What the loop over the windows leaves in the index array: the
    channels of a sorted window in the order of their frequencies, every
    other channel where it was. *)
Lemma sort_channels_windows :
  forall (descending : bool) (sort_spw : Z -> bool) (tf : list Q) (ts ws : list Z)
         (ia : list nat),
    List.length ts = List.length ia ->
    List.length tf = List.length ia ->
    NoDup ws ->
    exists r,
      sort_channels descending sort_spw tf ts ws ia = Ok r /\
      List.length r = List.length ia /\
      forall w,
        (In w ws /\ sort_spw w = true ->
         exists sub,
           Np.take (Np.mask_select (map (fun spw => Z.eqb spw w) ts) ia)
                   (Np.argsort_by Qle_bool
                      (Np.mask_select (map (fun spw => Z.eqb spw w) ts) tf))
           = Ok sub /\
           Permutation sub (Np.mask_select (map (fun spw => Z.eqb spw w) ts) ia) /\
           Np.mask_select (map (fun spw => Z.eqb spw w) ts) r
           = if descending then rev sub else sub) /\
        (~ (In w ws /\ sort_spw w = true) ->
         Np.mask_select (map (fun spw => Z.eqb spw w) ts) r
         = Np.mask_select (map (fun spw => Z.eqb spw w) ts) ia).
Proof.
  intros descending sort_spw tf ts ws.
  induction ws as [| idx ws IH]; intros ia Hts Htf Hnd.
  - exists ia. split; [reflexivity |]. split; [reflexivity |].
    intros w. split; [intros [[] _] | reflexivity].
  - inversion Hnd as [| ? ? Hidx Hnd']; subst. cbn [sort_channels].
    destruct (sort_spw idx) eqn:Hs.
    + set (mask := map (fun spw => Z.eqb spw idx) ts).
      assert (Hmi : List.length mask = List.length ia)
        by (unfold mask; rewrite length_map; exact Hts).
      assert (Hmf : List.length mask = List.length tf)
        by (unfold mask; rewrite length_map; lia).
      rewrite (NpFacts.mask_get_ok _ _ Hmi). cbn [rbind].
      rewrite (NpFacts.mask_get_ok _ _ Hmf). cbn [rbind].
      destruct (@NpFacts.take_perm nat (Np.mask_select mask ia)
                  (Np.argsort_by Qle_bool (Np.mask_select mask tf)))
        as (sub & Hsub & Hperm).
      { rewrite (NpFacts.mask_select_length _ _ Hmi),
                <- (NpFacts.mask_select_length _ _ Hmf).
        apply NpFacts.argsort_perm. }
      rewrite Hsub. cbn [rbind].
      set (vals := if descending then rev sub else sub).
      assert (Hvals : List.length vals = Np.count_true mask).
      { unfold vals. rewrite <- (NpFacts.mask_select_length _ _ Hmi),
                              <- (Permutation_length Hperm).
        destruct descending; [apply length_rev | reflexivity]. }
      destruct (IH (Np.mask_assign mask ia vals)) as (r & Hr & Hlen & Hw);
        try (rewrite NpFacts.mask_assign_length; assumption); [exact Hnd' |].
      exists r. split; [exact Hr |].
      split; [rewrite Hlen; apply NpFacts.mask_assign_length |].
      intros w. destruct (Z.eq_dec w idx) as [-> | Hne].
      * split.
        -- intros _. exists sub. split; [exact Hsub |]. split; [exact Hperm |].
           rewrite (proj2 (Hw idx)) by (intros [Hin _]; exact (Hidx Hin)).
           apply mask_assign_same; assumption.
        -- intros Hn. exfalso. apply Hn. split; [left; reflexivity | exact Hs].
      * assert (Hsame : Np.mask_select (map (fun spw => Z.eqb spw w) ts)
                                       (Np.mask_assign mask ia vals)
                        = Np.mask_select (map (fun spw => Z.eqb spw w) ts) ia).
        { apply mask_assign_other. intros Heq. apply Hne. symmetry; exact Heq. }
        split.
        -- intros [[Heq | Hin] Hsw]; [exfalso; apply Hne; symmetry; exact Heq |].
           destruct (proj1 (Hw w) (conj Hin Hsw)) as (sub' & H1 & H2 & H3).
           rewrite Hsame in H1, H2. exists sub'. repeat split; assumption.
        -- intros Hn. rewrite (proj2 (Hw w)); [exact Hsame |].
           intros [Hin Hsw]. apply Hn. split; [right; exact Hin | exact Hsw].
    + destruct (IH ia Hts Htf Hnd') as (r & Hr & Hlen & Hw).
      exists r. split; [exact Hr |]. split; [exact Hlen |].
      intros w. split.
      * intros [[Heq | Hin] Hsw]; [subst w; congruence |].
        apply (proj1 (Hw w)). split; assumption.
      * intros Hn. apply (proj2 (Hw w)). intros [Hin Hsw]. apply Hn.
        split; [right; exact Hin | exact Hsw].
Qed.

Lemma Qle_bool_total : forall a b : Q, Qle_bool a b = true \/ Qle_bool b a = true.
Proof.
  intros a b. destruct (Qlt_le_dec a b) as [H | H].
  - left. apply Qle_bool_iff. apply Qlt_le_weak. exact H.
  - right. apply Qle_bool_iff. exact H.
Qed.

Lemma sort_by_Q_sorted : forall keys : list Q,
  StronglySorted Qle (Np.sort_by Qle_bool keys).
Proof.
  intros keys. apply Sorted_StronglySorted.
  - intros x y z. apply Qle_trans.
  - pose proof (@SortMoreFacts.sort_by_sorted Q Qle_bool Qle_bool_total keys) as H.
    induction H as [| x l Hs IH Hhd]; constructor; [exact IH |].
    destruct Hhd; constructor. apply Qle_bool_iff. assumption.
Qed.

Lemma sorted_snoc : forall (A : Type) (R : A -> A -> Prop) (l : list A) (x : A),
  StronglySorted R l -> Forall (fun y => R y x) l -> StronglySorted R (l ++ [x])%list.
Proof.
  intros A R l x Hs Hall. induction Hs as [| y l Hs IH Hy]; simpl.
  - constructor; constructor.
  - inversion Hall as [| ? ? Hyx Hrest]; subst.
    constructor; [apply IH; exact Hrest |].
    apply Forall_app. split; [exact Hy | constructor; [exact Hyx | constructor]].
Qed.

Lemma sorted_rev : forall (A : Type) (R : A -> A -> Prop) (l : list A),
  StronglySorted R l -> StronglySorted (fun a b => R b a) (rev l).
Proof.
  intros A R l Hs. induction Hs as [| y l Hs IH Hy]; simpl; [constructor |].
  apply sorted_snoc; [exact IH |]. apply Forall_rev. exact Hy.
Qed.

Lemma window_positions : forall (w : Z) (ids pre : list Z),
  Forall (fun i => nth_error (pre ++ ids)%list i = Some w)
         (Np.mask_select (map (fun id => Z.eqb id w) ids)
                         (seq (List.length pre) (List.length ids))).
Proof.
  unfold Np.mask_select. intros w.
  induction ids as [| id ids IH]; intros pre; [constructor |].
  specialize (IH (pre ++ [id])%list). rewrite length_app in IH.
  cbn [List.length] in IH. rewrite Nat.add_1_r, <- app_assoc in IH.
  cbn [List.length seq map combine filter fst].
  destruct (Z.eqb id w) eqn:E; [| exact IH].
  cbn [map snd]. constructor; [| exact IH].
  apply Z.eqb_eq in E. subst id.
  rewrite nth_error_app2 by lia. rewrite Nat.sub_diag. reflexivity.
Qed.

Lemma windows_fix_ids : forall (ts : list Z) (g : nat -> Z) (r : list nat),
  List.length r = List.length ts ->
  (forall w, Forall (fun i => g i = w)
                    (Np.mask_select (map (fun id => Z.eqb id w) ts) r)) ->
  map g r = ts.
Proof.
  unfold Np.mask_select.
  induction ts as [| t ts IH]; intros g [| x r] Hl H; simpl in Hl; try discriminate;
    [reflexivity |].
  cbn [map]. f_equal.
  - specialize (H t). cbn [map combine filter fst] in H.
    rewrite Z.eqb_refl in H. cbn [map snd] in H. inversion H; assumption.
  - apply IH; [lia |]. intros w. specialize (H w).
    cbn [map combine filter fst] in H.
    destruct (Z.eqb t w); [| exact H]. cbn [map snd] in H. inversion H; assumption.
Qed.

Lemma increasing_is_identity : forall (r : list nat) (n : nat),
  Np.strictly_increasing r = true -> Permutation r (seq 0 n) -> r = seq 0 n.
Proof.
  intros r n Hinc Hp.
  assert (H : map Z.of_nat r = map Z.of_nat (seq 0 n)).
  { apply SortMoreFacts.sorted_Z_unique.
    - apply SortMoreFacts.strictly_increasing_sorted. exact Hinc.
    - apply SortMoreFacts.positions_sorted.
    - apply Permutation_map. exact Hp. }
  apply (f_equal (map Z.to_nat)) in H. rewrite !map_map in H.
  assert (Hid : forall l : list nat, map (fun x => Z.to_nat (Z.of_nat x)) l = l).
  { intros l. rewrite (map_ext _ (fun x => x)) by (intros; apply Nat2Z.id).
    apply map_id. }
  rewrite !Hid in H. exact H.
Qed.

(** Sorting by "freq" or "-freq" alone always succeeds for an object
    whose [spw_array] has no repeated window.  With the order it returns
    (the order of the object itself when it returns [None]), every
    position is used once, every channel stays in its window, and within
    every window of [spw_array] the frequencies ascend (descend for
    "-freq"). *)
Theorem channels_sorted_by_frequency :
  forall (Nfreqs : nat) (freq_array : list Q) (Nspws : nat)
         (spw_array flex_spw_id_array : list Z) (descending : bool),
    List.length freq_array = Nfreqs ->
    List.length flex_spw_id_array = Nfreqs ->
    NoDup spw_array ->
    exists res,
      snd (_sort_freq_helper Nfreqs freq_array Nspws spw_array flex_spw_id_array
             None (Some (OrderStr (if descending then "-freq" else "freq"))) None)
      = Ok res /\
      forall order,
        order = match res with Some o => o | None => seq 0 Nfreqs end ->
        Permutation order (seq 0 Nfreqs) /\
        map (fun i => nth i flex_spw_id_array 0%Z) order = flex_spw_id_array /\
        forall w, In w spw_array ->
          StronglySorted
            (fun a b => if descending then (b <= a)%Q else (a <= b)%Q)
            (Np.mask_select (map (fun id => Z.eqb id w) flex_spw_id_array)
                            (map (fun i => nth i freq_array 0%Q) order)).
Proof.
  intros Nfreqs freq ns ws ids descending Hlf Hli Hnd.
  assert (Hli' : List.length ids = List.length (seq 0 Nfreqs))
    by (rewrite length_seq; exact Hli).
  assert (Hlf' : List.length freq = List.length (seq 0 Nfreqs))
    by (rewrite length_seq; exact Hlf).
  destruct (@sort_channels_windows descending (fun _ : Z => true) freq ids ws
              (seq 0 Nfreqs) Hli' Hlf' Hnd) as (r & Hr & Hlen & Hw).
  destruct (@SortFacts.sort_channels_perm descending (fun _ : Z => true) freq ids ws
              (seq 0 Nfreqs) Hli' Hlf') as (r' & Hr' & Hperm).
  rewrite Hr in Hr'. inversion Hr'; subst r'. clear Hr'.
  assert (Hcall :
    snd (_sort_freq_helper Nfreqs freq ns ws ids None
           (Some (OrderStr (if descending then "-freq" else "freq"))) None)
    = if Np.strictly_increasing r then Ok None else Ok (Some r)).
  { rewrite SortFacts.sort_freq_helper_result. cbn [is_some negb andb].
    unfold index_array_for. rewrite SortFacts.snd_bind. unfold lift. cbn [snd].
    unfold apply_channel_order, Np.arange.
    replace (negb (existsb (String.eqb (if descending then "-freq" else "freq"))
                           ["freq"; "-freq"])) with false
      by (destruct descending; reflexivity).
    replace (first_is_minus (if descending then "-freq" else "freq"))
      with descending by (destruct descending; reflexivity).
    cbn [is_some]. rewrite Hr. reflexivity. }
  exists (if Np.strictly_increasing r then None else Some r).
  split; [rewrite Hcall; destruct (Np.strictly_increasing r); reflexivity |].
  intros order Horder.
  assert (Hor : order = r).
  { rewrite Horder. destruct (Np.strictly_increasing r) eqn:E; [| reflexivity].
    symmetry. apply increasing_is_identity; assumption. }
  clear Horder. subst order.
  assert (Hsub : forall w,
            Permutation (Np.mask_select (map (fun id => Z.eqb id w) ids) r)
                        (Np.mask_select (map (fun id => Z.eqb id w) ids)
                                        (seq 0 Nfreqs))).
  { intros w. destruct (in_dec Z.eq_dec w ws) as [Hin | Hout].
    - destruct (proj1 (Hw w) (conj Hin eq_refl)) as (sub & _ & Hp & He).
      rewrite He. destruct descending; [| exact Hp].
      apply Permutation_trans with sub; [apply Permutation_sym, Permutation_rev | exact Hp].
    - rewrite (proj2 (Hw w)) by (intros [Hin _]; exact (Hout Hin)).
      apply Permutation_refl. }
  split; [exact Hperm |]. split.
  - apply windows_fix_ids; [rewrite Hlen, length_seq; symmetry; exact Hli |].
    intros w.
    apply (Permutation_Forall (Permutation_sym (Hsub w))).
    rewrite <- Hli. eapply Forall_impl; [| apply (window_positions w ids [])].
    intros i Hi. cbn [app] in Hi. apply (nth_error_nth _ _ _ Hi).
  - intros w Hin.
    destruct (proj1 (Hw w) (conj Hin eq_refl)) as (sub & Ht & _ & He).
    rewrite SpwFacts.mask_select_map, He.
    assert (Hkeys : map (fun i => nth i freq 0%Q) sub
                    = Np.sort_by Qle_bool
                        (Np.mask_select (map (fun id => Z.eqb id w) ids) freq)).
    { apply (take_map (fun i => nth i freq 0%Q)) in Ht.
      rewrite <- SpwFacts.mask_select_map in Ht.
      rewrite <- Hlf, SpwFacts.list_as_map_nth in Ht.
      rewrite take_argsort in Ht. inversion Ht; reflexivity. }
    destruct descending.
    + rewrite map_rev, Hkeys. apply sorted_rev. apply sort_by_Q_sorted.
    + rewrite Hkeys. apply sort_by_Q_sorted.
Qed.

Lemma channels_sorted_by_frequency_witness :
  exists res,
    snd (_sort_freq_helper 6 two_window_freqs 2 two_windows two_window_ids
           None (Some (OrderStr (if false then "-freq" else "freq"))) None)
    = Ok res /\
    forall order,
      order = match res with Some o => o | None => seq 0 6 end ->
      Permutation order (seq 0 6) /\
      map (fun i => nth i two_window_ids 0%Z) order = two_window_ids /\
      forall w, In w two_windows ->
        StronglySorted
          (fun a b => if false then (b <= a)%Q else (a <= b)%Q)
          (Np.mask_select (map (fun id => Z.eqb id w) two_window_ids)
                          (map (fun i => nth i two_window_freqs 0%Q) order)).
Proof.
  apply (@channels_sorted_by_frequency 6 two_window_freqs 2 two_windows
           two_window_ids false).
  - reflexivity.
  - reflexivity.
  - repeat constructor; simpl; intuition discriminate.
Defined.

End ChannelSortFacts.

(** ** The FIELD and OBSERVATION tables *)

Module FieldObsFacts.
Import MsUtils FieldObs.
Open Scope string_scope.

Lemma Qeq_bool_compat : forall x a b : Q, (a == b)%Q -> Qeq_bool x a = Qeq_bool x b.
Proof.
  intros x a b H.
  destruct (Qeq_bool x a) eqn:E1; destruct (Qeq_bool x b) eqn:E2; try reflexivity.
  - apply Qeq_bool_iff in E1.
    rewrite (proj2 (Qeq_bool_iff x b) (Qeq_trans _ _ _ E1 H)) in E2. discriminate.
  - apply Qeq_bool_iff in E2.
    rewrite (proj2 (Qeq_bool_iff x a) (Qeq_trans _ _ _ E2 (Qeq_sym _ _ H))) in E1.
    discriminate.
Qed.

(** A frame and epoch of the supported set has a CASA code, the table
    maps that code back to the pair, and the code has a place in the
    list of the variable references. *)
Lemma supported_pair_code :
  forall (fr : string) (ep : option Q) (p : frame_ref) (raise_error : bool),
    In p supported_frames ->
    fst p = fr ->
    (snd p == match ep with None => 2000 | Some e => e end)%Q ->
    exists ref_name code,
      _parse_pyuvdata_frame_ref fr ep raise_error = ([], Ok (Some ref_name)) /\
      dict_get String.eqb COORD_PYUVDATA2CASA_DICT ref_name = Some (Some p) /\
      var_ref_index (map fst COORD_PYUVDATA2CASA_DICT) 0 ref_name = Some code.
Proof.
  intros fr ep p raise_error Hin Hfr Hep.
  unfold _parse_pyuvdata_frame_ref. rewrite FrameFacts.reverse_dict_value.
  set (e := match ep with None => 2000%Q | Some e => e end) in *.
  cbn [dict_get ref_key_eqb]. unfold frame_ref_eqb. cbn [fst snd].
  simpl in Hin.
  repeat (destruct Hin as [Hin | Hin];
          [ subst p; cbn [fst snd] in Hfr, Hep; subst fr;
            rewrite !(Qeq_bool_compat _ (Qeq_sym _ _ Hep));
            eexists; eexists; split; [reflexivity | split; reflexivity] |]).
  contradiction.
Qed.

Lemma tbind_ret : forall (A B : Type) (a : A) (k : A -> T B),
  tbind ([], TOk a) k = k a.
Proof. intros A B a k. unfold tbind. destruct (k a). reflexivity. Qed.

(** The rows written for phase centers of supported frames. *)
Lemma field_rows_written :
  forall (var_ref : bool) (time_val : Q) (catalog : list (Z * cat_entry)),
    Forall (fun c => exists p, In p supported_frames /\ fst p = cat_frame c /\
                               (snd p == match cat_epoch c with
                                         | None => 2000 | Some e => e end)%Q)
           (map snd catalog) ->
    exists rows,
      field_rows_of var_ref time_val catalog = ([], TOk rows) /\
      map SOURCE_ID rows = map fst catalog /\
      map NAME rows = map (fun kv => cat_name (snd kv)) catalog /\
      map PHASE_DIR rows
      = map (fun kv => [(cat_lon (snd kv), cat_lat (snd kv))]) catalog.
Proof.
  intros var_ref time_val. induction catalog as [| [id c] catalog IH]; intros H.
  - exists []. repeat split; reflexivity.
  - inversion H as [| ? ? (p & Hin & Hf & He) Hrest]; subst.
    destruct (IH Hrest) as (rows & Hrows & H1 & H2 & H3).
    destruct (@supported_pair_code (cat_frame c) (cat_epoch c) p var_ref Hin Hf He)
      as (ref_name & code & Hparse & _ & Hcode).
    cbn [field_rows_of]. rewrite Hparse. unfold of_W. rewrite tbind_ret.
    destruct var_ref.
    + rewrite Hcode. unfold tret at 1. rewrite tbind_ret, Hrows, tbind_ret.
      eexists. split; [reflexivity |].
      cbn [map SOURCE_ID NAME PHASE_DIR fst snd]. rewrite H1, H2, H3.
      repeat split; reflexivity.
    + unfold tret at 1. rewrite tbind_ret, Hrows, tbind_ret.
      eexists. split; [reflexivity |].
      cbn [map SOURCE_ID NAME PHASE_DIR fst snd]. rewrite H1, H2, H3.
      repeat split; reflexivity.
Qed.

Lemma read_field_rows_single :
  forall (catalog : list (Z * cat_entry)) (rows : list field_row),
    map PHASE_DIR rows
    = map (fun kv => [(cat_lon (snd kv), cat_lat (snd kv))]) catalog ->
    read_field_rows rows
    = TOk (map (fun kv => cat_lon (snd kv)) catalog,
           map (fun kv => cat_lat (snd kv)) catalog,
           map SOURCE_ID rows).
Proof.
  induction catalog as [| kv catalog IH]; intros [| row rows] H; try discriminate;
    [reflexivity |].
  cbn [map] in H. injection H as Hrow Hrest.
  cbn [read_field_rows map]. rewrite Hrow, (IH rows Hrest). reflexivity.
Qed.

Lemma dict_set_absent : forall (V : Type) (d : list (Z * V)) (k : Z) (v : V),
  ~ In k (map fst d) -> dict_set Z.eqb d k v = (d ++ [(k, v)])%list.
Proof.
  induction d as [| [k' v'] d IH]; intros k v H; [reflexivity |].
  cbn [dict_set app]. destruct (Z.eqb k' k) eqn:E.
  - apply Z.eqb_eq in E. exfalso. apply H. left. exact E.
  - rewrite IH; [reflexivity |]. intros Hin. apply H. right. exact Hin.
Qed.

(** Source ids without repetition give the catalog one entry per row, in
    the order of the rows. *)
Lemma catalog_of_distinct :
  forall (f : string) (e : Q) (entries : list (Z * (string * (Q * Q))))
         (acc : list (Z * cat_entry)),
    NoDup (map fst acc ++ map fst entries)%list ->
    catalog_of f e entries acc
    = (acc ++ map (fun en =>
                     (fst en,
                      {| cat_name := fst (snd en); cat_type := "sidereal";
                         cat_lon := fst (snd (snd en));
                         cat_lat := snd (snd (snd en));
                         cat_frame := f; cat_epoch := Some e |})) entries)%list.
Proof.
  intros f e. induction entries as [| [id [nm [lon lat]]] entries IH]; intros acc Hnd.
  - cbn [catalog_of map]. rewrite app_nil_r. reflexivity.
  - cbn [catalog_of map fst snd] in Hnd |- *.
    rewrite dict_set_absent.
    + rewrite IH.
      * rewrite <- app_assoc. reflexivity.
      * rewrite map_app, <- app_assoc. exact Hnd.
    + apply NoDup_remove_2 in Hnd. intros Hin. apply Hnd.
      apply in_or_app. left. exact Hin.
Qed.

Lemma zipped_columns : forall (A B C : Type) (rows : list A)
                                (col1 : A -> B) (col2 : A -> C),
  map (fun row => (col1 row, col2 row)) rows
  = combine (map col1 rows) (map col2 rows).
Proof.
  intros A B C rows col1 col2. induction rows as [| row rows IH]; [reflexivity |].
  cbn [map combine]. rewrite <- IH. reflexivity.
Qed.

(** A non-empty catalog of phase centers whose frames and epochs are all
    of the supported set is written to a FIELD table and read back as a
    catalog with the same source ids, names, longitudes and latitudes in
    the same order; but every phase center comes back as "sidereal" with
    the frame and epoch of the first one, whatever its own frame was. *)
Theorem field_round_trip :
  forall (id0 : Z) (first : cat_entry) (rest : list (Z * cat_entry)) (time_val : Q),
    NoDup (map fst ((id0, first) :: rest)) ->
    Forall (fun c => exists p, In p supported_frames /\ fst p = cat_frame c /\
                               (snd p == match cat_epoch c with
                                         | None => 2000 | Some e => e end)%Q)
           (map snd ((id0, first) :: rest)) ->
    exists tb f e,
      write_ms_field ((id0, first) :: rest) time_val = ([], TOk tb) /\
      In (f, e) supported_frames /\
      f = cat_frame first /\
      (e == match cat_epoch first with None => 2000 | Some e0 => e0 end)%Q /\
      read_ms_field (Some tb) true
      = TOk (inr (map (fun kv =>
                         (fst kv,
                          {| cat_name := cat_name (snd kv); cat_type := "sidereal";
                             cat_lon := cat_lon (snd kv); cat_lat := cat_lat (snd kv);
                             cat_frame := f; cat_epoch := Some e |}))
                      ((id0, first) :: rest))).
Proof.
  intros id0 first rest time_val Hnd Hsup.
  set (catalog := (id0, first) :: rest) in *.
  assert (Hfirst : exists p, In p supported_frames /\ fst p = cat_frame first /\
                             (snd p == match cat_epoch first with
                                       | None => 2000 | Some e => e end)%Q).
  { inversion Hsup; assumption. }
  destruct Hfirst as ([f e] & Hin & Hf & He). cbn [fst snd] in Hf, He.
  destruct (@supported_pair_code (cat_frame first) (cat_epoch first) (f, e) true
              Hin Hf He) as (ref_name & code & Hparse & Hget & _).
  destruct (@field_rows_written
              (find_var_ref (cat_frame first) (cat_epoch first) (map snd rest))
              time_val catalog Hsup) as (rows & Hrows & H1 & H2 & H3).
  eexists. exists f, e. split.
  { unfold write_ms_field, catalog. rewrite Hparse. unfold of_W.
    rewrite tbind_ret. fold catalog. rewrite Hrows, tbind_ret. reflexivity. }
  split; [exact Hin |]. split; [exact Hf |]. split; [exact He |].
  unfold read_ms_field. cbn [MEASINFO_Ref field_rows]. rewrite Hget.
  rewrite (read_field_rows_single catalog rows H3). cbn [negb].
  rewrite H1, H2.
  rewrite <- !zipped_columns.
  rewrite catalog_of_distinct.
  - cbn [app]. rewrite map_map. reflexivity.
  - cbn [map app]. rewrite map_map. cbn [fst]. exact Hnd.
Qed.

Lemma field_round_trip_witness :
  exists tb f e,
    write_ms_field
      [(3%Z, {| cat_name := "zenith"; cat_type := "sidereal"; cat_lon := 1 # 2;
                cat_lat := - (1 # 3); cat_frame := "icrs"; cat_epoch := None |});
       (1%Z, {| cat_name := "3c84"; cat_type := "sidereal"; cat_lon := 7 # 8;
                cat_lat := 5 # 7; cat_frame := "fk4"; cat_epoch := Some (3900 # 2) |})]
      (5000000000 # 1) = ([], TOk tb) /\
    In (f, e) supported_frames /\
    f = "icrs" /\
    (e == 2000)%Q /\
    read_ms_field (Some tb) true
    = TOk (inr [(3%Z, {| cat_name := "zenith"; cat_type := "sidereal";
                         cat_lon := 1 # 2; cat_lat := - (1 # 3);
                         cat_frame := f; cat_epoch := Some e |});
                (1%Z, {| cat_name := "3c84"; cat_type := "sidereal";
                         cat_lon := 7 # 8; cat_lat := 5 # 7;
                         cat_frame := f; cat_epoch := Some e |})]).
Proof.
  apply (@field_round_trip 3%Z
           {| cat_name := "zenith"; cat_type := "sidereal"; cat_lon := 1 # 2;
              cat_lat := - (1 # 3); cat_frame := "icrs"; cat_epoch := None |}
           [(1%Z, {| cat_name := "3c84"; cat_type := "sidereal"; cat_lon := 7 # 8;
                     cat_lat := 5 # 7; cat_frame := "fk4";
                     cat_epoch := Some (3900 # 2) |})]
           (5000000000 # 1)).
  - repeat constructor; simpl; intuition discriminate.
  - constructor.
    + exists ("icrs", 2000%Q). split; [| split; reflexivity].
      simpl. right; right; right; right; left. reflexivity.
    + constructor; [| constructor].
      exists ("fk4", 1950%Q). split; [| split; reflexivity].
      simpl. right; right; left. reflexivity.
Defined.

Lemma observer_fold_unmatched :
  forall (kws : list (string * string)) (observer : string),
    Forall (fun kv => String.eqb (Str.upper (fst kv)) "OBSERVER" = false) kws ->
    fold_left (fun observer kv =>
                 if String.eqb (Str.upper (fst kv)) "OBSERVER" then snd kv
                 else observer) kws observer
    = observer.
Proof.
  induction kws as [| kv kws IH]; intros observer H; [reflexivity |].
  inversion H as [| ? ? Hkv Hrest]; subst. cbn [fold_left]. rewrite Hkv.
  apply IH. exact Hrest.
Qed.

(** The OBSERVATION table written for an object is read back with the
    object's telescope name and location.  The observer read back is the
    telescope name when no extra keyword is called "observer" in any
    mixture of cases, and otherwise the value of the last such
    keyword. *)
Theorem observation_round_trip :
  forall uvobj : obs_object,
    (exists tb observer,
       write_ms_observation (Some uvobj) = TOk tb /\
       read_ms_obs (Some tb)
       = Ok {| obs_telescope_name := telescope_name uvobj;
               obs_observer := observer;
               obs_telescope_location := Some (Vector (telescope_location uvobj)) |} /\
       (Forall (fun kv => String.eqb (Str.upper (fst kv)) "OBSERVER" = false)
               (extra_keywords uvobj) ->
        observer = telescope_name uvobj) /\
       (forall pre key value post,
          extra_keywords uvobj = (pre ++ (key, value) :: post)%list ->
          String.eqb (Str.upper key) "OBSERVER" = true ->
          Forall (fun kv => String.eqb (Str.upper (fst kv)) "OBSERVER" = false) post ->
          observer = value)).
Proof.
  intros uvobj. eexists. exists (observer_of uvobj).
  split; [reflexivity |]. split; [reflexivity |]. split.
  - intros H. unfold observer_of. apply observer_fold_unmatched. exact H.
  - intros pre key value post Hkw Hkey Hpost. unfold observer_of.
    rewrite Hkw, fold_left_app. cbn [fold_left fst snd]. rewrite Hkey.
    apply observer_fold_unmatched. exact Hpost.
Qed.

End FieldObsFacts.

(** ** [read_ms_cal]: what the loop over the rows files where *)

Module MainLoopFacts.
Import MsCal MsCalRead.

Lemma dict_get_set_nat : forall (V : Type) (d : list (nat * V)) (k k' : nat) (v : V),
  dict_get Nat.eqb (dict_set Nat.eqb d k v) k'
  = if Nat.eqb k k' then Some v else dict_get Nat.eqb d k'.
Proof.
  induction d as [| [k0 v0] d IH]; intros k k' v; simpl; [reflexivity |].
  destruct (Nat.eqb k0 k) eqn:E; simpl.
  - apply Nat.eqb_eq in E. subst k0. destruct (Nat.eqb k k'); reflexivity.
  - rewrite IH. destruct (Nat.eqb k0 k') eqn:E2; [| reflexivity].
    apply Nat.eqb_eq in E2. subst k0. rewrite Nat.eqb_sym, E. reflexivity.
Qed.

(** The keys of [ant_dict] are the antenna numbers. *)
Lemma ant_dict_keys : forall (nums : list nat) (a : nat),
  dict_get Nat.eqb (ant_dict nums) a <> None <-> In a nums.
Proof.
  intros nums a. unfold ant_dict, Str.enumerate.
  assert (G : forall (l : list nat) (s : nat) (d : list (nat * nat)),
             dict_get Nat.eqb
               (fold_left (fun d ia => dict_set Nat.eqb d (snd ia) (fst ia))
                          (combine (seq s (List.length l)) l) d) a <> None
             <-> (In a l \/ dict_get Nat.eqb d a <> None)).
  { induction l as [| x l IH]; intros s d; simpl.
    - split; [intros H; right; exact H | intros [[] | H]; exact H].
    - rewrite IH, dict_get_set_nat. destruct (Nat.eqb x a) eqn:E.
      + apply Nat.eqb_eq in E. split; [intros _; left; left; exact E |].
        intros _. right. discriminate.
      + apply Nat.eqb_neq in E. split.
        * intros [H | H]; [left; right; exact H | right; exact H].
        * intros [[H | H] | H]; [contradiction | left; exact H | right; exact H]. }
  rewrite G. simpl. split; [intros [H | H]; [exact H | contradiction] |].
  intros H. left. exact H.
Qed.

Lemma setitem_inside : forall (A : Type) (a : list A) (i : nat) (x : A),
  (i < List.length a)%nat -> setitem a i x = Ok (Np.set_nth a i x).
Proof.
  intros A a i x H. unfold setitem.
  destruct (i <? List.length a)%nat eqn:E; [reflexivity |].
  apply Nat.ltb_ge in E. lia.
Qed.

Lemma setitem_outside : forall (A : Type) (a : list A) (i : nat) (x : A),
  (List.length a <= i)%nat ->
  setitem a i x = Raise (IndexError "index is out of bounds").
Proof.
  intros A a i x H. unfold setitem.
  destruct (i <? List.length a)%nat eqn:E; [| reflexivity].
  apply Nat.ltb_lt in E. lia.
Qed.

Section Loop.
Variable ants : list (nat * nat).
Variable spw_slice_dict : list (nat * (nat * nat)).

Local Abbreviation kept row :=
  (dict_get Nat.eqb ants (ANTENNA1 row) <> None /\
   dict_get Nat.eqb spw_slice_dict (SPECTRAL_WINDOW_ID row) <> None).

Local Abbreviation sized st n :=
  (List.length (time_array st) = n /\ List.length (integration_time st) = n /\
   List.length (phase_center_id_array st) = n /\
   List.length (scan_number_array st) = n).

Local Abbreviation filed st idx row :=
  (nth_error (time_array st) idx = Some (TIME row) /\
   nth_error (integration_time st) idx = Some (INTERVAL row) /\
   nth_error (phase_center_id_array st) idx = Some (FIELD_ID row) /\
   nth_error (scan_number_array st) idx = Some (SCAN_NUMBER row)).

Lemma main_loop_step_skips : forall (st : time_arrays) (row : main_row) (idx : nat),
  ~ kept row -> main_loop_step ants spw_slice_dict st (row, idx) = Ok st.
Proof.
  intros st row idx H. unfold main_loop_step.
  destruct (dict_get Nat.eqb ants (ANTENNA1 row)); [| reflexivity].
  destruct (dict_get Nat.eqb spw_slice_dict (SPECTRAL_WINDOW_ID row));
    [| reflexivity].
  exfalso. apply H. split; discriminate.
Qed.

Lemma main_loop_step_files :
  forall (st : time_arrays) (row : main_row) (idx n : nat),
    sized st n -> (idx < n)%nat -> kept row ->
    exists st', main_loop_step ants spw_slice_dict st (row, idx) = Ok st' /\
                sized st' n /\ filed st' idx row /\
                (forall k other, k <> idx -> filed st k other -> filed st' k other).
Proof.
  intros st row idx n (L1 & L2 & L3 & L4) Hidx (Ha & Hs). unfold main_loop_step.
  destruct (dict_get Nat.eqb ants (ANTENNA1 row)); [| congruence].
  destruct (dict_get Nat.eqb spw_slice_dict (SPECTRAL_WINDOW_ID row));
    [| congruence].
  rewrite !setitem_inside by lia. cbn [rbind].
  eexists. split; [reflexivity |]. cbn.
  rewrite !AntennaMoreFacts.set_nth_length.
  split; [repeat split; assumption |].
  split.
  - rewrite !AntennaMoreFacts.set_nth_same by lia. repeat split; reflexivity.
  - intros k other Hk (F1 & F2 & F3 & F4).
    rewrite !AntennaMoreFacts.set_nth_other by exact Hk.
    repeat split; assumption.
Qed.

Lemma main_loop_step_outside :
  forall (st : time_arrays) (row : main_row) (idx n : nat),
    sized st n -> (n <= idx)%nat -> kept row ->
    main_loop_step ants spw_slice_dict st (row, idx)
    = Raise (IndexError "index is out of bounds").
Proof.
  intros st row idx n (L1 & _) Hidx (Ha & Hs). unfold main_loop_step.
  destruct (dict_get Nat.eqb ants (ANTENNA1 row)); [| congruence].
  destruct (dict_get Nat.eqb spw_slice_dict (SPECTRAL_WINDOW_ID row));
    [| congruence].
  rewrite setitem_outside by lia. reflexivity.
Qed.

Lemma kept_or_not : forall row : main_row, kept row \/ ~ kept row.
Proof.
  intros row.
  destruct (dict_get Nat.eqb ants (ANTENNA1 row));
    [| right; intros [H _]; apply H; reflexivity].
  destruct (dict_get Nat.eqb spw_slice_dict (SPECTRAL_WINDOW_ID row));
    [| right; intros [_ H]; apply H; reflexivity].
  left. split; discriminate.
Qed.

(** The loop on rows whose time index is inside the arrays: it ends
    without an error, and the slot of every kept row holds the cells of
    one kept row of the same time index. *)
Lemma main_loop_files :
  forall (n : nat) (entries done : list (main_row * nat)) (st : time_arrays),
    sized st n ->
    Forall (fun entry => kept (fst entry) -> (snd entry < n)%nat) entries ->
    (forall row idx, In (row, idx) done -> kept row ->
       exists last, In (last, idx) done /\ kept last /\ filed st idx last) ->
    exists st', main_loop ants spw_slice_dict st entries = Ok st' /\
                sized st' n /\
                (forall row idx, In (row, idx) (done ++ entries)%list -> kept row ->
                   exists last, In (last, idx) (done ++ entries)%list /\ kept last /\
                                filed st' idx last).
Proof.
  intros n entries. induction entries as [| [row idx] entries IH];
    intros done st Hsize Hidx Hinv.
  - exists st. rewrite app_nil_r. split; [reflexivity |]. split; assumption.
  - cbn [main_loop].
    replace (done ++ (row, idx) :: entries)%list
      with ((done ++ [(row, idx)]) ++ entries)%list
      by (rewrite <- app_assoc; reflexivity).
    inversion Hidx as [| e es Hhead Htail]; subst. cbn [fst snd] in Hhead.
    destruct (kept_or_not row) as [Hk | Hk].
    + destruct (@main_loop_step_files st row idx n Hsize (Hhead Hk) Hk)
        as (st1 & Hstep & Hsize1 & Hfiled & Hother).
      rewrite Hstep. cbn [rbind].
      apply IH; [exact Hsize1 | exact Htail |].
      intros row' idx' Hin Hk'.
      destruct (Nat.eq_dec idx' idx) as [-> | Hne].
      * exists row. split; [apply in_or_app; right; left; reflexivity |].
        split; [exact Hk | exact Hfiled].
      * apply in_app_or in Hin. destruct Hin as [Hin | [Hin | []]];
          [| inversion Hin; subst; congruence].
        destruct (Hinv row' idx' Hin Hk') as (last & Hl & Hkl & Hf).
        exists last. split; [apply in_or_app; left; exact Hl |].
        split; [exact Hkl |]. apply Hother; assumption.
    + rewrite (@main_loop_step_skips st row idx Hk). cbn [rbind].
      apply IH; [exact Hsize | exact Htail |].
      intros row' idx' Hin Hk'.
      apply in_app_or in Hin. destruct Hin as [Hin | [Hin | []]];
        [| inversion Hin; subst; contradiction].
      destruct (Hinv row' idx' Hin Hk') as (last & Hl & Hkl & Hf).
      exists last. split; [apply in_or_app; left; exact Hl |].
      split; assumption.
Qed.

(** The loop with a kept row whose time index is outside the arrays. *)
Lemma main_loop_raises :
  forall (n : nat) (entries : list (main_row * nat)) (st : time_arrays),
    sized st n ->
    Exists (fun entry => kept (fst entry) /\ (n <= snd entry)%nat) entries ->
    main_loop ants spw_slice_dict st entries
    = Raise (IndexError "index is out of bounds").
Proof.
  intros n entries. induction entries as [| [row idx] entries IH];
    intros st Hsize Hex; [inversion Hex |].
  cbn [main_loop].
  destruct (kept_or_not row) as [Hk | Hk].
  - destruct (Nat.lt_ge_cases idx n) as [Hlt | Hge].
    + destruct (@main_loop_step_files st row idx n Hsize Hlt Hk)
        as (st1 & Hstep & Hsize1 & _).
      rewrite Hstep. cbn [rbind]. apply IH; [exact Hsize1 |].
      inversion Hex as [e es [_ Hbad] | e es Hrest]; subst;
        [cbn [snd] in Hbad; lia | exact Hrest].
    + rewrite (@main_loop_step_outside st row idx n Hsize Hge Hk). reflexivity.
  - rewrite (@main_loop_step_skips st row idx Hk). cbn [rbind].
    apply IH; [exact Hsize |].
    inversion Hex as [e es [Hbad _] | e es Hrest]; subst;
      [cbn [fst] in Hbad; contradiction | exact Hrest].
Qed.

End Loop.

Lemma row_entry : forall (A B : Type) (rows : list A) (indices : list B)
                         (r : nat) (row : A),
  List.length indices = List.length rows -> nth_error rows r = Some row ->
  exists idx, nth_error indices r = Some idx /\ In (row, idx) (combine rows indices).
Proof.
  intros A B rows. induction rows as [| x rows IH]; intros indices r row Hlen Hr.
  - destruct r; discriminate.
  - destruct indices as [| i indices]; [discriminate |].
    destruct r as [| r]; simpl in *.
    + inversion Hr; subst. exists i. split; [reflexivity | left; reflexivity].
    + destruct (IH indices r row) as (idx & Hi & Hin); [lia | exact Hr |].
      exists idx. split; [exact Hi | right; exact Hin].
Qed.

Lemma entries_of_columns :
  forall (A B C : Type) (P : B -> C -> Prop) (f : A -> B)
         (rows : list A) (indices : list C),
    Forall2 P (map f rows) indices ->
    Forall (fun entry => P (f (fst entry)) (snd entry)) (combine rows indices).
Proof.
  intros A B C P f rows. induction rows as [| x rows IH]; intros indices H.
  - constructor.
  - simpl in H. inversion H as [| b c bs cs Hhead Htail]; subst. simpl.
    constructor; [exact Hhead | apply IH; exact Htail].
Qed.

Lemma zeros_sized : forall n : nat,
  let st := {| time_array := repeat 0%Q n; integration_time := repeat 0%Q n;
               phase_center_id_array := repeat 0%Z n;
               scan_number_array := repeat 0%Z n |} in
  List.length (time_array st) = n /\ List.length (integration_time st) = n /\
  List.length (phase_center_id_array st) = n /\
  List.length (scan_number_array st) = n.
Proof.
  intros n. cbn. rewrite !repeat_length. repeat split; reflexivity.
Qed.

(** When the raw timestamps of the rows are within the tolerance of each
    other only if they are equal, the loop over the rows ends without an
    error, every array has [Ntimes] entries, and every row of a known
    antenna and a known spectral window has a time index below [Ntimes]
    whose slot holds, in all four arrays, the cells of one such row with
    the same timestamp. *)
Theorem read_main_rows_files_by_time :
  forall (tols : Q * Q) (antenna_numbers : list nat)
         (spw_slice_dict : list (nat * (nat * nat))) (rows : list main_row),
    (forall a b, In a (map TIME rows) -> In b (map TIME rows) ->
       Np.isclose a b (fst tols * 86400) (snd tols * 86400) = true -> (a == b)%Q) ->
    let count := Ntimes_read tols (map TIME rows) in
    exists st,
      read_main_rows tols antenna_numbers spw_slice_dict rows = Ok (count, st) /\
      (List.length (time_array st) = count /\
       List.length (integration_time st) = count /\
       List.length (phase_center_id_array st) = count /\
       List.length (scan_number_array st) = count) /\
      forall r row,
        nth_error rows r = Some row ->
        In (ANTENNA1 row) antenna_numbers ->
        dict_get Nat.eqb spw_slice_dict (SPECTRAL_WINDOW_ID row) <> None ->
        exists idx last,
          nth_error (row_timeidx_map (build_time_index tols (map TIME rows))) r
          = Some idx /\
          (idx < count)%nat /\
          In last rows /\ In (ANTENNA1 last) antenna_numbers /\
          dict_get Nat.eqb spw_slice_dict (SPECTRAL_WINDOW_ID last) <> None /\
          (TIME last == TIME row)%Q /\
          nth_error (time_array st) idx = Some (TIME last) /\
          nth_error (integration_time st) idx = Some (INTERVAL last) /\
          nth_error (phase_center_id_array st) idx = Some (FIELD_ID last) /\
          nth_error (scan_number_array st) idx = Some (SCAN_NUMBER last).
Proof.
  intros tols nums spws rows Hsep count.
  pose proof (@TimeIndexFacts.time_index_fold_separated tols (map TIME rows) Hsep
                (map TIME rows) [] time_index_init) as H.
  cbv zeta in H. simpl in H.
  destruct H as (Hc & _ & Hm).
  { intros t Ht; exact Ht. }
  { intros k []. }
  { reflexivity. }
  { reflexivity. }
  { intros i j u v Hi. destruct i; discriminate. }
  { constructor. }
  fold (build_time_index tols (map TIME rows)) in Hc, Hm.
  set (index := build_time_index tols (map TIME rows)) in *.
  assert (Hcount : count = List.length (map fst (time_dict index))).
  { unfold count, Ntimes_read. fold index. rewrite Hc, length_map. reflexivity. }
  pose proof (@entries_of_columns _ _ _ _ TIME rows _ Hm) as Hentries. cbv beta in Hentries.
  assert (Hlen : List.length (row_timeidx_map index) = List.length rows).
  { apply Forall2_length in Hm. rewrite length_map in Hm. symmetry. exact Hm. }
  destruct (@main_loop_files (ant_dict nums) spws count
              (combine rows (row_timeidx_map index)) []
              {| time_array := repeat 0%Q count; integration_time := repeat 0%Q count;
                 phase_center_id_array := repeat 0%Z count;
                 scan_number_array := repeat 0%Z count |})
    as (st & Hloop & Hsize & Hinv).
  { exact (zeros_sized count). }
  { eapply Forall_impl; [| exact Hentries].
    intros [row idx] (u & Hu & _) _. cbn [snd] in *.
    rewrite Hcount. apply nth_error_Some. congruence. }
  { intros row idx []. }
  exists st. split.
  { unfold read_main_rows. fold index. change (time_count index) with count.
    rewrite Hloop. reflexivity. }
  split; [exact Hsize |].
  intros r row Hr Hant Hspw.
  destruct (@row_entry _ _ rows (row_timeidx_map index) r row Hlen Hr)
    as (idx & Hidx & Hin).
  destruct (Hinv row idx Hin) as (last & Hlast & (Hka & Hks) & F1 & F2 & F3 & F4).
  { split; [apply ant_dict_keys; exact Hant | exact Hspw]. }
  simpl in Hlast.
  rewrite Forall_forall in Hentries.
  destruct (Hentries _ Hin) as (u & Hu & Hurow).
  destruct (Hentries _ Hlast) as (u' & Hu' & Hulast).
  cbn [fst snd] in *.
  assert (u' = u) by congruence. subst u'.
  exists idx, last.
  split; [exact Hidx |].
  split; [rewrite Hcount; apply nth_error_Some; congruence |].
  split; [eapply in_combine_l; exact Hlast |].
  split; [apply ant_dict_keys; exact Hka |].
  split; [exact Hks |].
  split; [exact (Qeq_trans _ _ _ (Qeq_sym _ _ Hulast) Hurow) |].
  repeat split; assumption.
Qed.

Lemma read_main_rows_files_by_time_witness :
  (forall a b, In a (map TIME Samples.solution_rows) ->
     In b (map TIME Samples.solution_rows) ->
     Np.isclose a b (fst time_tols * 86400) (snd time_tols * 86400) = true ->
     (a == b)%Q) /\
  Ntimes_read time_tols (map TIME Samples.solution_rows) = 3%nat /\
  exists st,
    read_main_rows time_tols [0; 2]%nat Samples.two_window_slices
      Samples.solution_rows = Ok (3%nat, st) /\
    List.length (time_array st) = 3%nat.
Proof.
  assert (Hsep : forall a b, In a (map TIME Samples.solution_rows) ->
     In b (map TIME Samples.solution_rows) ->
     Np.isclose a b (fst time_tols * 86400) (snd time_tols * 86400) = true ->
     (a == b)%Q).
  { intros a b Ha Hb. simpl in Ha, Hb.
    repeat (destruct Ha as [Ha | Ha]; [subst a |]); try contradiction;
    repeat (destruct Hb as [Hb | Hb]; [subst b |]); try contradiction;
    intros Hc; first [ reflexivity | vm_compute; reflexivity
                      | vm_compute in Hc; discriminate ]. }
  split; [exact Hsep |]. split; [vm_compute; reflexivity |].
  destruct (@read_main_rows_files_by_time time_tols [0; 2]%nat
              Samples.two_window_slices Samples.solution_rows Hsep)
    as (st & Hread & (Hlen & _) & _).
  exists st. split; [exact Hread | exact Hlen].
Defined.

(** A row of a known antenna and a known spectral window whose time
    index is not below [Ntimes] makes the loop over the rows raise
    [IndexError], whatever the other rows are. *)
Theorem read_main_rows_index_error :
  forall (tols : Q * Q) (antenna_numbers : list nat)
         (spw_slice_dict : list (nat * (nat * nat))) (rows : list main_row)
         (r : nat) (row : main_row) (idx : nat),
    nth_error rows r = Some row ->
    nth_error (row_timeidx_map (build_time_index tols (map TIME rows))) r
    = Some idx ->
    (Ntimes_read tols (map TIME rows) <= idx)%nat ->
    In (ANTENNA1 row) antenna_numbers ->
    dict_get Nat.eqb spw_slice_dict (SPECTRAL_WINDOW_ID row) <> None ->
    read_main_rows tols antenna_numbers spw_slice_dict rows
    = Raise (IndexError "index is out of bounds").
Proof.
  intros tols nums spws rows r row idx Hr Hidx Hout Hant Hspw.
  unfold read_main_rows.
  set (index := build_time_index tols (map TIME rows)) in *.
  change (Ntimes_read tols (map TIME rows)) with (time_count index) in Hout.
  pose proof (@TimeIndexFacts.time_index_fold_bounds tols (map TIME rows)
                time_index_init) as Hb.
  cbv zeta in Hb. specialize (Hb (Nat.le_refl _)). destruct Hb as (Hlen & _).
  fold (build_time_index tols (map TIME rows)) in Hlen. fold index in Hlen.
  simpl in Hlen. rewrite length_map in Hlen.
  destruct (@row_entry _ _ rows (row_timeidx_map index) r row Hlen Hr)
    as (idx' & Hidx' & Hin).
  assert (idx' = idx) by congruence. subst idx'.
  rewrite (@main_loop_raises (ant_dict nums) spws (time_count index)).
  - reflexivity.
  - exact (zeros_sized (time_count index)).
  - apply Exists_exists. exists (row, idx). split; [exact Hin |].
    cbn [fst snd]. split; [| exact Hout].
    split; [apply ant_dict_keys; exact Hant | exact Hspw].
Qed.

Lemma read_main_rows_index_error_witness :
  nth_error (row_timeidx_map
               (build_time_index time_tols (map TIME Samples.close_time_rows))) 3
  = Some 2%nat /\
  Ntimes_read time_tols (map TIME Samples.close_time_rows) = 2%nat /\
  read_main_rows time_tols [0]%nat Samples.two_window_slices Samples.close_time_rows
  = Raise (IndexError "index is out of bounds").
Proof.
  split; [vm_compute; reflexivity |]. split; [vm_compute; reflexivity |].
  apply (@read_main_rows_index_error time_tols [0]%nat Samples.two_window_slices
           Samples.close_time_rows 3%nat
           {| ANTENNA1 := 0; TIME := 2000000001 # 10000000; FIELD_ID := 0;
              SCAN_NUMBER := 1; INTERVAL := 10 # 1; SPECTRAL_WINDOW_ID := 0 |}
           2%nat).
  - reflexivity.
  - vm_compute; reflexivity.
  - vm_compute. lia.
  - left; reflexivity.
  - vm_compute. discriminate.
Defined.

End MainLoopFacts.

(** ** [write_ms_cal] then [read_ms_cal]: the per-time arrays *)

Module CalRoundTripFacts.
Import MsCalRead.

Lemma dict_get_absent : forall (d : list (Q * nat)) (t : Q),
  (forall u, In u (map fst d) -> Qeq_bool u t = false) ->
  dict_get Qeq_bool d t = None.
Proof.
  induction d as [| [k v] d IH]; intros t H; simpl; [reflexivity |].
  rewrite (H k) by (left; reflexivity).
  apply IH. intros u Hu. apply H. right. exact Hu.
Qed.

Lemma dict_get_position : forall (d : list (Q * nat)) (s i : nat) (t : Q),
  map snd d = seq s (List.length d) ->
  nth_error (map fst d) i = Some t ->
  (forall j u, (j < i)%nat -> nth_error (map fst d) j = Some u ->
               Qeq_bool u t = false) ->
  dict_get Qeq_bool d t = Some (s + i)%nat.
Proof.
  induction d as [| [k v] d IH]; intros s i t Hv Hi Hbefore.
  - destruct i; discriminate.
  - simpl in Hv. injection Hv as Hv1 Hv2. destruct i as [| i]; simpl in *.
    + injection Hi as Hi. subst k. rewrite Qeq_bool_refl, Nat.add_0_r, Hv1.
      reflexivity.
    + rewrite (Hbefore 0%nat k) by (try lia; reflexivity).
      rewrite (IH (S s) i t Hv2 Hi).
      * f_equal. lia.
      * intros j u Hj Hu. apply (Hbefore (S j) u); [lia | exact Hu].
Qed.

Lemma firstn_next : forall (A : Type) (l : list A) (k : nat) (x : A),
  nth_error l k = Some x -> firstn (S k) l = (firstn k l ++ [x])%list.
Proof.
  intros A l. induction l as [| y l IH]; intros k x H.
  - destruct k; discriminate.
  - destruct k as [| k]; simpl in *.
    + injection H as H. subst y. reflexivity.
    + f_equal. apply IH. exact H.
Qed.

Lemma skipn_next : forall (A : Type) (l rest : list A) (k : nat) (x : A),
  skipn k l = x :: rest -> nth_error l k = Some x /\ skipn (S k) l = rest.
Proof.
  intros A l. induction l as [| y l IH]; intros rest k x H.
  - destruct k; discriminate.
  - destruct k as [| k]; simpl in *.
    + injection H as H1 H2. subst. split; reflexivity.
    + apply IH. exact H.
Qed.

Section Tiled.
Variable tols : Q * Q.
Variable ts : list Q.
Hypothesis Hsep :
  forall i j ti tj, nth_error ts i = Some ti -> nth_error ts j = Some tj ->
    i <> j ->
    Qeq_bool ti tj = false /\
    Np.isclose ti tj (fst tols * 86400) (snd tols * 86400) = false.

Local Abbreviation indexed st k :=
  (map fst (MsCal.time_dict st) = firstn k ts /\
   map snd (MsCal.time_dict st) = seq 0 k /\
   MsCal.time_count st = k%nat).

Lemma earlier_entry : forall (k : nat) (u : Q),
  In u (firstn k ts) -> exists j, (j < k)%nat /\ nth_error ts j = Some u.
Proof.
  intros k u H. apply In_nth_error in H. destruct H as (j & Hj).
  rewrite nth_error_firstn in Hj. exists j.
  destruct (Nat.ltb_spec j k); [split; assumption | discriminate].
Qed.

Lemma time_index_step_known :
  forall (st : MsCal.time_index_state) (k i : nat) (t : Q),
    indexed st k -> (i < k)%nat -> nth_error ts i = Some t ->
    indexed (MsCal.time_index_step tols st t) k /\
    MsCal.row_timeidx_map (MsCal.time_index_step tols st t)
    = (MsCal.row_timeidx_map st ++ [i])%list.
Proof.
  intros st k i t (Hkeys & Hvals & Hcount) Hik Hi.
  assert (Hlen : List.length (MsCal.time_dict st) = k).
  { rewrite <- (length_map snd), Hvals, length_seq. reflexivity. }
  assert (Hget : dict_get Qeq_bool (MsCal.time_dict st) t = Some i).
  { change i with (0 + i)%nat. apply dict_get_position.
    - rewrite Hlen. exact Hvals.
    - rewrite Hkeys, nth_error_firstn.
      destruct (Nat.ltb_spec i k); [exact Hi | lia].
    - intros j u Hj Hu. rewrite Hkeys, nth_error_firstn in Hu.
      destruct (Nat.ltb_spec j k); [| discriminate].
      apply (@Hsep j i u t Hu Hi). lia. }
  unfold MsCal.time_index_step. rewrite Hget. cbn.
  repeat split; assumption.
Qed.

Lemma time_index_step_fresh :
  forall (st : MsCal.time_index_state) (k : nat) (t : Q),
    indexed st k -> nth_error ts k = Some t ->
    indexed (MsCal.time_index_step tols st t) (S k) /\
    MsCal.row_timeidx_map (MsCal.time_index_step tols st t)
    = (MsCal.row_timeidx_map st ++ [k])%list.
Proof.
  intros st k t (Hkeys & Hvals & Hcount) Hk.
  assert (Hget : dict_get Qeq_bool (MsCal.time_dict st) t = None).
  { apply dict_get_absent. intros u Hu. rewrite Hkeys in Hu.
    destruct (earlier_entry k u Hu) as (j & Hj & Hju).
    apply (@Hsep j k u t Hju Hk). lia. }
  assert (Hfar : Forall (fun key => Np.isclose key t (fst tols * 86400)
                                       (snd tols * 86400) = false)
                        (map fst (MsCal.time_dict st))).
  { apply Forall_forall. intros u Hu. rewrite Hkeys in Hu.
    destruct (earlier_entry k u Hu) as (j & Hj & Hju).
    apply (@Hsep j k u t Hju Hk). lia. }
  unfold MsCal.time_index_step. rewrite Hget.
  rewrite (TimeIndexFacts.any_all_false _ Hfar).
  rewrite (TimeIndexFacts.dict_get_none_set _ _ _ Hget).
  cbn [MsCal.time_dict MsCal.row_timeidx_map MsCal.time_count].
  rewrite !map_app, Hkeys, Hvals, Hcount.
  rewrite (firstn_next ts k Hk), seq_S.
  repeat split; reflexivity.
Qed.

(** The rows of one time, [n] of them, once the time is a key. *)
Lemma time_index_block_known :
  forall (m : nat) (st : MsCal.time_index_state) (k i : nat) (t : Q),
    indexed st k -> (i < k)%nat -> nth_error ts i = Some t ->
    let st' := fold_left (MsCal.time_index_step tols) (repeat t m) st in
    indexed st' k /\
    MsCal.row_timeidx_map st' = (MsCal.row_timeidx_map st ++ repeat i m)%list.
Proof.
  induction m as [| m IH]; intros st k i t Hst Hik Hi; cbn [repeat fold_left].
  - rewrite app_nil_r. split; [exact Hst | reflexivity].
  - destruct (time_index_step_known st Hst Hik Hi) as (Hst1 & Hmap1).
    destruct (IH _ k i t Hst1 Hik Hi) as (Hst2 & Hmap2).
    split; [exact Hst2 |].
    rewrite Hmap2, Hmap1, <- app_assoc. reflexivity.
Qed.

(** The first pass over the times: every time is new once. *)
Lemma time_index_first_pass :
  forall (n : nat) (rest : list Q) (k : nat) (st : MsCal.time_index_state),
    indexed st k -> skipn k ts = rest ->
    (k + List.length rest = List.length ts)%nat ->
    let st' := fold_left (MsCal.time_index_step tols)
                         (Np.repeat_each rest (S n)) st in
    indexed st' (List.length ts) /\
    MsCal.row_timeidx_map st'
    = (MsCal.row_timeidx_map st
       ++ Np.repeat_each (seq k (List.length rest)) (S n))%list.
Proof.
  intros n rest. induction rest as [| t rest IH]; intros k st Hst Hskip Hlen.
  - cbn. rewrite app_nil_r. simpl in Hlen. rewrite Nat.add_0_r in Hlen.
    subst k. split; [exact Hst | reflexivity].
  - destruct (skipn_next ts k Hskip) as (Hk & Hskip').
    change (Np.repeat_each (t :: rest) (S n))
      with (t :: (repeat t n ++ Np.repeat_each rest (S n)))%list.
    change (Np.repeat_each (seq k (List.length (t :: rest))) (S n))
      with (k :: (repeat k n
                  ++ Np.repeat_each (seq (S k) (List.length rest)) (S n)))%list.
    cbv zeta. cbn [fold_left]. rewrite fold_left_app.
    destruct (time_index_step_fresh st Hst Hk) as (Hst1 & Hmap1).
    destruct (@time_index_block_known n _ (S k) k t Hst1 (Nat.lt_succ_diag_r k) Hk)
      as (Hst2 & Hmap2).
    simpl in Hlen.
    destruct (IH (S k) _ Hst2 Hskip') as (Hst3 & Hmap3); [lia |].
    split; [exact Hst3 |].
    rewrite Hmap3, Hmap2, Hmap1.
    rewrite <- !app_assoc. reflexivity.
Qed.

(** Later passes: every time is a key already. *)
Lemma time_index_known_rows :
  forall (col : list Q) (slots : list nat) (st : MsCal.time_index_state),
    indexed st (List.length ts) ->
    Forall2 (fun t i => nth_error ts i = Some t) col slots ->
    let st' := fold_left (MsCal.time_index_step tols) col st in
    indexed st' (List.length ts) /\
    MsCal.row_timeidx_map st' = (MsCal.row_timeidx_map st ++ slots)%list.
Proof.
  intros col slots st Hst H. revert st Hst.
  induction H as [| t i col slots Hti _ IH]; intros st Hst; cbn [fold_left].
  - rewrite app_nil_r. split; [exact Hst | reflexivity].
  - assert (Hi : (i < List.length ts)%nat) by (apply nth_error_Some; congruence).
    destruct (time_index_step_known st Hst Hi Hti) as (Hst1 & Hmap1).
    destruct (IH _ Hst1) as (Hst2 & Hmap2).
    split; [exact Hst2 |]. rewrite Hmap2, Hmap1, <- app_assoc. reflexivity.
Qed.

Lemma repeat_each_slots : forall (n : nat) (rest : list Q) (k : nat),
  skipn k ts = rest ->
  Forall2 (fun t i => nth_error ts i = Some t)
          (Np.repeat_each rest n) (Np.repeat_each (seq k (List.length rest)) n).
Proof.
  intros n rest. induction rest as [| t rest IH]; intros k Hskip.
  - constructor.
  - destruct (skipn_next ts k Hskip) as (Hk & Hskip').
    unfold Np.repeat_each. cbn [flat_map List.length seq].
    apply Forall2_app; [| apply IH; exact Hskip'].
    clear IH. induction n as [| n IHn]; simpl; constructor; assumption.
Qed.

Lemma tile_slots : forall (A B : Type) (P : A -> B -> Prop)
                          (a : list A) (b : list B) (reps : nat),
  Forall2 P a b -> Forall2 P (Np.tile a reps) (Np.tile b reps).
Proof.
  intros A B P a b reps H. induction reps as [| reps IH]; simpl;
    [constructor | apply Forall2_app; assumption].
Qed.

(** The time index of a TIME column that lists every time once for each
    padded antenna, and that whole list once for each spectral window. *)
Lemma time_index_tiled : forall (n reps : nat),
  let index := MsCal.build_time_index tols
                 (Np.tile (Np.repeat_each ts (S n)) (S reps)) in
  MsCal.time_count index = List.length ts /\
  MsCal.row_timeidx_map index
  = Np.tile (Np.repeat_each (seq 0 (List.length ts)) (S n)) (S reps).
Proof.
  intros n reps. unfold MsCal.build_time_index. cbn [Np.tile].
  rewrite fold_left_app.
  destruct (@time_index_first_pass n ts 0%nat MsCal.time_index_init)
    as (Hst1 & Hmap1); [repeat split; reflexivity | reflexivity | reflexivity |].
  destruct (@time_index_known_rows
              (Np.tile (Np.repeat_each ts (S n)) reps)
              (Np.tile (Np.repeat_each (seq 0 (List.length ts)) (S n)) reps)
              _ Hst1) as (Hst2 & Hmap2).
  { apply tile_slots. apply (repeat_each_slots (S n) 0). reflexivity. }
  cbv zeta. split; [apply Hst2 |].
  rewrite Hmap2, Hmap1. reflexivity.
Qed.

End Tiled.

Lemma tiled_entry : forall (A : Type) (x : list A) (n reps r : nat),
  (0 < n)%nat -> (r < reps * (List.length x * n))%nat ->
  nth_error (Np.tile (Np.repeat_each x n) reps) r
  = nth_error x ((r / n) mod List.length x).
Proof.
  intros A x n reps r Hn Hr.
  rewrite CalLayoutFacts.nth_error_tile
    by (rewrite MsCalFacts.repeat_each_length; exact Hr).
  rewrite MsCalFacts.repeat_each_length.
  assert (Hpos : (0 < List.length x * n)%nat) by lia.
  rewrite CalLayoutFacts.nth_error_repeat_each
    by (apply Nat.mod_upper_bound; lia).
  rewrite CalLayoutFacts.div_mod_swap by exact Hn. reflexivity.
Qed.

Lemma column_read_back : forall (A : Type) (col : list A) (d : A),
  map (fun r => nth r col d) (seq 0 (List.length col)) = col.
Proof.
  intros A col d. apply nth_error_ext. intros r.
  rewrite nth_error_map, nth_error_seq.
  destruct (Nat.ltb_spec r (List.length col)) as [Hlt | Hge]; simpl.
  - symmetry. apply nth_error_nth'. exact Hlt.
  - symmetry. apply nth_error_None. exact Hge.
Qed.

Lemma entry_row : forall (A B : Type) (rows : list A) (indices : list B)
                         (row : A) (idx : B),
  In (row, idx) (combine rows indices) ->
  exists r, nth_error rows r = Some row /\ nth_error indices r = Some idx.
Proof.
  intros A B rows. induction rows as [| x rows IH]; intros indices row idx H.
  - contradiction.
  - destruct indices as [| i indices]; [contradiction |].
    destruct H as [H | H].
    + injection H as H1 H2. subst. exists 0%nat. split; reflexivity.
    + destruct (IH indices row idx H) as (r & Hr & Hi).
      exists (S r). split; assumption.
Qed.

(** What [write_ms_cal] puts in the columns that [read_ms_cal] reads,
    when the rows added are those of the columns. *)
Lemma written_columns :
  forall (cal : MsCal.UVCal) (file_exists clobber : bool)
         (layout : MsCal.main_table_layout) (n : nat),
    MsCal.write_ms_cal cal file_exists clobber = Ok layout ->
    MsCal.Nants_casa cal = Ok n ->
    MsCal.Nfreqs cal = MsCal.Nspws cal ->
    List.length (MsCal.time_array cal) = MsCal.Ntimes cal ->
    List.length (MsCal.integration_time cal) = MsCal.Ntimes cal ->
    (forall sn, MsCal.scan_number_array cal = Some sn ->
                List.length sn = MsCal.Ntimes cal) ->
    (forall ids, MsCal.phase_center_id_array cal = Some ids ->
                 List.length ids = MsCal.Ntimes cal) ->
    let total := (MsCal.Ntimes cal * MsCal.Nspws cal * n)%nat in
    let slot r := ((r / n) mod MsCal.Ntimes cal)%nat in
    let scans := match MsCal.scan_number_array cal with
                 | Some sn => sn
                 | None => repeat 0%Z (MsCal.Ntimes cal)
                 end in
    let fields := match MsCal.phase_center_id_array cal with
                  | Some ids =>
                      map (MsCal.field_id_of (MsCal.phase_center_catalog cal)) ids
                  | None => repeat 0%Z (MsCal.Ntimes cal)
                  end in
    MsCal.rows_added layout = total /\
    MsCal.TIME layout
    = Np.tile (Np.repeat_each (map MsCal.jd_to_mjd_seconds (MsCal.time_array cal)) n)
              (MsCal.Nspws cal) /\
    (List.length (MsCal.ANTENNA1 layout) = total /\
     List.length (MsCal.TIME layout) = total /\
     List.length (MsCal.FIELD_ID layout) = total /\
     List.length (MsCal.SCAN_NUMBER layout) = total /\
     List.length (MsCal.INTERVAL layout) = total /\
     List.length (MsCal.SPECTRAL_WINDOW_ID layout) = total) /\
    forall r, (r < total)%nat ->
      nth_error (MsCal.ANTENNA1 layout) r = Some (r mod n)%nat /\
      nth_error (MsCal.SPECTRAL_WINDOW_ID layout) r
      = Some (r / (n * MsCal.Ntimes cal))%nat /\
      nth_error (MsCal.TIME layout) r
      = nth_error (map MsCal.jd_to_mjd_seconds (MsCal.time_array cal)) (slot r) /\
      nth_error (MsCal.INTERVAL layout) r
      = nth_error (MsCal.integration_time cal) (slot r) /\
      nth_error (MsCal.SCAN_NUMBER layout) r = nth_error scans (slot r) /\
      nth_error (MsCal.FIELD_ID layout) r = nth_error fields (slot r).
Proof.
  intros cal ex clobber layout n Hw Hn Hfreq Htime Hint Hscan Hfield
         total slot scans fields.
  unfold MsCal.write_ms_cal in Hw.
  destruct (ex && negb clobber); [discriminate |].
  destruct (negb (String.eqb (MsCal.cal_type cal) "gain")); [discriminate |].
  rewrite Hn in Hw. cbn [rbind] in Hw.
  destruct (MsCal.list_index _ _) as [ri |]; cbn [rbind] in Hw; [| discriminate].
  destruct (MsCal.getitem _ ri) as [refant |]; cbn [rbind] in Hw; [| discriminate].
  injection Hw as Hw. subst layout. cbn.
  assert (Hnpos : (0 < n)%nat).
  { unfold MsCal.Nants_casa in Hn. destruct (Np.max _); cbn in Hn; [| discriminate].
    injection Hn as Hn. lia. }
  assert (Hmjd : List.length (map MsCal.jd_to_mjd_seconds (MsCal.time_array cal))
                 = MsCal.Ntimes cal) by (rewrite length_map; exact Htime).
  assert (Hscans : List.length scans = MsCal.Ntimes cal).
  { unfold scans. destruct (MsCal.scan_number_array cal) as [sn |];
      [apply Hscan; reflexivity | apply repeat_length]. }
  assert (Hfields : List.length fields = MsCal.Ntimes cal).
  { unfold fields. destruct (MsCal.phase_center_id_array cal) as [ids |];
      [rewrite length_map; apply Hfield; reflexivity | apply repeat_length]. }
  assert (Htimes_col :
            List.length (Np.tile (Np.repeat_each
                                    (map MsCal.jd_to_mjd_seconds (MsCal.time_array cal)) n)
                                 (MsCal.Nspws cal)) = total).
  { rewrite MsCalFacts.tile_length, MsCalFacts.repeat_each_length, Hmjd.
    unfold total. lia. }
  assert (Hscan_col :
            forall r, (r < total)%nat ->
              nth_error
                match MsCal.scan_number_array cal with
                | Some sn => Np.tile (Np.repeat_each sn n) (MsCal.Nspws cal)
                | None => map (fun _ : Q => 0%Z)
                              (Np.tile (Np.repeat_each
                                          (map MsCal.jd_to_mjd_seconds
                                               (MsCal.time_array cal)) n)
                                       (MsCal.Nspws cal))
                end r = nth_error scans (slot r)).
  { intros r Hr. unfold scans, slot.
    assert (Hslot : ((r / n) mod MsCal.Ntimes cal < MsCal.Ntimes cal)%nat)
      by (apply Nat.mod_upper_bound; unfold total in Hr; nia).
    destruct (MsCal.scan_number_array cal) as [sn |].
    - rewrite tiled_entry; rewrite ?(Hscan sn eq_refl); try exact Hnpos;
        [reflexivity | unfold total in Hr; lia].
    - rewrite nth_error_map.
      destruct (nth_error _ r) eqn:E;
        [| apply nth_error_None in E; rewrite Htimes_col in E; lia].
      cbn. symmetry. apply nth_error_repeat. exact Hslot. }
  assert (Hfield_col :
            forall r, (r < total)%nat ->
              nth_error
                match MsCal.phase_center_id_array cal with
                | Some ids =>
                    Np.tile (Np.repeat_each
                               (map (MsCal.field_id_of (MsCal.phase_center_catalog cal))
                                    ids) n) (MsCal.Nspws cal)
                | None => map (fun _ : Q => 0%Z)
                              (Np.tile (Np.repeat_each
                                          (map MsCal.jd_to_mjd_seconds
                                               (MsCal.time_array cal)) n)
                                       (MsCal.Nspws cal))
                end r = nth_error fields (slot r)).
  { intros r Hr. unfold fields, slot.
    assert (Hslot : ((r / n) mod MsCal.Ntimes cal < MsCal.Ntimes cal)%nat)
      by (apply Nat.mod_upper_bound; unfold total in Hr; nia).
    destruct (MsCal.phase_center_id_array cal) as [ids |].
    - rewrite tiled_entry; rewrite ?length_map, ?(Hfield ids eq_refl);
        try exact Hnpos; [reflexivity | unfold total in Hr; lia].
    - rewrite nth_error_map.
      destruct (nth_error _ r) eqn:E;
        [| apply nth_error_None in E; rewrite Htimes_col in E; lia].
      cbn. symmetry. apply nth_error_repeat. exact Hslot. }
  split; [unfold total; rewrite Hfreq; reflexivity |].
  split; [reflexivity |].
  split.
  { split; [rewrite MsCalFacts.tile_length; unfold Np.arange;
            rewrite length_seq; unfold total; lia |].
    split; [exact Htimes_col |].
    split.
    { destruct (MsCal.phase_center_id_array cal) as [ids |].
      - rewrite MsCalFacts.tile_length, MsCalFacts.repeat_each_length, length_map,
          (Hfield ids eq_refl). unfold total. lia.
      - rewrite length_map. exact Htimes_col. }
    split.
    { destruct (MsCal.scan_number_array cal) as [sn |].
      - rewrite MsCalFacts.tile_length, MsCalFacts.repeat_each_length,
          (Hscan sn eq_refl). unfold total. lia.
      - rewrite length_map. exact Htimes_col. }
    split.
    { rewrite MsCalFacts.tile_length, MsCalFacts.repeat_each_length, Hint.
      unfold total. lia. }
    rewrite MsCalFacts.repeat_each_length. unfold Np.arange.
    rewrite length_seq. unfold total. lia. }
  intros r Hr.
  assert (Hr' : (r < MsCal.Ntimes cal * MsCal.Nspws cal * n)%nat) by exact Hr.
  split.
  { rewrite CalLayoutFacts.nth_error_tile
      by (unfold Np.arange; rewrite length_seq; nia).
    unfold Np.arange. rewrite length_seq, nth_error_seq.
    destruct (Nat.ltb_spec (r mod n) n) as [_ | Hbad]; [reflexivity |].
    pose proof (Nat.mod_upper_bound r n). lia. }
  split.
  { rewrite CalLayoutFacts.nth_error_repeat_each
      by (unfold Np.arange; rewrite length_seq; nia).
    unfold Np.arange. rewrite nth_error_seq.
    destruct (Nat.ltb_spec (r / (n * MsCal.Ntimes cal)) (MsCal.Nspws cal))
      as [_ | Hbad]; [reflexivity |].
    assert (Hspw : (r / (n * MsCal.Ntimes cal) < MsCal.Nspws cal)%nat)
      by (apply Nat.Div0.div_lt_upper_bound; nia).
    lia. }
  split.
  { rewrite tiled_entry; rewrite ?Hmjd; try exact Hnpos; [reflexivity | lia]. }
  split.
  { rewrite tiled_entry; rewrite ?Hint; try exact Hnpos; [reflexivity | lia]. }
  split; [apply Hscan_col; exact Hr | apply Hfield_col; exact Hr].
Qed.

Lemma same_entries : forall (A : Type) (l l' : list A) (n : nat),
  List.length l = n -> List.length l' = n ->
  (forall t, (t < n)%nat -> nth_error l t = nth_error l' t) -> l = l'.
Proof.
  intros A l l' n Hl Hl' H. apply nth_error_ext. intros t.
  destruct (Nat.lt_ge_cases t n) as [Hlt | Hge]; [apply H; exact Hlt |].
  rewrite (proj2 (nth_error_None l t)) by lia.
  rewrite (proj2 (nth_error_None l' t)) by lia. reflexivity.
Qed.

Lemma cell_read_back : forall (A : Type) (col x : list A) (r t : nat) (d : A),
  nth_error col r = nth_error x t -> (t < List.length x)%nat ->
  Some (nth r col d) = nth_error x t.
Proof.
  intros A col x r t d H Ht.
  destruct (nth_error x t) as [v |] eqn:E;
    [| apply nth_error_None in E; lia].
  rewrite (nth_error_nth col r d H). reflexivity.
Qed.

(** [write_ms_cal] followed by the loop of [read_ms_cal] over the rows of
    the main table, for an object whose [Nfreqs] equals its [Nspws] (so
    that the rows added are the rows written) and whose times are
    neither equal nor within the tolerance of each other: the table has
    rows, the loop raises nothing, [Ntimes] is the object's, and the
    arrays read are the times in MJD seconds, the integration times, the
    scan numbers and the FIELD rows that were written, in the object's
    order. *)
Theorem cal_time_arrays_round_trip :
  forall (tols : Q * Q) (cal : MsCal.UVCal) (file_exists clobber : bool)
         (layout : MsCal.main_table_layout) (antenna_numbers : list nat)
         (spw_slice_dict : list (nat * (nat * nat))),
    MsCal.write_ms_cal cal file_exists clobber = Ok layout ->
    MsCal.Nfreqs cal = MsCal.Nspws cal ->
    (0 < MsCal.Nspws cal)%nat ->
    List.length (MsCal.time_array cal) = MsCal.Ntimes cal ->
    List.length (MsCal.integration_time cal) = MsCal.Ntimes cal ->
    (forall sn, MsCal.scan_number_array cal = Some sn ->
                List.length sn = MsCal.Ntimes cal) ->
    (forall ids, MsCal.phase_center_id_array cal = Some ids ->
                 List.length ids = MsCal.Ntimes cal) ->
    (forall i j ti tj,
       nth_error (map MsCal.jd_to_mjd_seconds (MsCal.time_array cal)) i = Some ti ->
       nth_error (map MsCal.jd_to_mjd_seconds (MsCal.time_array cal)) j = Some tj ->
       i <> j ->
       Qeq_bool ti tj = false /\
       Np.isclose ti tj (fst tols * 86400) (snd tols * 86400) = false) ->
    (forall a, In a antenna_numbers <-> In a (MsCal.antenna_numbers cal)) ->
    (forall k, (k < MsCal.Nspws cal)%nat ->
               dict_get Nat.eqb spw_slice_dict k <> None) ->
    exists rows st,
      table_rows layout = Some rows /\
      read_main_rows tols antenna_numbers spw_slice_dict rows
      = Ok (MsCal.Ntimes cal, st) /\
      time_array st = map MsCal.jd_to_mjd_seconds (MsCal.time_array cal) /\
      integration_time st = MsCal.integration_time cal /\
      scan_number_array st
      = match MsCal.scan_number_array cal with
        | Some sn => sn
        | None => repeat 0%Z (MsCal.Ntimes cal)
        end /\
      phase_center_id_array st
      = match MsCal.phase_center_id_array cal with
        | Some ids => map (MsCal.field_id_of (MsCal.phase_center_catalog cal)) ids
        | None => repeat 0%Z (MsCal.Ntimes cal)
        end.
Proof.
  intros tols cal ex clobber layout nums spws Hw Hfreq Hspws Htime Hint Hscan
         Hfield Hsep Hnums Hslices.
  destruct (MsCal.Nants_casa cal) as [n | e] eqn:Hn.
  2:{ unfold MsCal.write_ms_cal in Hw.
      destruct (ex && negb clobber); [discriminate |].
      destruct (negb (String.eqb (MsCal.cal_type cal) "gain")); [discriminate |].
      rewrite Hn in Hw. discriminate. }
  destruct (@written_columns cal ex clobber layout n Hw Hn Hfreq Htime Hint
              Hscan Hfield)
    as (Hrows & Htimecol & (La & Lt & Lf & Ls & Li & Lw) & Hentry).
  set (total := (MsCal.Ntimes cal * MsCal.Nspws cal * n)%nat) in *.
  set (slot := fun r => ((r / n) mod MsCal.Ntimes cal)%nat) in *.
  set (mjd := map MsCal.jd_to_mjd_seconds (MsCal.time_array cal)) in *.
  assert (Hmjd : List.length mjd = MsCal.Ntimes cal)
    by (unfold mjd; rewrite length_map; exact Htime).
  (* an antenna of the object, below the padded count *)
  assert (Hant : exists a0 n', In a0 (MsCal.antenna_numbers cal) /\
                               n = S n' /\ (a0 < n)%nat).
  { unfold MsCal.Nants_casa in Hn.
    destruct (Np.max (MsCal.antenna_numbers cal)) as [m |] eqn:Hmax;
      cbn [rbind] in Hn; [| discriminate].
    injection Hn as Hn.
    pose proof (AntennaMoreFacts.max_bounds _ Hmax) as Hb.
    destruct (MsCal.antenna_numbers cal) as [| a0 rest]; [discriminate |].
    exists a0, m. split; [left; reflexivity |]. split; [lia |].
    inversion Hb; subst. lia. }
  destruct Hant as (a0 & n' & Ha0 & Hn' & Ha0n).
  destruct (MsCal.Nspws cal) as [| reps] eqn:Hreps; [lia |].
  (* the rows of the table *)
  set (rows := map (row_of_layout layout) (seq 0 total)).
  assert (Htable : table_rows layout = Some rows).
  { unfold table_rows. rewrite Hrows, La, Lt, Lf, Ls, Li, Lw.
    cbn [forallb]. rewrite Nat.eqb_refl. reflexivity. }
  assert (Hrowlen : List.length rows = total)
    by (unfold rows; rewrite length_map, length_seq; reflexivity).
  assert (Hrow : forall r, (r < total)%nat ->
                           nth_error rows r = Some (row_of_layout layout r)).
  { intros r Hr. unfold rows. rewrite nth_error_map, nth_error_seq.
    destruct (Nat.ltb_spec r total); [reflexivity | lia]. }
  assert (Hcol : map TIME rows = Np.tile (Np.repeat_each mjd (S n')) (S reps)).
  { unfold rows. rewrite map_map. cbn [row_of_layout TIME].
    rewrite <- Lt at 1. rewrite column_read_back. rewrite Htimecol, Hn'.
    reflexivity. }
  (* the time index *)
  destruct (@time_index_tiled tols mjd Hsep n' reps) as (Hcount & Hmap).
  rewrite <- Hcol in Hcount, Hmap. rewrite Hmjd in Hcount, Hmap.
  set (index := MsCal.build_time_index tols (map TIME rows)) in *.
  assert (Hslot : forall r, (r < total)%nat ->
                    nth_error (MsCal.row_timeidx_map index) r = Some (slot r) /\
                    (slot r < MsCal.Ntimes cal)%nat).
  { intros r Hr.
    assert (Hlt : (slot r < MsCal.Ntimes cal)%nat)
      by (unfold slot; apply Nat.mod_upper_bound; unfold total in Hr; nia).
    split; [| exact Hlt].
    rewrite Hmap.
    rewrite tiled_entry;
      [| lia | rewrite length_seq; unfold total in Hr; rewrite Hn' in Hr; lia].
    rewrite length_seq, nth_error_seq, <- Hn'. fold (slot r).
    destruct (Nat.ltb_spec (slot r) (MsCal.Ntimes cal)); [reflexivity | lia]. }
  assert (Hmaplen : List.length (MsCal.row_timeidx_map index) = List.length rows).
  { rewrite Hmap, MsCalFacts.tile_length, MsCalFacts.repeat_each_length, length_seq.
    rewrite Hrowlen. unfold total. rewrite Hn'. lia. }
  (* the loop *)
  destruct (@MainLoopFacts.main_loop_files (MsCalRead.ant_dict nums) spws
              (MsCal.Ntimes cal) (combine rows (MsCal.row_timeidx_map index)) []
              {| time_array := repeat 0%Q (MsCal.Ntimes cal);
                 integration_time := repeat 0%Q (MsCal.Ntimes cal);
                 phase_center_id_array := repeat 0%Z (MsCal.Ntimes cal);
                 scan_number_array := repeat 0%Z (MsCal.Ntimes cal) |})
    as (st & Hloop & (S1 & S2 & S3 & S4) & Hinv).
  { exact (MainLoopFacts.zeros_sized (MsCal.Ntimes cal)). }
  { apply Forall_forall. intros [row idx] Hin _. cbn [snd].
    destruct (entry_row _ _ _ _ Hin) as (r & Hr & Hidx).
    assert (Hrt : (r < total)%nat)
      by (rewrite <- Hrowlen; apply nth_error_Some; congruence).
    destruct (Hslot r Hrt) as (Hs & Hlt). congruence. }
  { intros row idx []. }
  cbn [app] in Hinv.
  exists rows, st. split; [exact Htable |].
  split.
  { unfold read_main_rows. fold index. rewrite Hcount, Hloop. reflexivity. }
  (* every slot holds the cells of a row of its own time *)
  assert (Hfiled : forall t, (t < MsCal.Ntimes cal)%nat ->
            exists r, (r < total)%nat /\ slot r = t /\
              nth_error (time_array st) t = Some (TIME (row_of_layout layout r)) /\
              nth_error (integration_time st) t
              = Some (INTERVAL (row_of_layout layout r)) /\
              nth_error (phase_center_id_array st) t
              = Some (FIELD_ID (row_of_layout layout r)) /\
              nth_error (scan_number_array st) t
              = Some (SCAN_NUMBER (row_of_layout layout r))).
  { intros t Ht.
    set (r0 := (a0 + t * n)%nat).
    assert (Hr0 : (r0 < total)%nat) by (unfold r0, total; nia).
    assert (Hr0n : (r0 < n * MsCal.Ntimes cal)%nat) by (unfold r0; nia).
    destruct (Hentry r0 Hr0) as (Ea & Ew & _).
    destruct (Hslot r0 Hr0) as (Hs0 & _).
    assert (Hslot0 : slot r0 = t).
    { unfold slot, r0. rewrite Nat.div_add by lia.
      rewrite (Nat.div_small a0 n) by exact Ha0n.
      apply Nat.mod_small. exact Ht. }
    rewrite Hslot0 in Hs0.
    destruct (@MainLoopFacts.row_entry _ _ rows (MsCal.row_timeidx_map index)
                r0 _ Hmaplen (Hrow r0 Hr0)) as (idx & Hidx & Hin).
    assert (idx = t) by congruence. subst idx.
    destruct (Hinv _ _ Hin) as (last & Hlast & _ & F1 & F2 & F3 & F4).
    { cbn [row_of_layout ANTENNA1 SPECTRAL_WINDOW_ID].
      rewrite (nth_error_nth _ _ 0%nat Ea), (nth_error_nth _ _ 0%nat Ew).
      split.
      - apply MainLoopFacts.ant_dict_keys. apply Hnums.
        unfold r0. rewrite Nat.Div0.mod_add, Nat.mod_small by exact Ha0n.
        exact Ha0.
      - rewrite Nat.div_small by exact Hr0n. apply Hslices. lia. }
    destruct (entry_row _ _ _ _ Hlast) as (r & Hr & Hridx).
    assert (Hrt : (r < total)%nat)
      by (rewrite <- Hrowlen; apply nth_error_Some; congruence).
    rewrite (Hrow r Hrt) in Hr. injection Hr as Hr. subst last.
    destruct (Hslot r Hrt) as (Hs & _).
    exists r. split; [exact Hrt |]. split; [congruence |].
    repeat split; assumption. }
  split.
  { apply (@same_entries _ _ _ (MsCal.Ntimes cal) S1 Hmjd).
    intros t Ht. destruct (Hfiled t Ht) as (r & Hr & Hrs & F1 & _).
    destruct (Hentry r Hr) as (_ & _ & Et & _).
    unfold slot in Hrs, Et. rewrite Hrs in Et.
    rewrite F1. cbn [row_of_layout TIME].
    apply cell_read_back; [exact Et | rewrite Hmjd; exact Ht]. }
  split.
  { apply (@same_entries _ _ _ (MsCal.Ntimes cal) S2 Hint).
    intros t Ht. destruct (Hfiled t Ht) as (r & Hr & Hrs & _ & F2 & _).
    destruct (Hentry r Hr) as (_ & _ & _ & Ei & _). unfold slot in Hrs, Ei. rewrite Hrs in Ei.
    rewrite F2. cbn [row_of_layout INTERVAL].
    apply cell_read_back; [exact Ei | rewrite Hint; exact Ht]. }
  split.
  { assert (Hlen : List.length
                     match MsCal.scan_number_array cal with
                     | Some sn => sn
                     | None => repeat 0%Z (MsCal.Ntimes cal)
                     end = MsCal.Ntimes cal).
    { destruct (MsCal.scan_number_array cal) as [sn |];
        [apply Hscan; reflexivity | apply repeat_length]. }
    apply (@same_entries _ _ _ (MsCal.Ntimes cal) S4 Hlen).
    intros t Ht. destruct (Hfiled t Ht) as (r & Hr & Hrs & _ & _ & _ & F4).
    destruct (Hentry r Hr) as (_ & _ & _ & _ & Es & _). unfold slot in Hrs, Es. rewrite Hrs in Es.
    rewrite F4. cbn [row_of_layout SCAN_NUMBER].
    apply cell_read_back; [exact Es | rewrite Hlen; exact Ht]. }
  assert (Hlen : List.length
                   match MsCal.phase_center_id_array cal with
                   | Some ids =>
                       map (MsCal.field_id_of (MsCal.phase_center_catalog cal)) ids
                   | None => repeat 0%Z (MsCal.Ntimes cal)
                   end = MsCal.Ntimes cal).
  { destruct (MsCal.phase_center_id_array cal) as [ids |];
      [rewrite length_map; apply Hfield; reflexivity | apply repeat_length]. }
  apply (@same_entries _ _ _ (MsCal.Ntimes cal) S3 Hlen).
  intros t Ht. destruct (Hfiled t Ht) as (r & Hr & Hrs & _ & _ & F3 & _).
  destruct (Hentry r Hr) as (_ & _ & _ & _ & _ & Ef). unfold slot in Hrs, Ef. rewrite Hrs in Ef.
  rewrite F3. cbn [row_of_layout FIELD_ID].
  apply cell_read_back; [exact Ef | rewrite Hlen; exact Ht].
Qed.

Lemma cal_time_arrays_round_trip_witness :
  exists layout rows st,
    MsCal.write_ms_cal Samples.three_time_cal false false = Ok layout /\
    table_rows layout = Some rows /\
    read_main_rows MsCal.time_tols [2; 0]%nat Samples.two_window_slices rows
    = Ok (3%nat, st) /\
    time_array st
    = map MsCal.jd_to_mjd_seconds (MsCal.time_array Samples.three_time_cal) /\
    integration_time st = [10 # 1; 12 # 1; 8 # 1]%Q /\
    scan_number_array st = [1; 2; 2]%Z /\
    phase_center_id_array st = [0; 0; 0]%Z.
Proof.
  destruct (MsCal.write_ms_cal Samples.three_time_cal false false)
    as [layout | e] eqn:Hw; [| vm_compute in Hw; discriminate].
  destruct (@cal_time_arrays_round_trip MsCal.time_tols Samples.three_time_cal
              false false layout [2; 0]%nat Samples.two_window_slices Hw)
    as (rows & st & Htable & Hread & Ht & Hi & Hs & Hf).
  - reflexivity.
  - cbn. lia.
  - reflexivity.
  - reflexivity.
  - intros sn H. injection H as H. subst sn. reflexivity.
  - intros ids H. discriminate.
  - intros i j ti tj Hi Hj Hne.
    destruct i as [| [| [| i]]]; destruct j as [| [| [| j]]];
      cbn [nth_error map MsCal.time_array Samples.three_time_cal] in Hi, Hj;
      try (destruct i; discriminate); try (destruct j; discriminate);
      try congruence;
      injection Hi as Hi; injection Hj as Hj; subst ti tj;
      split; vm_compute; reflexivity.
  - intros a. simpl. tauto.
  - intros k Hk. destruct k as [| [| k]]; [discriminate | discriminate |].
    cbn in Hk. lia.
  - exists layout, rows, st. repeat split; assumption.
Defined.

End CalRoundTripFacts.

(** ** [write_ms_cal] then [read_ms_cal]: info, keywords, reference antenna,
       phase center ids *)

Module CalHeaderFacts.
Import CalHeader.
Open Scope string_scope.

Lemma dict_get_filter_other :
  forall (V : Type) (d : list (string * V)) (key other : string),
    key <> other ->
    dict_get String.eqb (filter (fun kv => negb (String.eqb (fst kv) other)) d) key
    = dict_get String.eqb d key.
Proof.
  intros V d key other Hne. induction d as [| [k v] d IH]; simpl; [reflexivity |].
  destruct (String.eqb k other) eqn:Eo; simpl.
  - apply String.eqb_eq in Eo. subst k.
    destruct (String.eqb other key) eqn:Ek; [| exact IH].
    apply String.eqb_eq in Ek. congruence.
  - rewrite IH. reflexivity.
Qed.

Ltac finish_keywords :=
  match goal with
  | |- context [negb (List.length ?l =? 0)%nat] =>
      destruct (negb (List.length l =? 0)%nat)
  end;
  match goal with
  | x_or : option string |- _ => destruct x_or
  end;
  eexists; unfold putkeyword; cbn; reflexivity.

(** The keywords of a table written by [write_ms_cal]: the five of
    [init_ms_cal_file] in their order, with the solution type and the
    object's CASA_Version and MSName put in, followed by at most
    pyuvdata_extra and pyuvdata_xorient. *)
Lemma written_keywords :
  forall (version : string) (wide : bool)
         (extra : list (string * keyword_value)) (x_or : option string),
    let kept key := match dict_get String.eqb extra key with
                    | Some value => value
                    | None => KwStr "unknown"
                    end in
    let casa_subtype := if wide then "G Jones" else "B Jones" in
    exists tail,
      write_cal_header "gain" wide extra x_or (init_ms_cal_file version)
      = Ok {| info := {| type := "Calibration";
                         subType := casa_subtype;
                         readme := "Written with pyuvdata version: " ++ version ++ "." |};
              keywords := [("ParType", KwStr "Complex"); ("MSName", kept "MSName");
                           ("VisCal", KwStr casa_subtype);
                           ("PolBasis", KwStr "unknown");
                           ("CASA_Version", kept "CASA_Version")] ++ tail |}.
Proof.
  intros version wide extra x_or kept casa_subtype.
  unfold write_cal_header. cbn [String.eqb Ascii.eqb Bool.eqb andb].
  change (init_ms_cal_file version)
    with {| info := {| type := "Calibration"; subType := "G Jones";
                       readme := "Written with pyuvdata version: " ++ version ++ "." |};
            keywords := [("ParType", KwStr "Complex"); ("MSName", KwStr "unknown");
                         ("VisCal", KwStr "unknown"); ("PolBasis", KwStr "unknown");
                         ("CASA_Version", KwStr "unknown")] |}.
  cbv zeta. fold casa_subtype.
  destruct (negb (List.length extra =? 0)%nat) eqn:Hlen.
  2:{ destruct extra as [| kv rest]; [| discriminate].
      subst kept. cbn [dict_get].
      destruct x_or as [x |]; eexists; unfold putkeyword; cbn; reflexivity. }
  - clear Hlen. cbn [fold_left]. unfold dict_pop.
    subst kept. cbv beta.
    destruct (dict_get String.eqb extra "CASA_Version") as [v1 |] eqn:E1.
    + rewrite (@dict_get_filter_other _ extra "MSName" "CASA_Version")
        by discriminate.
      destruct (dict_get String.eqb extra "MSName") as [v2 |] eqn:E2.
      * finish_keywords.
      * finish_keywords.
    + destruct (dict_get String.eqb extra "MSName") as [v2 |] eqn:E2.
      * finish_keywords.
      * finish_keywords.
Qed.

(** [init_ms_cal_file] and [write_ms_cal] followed by [read_ms_cal], on
    the info and the keywords of the main table: the solution type and
    [wide_band] come back; the only warning is the one about the
    polarization basis, and [jones_array] is all zero; [extra_keywords]
    read has exactly CASA_Version and MSName, with the object's values
    or "unknown", and no other keyword of the object; [x_orientation] is
    "east" whatever it was. *)
Theorem cal_header_round_trip :
  forall (version cal_kind : string) (wide : bool)
         (extra : list (string * keyword_value)) (x_or : option string)
         (ms : cal_table) (Njones : nat),
    write_cal_header cal_kind wide extra x_or (init_ms_cal_file version) = Ok ms ->
    let kept key := match dict_get String.eqb extra key with
                    | Some value => value
                    | None => KwStr "unknown"
                    end in
    read_cal_header ms [] Njones
    = (["Unknown polarization basis for solutions, jones_array values "
        ++ "may be spurious."],
       FieldObs.TOk {| wide_band := wide;
                       cal_type := cal_kind;
                       extra_keywords := [("CASA_Version", kept "CASA_Version");
                                          ("MSName", kept "MSName")];
                       jones_array := repeat 0%Z Njones;
                       x_orientation := "east" |}).
Proof.
  intros version cal_kind wide extra x_or ms Njones Hw kept.
  assert (Hkind : cal_kind = "gain").
  { unfold write_cal_header in Hw.
    destruct (String.eqb cal_kind "gain") eqn:E; [| discriminate].
    apply String.eqb_eq. exact E. }
  subst cal_kind.
  destruct (written_keywords version wide extra x_or) as (tail & Hwritten).
  cbv zeta in Hwritten. rewrite Hwritten in Hw. injection Hw as Hw. subst ms.
  fold kept.
  unfold read_cal_header. cbn [info type subType keywords].
  destruct wide; reflexivity.
Qed.

Lemma cal_header_round_trip_witness :
  exists ms,
    write_cal_header "gain" false
      [("MSName", KwStr "sim.ms"); ("origin", KwStr "simulated")] (Some "north")
      (init_ms_cal_file "3.0") = Ok ms /\
    read_cal_header ms [] 2
    = (["Unknown polarization basis for solutions, jones_array values "
        ++ "may be spurious."],
       FieldObs.TOk {| wide_band := false;
                       cal_type := "gain";
                       extra_keywords := [("CASA_Version", KwStr "unknown");
                                          ("MSName", KwStr "sim.ms")];
                       jones_array := [0; 0]%Z;
                       x_orientation := "east" |}).
Proof.
  eexists. split; [reflexivity |].
  exact (@cal_header_round_trip "3.0" "gain" false
           [("MSName", KwStr "sim.ms"); ("origin", KwStr "simulated")]
           (Some "north") _ 2 eq_refl).
Defined.

(** *** Phase center ids *)

Lemma field_id_fold :
  forall (catalog : list Z) (cat_id : Z) (s : nat) (acc : Z),
    NoDup catalog ->
    fold_left (fun acc ik => if Z.eqb cat_id (snd ik) then Z.of_nat (fst ik) else acc)
              (combine (seq s (List.length catalog)) catalog) acc
    = match Np.where_from s (map (Z.eqb cat_id) catalog) with
      | [] => acc
      | position :: _ => Z.of_nat position
      end.
Proof.
  induction catalog as [| key catalog IH]; intros cat_id s acc Hnd; [reflexivity |].
  inversion Hnd as [| k l Hnotin Hnd']; subst.
  cbn [List.length seq combine fold_left map Np.where_from fst snd].
  rewrite (IH cat_id (S s) _ Hnd').
  destruct (Z.eqb cat_id key) eqn:E; [| reflexivity].
  apply Z.eqb_eq in E. subst key.
  assert (Hnone : forall s', Np.where_from s' (map (Z.eqb cat_id) catalog) = []).
  { clear IH Hnd Hnd'. induction catalog as [| k l IHl]; intros s'; [reflexivity |].
    simpl. destruct (Z.eqb cat_id k) eqn:E.
    - apply Z.eqb_eq in E. subst k. exfalso. apply Hnotin. left. reflexivity.
    - apply IHl. intros Hin. apply Hnotin. right. exact Hin. }
  rewrite Hnone. reflexivity.
Qed.

Lemma where_from_first :
  forall (catalog : list Z) (cat_id : Z) (s : nat),
    In cat_id catalog ->
    exists position rest,
      Np.where_from s (map (Z.eqb cat_id) catalog) = position :: rest /\
      (s <= position)%nat /\ nth_error catalog (position - s) = Some cat_id.
Proof.
  induction catalog as [| key catalog IH]; intros cat_id s Hin; [contradiction |].
  simpl. destruct (Z.eqb cat_id key) eqn:E.
  - apply Z.eqb_eq in E. subst key. eexists. eexists.
    split; [reflexivity |]. split; [lia |]. rewrite Nat.sub_diag. reflexivity.
  - destruct Hin as [Hin | Hin];
      [subst key; rewrite Z.eqb_refl in E; discriminate |].
    destruct (IH cat_id (S s) Hin) as (position & rest & Hw & Hle & Hnth).
    exists position, rest. split; [exact Hw |]. split; [lia |].
    replace (position - s)%nat with (S (position - S s)) by lia. exact Hnth.
Qed.

Lemma where_from_absent :
  forall (catalog : list Z) (cat_id : Z) (s : nat),
    ~ In cat_id catalog -> Np.where_from s (map (Z.eqb cat_id) catalog) = [].
Proof.
  induction catalog as [| key catalog IH]; intros cat_id s Hn; [reflexivity |].
  simpl. destruct (Z.eqb cat_id key) eqn:E.
  - apply Z.eqb_eq in E. subst key. exfalso. apply Hn. left. reflexivity.
  - apply IH. intros Hin. apply Hn. right. exact Hin.
Qed.

(** The FIELD rows that [write_ms_cal] stores for the phase center ids
    of an object, read back through the catalog (keys without
    repetition): an id of the catalog comes back as itself, and an id
    that is not a key of the catalog comes back as the first key. *)
Theorem phase_center_ids_round_trip :
  forall (catalog : list Z),
    NoDup catalog ->
    (forall ids, (forall id, In id ids -> In id catalog) ->
       read_phase_center_ids catalog (map (MsCal.field_id_of catalog) ids)
       = FieldObs.TOk ids) /\
    (forall id first rest, catalog = first :: rest -> ~ In id catalog ->
       read_phase_center_ids catalog [MsCal.field_id_of catalog id]
       = FieldObs.TOk [first]).
Proof.
  intros catalog Hnd. split.
  - intros ids. induction ids as [| id ids IH]; intros Hin; [reflexivity |].
    cbn [map read_phase_center_ids].
    rewrite IH by (intros x Hx; apply Hin; right; exact Hx).
    unfold MsCal.field_id_of. rewrite field_id_fold by exact Hnd.
    destruct (@where_from_first catalog id 0%nat (Hin id (or_introl eq_refl)))
      as (position & rest & Hw & _ & Hnth).
    rewrite Hw. rewrite Nat.sub_0_r in Hnth.
    destruct (0 <=? Z.of_nat position)%Z eqn:E; [| apply Z.leb_gt in E; lia].
    rewrite Nat2Z.id, Hnth. reflexivity.
  - intros id first rest Hcat Hn.
    unfold MsCal.field_id_of. rewrite field_id_fold by exact Hnd.
    rewrite where_from_absent by exact Hn. subst catalog. reflexivity.
Qed.

Lemma phase_center_ids_round_trip_witness :
  NoDup [3; 7]%Z /\
  read_phase_center_ids [3; 7]%Z (map (MsCal.field_id_of [3; 7]%Z) [7; 3; 7]%Z)
  = FieldObs.TOk [7; 3; 7]%Z /\
  read_phase_center_ids [3; 7]%Z [MsCal.field_id_of [3; 7]%Z 5%Z]
  = FieldObs.TOk [3]%Z.
Proof.
  assert (Hnd : NoDup [3; 7]%Z).
  { constructor; [intros [H | []]; discriminate |].
    constructor; [intros [] | constructor]. }
  split; [exact Hnd |].
  destruct (@phase_center_ids_round_trip [3; 7]%Z Hnd) as (Hin & Hout).
  split.
  - apply Hin. intros id H. simpl in H. simpl.
    destruct H as [H | [H | [H | []]]]; subst id; tauto.
  - apply (Hout 5%Z 3%Z [7]%Z eq_refl).
    intros [H | [H | []]]; discriminate.
Defined.

(** *** The reference antenna *)

Section Distinct.
Variable A : Type.
Variable eqb ltb : A -> A -> bool.
Hypothesis eqb_eq : forall x y, eqb x y = true <-> x = y.

Lemma insert_uniq_member : forall (x y : A) (l : list A),
  In y (Np.insert_uniq eqb ltb x l) <-> y = x \/ In y l.
Proof.
  intros x y l. induction l as [| z l IH]; simpl; [intuition congruence |].
  destruct (eqb x z) eqn:E.
  - apply eqb_eq in E. subst z. simpl. intuition congruence.
  - destruct (ltb x z); simpl; [intuition congruence |].
    rewrite IH. intuition congruence.
Qed.

Lemma insert_uniq_longer : forall (x : A) (l : list A),
  ~ In x l -> List.length (Np.insert_uniq eqb ltb x l) = S (List.length l).
Proof.
  intros x l. induction l as [| z l IH]; intros Hn; simpl; [reflexivity |].
  destruct (eqb x z) eqn:E.
  - apply eqb_eq in E. exfalso. apply Hn. left. symmetry. exact E.
  - destruct (ltb x z); simpl; [reflexivity |].
    rewrite IH; [reflexivity |]. intros Hin. apply Hn. right. exact Hin.
Qed.

Lemma unique_by_member : forall (y : A) (l : list A),
  In y (Np.unique_by eqb ltb l) <-> In y l.
Proof.
  intros y l. induction l as [| x l IH]; simpl; [reflexivity |].
  rewrite insert_uniq_member, IH. intuition congruence.
Qed.

Lemma unique_by_distinct : forall l : list A,
  NoDup l -> List.length (Np.unique_by eqb ltb l) = List.length l.
Proof.
  intros l H. induction H as [| x l Hx Hnd IH]; [reflexivity |].
  simpl. rewrite insert_uniq_longer; [rewrite IH; reflexivity |].
  intros Hin. apply Hx. apply unique_by_member. exact Hin.
Qed.

End Distinct.

Lemma choose_antenna_names_kept : forall antenna_names station_names : list string,
  NoDup antenna_names -> ~ In "" antenna_names ->
  choose_antenna_names antenna_names station_names = antenna_names.
Proof.
  intros names stations Hnd Hne. unfold choose_antenna_names.
  rewrite (@unique_by_distinct string String.eqb String.ltb String.eqb_eq names Hnd),
    Nat.eqb_refl.
  cbn [negb orb].
  destruct (existsb (String.eqb "") names) eqn:E; [| reflexivity].
  apply existsb_exists in E. destruct E as (x & Hx & Hxe).
  apply String.eqb_eq in Hxe. subst x. contradiction.
Qed.

Lemma list_index_found : forall (name : string) (names : list string) (i : nat),
  MsCal.list_index name names = Ok i -> nth_error names i = Some name.
Proof.
  intros name names. induction names as [| n names IH]; intros i H; simpl in H;
    [discriminate |].
  destruct (String.eqb n name) eqn:E.
  - injection H as H. subst i. apply String.eqb_eq in E. subst n. reflexivity.
  - destruct (MsCal.list_index name names) as [j |]; cbn [rbind] in H;
      [| discriminate].
    injection H as H. subst i. simpl. apply IH. reflexivity.
Qed.

Lemma paired_entry : forall (A B : Type) (l : list A) (m : list B) (i : nat)
                            (x : A) (y : B),
  nth_error l i = Some x -> nth_error m i = Some y -> In (x, y) (combine l m).
Proof.
  intros A B l. induction l as [| a l IH]; intros m i x y Hx Hy.
  - destruct i; discriminate.
  - destruct m as [| b m]; [destruct i; discriminate |].
    destruct i as [| i]; simpl in *.
    + injection Hx as Hx. injection Hy as Hy. subst. left. reflexivity.
    + right. eapply IH; eassumption.
Qed.

Lemma where_from_only : forall (nums : list nat) (num s j : nat),
  NoDup nums -> nth_error nums j = Some num ->
  Np.where_from s (map (fun x => Nat.eqb x num) nums) = [(s + j)%nat].
Proof.
  induction nums as [| x nums IH]; intros num s j Hnd Hj.
  - destruct j; discriminate.
  - inversion Hnd as [| k l Hnotin Hnd']; subst.
    destruct j as [| j]; simpl in *.
    + injection Hj as Hj. subst x. rewrite Nat.eqb_refl, Nat.add_0_r. f_equal.
      clear IH Hnd Hnd'. revert s.
      induction nums as [| y nums IHn]; intros s; [reflexivity |].
      simpl. destruct (Nat.eqb y num) eqn:E.
      * apply Nat.eqb_eq in E. subst y. exfalso. apply Hnotin. left. reflexivity.
      * apply IHn. intros Hin. apply Hnotin. right. exact Hin.
    + destruct (Nat.eqb x num) eqn:E.
      * apply Nat.eqb_eq in E. subst x. exfalso. apply Hnotin.
        eapply nth_error_In. exact Hj.
      * rewrite (IH num (S s) j Hnd' Hj). f_equal. lia.
Qed.

Lemma constant_column_all : forall (A : Type) (num : nat) (l : list A),
  Np.all (map (Nat.eqb num) (map (fun _ => num) l)) = true.
Proof.
  intros A num l. unfold Np.all. induction l as [| x l IH]; simpl;
    [reflexivity |].
  rewrite Nat.eqb_refl. exact IH.
Qed.

(** [write_ms_cal] followed by the reference antenna of [read_ms_cal],
    for a table with at least one row: when the antenna table read has
    every (number, name) pair of the object, numbers without repetition
    and names that are distinct and not empty, the name read is the
    object's [ref_antenna_name] and nothing is warned. *)
Theorem ref_antenna_round_trip :
  forall (cal : MsCal.UVCal) (file_exists clobber : bool)
         (layout : MsCal.main_table_layout)
         (antenna_names station_names : list string) (antenna_numbers : list nat),
    MsCal.write_ms_cal cal file_exists clobber = Ok layout ->
    (0 < MsCal.Ntimes cal * MsCal.Nspws cal)%nat ->
    NoDup antenna_names -> ~ In "" antenna_names -> NoDup antenna_numbers ->
    (forall num name,
       In (num, name) (combine (MsCal.antenna_numbers cal) (MsCal.antenna_names cal)) ->
       In (num, name) (combine antenna_numbers antenna_names)) ->
    read_ref_antenna (choose_antenna_names antenna_names station_names)
                     antenna_numbers (MsCal.ANTENNA2 layout)
    = ([], Ok (MsCal.ref_antenna_name cal)).
Proof.
  intros cal ex clobber layout names stations nums Hw Hrows Hnames Hempty Hnums
         Hpairs.
  rewrite (choose_antenna_names_kept stations Hnames Hempty).
  unfold MsCal.write_ms_cal in Hw.
  destruct (ex && negb clobber); [discriminate |].
  destruct (negb (String.eqb (MsCal.cal_type cal) "gain")); [discriminate |].
  destruct (MsCal.Nants_casa cal) as [n |] eqn:Hn; cbn [rbind] in Hw;
    [| discriminate].
  destruct (MsCal.list_index _ _) as [ri |] eqn:Hri; cbn [rbind] in Hw;
    [| discriminate].
  destruct (MsCal.getitem _ ri) as [refant |] eqn:Hget; cbn [rbind] in Hw;
    [| discriminate].
  injection Hw as Hw. subst layout. cbn [MsCal.ANTENNA2].
  assert (Hnpos : (0 < n)%nat).
  { unfold MsCal.Nants_casa in Hn. destruct (Np.max _); cbn in Hn; [| discriminate].
    injection Hn as Hn. lia. }
  destruct (Np.tile (Np.arange n) (MsCal.Ntimes cal * MsCal.Nspws cal))
    as [| a rest] eqn:Hcol.
  { apply (f_equal (@List.length nat)) in Hcol.
    rewrite MsCalFacts.tile_length in Hcol. unfold Np.arange in Hcol.
    rewrite length_seq in Hcol. simpl in Hcol. nia. }
  pose proof (list_index_found _ _ Hri) as Hname.
  assert (Hnum : nth_error (MsCal.antenna_numbers cal) ri = Some refant).
  { unfold MsCal.getitem in Hget.
    destruct (nth_error (MsCal.antenna_numbers cal) ri); [| discriminate].
    injection Hget as Hget. subst. reflexivity. }
  pose proof (Hpairs _ _ (paired_entry _ _ _ Hnum Hname)) as Hin.
  destruct (CalRoundTripFacts.entry_row _ _ _ _ Hin) as (j & Hj & Hjname).
  unfold read_ref_antenna. cbn [map].
  change (Nat.eqb refant refant :: map (Nat.eqb refant) (map (fun _ => refant) rest))
    with (map (Nat.eqb refant) (map (fun _ : nat => refant) (a :: rest))).
  rewrite constant_column_all. unfold Np.where_.
  rewrite (@where_from_only nums refant 0%nat j Hnums Hj). cbn [Nat.add].
  rewrite Hjname. reflexivity.
Qed.

Lemma ref_antenna_round_trip_witness :
  exists layout,
    MsCal.write_ms_cal Samples.wide_band_cal false false = Ok layout /\
    read_ref_antenna (choose_antenna_names ["ant0"; "ant2"] ["pad0"; "pad2"])
                     [0; 2]%nat (MsCal.ANTENNA2 layout)
    = ([], Ok "ant2").
Proof.
  eexists. split; [reflexivity |].
  apply (@ref_antenna_round_trip Samples.wide_band_cal false false _
           ["ant0"; "ant2"] ["pad0"; "pad2"] [0; 2]%nat eq_refl).
  - cbn. lia.
  - constructor; [intros [H | []]; discriminate |].
    constructor; [intros [] | constructor].
  - intros [H | [H | []]]; discriminate.
  - constructor; [intros [H | []]; discriminate |].
    constructor; [intros [] | constructor].
  - intros num name H. exact H.
Defined.

End CalHeaderFacts.
